(* ===== verification/_CoqProject ===== *)
-Q . S2P
Prelude.v
Machine.v
Text.v
Net.v
Env.v
Transport.v
WireGuard.v
KillSwitch.v
Process.v
Nftables.v
Linux.v
LinuxNode.v
Health.v
Connection.v
PolicyTrace.v
Netfilter.v
ClientConfig.v
Lease.v
Client.v
Liveness.v
Tests.v
Routing.v
Backoff.v
Selector.v
RoutingTests.v
GoBase.v
Netip.v
DeviceConfig.v
Snapshot.v
Durable.v
ClientState.v
ConfigStore.v
Identity.v
EnrollmentFile.v
Registry.v
Telemetry.v
Token.v
ControlApi.v
Runtime.v
Concurrent.v
Locks.v
Survival.v
Mains.v
GoTests.v
