(* ===== verification/Prelude.v ===== *)
(** * CyberiaVPN: a verification library for the network core and its control service

    The repository is a VPN: a Rust network core ([core/routing],
    [core/transport], [core/killswitch]), a Linux client built on it
    ([apps/linux-client]) and a Go control service ([services/control-api]) that
    enrolls devices and delivers signed configurations.  This library models both,
    operation by operation, and proves what makes them correct.

    ** The program and the files that model it

    - Route choice ([core/routing/src]): [Routing] scores measured nodes and
      selects the best ([lib.rs]), [Backoff] spaces reconnects ([backoff.rs]),
      [Selector] adds dwell time, a switch margin and per-node circuits
      ([selector.rs]).
    - The transport contract ([core/transport/src/lib.rs]): [Transport], with
      configurations, errors and their texts, cancellation and deadlines; the
      Rust trait [Transport] is a class.
    - WireGuard ([core/transport/src/wireguard.rs]): [WireGuard], the validators
      of profiles, nodes, gateways and peers with their prefix arithmetic, and
      the adapter over an arbitrary [WireGuardBackend].
    - The Linux backends ([core/transport/src/linux.rs]): [Process] has the
      [CommandRunner] trait, its system implementation and the trust checks on
      executables and key files; [Linux] the tunnel interface with its routes
      and policy rules, and the resolver; [LinuxNode] the server side: node,
      gateway, and the managed node that composes them; [Health] what the health
      calls of both sides report.
    - The kill switch ([core/killswitch/src]): [KillSwitch] is the policy state
      machine and the controller that couples it with a transport and a firewall
      ([lib.rs]), [Nftables] the firewall that renders and submits rulesets
      ([linux.rs]), [Connection] the managed connection of tunnel, firewall and
      resolver ([linux_connection.rs]); [PolicyTrace] specifies in which order
      both may change the policy.
    - The client ([apps/linux-client/src]): [ClientConfig] loads and converts the
      configuration file, [Lease] locks the interface, [Client] has the offline
      check, the lifecycle of one connection and the executable up to its exit
      status; [Liveness] runs it where commands succeed and has the commands
      of such a run.
    - The kernel's side of the firewall: [Netfilter] reads the fragment of the
      nftables language the program writes and follows packets through it.
    - The repository's own tests ([tests] directories and [#[cfg(test)]] modules):
      [Tests] and [RoutingTests] run them on the model, with the recording
      doubles of the repository as runners, and [GoTests] those of the control
      service that use no files.
    - Configurations of the control service
      ([services/control-api/internal/configuration]): [DeviceConfig] validates,
      signs and opens them ([config.go], [signature.go], [accept.go]),
      [ClientState] keeps the highest accepted version on the device
      ([client.go]), [ConfigStore] the newest envelope of each device on the
      server ([store.go], [file.go]).
    - Identities ([internal/identity]): [Identity] has the challenges, the proof of
      possession and the store in memory ([device.go], [enrollment.go]),
      [EnrollmentFile] the durable store ([file.go]).
    - Files ([internal/snapshot]): [Snapshot] replaces and reads a snapshot and
      takes its lock; [Durable] is the relation of calls, crashes and restarts the
      three durable stores are verified against.
    - [Registry] keeps the nodes and their lifecycle ([internal/registry]),
      [Telemetry] admits metrics ([internal/telemetry]).
    - The HTTP interface ([internal/api]): [Token] authenticates accounts
      ([token.go]), [ControlApi] has every handler and the routes ([enrollment.go],
      [configuration.go], [server.go], [control.go]), over repositories that are
      records of operations with laws.
    - The executables ([cmd/server], [cmd/config-publisher]): [Runtime] loads the
      configuration, opens the stores, composes the handler and publishes; it
      discharges the laws of [ControlApi] with the durable stores.  [Concurrent]
      serves requests whose store calls interleave, [Locks] divides the store
      calls at the mutexes and disk operations of the code, [Survival] follows the
      requests through power losses, and [Mains] has both [main] functions up to their exit
      status, with what the publisher uses of the package [flag].

    Shared ground: this file (outcomes, stateful calls, reasoning rules),
    [Machine] (integers at their width, durations, instants), [Text] (bytes,
    UTF-8, numbers as text), [Net] (IP addresses, printing and parsing), [Env]
    (the operating system), and for the Go code [GoBase] (error values, times,
    runes, big-endian encodings, slugs) and [Netip] ([net/netip]).

    ** How code is modelled

    A fallible call returns [Result]: [Ok], [Err] or [Panic], since the workspace
    aborts on panic and checks overflow in every profile.  A method with a
    [&mut self] receiver is an [Act] on the receiver next to a [World]; its state
    comes back on every exit, so an early return keeps what was done before it.
    Unsigned integers are [Z] with their wrap-around test written out, strings
    are byte strings, [HashMap] and [HashSet] are finite maps and sets.

    A [World] answers every clock, cancellation, metadata and process query as an
    arbitrary function of everything asked before and keeps the history.  A
    statement for all worlds therefore covers every behaviour of the kernel, the
    tools and other threads.  Traits are classes; what clients rely on is a second
    class with laws ([RunnerSpec], [FirewallSpec], [NftablesSpec],
    [Independent]), and the production implementations are proved instances of
    it.  JSON decoding, file opening, locking, printing and signal registration
    are code outside the repository and appear as the operations of the class
    [Host].  [nft] and the kernel are the class [Netfilter], whose two laws state
    documented behaviour: an accepted file has run its commands in order, and a
    packet passes a hook only if every filter chain there accepts it; a kernel
    that is nothing but its tables is an instance.

    The Go code returns [Result] with a Go error; a method on a mutex-protected
    store is one function from the old contents to the new.  That this is what a
    method is, although it locks, unlocks and works in steps between which other
    requests run, is shown in [Locks], where the methods that the server calls are
    [Code] over the six mutexes, proved to do, run alone, what the function does.
    Random bytes and readings of the clock are arguments of the
    operations that draw them.  Requests run concurrently: the steps of a server
    ([step]) are arrivals, single store calls of a request in flight, and answers.
    A handler is cut into its store calls by running it on a recording repository,
    so that the handlers of [ControlApi] are the ones that are interleaved.  Two
    law classes state what this relies on, that lookups leave the stores alone
    ([Separate]) and that registrations stay ([Registers]); the durable stores of
    [Runtime] are instances.  Code outside the repository is a class, with
    what is relied on in a second class: [Ed25519] (sizes, and a signature that was
    made verifies; that nobody forges one is a hypothesis of the theorem that needs
    it), [Sha256] (32 bytes), [Storage] (POSIX
    [rename] and [fsync], with the contents a disk may have after a power loss;
    every operation may fail), [Json] (decoding undoes encoding on values JSON can
    express), [BodyJson] and [Mime] for requests, [GoQuote] for [%q], [MapRange] for the unspecified order of a
    Go map.  Each law class has a concrete instance.

    ** What is proved

    - The kill switch is fail-secure.  Against the firewall interface, along every
      sequence of controller calls, what is recorded is enforced, and filtering is
      off only without a possibly active transport and without always-on mode
      ([KillSwitch]).  The nftables backend discharges the interface and its text
      is exactly the intended commands ([Nftables]).  The same holds for the
      production connection ([Connection]) and for a whole run of the executable
      ([Client]).  On any kernel, the accepted text lets exactly the intended
      packets out, so a connection does not leak whatever its calls return
      ([Netfilter]).  The policies enforced over time, within calls too, are a
      walk of an abstract transition system: a tunnel opens only from blocking and
      is blocked again before filtering ends ([PolicyTrace]).
    - The client makes progress: where commands succeed, a checked configuration
      leads to exactly the commands that connect, the signal, exactly the commands
      that take everything down again, and exit status 0 ([Liveness]); the
      removal loop of the backend ends whatever the commands answer ([Linux]); a
      selector with an eligible candidate returns a route ([Selector]).
    - The backends own what they create.  A ledger of the successful commands is
      compared with the recorded state: setup is all or nothing, teardown is
      retryable, resolver state is never orphaned ([Linux]); peers, routes and the
      gateway table are accounted for, forwarding is restricted to the client
      networks ([LinuxNode], [Netfilter]), health calls report the handshake
      table ([Health]).  An interface has one holder of its lease at a time
      ([Lease]).
    - Validators accept exactly the well-formed inputs ([WireGuard], [Transport],
      [ClientConfig]); texts can be read back ([Nftables], [Linux], [Net],
      [ClientConfig]).
    - Arithmetic never overflows and computes its ideal value ([Routing],
      [Backoff]); selection is optimal, deterministic and stable, and the circuit
      breaker refines its specification, where a cooldown whose end no [Instant]
      represents leaves the circuit closed ([Routing], [Selector]).
    - The offline check starts no process, reports once and predicts the start
      ([Client]).
    - A signed message determines every field of the configuration, so what a
      device opens is what was sealed, for this device and newer than what it
      accepted before ([DeviceConfig]).
    - Durability: a snapshot is the old or the new one after a crash at any point
      of its replacement ([Snapshot]); with failures, crashes and restarts anywhere,
      accepted versions increase ([ClientState]), acknowledged publications are
      neither lost nor rolled back ([ConfigStore]), registered devices are
      neither lost nor replaced and a challenge enrolls one device
      ([EnrollmentFile]).
    - Access: a token authenticates exactly the account whose digest was
      provisioned and has not expired ([Token]); without it no handler changes or
      reveals anything, and another account's device looks like one that does
      not exist ([ControlApi]); the composed server delivers a configuration only
      under an unexpired token of the account the device is registered to, and
      only with a verified signature, however requests interleave ([Concurrent]).
    - Concurrency: the server is linearizable, a refinement of one that runs each
      handler in one step; no two requests enroll the same device
      ([Concurrent]).  The server with mutexes shows nothing else; its mutexes are
      taken in one order and released on every return, so no requests wait for each
      other for ever, each ends within 59 steps of its own, and then no mutex is
      held ([Locks]).  What was answered 201 survives a power loss at any moment of
      any interleaving ([Survival]).
    - Exit statuses: a publisher that exits with 0 has published the
      configuration of its input file, and that survives; a
      server that stopped when asked has closed its stores ([Mains]).
    - A node moves only along its lifecycle and quarantine is final ([Registry]); a
      metric is admitted exactly when it is well formed ([Telemetry]).
    - Where the code does not do what its documentation says, the behaviour is a
      theorem too: a failed connect cannot be released
      ([failed_connect_not_releasable], [failed_start_stays_blocked]), failed
      teardowns that cannot be retried ([disconnect_not_retryable],
      [managed_stop_not_retryable]), a gateway that keeps the rules of an earlier
      process ([gateway_keeps_stale_rules]), aborts ([connect_timeout_overflow],
      [decode_key_panics]), and inputs accepted against their description
      ([decode_key_accepts_sign], [dotted_interface_late]), a configuration
      store that grows past what it can reopen ([oversized_store_refused]), and a
      server that exits with status 0 when it could not start
      ([server_exit_status]).

    ** Bounds and fuel

    Recursion is structural except in six places.  UTF-8 decoding runs on fuel
    equal to the length of the text, of which every step consumes at least one
    byte ([utf8_chunks_fuel]), and so do Go's iteration over runes ([runes_fuel])
    and its splitting into fields ([rune_chunks_partition]); decimal printing on the binary length of the
    number ([dec_fuel]),
    hexadecimal printing of a 16-bit group on four; removing policy rules on one
    round more than there are rules ([remove_rules_terminates], against the
    unbounded loop of the source).  No result depends on running out.

    ** What is not modelled

    Shell scripts and deployment files; the tests that create, lock and chmod
    real files or open sockets; the derived serde decoders and Go's JSON and media
    type parsers; the contents of the Unicode table that [Debug] consults (a class,
    [UnicodeTables]); memory allocation.  Of the Go executables the [main] functions
    are modelled up to the exit status; the usage text of [flag], the bytes of the
    JSON log and of responses, the time limits of the HTTP server and the redirect
    of [ServeMux] for unclean paths are left out, and signals and sockets appear
    as how a run ends ([ServerHost]).  Inside the client process the only
    concurrency is the cancellation flag and the signal handler, both part of the
    world.  In the control service a repository call is atomic, because it holds
    its mutex, and no request runs beside the closing of the stores: they are closed
    only once [Shutdown] has drained the requests, and a forced stop exits without
    closing them. *)

From stdpp Require Export base tactics option list strings gmap gmultiset sets fin_maps.
From Stdlib Require Export ZArith Ascii Lia.

(** ** Outcomes of Rust calls

    [Result E A] is Rust's [Result<A, E>] with the third way a call can end:
    the workspace builds every profile with overflow checks and aborts on
    panic, so a panicking call has no value and nothing after it runs. *)

Inductive Result (E A : Type) : Type :=
| Ok (a : A)
| Err (e : E)
| Panic.
Arguments Ok {E A} a.
Arguments Err {E A} e.
Arguments Panic {E A}.

#[export] Instance result_ret E : MRet (Result E) := λ A a, Ok a.
#[export] Instance result_bind E : MBind (Result E) := λ A B f m,
  match m with
  | Ok a => f a
  | Err e => Err e
  | Panic => Panic
  end.

#[export] Instance result_eq_dec `{EqDecision E} `{EqDecision A} :
  EqDecision (Result E A).
Proof. solve_decision. Defined.

Definition map_err {E F A} (f : E → F) (m : Result E A) : Result F A :=
  match m with
  | Ok a => Ok a
  | Err e => Err (f e)
  | Panic => Panic
  end.

Definition ok_or {E A} (o : option A) (e : E) : Result E A :=
  match o with
  | Some a => Ok a
  | None => Err e
  end.

Definition is_ok {E A} (m : Result E A) : bool :=
  match m with Ok _ => true | _ => false end.

(** ** Stateful calls

    A method with a [&mut self] receiver is an [Act S E A]: it runs on the
    state [S] and hands back the state it leaves behind on every exit, so an
    early return with [?] keeps the mutations made before it. *)

Definition Act (S E A : Type) : Type := S → Result E A * S.

#[export] Instance act_ret S E : MRet (Act S E) := λ A a s, (Ok a, s).
#[export] Instance act_bind S E : MBind (Act S E) := λ A B f m s,
  match m s with
  | (Ok a, s') => f a s'
  | (Err e, s') => (Err e, s')
  | (Panic, s') => (Panic, s')
  end.

Section acts.
Context {S E A : Type}.

Definition lift (r : Result E A) : Act S E A := λ s, (r, s).

Definition raise (e : E) : Act S E A := λ s, (Err e, s).

Definition read (f : S → A) : Act S E A := λ s, (Ok (f s), s).

Definition update (f : S → S) : Act S E unit := λ s, (Ok tt, f s).

(** The value of a call whose result the caller inspects with [match] or
    [if let] instead of propagating it. *)
Definition attempt {F} (m : Act S E A) : Act S F (E + A) := λ s,
  match m s with
  | (Ok a, s') => (Ok (inr a), s')
  | (Err e, s') => (Ok (inl e), s')
  | (Panic, s') => (Panic, s')
  end.

Definition act_map_err {F} (f : E → F) (m : Act S E A) : Act S F A := λ s,
  let '(r, s') := m s in (map_err f r, s').
End acts.

(** The error type of a method whose Rust signature returns no [Result]. *)
Definition Infallible : Type := Empty_set.

Definition infallible {E} (e : Infallible) : E := match e with end.

(** [on_field get set m] calls [m] on one field of the receiver. *)
Definition zoom {S T E A} (get : S → T) (set : T → S → S) (m : Act T E A) : Act S E A :=
  λ s, let '(r, t) := m (get s) in (r, set t s).

(** [guard_err b e] is the early return [if b { return Err(e); }]. *)
Definition guard_err {S E} (b : bool) (e : E) : Act S E unit :=
  if b then raise e else mret tt.

Definition reject_if {E} (b : bool) (e : E) : Result E unit :=
  if b then Err e else Ok tt.

(** [for x in l { f(x)?; }]. *)
Fixpoint for_each {S E X} (l : list X) (f : X → Act S E unit) : Act S E unit :=
  match l with
  | [] => mret tt
  | x :: l => f x;; for_each l f
  end.

(** Runs the monadic plumbing of a goal and nothing else. *)
Ltac run :=
  cbv beta iota zeta delta
    [mbind mret result_bind result_ret act_bind act_ret lift raise read update attempt
     act_map_err map_err zoom guard_err reject_if ok_or].
Tactic Notation "run" "in" hyp(H) :=
  cbv beta iota zeta delta
    [mbind mret result_bind result_ret act_bind act_ret lift raise read update attempt
     act_map_err map_err zoom guard_err reject_if ok_or] in H.

(** ** Reasoning about stateful calls

    [wp m Q s] says that running [m] on [s] ends in a result and a state
    related by [Q].  What [Q] says of [Panic] decides whether a theorem excludes
    panics or only describes the runs that do not abort. *)

Definition wp {S E A} (m : Act S E A) (Q : Result E A → S → Prop) (s : S) : Prop :=
  Q (m s).1 (m s).2.

(** What is left to do after a call returned. *)
Definition after {S E A B} (f : A → Act S E B) (Q : Result E B → S → Prop)
    (r : Result E A) (s : S) : Prop :=
  match r with
  | Ok a => wp (f a) Q s
  | Err e => Q (Err e) s
  | Panic => Q Panic s
  end.

Section wp_rules.
Context {S E : Type}.
Implicit Types s : S.

Lemma wp_intro {A} (m : Act S E A) Q s :
  (∀ r s', m s = (r, s') → Q r s') → wp m Q s.
Proof. unfold wp. destruct (m s) as [r s']. eauto. Qed.

Lemma wp_elim {A} (m : Act S E A) Q s r s' : wp m Q s → m s = (r, s') → Q r s'.
Proof. unfold wp. by intros HQ Hm; rewrite Hm in HQ. Qed.

Lemma wp_mono {A} (m : Act S E A) (Q Q' : Result E A → S → Prop) s :
  wp m Q s → (∀ r s', Q r s' → Q' r s') → wp m Q' s.
Proof. unfold wp. eauto. Qed.

Lemma wp_and {A} (m : Act S E A) (Q Q' : Result E A → S → Prop) s :
  wp m Q s → wp m Q' s → wp m (λ r s', Q r s' ∧ Q' r s') s.
Proof. by split. Qed.

Lemma wp_bind {A B} (m : Act S E A) (f : A → Act S E B) Q s :
  wp m (after f Q) s → wp (m ≫= f) Q s.
Proof.
  unfold wp, mbind, act_bind. by destruct (m s) as [[a|e|] s'].
Qed.

Lemma wp_ret {A} (a : A) (Q : Result E A → S → Prop) s : Q (Ok a) s → wp (mret a) Q s.
Proof. done. Qed.

Lemma wp_raise {A} (e : E) (Q : Result E A → S → Prop) s : Q (Err e) s → wp (raise e) Q s.
Proof. done. Qed.

Lemma wp_lift {A} r (Q : Result E A → S → Prop) s : Q r s → wp (lift r) Q s.
Proof. done. Qed.

Lemma wp_read {A} (f : S → A) (Q : Result E A → S → Prop) s : Q (Ok (f s)) s → wp (read f) Q s.
Proof. done. Qed.

Lemma wp_update f (Q : Result E unit → S → Prop) s : Q (Ok tt) (f s) → wp (update f) Q s.
Proof. done. Qed.

Lemma wp_guard (b : bool) (e : E) (Q : Result E unit → S → Prop) s :
  (b = true → Q (Err e) s) → (b = false → Q (Ok tt) s) → wp (guard_err b e) Q s.
Proof. destruct b; unfold wp, guard_err; cbn; auto. Qed.

Lemma wp_attempt {F A} (m : Act S E A) (Q : Result F (E + A) → S → Prop) s :
  wp m (λ r s', match r with
                | Ok a => Q (Ok (inr a)) s'
                | Err e => Q (Ok (inl e)) s'
                | Panic => Q Panic s'
                end) s →
  wp (attempt m) Q s.
Proof. unfold wp, attempt. by destruct (m s) as [[a|e|] s']. Qed.

Lemma wp_map_err {F A} (f : E → F) (m : Act S E A) (Q : Result F A → S → Prop) s :
  wp m (λ r s', Q (map_err f r) s') s → wp (act_map_err f m) Q s.
Proof. unfold wp, act_map_err. by destruct (m s). Qed.


(** A loop keeps an invariant indexed by the elements already visited. *)
Lemma wp_for_each {X} (P : list X → S → Prop) (l : list X) (f : X → Act S E unit) Q s :
  P [] s →
  (∀ visited x s, P visited s →
    wp (f x) (λ r s', match r with Ok _ => P (visited ++ [x]) s' | _ => Q r s' end) s) →
  (∀ s, P l s → Q (Ok tt) s) →
  wp (for_each l f) Q s.
Proof.
  intros Hinit Hstep Hend.
  assert (∀ todo visited s, l = visited ++ todo → P visited s → wp (for_each todo f) Q s) as Hloop.
  { induction todo as [|x todo IH]; intros visited s' Hl HP; cbn [for_each].
    - apply wp_ret, Hend. by rewrite Hl, app_nil_r.
    - apply wp_bind. eapply wp_mono; [by apply (Hstep visited)|].
      intros [[]|e|] s'' HQ; [|exact HQ..]. apply (IH (visited ++ [x])); [|done].
      by rewrite <-app_assoc. }
  by apply (Hloop l []).
Qed.
End wp_rules.

(** ** Invariants of stateful calls

    [m keeps I]: a call that starts in [I] ends in [I], whatever it returns,
    unless the process aborts.  The hint database [invariant] holds the rules for
    the combinators; components add the rules of their operations. *)

Declare Scope act_scope.
Delimit Scope act_scope with act.

Definition preserves {S E A} (I : S → Prop) (m : Act S E A) : Prop :=
  ∀ s, I s → wp m (λ r s', r ≠ Panic → I s') s.

Notation "m 'keeps' I" := (preserves I m) (at level 70, no associativity) : act_scope.
Open Scope act_scope.

Create HintDb invariant.

Section invariants.
Context {S E : Type} (I : S → Prop).

Lemma keeps_ret {A} (a : A) : (mret a : Act S E A) keeps I.
Proof. by intros s Hs _. Qed.

Lemma keeps_raise {A} (e : E) : (raise e : Act S E A) keeps I.
Proof. by intros s Hs _. Qed.

Lemma keeps_lift {A} (r : Result E A) : (lift r : Act S E A) keeps I.
Proof. by intros s Hs _. Qed.

Lemma keeps_guard (b : bool) (e : E) : guard_err b e keeps I.
Proof. by destruct b; intros s Hs _. Qed.

Lemma keeps_bind {A B} (m : Act S E A) (f : A → Act S E B) :
  m keeps I → (∀ a, f a keeps I) → m ≫= f keeps I.
Proof.
  intros Hm Hf s Hs. apply wp_bind. eapply wp_mono; [by apply Hm|].
  intros [a|e|] s' Hs'; cbn; [|by intros _; apply Hs'|done]. by apply Hf, Hs'.
Qed.

Lemma keeps_attempt {F A} (m : Act S E A) : m keeps I → (attempt m : Act S F _) keeps I.
Proof.
  intros Hm s Hs. apply wp_attempt. eapply wp_mono; [by apply Hm|].
  intros [a|e|] s' Hs'; [by intros _; apply Hs'..|done].
Qed.

Lemma keeps_map_err {F A} (f : E → F) (m : Act S E A) : m keeps I → act_map_err f m keeps I.
Proof.
  intros Hm s Hs. apply wp_map_err. eapply wp_mono; [by apply Hm|].
  intros [a|e|] s' Hs'; [by intros _; apply Hs'..|done].
Qed.
End invariants.

#[export] Hint Resolve keeps_ret keeps_raise keeps_lift keeps_guard keeps_attempt keeps_map_err : invariant.

(** Follows binds and case distinctions down to the rules of the database. *)
Ltac keep_invariant :=
  repeat first
    [ solve [eauto with invariant]
    | apply keeps_bind; [|intros ?]
    | apply keeps_attempt | apply keeps_map_err
    | case_match ].

(** One step of a call whose head is a combinator. *)
Ltac wp_head :=
  lazymatch goal with
  | |- wp (_ ≫= _) _ _ => apply wp_bind
  | |- wp (mret _) _ _ => apply wp_ret
  | |- wp (raise _) _ _ => apply wp_raise
  | |- wp (lift _) _ _ => apply wp_lift
  | |- wp (read _) _ _ => apply wp_read
  | |- wp (update _) _ _ => apply wp_update
  | |- wp (attempt _) _ _ => apply wp_attempt
  | |- wp (act_map_err _ _) _ _ => apply wp_map_err
  | |- after _ _ _ _ => unfold after at 1
  end; cbn beta iota zeta.

(** Turns a goal about the outcome of a run, [m s0 = (r, s) → G r s], into a [wp]. *)
Ltac by_wp :=
  lazymatch goal with
  | |- ?m ?s0 = (?r, ?s) → _ =>
      let Hrun := fresh "Hrun" in
      intros Hrun; pattern r, s; refine (wp_elim m _ s0 r s _ Hrun); clear Hrun; try clear r s
  end.

(** ** Byte-wise order on strings, Rust's [Ord for str] *)

Lemma ascii_compare_lt_trans a b c :
  Ascii.compare a b = Lt → Ascii.compare b c = Lt → Ascii.compare a c = Lt.
Proof. unfold Ascii.compare. rewrite !N.compare_lt_iff. lia. Qed.

Lemma ascii_compare_refl a : Ascii.compare a a = Eq.
Proof. unfold Ascii.compare. apply N.compare_refl. Qed.

Lemma string_compare_refl s : String.compare s s = Eq.
Proof. induction s as [|a s IH]; cbn; [done|]. by rewrite ascii_compare_refl. Qed.

Lemma string_compare_lt_trans s1 s2 s3 :
  String.compare s1 s2 = Lt → String.compare s2 s3 = Lt → String.compare s1 s3 = Lt.
Proof.
  revert s2 s3. induction s1 as [|a s1 IH]; intros [|b s2] [|c s3]; cbn; try done.
  destruct (Ascii.compare a b) eqn:Hab; destruct (Ascii.compare b c) eqn:Hbc; try done.
  - apply Ascii.compare_eq_iff in Hab as ->. rewrite Hbc. apply IH.
  - apply Ascii.compare_eq_iff in Hab as ->. by rewrite Hbc.
  - apply Ascii.compare_eq_iff in Hbc as ->. by rewrite Hab.
  - by rewrite (ascii_compare_lt_trans a b c).
Qed.

Lemma string_leb_refl s : String.leb s s = true.
Proof. unfold String.leb. by rewrite string_compare_refl. Qed.

Lemma string_leb_trans s1 s2 s3 :
  String.leb s1 s2 = true → String.leb s2 s3 = true → String.leb s1 s3 = true.
Proof.
  unfold String.leb. destruct (String.compare s1 s2) eqn:H12; [| |done];
    destruct (String.compare s2 s3) eqn:H23; try done.
  - apply String.compare_eq_iff in H12 as ->. by rewrite H23.
  - apply String.compare_eq_iff in H12 as ->. by rewrite H23.
  - apply String.compare_eq_iff in H23 as ->. by rewrite H12.
  - by rewrite (string_compare_lt_trans s1 s2 s3).
Qed.

Lemma string_compare_gt_leb s1 s2 : String.compare s1 s2 = Gt → String.leb s2 s1 = true.
Proof. unfold String.leb. rewrite String.compare_antisym. by destruct (String.compare s2 s1). Qed.

(** ** Validation loops

    The configuration validators walk a list, reject an element that fails a
    test and insert a key of every accepted one into a [HashSet].  Such a loop
    accepts exactly the lists that pass the test and whose keys are distinct. *)

Section unique_loop.
Context {A K E : Type} `{Countable K}.
Context (good : A → Prop) (key : A → K) (loop : gset K → list A → Result E unit).
Context (loop_nil : ∀ seen, loop seen [] = Ok tt).
Context (loop_cons : ∀ seen a l,
  loop seen (a :: l) = Ok tt ↔
  good a ∧ (key a ∉ seen) ∧ loop ({[key a]} ∪ seen) l = Ok tt).

Lemma unique_loop_from seen l :
  loop seen l = Ok tt ↔
  Forall good l ∧ NoDup (key <$> l) ∧ ∀ a, a ∈ l → (key a ∉ seen).
Proof.
  revert seen. induction l as [|a l IH]; intros seen.
  { rewrite loop_nil. split; [|done]. intros _.
    split_and!; [constructor|constructor|]. intros a Ha. by apply not_elem_of_nil in Ha. }
  rewrite loop_cons, IH, fmap_cons, Forall_cons, NoDup_cons. split.
  - intros (Hg & Hs & Hf & Hn & Hd). split_and!; [done..| |done|].
    + intros (b & Hb & Hin)%list_elem_of_fmap. apply (Hd b Hin). rewrite <-Hb. set_solver.
    + intros b [->|Hb]%elem_of_cons; [done|]. specialize (Hd b Hb). set_solver.
  - intros ([Hg Hf] & [Hni Hn] & Hd). split_and!; [done|apply Hd; set_solver|done..|].
    intros b Hb. apply not_elem_of_union. split; [|apply Hd; set_solver].
    intros Heq%elem_of_singleton. apply Hni. rewrite <-Heq. by apply list_elem_of_fmap_2.
Qed.

Lemma unique_loop_spec l : loop ∅ l = Ok tt ↔ Forall good l ∧ NoDup (key <$> l).
Proof. rewrite unique_loop_from. split; [naive_solver|]. intros [? ?]. split_and!; set_solver. Qed.
End unique_loop.
