(* ===== verification/Machine.v ===== *)
(** Fixed-width integers, [Duration] and [Instant] as the Rust standard
    library defines them, over [Z].  Arithmetic operators panic when the exact
    result does not fit (the workspace enables [overflow-checks] in every
    profile); the [checked_]/[saturating_] methods have their documented
    results. *)

From S2P Require Import Prelude.
Open Scope Z_scope.

(** ** Unsigned integers *)

Definition umax (bits : Z) : Z := 2 ^ bits - 1.

Definition fits (bits z : Z) : Prop := 0 ≤ z < 2 ^ bits.

Abbreviation u8 := (fits 8).
Abbreviation u16 := (fits 16).
Abbreviation u32 := (fits 32).
Abbreviation u64 := (fits 64).
Abbreviation u128 := (fits 128).

Definition fitsb (bits z : Z) : bool := (0 <=? z) && (z <? 2 ^ bits).

(** The value of an arithmetic operator, or a panic on overflow. *)
Definition checked {E} (bits z : Z) : Result E Z :=
  if fitsb bits z then Ok z else Panic.

Definition u_add {E} (bits a b : Z) : Result E Z := checked bits (a + b).
Definition u_sub {E} (bits a b : Z) : Result E Z := checked bits (a - b).
Definition u_mul {E} (bits a b : Z) : Result E Z := checked bits (a * b).
Definition u_div {E} (a b : Z) : Result E Z := if b =? 0 then Panic else Ok (a / b).

(** [a << s]: overflow checks compare the shift amount with the width; bits
    shifted out are dropped. *)
Definition u_shl {E} (bits a s : Z) : Result E Z :=
  if (0 <=? s) && (s <? bits) then Ok (Z.land (Z.shiftl a s) (umax bits)) else Panic.

Definition checked_shl (bits a s : Z) : option Z :=
  if s <? bits then Some (Z.land (Z.shiftl a s) (umax bits)) else None.

Definition try_from (bits z : Z) : option Z := if fitsb bits z then Some z else None.

Definition saturating_add (bits a b : Z) : Z := Z.min (umax bits) (a + b).
Definition saturating_sub (a b : Z) : Z := Z.max 0 (a - b).

(** ** [std::time::Duration] and [std::time::Instant]

    A [Duration] is its length in nanoseconds, at most [u64::MAX] seconds and
    999,999,999 nanoseconds.  An [Instant] is a Linux [timespec] reading: a
    signed 64-bit count of seconds and a nanosecond part, here in nanoseconds. *)

Definition nanos_per_sec : Z := 1000000000.

Definition duration (d : Z) : Prop := 0 ≤ d < 2 ^ 64 * nanos_per_sec.

Definition from_secs (s : Z) : Z := s * nanos_per_sec.

Definition duration_checked_mul (d k : Z) : option Z :=
  if d * k <? 2 ^ 64 * nanos_per_sec then Some (d * k) else None.

Definition instant (t : Z) : Prop :=
  - 2 ^ 63 * nanos_per_sec ≤ t < 2 ^ 63 * nanos_per_sec.

Definition instant_checked_add (t d : Z) : option Z :=
  if t + d <? 2 ^ 63 * nanos_per_sec then Some (t + d) else None.

(** [Instant + Duration] panics when [checked_add] has no value. *)
Definition instant_add {E} (t d : Z) : Result E Z :=
  match instant_checked_add t d with Some t' => Ok t' | None => Panic end.

(** [now.saturating_duration_since(earlier)]. *)
Definition saturating_duration_since (now earlier : Z) : Z := Z.max 0 (now - earlier).

(** ** Facts *)

Lemma fitsb_spec bits z : fitsb bits z = true ↔ fits bits z.
Proof. unfold fitsb, fits. rewrite andb_true_iff, Z.leb_le, Z.ltb_lt. done. Qed.

Lemma checked_ok {E} bits z : fits bits z → @checked E bits z = Ok z.
Proof. intros H%fitsb_spec. unfold checked. by rewrite H. Qed.

Lemma try_from_fits bits z : fits bits z → try_from bits z = Some z.
Proof. intros H%fitsb_spec. unfold try_from. by rewrite H. Qed.

Lemma try_from_Some bits z z' : try_from bits z = Some z' → z' = z ∧ fits bits z.
Proof. unfold try_from. intros. case_match eqn:Hf; simplify_eq. by apply fitsb_spec in Hf. Qed.

Lemma u_div_ok {E} a b : b ≠ 0 → @u_div E a b = Ok (a / b).
Proof. intros H. unfold u_div. by rewrite (proj2 (Z.eqb_neq b 0) H). Qed.

(** Discharges the range side conditions of the lemmas above. *)
Ltac in_range := unfold fits in *; first [lia | nia].

(** ** Prefix masks *)

Lemma ones_umax bits : umax bits = Z.ones bits.
Proof. unfold umax. rewrite Z.ones_equiv. lia. Qed.

(** [x & (MAX << s)] clears the low [s] bits of [x]. *)
Lemma shl_mask {E} bits s :
  0 ≤ s < bits →
  ∃ m, @u_shl E bits (umax bits) s = Ok m ∧
    ∀ x, fits bits x → Z.land x m = Z.shiftl (Z.shiftr x s) s.
Proof.
  intros Hs. unfold u_shl. rewrite (proj2 (Z.leb_le _ _)), (proj2 (Z.ltb_lt _ _)) by lia. cbn [andb].
  eexists. split; [done|]. intros x Hx. rewrite ones_umax. apply Z.bits_inj'. intros i Hi.
  rewrite !Z.land_spec, Z.testbit_ones_nonneg by lia.
  destruct (decide (i < s)) as [Hlt|Hge].
  - rewrite !Z.shiftl_spec_low by done. by rewrite andb_false_r.
  - rewrite !Z.shiftl_spec, Z.shiftr_spec by lia. replace (i - s + s) with i by lia.
    rewrite Z.testbit_ones_nonneg by lia.
    destruct (decide (i < bits)) as [Hb|Hb].
    + rewrite !(proj2 (Z.ltb_lt _ _)) by lia. by rewrite !andb_true_r.
    + replace (Z.testbit x i) with false; [by rewrite andb_false_l|].
      symmetry. unfold fits in Hx. destruct (decide (x = 0)) as [->|Hnz]; [apply Z.bits_0|].
      apply Z.bits_above_log2; [lia|]. apply Z.log2_lt_pow2; [lia|].
      eapply Z.lt_le_trans; [apply Hx|]. apply Z.pow_le_mono_r; lia.
Qed.

Lemma shiftl_shiftr_eq x y s :
  0 ≤ s → Z.shiftl (Z.shiftr x s) s = Z.shiftl (Z.shiftr y s) s ↔ Z.shiftr x s = Z.shiftr y s.
Proof.
  intros Hs. split; [|by intros ->]. intros H%(f_equal (λ z, Z.shiftr z s)).
  rewrite !Z.shiftr_shiftl_l, !Z.sub_diag, !Z.shiftl_0_r in H by done. done.
Qed.

Lemma shiftl_shiftr_id x s : 0 ≤ s → Z.shiftl (Z.shiftr x s) s = x ↔ x mod 2 ^ s = 0.
Proof.
  intros Hs. rewrite Z.shiftl_mul_pow2, Z.shiftr_div_pow2 by done.
  pose proof (Z.pow_pos_nonneg 2 s ltac:(lia) Hs). pose proof (Z.div_mod x (2 ^ s) ltac:(lia)). lia.
Qed.

Lemma shiftr_coarser x y s s' :
  0 ≤ s ≤ s' → Z.shiftr x s = Z.shiftr y s → Z.shiftr x s' = Z.shiftr y s'.
Proof.
  intros Hs H%(f_equal (λ z, Z.shiftr z (s' - s))). rewrite !Z.shiftr_shiftr in H by lia.
  by replace (s + (s' - s)) with s' in H by lia.
Qed.
