(* ===== verification/Text.v ===== *)
(** Rust strings and byte slices as [string], one [ascii] per byte, with the
    standard-library operations the program uses: UTF-8 validation and lossy
    decoding, [trim], [lines], [split_ascii_whitespace], [split_once], [join],
    decimal printing and [from_str_radix] parsing. *)

From S2P Require Import Prelude Machine.
Open Scope string_scope.
Open Scope Z_scope.

Abbreviation chars := String.list_ascii_of_string.
Abbreviation of_chars := String.string_of_list_ascii.

(** ** Bytes *)

Definition code (c : ascii) : Z := Z.of_N (N_of_ascii c).
Definition byte (z : Z) : ascii := ascii_of_N (Z.to_N z).

Definition between (lo hi : Z) (c : ascii) : bool := (lo <=? code c) && (code c <=? hi).

Definition is_ascii_digit (c : ascii) : bool := between 48 57 c.
Definition is_ascii_alphanumeric (c : ascii) : bool :=
  is_ascii_digit c || between 65 90 c || between 97 122 c.

Definition newline : string := String (byte 10) "".
Definition quote : string := String (byte 34) "".

(** [s.bytes().all(p)] and [s.contains(c)]. *)
Definition all_bytes (p : ascii → bool) (s : string) : bool := forallb p (chars s).
Definition contains_char (c : ascii) (s : string) : bool := existsb (Ascii.eqb c) (chars s).

Definition len (s : string) : Z := Z.of_nat (String.length s).

(** ** UTF-8

    [utf8_head l] classifies the sequence that starts at [l]: the length of a
    well-formed scalar value, or the length of the maximal ill-formed prefix
    that lossy decoding replaces by U+FFFD. *)

Definition cont (lo hi : Z) (l : list ascii) (i : nat) : bool :=
  match l !! i with Some c => between lo hi c | None => false end.

Definition utf8_head (l : list ascii) : bool * nat :=
  match l with
  | [] => (true, 0%nat)
  | c :: _ =>
      if between 0 127 c then (true, 1%nat)
      else if between 194 223 c then
        if cont 128 191 l 1 then (true, 2%nat) else (false, 1%nat)
      else if between 224 239 c then
        let lo := if code c =? 224 then 160 else 128 in
        let hi := if code c =? 237 then 159 else 191 in
        if cont lo hi l 1 then
          if cont 128 191 l 2 then (true, 3%nat) else (false, 2%nat)
        else (false, 1%nat)
      else if between 240 244 c then
        let lo := if code c =? 240 then 144 else 128 in
        let hi := if code c =? 244 then 143 else 191 in
        if cont lo hi l 1 then
          if cont 128 191 l 2 then
            if cont 128 191 l 3 then (true, 4%nat) else (false, 3%nat)
          else (false, 2%nat)
        else (false, 1%nat)
      else (false, 1%nat)
  end.

(** The scalar values of a byte string, [None] for an ill-formed sequence. *)
Fixpoint utf8_chunks (fuel : nat) (l : list ascii) : list (option string) :=
  match fuel, l with
  | O, _ | _, [] => []
  | S fuel, _ =>
      let '(valid, n) := utf8_head l in
      (if valid then Some (of_chars (take n l)) else None) :: utf8_chunks fuel (drop n l)
  end.

Definition scalars (s : string) : list (option string) := utf8_chunks (String.length s) (chars s).

(** [str::from_utf8(s).is_ok()]. *)
Definition utf8_valid (s : string) : bool :=
  forallb (λ c, match c with Some _ => true | None => false end) (scalars s).

Definition replacement : string := String (byte 239) (String (byte 191) (String (byte 189) "")).

(** The characters of [String::from_utf8_lossy(s)]; on a valid string, of [s]. *)
Definition lossy_chars (s : string) : list string := map (default replacement) (scalars s).

Definition to_string_lossy (s : string) : string := String.concat "" (lossy_chars s).

(** The code points with the Unicode [White_Space] property. *)
Definition is_whitespace (c : string) : bool :=
  match map code (chars c) with
  | [a] => ((9 <=? a) && (a <=? 13)) || (a =? 32)
  | [194; b] => (b =? 133) || (b =? 160)
  | [225; 154; 128] => true
  | [226; 128; b] => ((128 <=? b) && (b <=? 138)) || (b =? 168) || (b =? 169) || (b =? 175)
  | [226; 129; 159] => true
  | [227; 128; 128] => true
  | _ => false
  end.

Fixpoint drop_while {A} (p : A → bool) (l : list A) : list A :=
  match l with
  | [] => []
  | x :: l' => if p x then drop_while p l' else l
  end.

(** [s.trim()] on the characters of a valid string. *)
Definition trim_chars (cs : list string) : list string :=
  rev (drop_while is_whitespace (rev (drop_while is_whitespace cs))).

Definition trim (s : string) : string := String.concat "" (trim_chars (lossy_chars s)).

(** [String::from_utf8_lossy(s).chars().take(256).collect::<String>().trim()]. *)
Definition bounded_reason (s : string) : string :=
  String.concat "" (trim_chars (take 256 (lossy_chars s))).

(** ** Lines and fields *)

Definition strip_cr (rev_line : list ascii) : list ascii :=
  match rev_line with
  | c :: l => if code c =? 13 then l else rev_line
  | [] => []
  end.

Fixpoint lines_from (acc : list ascii) (l : list ascii) : list string :=
  match l with
  | [] => match acc with [] => [] | _ => [of_chars (rev acc)] end
  | c :: l =>
      if code c =? 10 then of_chars (rev (strip_cr acc)) :: lines_from [] l
      else lines_from (c :: acc) l
  end.

(** [s.lines()]. *)
Definition lines (s : string) : list string := lines_from [] (chars s).

Definition is_ascii_whitespace (c : ascii) : bool :=
  (code c =? 9) || (code c =? 10) || (code c =? 12) || (code c =? 13) || (code c =? 32).

Fixpoint fields_from (acc : list ascii) (l : list ascii) : list string :=
  match l with
  | [] => match acc with [] => [] | _ => [of_chars (rev acc)] end
  | c :: l =>
      if is_ascii_whitespace c then
        match acc with
        | [] => fields_from [] l
        | _ => of_chars (rev acc) :: fields_from [] l
        end
      else fields_from (c :: acc) l
  end.

(** [s.split_ascii_whitespace()]. *)
Definition split_ascii_whitespace (s : string) : list string := fields_from [] (chars s).

(** [s.split_once(c)] for an ASCII separator. *)
Fixpoint split_once (sep : ascii) (s : string) : option (string * string) :=
  match s with
  | "" => None
  | String c s' =>
      if Ascii.eqb c sep then Some ("", s')
      else '(a, b) ← split_once sep s'; Some (String c a, b)
  end.

Definition join (sep : string) (l : list string) : string := String.concat sep l.

(** ** Numbers *)

Definition digit_char (d : Z) : ascii := byte (if d <? 10 then 48 + d else 87 + d).

(** [c.to_digit(radix)]. *)
Definition to_digit (radix : Z) (c : ascii) : option Z :=
  let d :=
    if between 48 57 c then code c - 48
    else if between 97 122 c then code c - 87
    else if between 65 90 c then code c - 55
    else radix in
  if d <? radix then Some d else None.

Fixpoint print_radix (fuel : nat) (radix n : Z) (acc : string) : string :=
  let acc' := String (digit_char (n mod radix)) acc in
  match fuel with
  | O => acc'
  | S fuel => if n <? radix then acc' else print_radix fuel radix (n / radix) acc'
  end.

(** [n.to_string()] of an unsigned integer: its binary length is fuel enough. *)
Definition to_dec (n : Z) : string := print_radix (Z.to_nat (Z.log2 n)) 10 n "".

Definition parse_step (bits radix : Z) (acc : option Z) (c : ascii) : option Z :=
  a ← acc; d ← to_digit radix c;
  if fitsb bits (a * radix + d) then Some (a * radix + d) else None.

Definition parse_digits (bits radix : Z) (l : list ascii) : option Z :=
  foldl (parse_step bits radix) (Some 0) l.

(** [uN::from_str_radix(s, radix).ok()]: one leading [+] is accepted, an empty
    digit sequence and a value beyond the width are not. *)
Definition from_str_radix (bits radix : Z) (s : string) : option Z :=
  match chars s with
  | [] => None
  | c :: rest =>
      if (Ascii.eqb c "+"%char || Ascii.eqb c "-"%char) && (match rest with [] => true | _ => false end)
      then None
      else parse_digits bits radix (if Ascii.eqb c "+"%char then rest else c :: rest)
  end.

Definition parse_dec (bits : Z) (s : string) : option Z := from_str_radix bits 10 s.

(** ** Facts about characters *)

Lemma code_byte z : 0 ≤ z < 256 → code (byte z) = z.
Proof. intros. unfold code, byte. rewrite N_ascii_embedding by lia. lia. Qed.

Lemma chars_app s1 s2 : chars (s1 +:+ s2) = (chars s1 ++ chars s2)%list.
Proof. induction s1 as [|c s1 IH]; cbn; [done|]. by rewrite <-IH. Qed.

Lemma all_bytes_app p s1 s2 : all_bytes p (s1 +:+ s2) = all_bytes p s1 && all_bytes p s2.
Proof. unfold all_bytes. by rewrite chars_app, forallb_app. Qed.

Lemma contains_char_app c s1 s2 :
  contains_char c (s1 +:+ s2) = contains_char c s1 || contains_char c s2.
Proof. unfold contains_char. by rewrite chars_app, existsb_app. Qed.

Lemma all_bytes_excludes p c s :
  all_bytes p s = true → p c = false → contains_char c s = false.
Proof.
  intros Hall Hc. unfold contains_char. apply not_true_iff_false. intros Hex.
  apply existsb_exists in Hex as (c' & Hin & ->%Ascii.eqb_eq).
  unfold all_bytes in Hall. rewrite forallb_forall in Hall. rewrite (Hall c' Hin) in Hc. done.
Qed.

Lemma chars_inj s1 s2 : chars s1 = chars s2 → s1 = s2.
Proof.
  intros H. rewrite <-(String.string_of_list_ascii_of_string s1), H.
  apply String.string_of_list_ascii_of_string.
Qed.

Lemma length_chars s : length (chars s) = String.length s.
Proof. induction s; cbn; congruence. Qed.

(** ** Printing and parsing numbers *)

Lemma to_digit_digit_char radix d :
  0 ≤ d < radix → radix ≤ 16 → to_digit radix (digit_char d) = Some d.
Proof.
  intros Hd Hr. unfold to_digit, digit_char.
  destruct (d <? 10) eqn:H10; unfold between; rewrite !code_byte by lia.
  - rewrite (proj2 (Z.leb_le 48 (48 + d))), (proj2 (Z.leb_le (48 + d) 57)) by lia. cbn [andb].
    replace (48 + d - 48) with d by lia. by rewrite (proj2 (Z.ltb_lt _ _)) by lia.
  - rewrite (proj2 (Z.leb_gt (87 + d) 57)), andb_false_r by lia.
    rewrite (proj2 (Z.leb_le 97 (87 + d))), (proj2 (Z.leb_le (87 + d) 122)) by lia. cbn [andb].
    replace (87 + d - 87) with d by lia. by rewrite (proj2 (Z.ltb_lt _ _)) by lia.
Qed.

(** The characters [print_radix] produces. *)
Definition is_hex_lower (c : ascii) : bool := is_ascii_digit c || between 97 102 c.

Lemma digit_char_hex d : 0 ≤ d < 16 → is_hex_lower (digit_char d) = true.
Proof.
  intros Hd. unfold is_hex_lower, is_ascii_digit, digit_char.
  destruct (d <? 10) eqn:H10; unfold between; rewrite !code_byte by lia; lia.
Qed.

Lemma digit_char_dec d : 0 ≤ d < 10 → is_ascii_digit (digit_char d) = true.
Proof.
  intros Hd. unfold is_ascii_digit, digit_char. rewrite (proj2 (Z.ltb_lt _ _)) by lia.
  unfold between. rewrite code_byte by lia. lia.
Qed.

Section print_parse.
Context (bits radix : Z) (Hradix : 2 ≤ radix ≤ 16).

Lemma parse_one_digit n :
  0 ≤ n < radix → fits bits n →
  forallb is_hex_lower [digit_char n] = true ∧
  (radix ≤ 10 → forallb is_ascii_digit [digit_char n] = true) ∧
  parse_digits bits radix [digit_char n] = Some n.
Proof.
  intros Hn Hfit. cbn [forallb parse_digits foldl]. unfold parse_digits, foldl, parse_step.
  rewrite digit_char_hex, to_digit_digit_char by lia. cbn [mbind option_bind].
  replace (0 * radix + n) with n by lia. rewrite (proj2 (fitsb_spec bits n)) by done.
  split_and!; [done| |done]. intros. by rewrite digit_char_dec by lia.
Qed.

Lemma print_radix_parse fuel n acc :
  0 ≤ n < radix ^ (Z.of_nat fuel + 1) → fits bits n →
  ∃ ds, chars (print_radix fuel radix n acc) = (ds ++ chars acc)%list ∧ ds ≠ [] ∧
    forallb is_hex_lower ds = true ∧
    (radix ≤ 10 → forallb is_ascii_digit ds = true) ∧
    parse_digits bits radix ds = Some n.
Proof.
  revert n acc. induction fuel as [|fuel IH]; intros n acc Hn Hfit.
  - replace (Z.of_nat 0 + 1) with 1 in Hn by lia. rewrite Z.pow_1_r in Hn.
    exists [digit_char n]. cbn [print_radix]. rewrite Z.mod_small by lia.
    destruct (parse_one_digit n) as (? & ? & ?); [lia|done|]. by split_and!.
  - cbn [print_radix]. pose proof (Z.mod_pos_bound n radix ltac:(lia)) as Hmod.
    destruct (n <? radix) eqn:Hlt.
    + apply Z.ltb_lt in Hlt. exists [digit_char n]. rewrite Z.mod_small by lia.
      destruct (parse_one_digit n) as (? & ? & ?); [lia|done|]. by split_and!.
    + apply Z.ltb_ge in Hlt.
      destruct (IH (n / radix) (String (digit_char (n mod radix)) acc))
        as (ds & Hds & Hne & Hhex & Hdec & Hp).
      * split; [apply Z.div_pos; lia|]. apply Z.div_lt_upper_bound; [lia|].
        rewrite <-Z.pow_succ_r by lia.
        replace (Z.succ (Z.of_nat fuel + 1)) with (Z.of_nat (S fuel) + 1) by lia. lia.
      * unfold fits in *. split; [apply Z.div_pos; lia|]. apply Z.div_lt_upper_bound; nia.
      * exists (ds ++ [digit_char (n mod radix)])%list. rewrite Hds. cbn [chars].
        rewrite <-app_assoc. rewrite !forallb_app, Hhex. cbn [forallb].
        rewrite (digit_char_hex (n mod radix)) by lia. unfold parse_digits in *.
        rewrite foldl_app, Hp. cbn [foldl]. unfold parse_step.
        rewrite to_digit_digit_char by lia. cbn [mbind option_bind].
        assert (n / radix * radix + n mod radix = n) as Hrec.
        { pose proof (Z.div_mod n radix ltac:(lia)). lia. }
        rewrite Hrec, (proj2 (fitsb_spec bits n)) by done.
        split_and!; try done; [by destruct ds|].
        intros H10. rewrite Hdec by done. cbn [andb]. by rewrite digit_char_dec by lia.
Qed.
End print_parse.

Lemma dec_fuel n : 0 ≤ n → n < 10 ^ (Z.of_nat (Z.to_nat (Z.log2 n)) + 1).
Proof.
  intros Hn. rewrite Z2Nat.id by apply Z.log2_nonneg.
  destruct (decide (n = 0)) as [->|]; [by vm_compute|].
  pose proof (Z.log2_spec n ltac:(lia)) as [_ Hlt]. pose proof (Z.log2_nonneg n).
  eapply Z.lt_le_trans; [exact Hlt|]. rewrite <-Z.add_1_r. apply Z.pow_le_mono_l. lia.
Qed.

Lemma to_dec_digits bits n :
  fits bits n → ∃ ds, chars (to_dec n) = ds ∧ ds ≠ [] ∧ forallb is_ascii_digit ds = true ∧
    parse_digits bits 10 ds = Some n.
Proof.
  intros Hfit. unfold to_dec.
  destruct (print_radix_parse bits 10 ltac:(lia) (Z.to_nat (Z.log2 n)) n "") as
    (ds & Hds & Hne & _ & Hdec & Hp); [|done|].
  { split; [apply Hfit|]. by apply dec_fuel, Hfit. }
  exists ds. rewrite Hds. cbn. rewrite app_nil_r. split_and!; auto. apply Hdec. lia.
Qed.

Lemma digits_not_sign c l :
  forallb is_ascii_digit (c :: l) = true →
  Ascii.eqb c "+"%char = false ∧ Ascii.eqb c "-"%char = false.
Proof.
  cbn. intros [Hc _]%andb_true_iff. split; apply Ascii.eqb_neq; intros ->; by vm_compute in Hc.
Qed.

(** Parsing a printed number gives the number back, at every width. *)
Lemma parse_to_dec bits n : fits bits n → parse_dec bits (to_dec n) = Some n.
Proof.
  intros Hfit. destruct (to_dec_digits bits n Hfit) as (ds & Hds & Hne & Hdec & Hp).
  unfold parse_dec, from_str_radix. rewrite Hds. destruct ds as [|c l]; [done|].
  destruct (digits_not_sign c l Hdec) as [-> ->]. done.
Qed.

Lemma to_dec_all_digits n : 0 ≤ n → all_bytes is_ascii_digit (to_dec n) = true.
Proof.
  intros Hn. destruct (to_dec_digits (Z.log2 n + 1) n) as (ds & Hds & _ & Hdec & _).
  - split; [done|]. destruct (decide (n = 0)) as [->|]; [by vm_compute|].
    rewrite Z.add_1_r. by apply Z.log2_spec; lia.
  - unfold all_bytes. by rewrite Hds.
Qed.

(** ** Lines and words of generated text *)

(** A sequence of lines, each ended by a newline. *)
Definition unlines (l : list string) : string := String.concat "" (map (λ x, x +:+ newline) l).

Definition no_break (c : ascii) : bool := negb (code c =? 10) && negb (code c =? 13).

Lemma string_app_assoc (s1 s2 s3 : string) : (s1 +:+ s2) +:+ s3 = s1 +:+ (s2 +:+ s3).
Proof. induction s1 as [|c s1 IH]; [done|]. exact (f_equal (String c) IH). Qed.

Lemma string_app_nil (s : string) : s +:+ "" = s.
Proof. induction s as [|c s IH]; [done|]. exact (f_equal (String c) IH). Qed.

Lemma unlines_cons x l : unlines (x :: l) = x +:+ newline +:+ unlines l.
Proof.
  unfold unlines. cbn [map String.concat]. destruct (map _ l) as [|y l'] eqn:Hl.
  - cbn [String.concat]. by rewrite string_app_nil.
  - change ("" +:+ String.concat "" (y :: l')) with (String.concat "" (y :: l')).
    by rewrite string_app_assoc.
Qed.

Lemma lines_from_app acc l rest :
  forallb no_break l = true → forallb no_break acc = true →
  lines_from acc (l ++ byte 10 :: rest)%list = of_chars (rev acc ++ l)%list :: lines_from [] rest.
Proof.
  revert acc. induction l as [|c l IH]; intros acc Hl Hacc; cbn [app lines_from].
  - change (code (byte 10)) with 10. cbn [Z.eqb Pos.eqb]. rewrite app_nil_r. do 3 f_equal.
    destruct acc as [|c acc]; [done|]. cbn in Hacc. apply andb_true_iff in Hacc as [Hc _].
    apply andb_true_iff in Hc as [_ Hc%negb_true_iff]. cbn. by rewrite Hc.
  - cbn [forallb] in Hl. apply andb_true_iff in Hl as [Hc Hl].
    pose proof Hc as [Hnl%negb_true_iff _]%andb_true_iff. rewrite Hnl, IH; [|done|].
    + cbn [rev]. by rewrite <-app_assoc.
    + cbn [forallb]. by rewrite Hc.
Qed.

(** Generated lines are read back as they are when none contains a break. *)
Lemma lines_unlines l : Forall (λ x, all_bytes no_break x = true) l → lines (unlines l) = l.
Proof.
  unfold lines. induction 1 as [|x l Hx Hl IH]; [done|].
  rewrite unlines_cons, !chars_app. change (chars newline) with [byte 10]. cbn [app].
  rewrite lines_from_app by done. cbn [rev app].
  by rewrite String.string_of_list_ascii_of_string, IH.
Qed.

Definition is_word_char (c : ascii) : bool := negb (is_ascii_whitespace c).

Definition is_word (w : string) : Prop := w ≠ "" ∧ all_bytes is_word_char w = true.

Lemma fields_from_word sep acc l rest :
  is_ascii_whitespace sep = true → forallb is_word_char l = true →
  (l ≠ [] ∨ acc ≠ []) →
  fields_from acc (l ++ sep :: rest)%list = of_chars (rev acc ++ l)%list :: fields_from [] rest ∧
  fields_from acc l = [of_chars (rev acc ++ l)%list].
Proof.
  intros Hsep. revert acc. induction l as [|c l IH]; intros acc Hl Hne; cbn [app fields_from].
  - rewrite Hsep, app_nil_r.
    destruct acc as [|a acc]; [naive_solver|done].
  - cbn [forallb] in Hl. apply andb_true_iff in Hl as [Hc%negb_true_iff Hl]. rewrite Hc.
    destruct (IH (c :: acc) Hl ltac:(by right)) as [-> ->]. cbn [rev]. by rewrite <-!app_assoc.
Qed.

(** Words joined by spaces are split back into themselves. *)
Lemma fields_join ws : Forall is_word ws → split_ascii_whitespace (join " " ws) = ws.
Proof.
  unfold split_ascii_whitespace, join. induction 1 as [|w ws [Hne Hw] Hws IH]; [done|].
  assert (chars w ≠ []) as Hcw by (by destruct w). unfold all_bytes in Hw.
  destruct (fields_from_word " " [] (chars w) [] eq_refl Hw (or_introl Hcw)) as [_ Hend].
  destruct ws as [|w' ws].
  - cbn [String.concat]. rewrite Hend. cbn [rev app]. by rewrite String.string_of_list_ascii_of_string.
  - change (String.concat " " (w :: w' :: ws)) with (w +:+ " " +:+ String.concat " " (w' :: ws)).
    rewrite !chars_app. change (chars " ") with [" "%char]. cbn [app].
    destruct (fields_from_word " " [] (chars w) (chars (String.concat " " (w' :: ws))) eq_refl Hw (or_introl Hcw))
      as [-> _]. cbn [rev app]. by rewrite String.string_of_list_ascii_of_string, IH.
Qed.

Lemma all_bytes_impl (p q : ascii → bool) s :
  (∀ c, p c = true → q c = true) → all_bytes p s = true → all_bytes q s = true.
Proof. unfold all_bytes. rewrite !forallb_forall. auto. Qed.

(** Implications between byte classes, by inspection of the 256 bytes. *)
Definition all_ascii : list ascii := map ascii_of_nat (seq 0 256).

Lemma by_inspection (f : ascii → bool) : forallb f all_ascii = true → ∀ c, f c = true.
Proof.
  intros Hf c. rewrite forallb_forall in Hf. apply Hf. unfold all_ascii. apply in_map_iff.
  exists (nat_of_ascii c). split; [apply ascii_nat_embedding|]. apply in_seq.
  pose proof (nat_ascii_bounded c). lia.
Qed.

Lemma all_bytes_class (p q : ascii → bool) s :
  forallb (λ c, implb (p c) (q c)) all_ascii = true → all_bytes p s = true → all_bytes q s = true.
Proof.
  intros Hpq. apply all_bytes_impl. intros c. pose proof (by_inspection _ Hpq c) as Hc. cbn in Hc.
  by destruct (p c).
Qed.

Lemma all_bytes_join p sep l :
  all_bytes p sep = true → Forall (λ x, all_bytes p x = true) l → all_bytes p (join sep l) = true.
Proof.
  intros Hsep. unfold join. induction 1 as [|x l Hx Hl IH]; [done|].
  destruct l as [|y l]; [done|].
  change (String.concat sep (x :: y :: l)) with (x +:+ sep +:+ String.concat sep (y :: l)).
  by rewrite !all_bytes_app, Hx, Hsep, IH.
Qed.

Lemma join_words_no_break ws : Forall is_word ws → all_bytes no_break (join " " ws) = true.
Proof.
  intros Hw. apply all_bytes_join; [done|]. eapply Forall_impl; [done|].
  intros w [_ Hb]. revert Hb. apply all_bytes_class. by vm_compute.
Qed.

(** A text read back line by line and word by word. *)
Definition words_of (text : string) : list (list string) := map split_ascii_whitespace (lines text).

Lemma words_unlines l : Forall (Forall is_word) l → words_of (unlines (map (join " ") l)) = l.
Proof.
  intros Hw. unfold words_of. rewrite lines_unlines.
  - induction Hw as [|ws l Hws Hl IH]; cbn [map]; [done|]. by rewrite IH, fields_join.
  - induction Hw; cbn [map]; constructor; auto using join_words_no_break.
Qed.

Lemma unlines_app l l' : unlines (l ++ l')%list = unlines l +:+ unlines l'.
Proof.
  induction l as [|x l IH]; [done|]. change ((x :: l) ++ l')%list with (x :: (l ++ l'))%list.
  rewrite !unlines_cons, IH, !string_app_assoc. done.
Qed.

(** Repeated [push_str]. *)
Lemma foldl_push_str {A} (f : A → string) l acc :
  foldl (λ s x, s +:+ f x) acc l = acc +:+ String.concat "" (map f l).
Proof.
  revert acc. induction l as [|x l IH]; intros acc; cbn [foldl map]; [by rewrite string_app_nil|].
  rewrite IH, string_app_assoc. f_equal. destruct (map f l); cbn [String.concat]; [|done].
  apply string_app_nil.
Qed.

Lemma split_once_app sep s1 s2 :
  contains_char sep s1 = false → split_once sep (s1 +:+ String sep s2) = Some (s1, s2).
Proof.
  unfold contains_char. induction s1 as [|c s1 IH].
  - intros _. change ("" +:+ String sep s2) with (String sep s2). cbn [split_once].
    by rewrite Ascii.eqb_refl.
  - change (String c s1 +:+ String sep s2) with (String c (s1 +:+ String sep s2)).
    cbn [split_once chars existsb]. rewrite orb_false_iff, Ascii.eqb_sym. intros [-> Hs].
    by rewrite (IH Hs).
Qed.

(** Two fields around any white space. *)
Lemma fields_pair sep a b :
  is_ascii_whitespace sep = true → is_word a → is_word b →
  split_ascii_whitespace (a +:+ String sep b) = [a; b].
Proof.
  intros Hsep [Ha Hwa] [Hb Hwb]. unfold split_ascii_whitespace. rewrite chars_app. cbn [chars].
  destruct (fields_from_word sep [] (chars a) (chars b) Hsep Hwa ltac:(left; by destruct a)) as [-> _].
  destruct (fields_from_word sep [] (chars b) [] Hsep Hwb ltac:(left; by destruct b)) as [_ ->].
  cbn [rev app]. by rewrite !String.string_of_list_ascii_of_string.
Qed.

(** ASCII text is UTF-8. *)
Lemma utf8_ascii s : all_bytes (between 0 127) s = true → utf8_valid s = true.
Proof.
  unfold utf8_valid, scalars. induction s as [|c s IH]; [done|]. unfold all_bytes. cbn [chars forallb String.length utf8_chunks].
  intros [Hc Hs]%andb_true_iff. unfold utf8_head. rewrite Hc. cbn [forallb drop]. by apply IH.
Qed.

(** Every step of decoding consumes a byte, so the length of the text is fuel
    enough: more changes nothing. *)
Lemma utf8_head_consumes c l : (1 ≤ (utf8_head (c :: l)).2)%nat.
Proof. unfold utf8_head. repeat case_match; cbn; lia. Qed.

Lemma utf8_chunks_fuel fuel l : (length l ≤ fuel)%nat → utf8_chunks fuel l = utf8_chunks (length l) l.
Proof.
  revert l. induction fuel as [fuel IH] using lt_wf_ind. intros [|c l] Hl; [by destruct fuel|].
  destruct fuel as [|fuel]; cbn [length] in *; [lia|]. cbn [utf8_chunks].
  pose proof (utf8_head_consumes c l) as Hn. destruct (utf8_head (c :: l)) as [valid n]. cbn [snd] in Hn. f_equal.
  destruct n as [|n]; [lia|]. cbn [drop]. pose proof (length_drop l n) as Hd.
  by rewrite (IH fuel), (IH (length l)) by lia.
Qed.
