(* ===== verification/Net.v ===== *)
(** [std::net::IpAddr]: classification, [Display] and [FromStr] as the standard
    library implements them, with the round trip between the last two.  The
    program prints addresses into command arguments and firewall rules, and
    parses them back from the endpoint host and from CIDR strings. *)

From S2P Require Import Prelude Machine Text.
Open Scope string_scope.
Open Scope Z_scope.

(** An address is its 32- or 128-bit value in host order. *)
Inductive IpAddr :=
| V4 (bits : Z)
| V6 (bits : Z).

#[export] Instance ip_eq_dec : EqDecision IpAddr.
Proof. solve_decision. Defined.

#[export] Program Instance ip_countable : Countable IpAddr :=
  inj_countable (λ a, match a with V4 b => inl b | V6 b => inr b end)
    (λ s, Some (match s with inl b => V4 b | inr b => V6 b end)) _.
Next Obligation. by intros []. Qed.

Definition ip_typed (a : IpAddr) : Prop :=
  match a with V4 b => u32 b | V6 b => u128 b end.

Definition is_ipv4 (a : IpAddr) : bool := match a with V4 _ => true | V6 _ => false end.
Definition is_ipv6 (a : IpAddr) : bool := match a with V4 _ => false | V6 _ => true end.

Definition is_unspecified (a : IpAddr) : bool :=
  match a with V4 b | V6 b => b =? 0 end.

(** First octet 224 to 239, or first octet 255. *)
Definition is_multicast (a : IpAddr) : bool :=
  match a with
  | V4 b => let o := Z.shiftr b 24 in (224 <=? o) && (o <=? 239)
  | V6 b => Z.shiftr b 120 =? 255
  end.

(** [Ipv6Addr::to_ipv4_mapped]: the prefix [::ffff:0:0/96]. *)
Definition to_ipv4_mapped (b : Z) : option Z :=
  if Z.shiftr b 32 =? 65535 then Some (Z.land b (umax 32)) else None.

(** ** Display *)

Definition octets (b : Z) : list Z :=
  [Z.land (Z.shiftr b 24) 255; Z.land (Z.shiftr b 16) 255; Z.land (Z.shiftr b 8) 255; Z.land b 255].

Definition segments (b : Z) : list Z :=
  map (λ i, Z.land (Z.shiftr b (16 * i)) 65535) [7; 6; 5; 4; 3; 2; 1; 0].

Definition to_hex (n : Z) : string := print_radix 4 16 n "".

Definition display_v4 (b : Z) : string := join "." (map to_dec (octets b)).

(** The first longest run of zero segments, as (start, length). *)
Fixpoint longest_zeroes (i : nat) (current longest : nat * nat) (segs : list Z) : nat * nat :=
  match segs with
  | [] => longest
  | s :: segs =>
      if s =? 0 then
        let current :=
          match current.2 with O => (i, 1%nat) | n => (current.1, S n) end in
        longest_zeroes (S i) current
          (if (longest.2 <? current.2)%nat then current else longest) segs
      else longest_zeroes (S i) (0%nat, 0%nat) longest segs
  end.

Definition fmt_subslice (segs : list Z) : string := join ":" (map to_hex segs).

Definition display_v6 (b : Z) : string :=
  match to_ipv4_mapped b with
  | Some v4 => "::ffff:" +:+ display_v4 v4
  | None =>
      let segs := segments b in
      let '(start, length) := longest_zeroes 0 (0, 0)%nat (0, 0)%nat segs in
      if (1 <? length)%nat then
        fmt_subslice (take start segs) +:+ "::" +:+ fmt_subslice (drop (start + length) segs)
      else fmt_subslice segs
  end.

Definition display_ip (a : IpAddr) : string :=
  match a with V4 b => display_v4 b | V6 b => display_v6 b end.

(** ** FromStr

    A reader consumes a prefix of the remaining bytes or fails without
    consuming anything ([read_atomically]). *)

Definition Reader (A : Type) : Type := list ascii → option (A * list ascii).

Definition read_given_char (c : ascii) : Reader unit := λ l,
  match l with
  | c' :: l' => if Ascii.eqb c' c then Some (tt, l') else None
  | [] => None
  end.

Definition read_separator {A} (sep : ascii) (index : nat) (inner : Reader A) : Reader A := λ l,
  match index with
  | O => inner l
  | S _ => '(_, l') ← read_given_char sep l; inner l'
  end.

Fixpoint read_digits (radix : Z) (max : nat) (result : Z) (count : nat) (l : list ascii) :
    option (Z * nat * list ascii) :=
  match l with
  | [] => Some (result, count, l)
  | c :: l' =>
      match to_digit radix c with
      | None => Some (result, count, l)
      | Some d =>
          if (max <? S count)%nat then None
          else read_digits radix max (result * radix + d) (S count) l'
      end
  end.

Definition read_number (bits radix : Z) (max : nat) (allow_zero_prefix : bool) : Reader Z := λ l,
  let has_leading_zero := match l with c :: _ => Ascii.eqb c "0"%char | [] => false end in
  '(result, count, l') ← read_digits radix max 0 0 l;
  value ← try_from bits result;
  if (count =? 0)%nat then None
  else if negb allow_zero_prefix && has_leading_zero && (1 <? count)%nat then None
  else Some (value, l').

Definition read_octet : Reader Z := read_number 8 10 3 false.

Definition read_ipv4_addr : Reader Z := λ l,
  '(a, l) ← read_separator "."%char 0 read_octet l;
  '(b, l) ← read_separator "."%char 1 read_octet l;
  '(c, l) ← read_separator "."%char 2 read_octet l;
  '(d, l) ← read_separator "."%char 3 read_octet l;
  Some (Z.lor (Z.lor (Z.shiftl a 24) (Z.shiftl b 16)) (Z.lor (Z.shiftl c 8) d), l).

(** [read_groups] from group [i] on, [room] groups left before the limit: the
    groups read and whether they end in an embedded IPv4 address. *)
Fixpoint read_groups (room i : nat) (l : list ascii) : list Z * bool * list ascii :=
  match room with
  | O => ([], false, l)
  | S room =>
      let embedded :=
        match room with
        | O => None
        | S _ => read_separator ":"%char i read_ipv4_addr l
        end in
      match embedded with
      | Some (v4, l') => ([Z.shiftr v4 16; Z.land v4 65535], true, l')
      | None =>
          match read_separator ":"%char i (read_number 16 16 4 true) l with
          | Some (g, l') =>
              let '(gs, ipv4, l'') := read_groups room (S i) l' in (g :: gs, ipv4, l'')
          | None => ([], false, l)
          end
      end
  end.

Definition join_segments (segs : list Z) : Z :=
  foldl (λ acc s, Z.lor (Z.shiftl acc 16) s) 0 segs.

Definition read_ipv6_addr : Reader Z := λ l,
  let '(head, head_ipv4, l) := read_groups 8 0 l in
  if (length head =? 8)%nat then Some (join_segments head, l)
  else if head_ipv4 then None
  else
    '(_, l) ← read_given_char ":"%char l;
    '(_, l) ← read_given_char ":"%char l;
    let '(tail, _, l) := read_groups (8 - (length head + 1)) 0 l in
    Some (join_segments
            (head ++ replicate (8 - length head - length tail) 0 ++ tail)%list, l).

(** [s.parse::<IpAddr>().ok()]. *)
Definition parse_ip (s : string) : option IpAddr :=
  '(a, l) ←
    (match read_ipv4_addr (chars s) with
     | Some (b, l) => Some (V4 b, l)
     | None => '(b, l) ← read_ipv6_addr (chars s); Some (V6 b, l)
     end);
  match l with [] => Some a | _ => None end.

(** ** Reading back printed numbers *)

Lemma print_radix_length radix k fuel n acc :
  2 ≤ radix → 0 ≤ n < radix ^ Z.of_nat (S k) → (k ≤ fuel)%nat →
  (String.length (print_radix fuel radix n acc) ≤ S k + String.length acc)%nat.
Proof.
  intros Hr. revert n acc fuel. induction k as [|k IH]; intros n acc fuel Hn Hk.
  - change (radix ^ Z.of_nat 1) with (radix ^ 1) in Hn. rewrite Z.pow_1_r in Hn.
    destruct fuel; cbn [print_radix]; [cbn; lia|]. rewrite (proj2 (Z.ltb_lt _ _)) by lia. cbn. lia.
  - destruct fuel as [|fuel]; [lia|]. cbn [print_radix]. destruct (n <? radix); [cbn; lia|].
    etransitivity; [apply IH; [|lia]|cbn; lia].
    split; [apply Z.div_pos; lia|]. apply Z.div_lt_upper_bound; [lia|].
    rewrite <-Z.pow_succ_r by lia. replace (Z.succ (Z.of_nat (S k))) with (Z.of_nat (S (S k))) by lia. lia.
Qed.

Definition all_digits (radix : Z) (l : list ascii) : Prop :=
  Forall (λ c, is_Some (to_digit radix c)) l.

Definition stops (radix : Z) (l : list ascii) : Prop :=
  match l with c :: _ => to_digit radix c = None | [] => True end.

Lemma read_digits_app radix max ds rest acc count :
  all_digits radix ds → stops radix rest → (count + length ds ≤ max)%nat →
  read_digits radix max acc count (ds ++ rest) =
    Some (foldl (λ a c, a * radix + default 0 (to_digit radix c)) acc ds,
          (count + length ds)%nat, rest).
Proof.
  intros Hds Hstop. revert acc count.
  induction Hds as [|c ds [d Hd] Hds IH]; intros acc count Hmax; cbn [read_digits app].
  - destruct rest as [|c rest]; cbn in *; [by rewrite Nat.add_0_r|]. by rewrite Hstop, Nat.add_0_r.
  - cbn in Hmax. rewrite Hd, (proj2 (Nat.ltb_ge _ _)) by lia. rewrite IH by lia. cbn [foldl length].
    rewrite Hd. cbn [default]. by rewrite Nat.add_succ_comm.
Qed.

Lemma parse_digits_value bits radix ds n acc :
  foldl (parse_step bits radix) (Some acc) ds = Some n →
  all_digits radix ds ∧ foldl (λ a c, a * radix + default 0 (to_digit radix c)) acc ds = n.
Proof.
  assert (∀ l, foldl (parse_step bits radix) None l = None) as Hnone by (by induction l).
  revert acc. induction ds as [|c ds IH]; intros acc; cbn [foldl].
  { intros [= ->]. split; [constructor|done]. }
  change (parse_step bits radix (Some acc) c) with
    (d ← to_digit radix c; if fitsb bits (acc * radix + d) then Some (acc * radix + d) else None).
  destruct (to_digit radix c) as [d|] eqn:Hd; cbn [mbind option_bind]; [|by rewrite Hnone].
  destruct (fitsb _ _); [|by rewrite Hnone].
  intros [? ?]%IH. split; [|done]. constructor; [by eexists|done].
Qed.

(** A number of at most [max] digits is read back, up to a character that is
    not a digit. *)
Lemma read_number_print bits radix max zero fuel n rest :
  2 ≤ radix ≤ 16 → fits bits n → 0 ≤ n < radix ^ (Z.of_nat fuel + 1) →
  stops radix rest → (String.length (print_radix fuel radix n "") ≤ max)%nat →
  (zero = false → match chars (print_radix fuel radix n "") with
                  | c :: _ :: _ => Ascii.eqb c "0"%char = false
                  | _ => True
                  end) →
  read_number bits radix max zero (chars (print_radix fuel radix n "") ++ rest)%list =
    Some (n, rest).
Proof.
  intros Hr Hfit Hn Hstop Hlen Hlead.
  destruct (print_radix_parse bits radix Hr fuel n "" Hn Hfit) as (ds & Hds & Hne & _ & _ & Hp).
  cbn in Hds. rewrite app_nil_r in Hds. rewrite <-length_chars in Hlen. rewrite Hds in *. clear Hds.
  apply parse_digits_value in Hp as [Hall Hval].
  unfold read_number. rewrite read_digits_app by (auto; lia). cbn [mbind option_bind].
  rewrite Hval, try_from_fits by done. cbn [mbind option_bind].
  destruct ds as [|c [|c' ds]]; [done| |]; cbn [length Nat.add Nat.eqb app].
  - rewrite andb_false_r. done.
  - destruct zero; [done|]. cbn [negb]. rewrite Hlead by done. done.
Qed.

(** ** IPv4 round trip *)

Definition octet_text_ok (o : Z) : bool :=
  (String.length (to_dec o) <=? 3)%nat &&
  match chars (to_dec o) with c :: _ :: _ => negb (Ascii.eqb c "0"%char) | _ => true end.

Lemma octet_texts_ok o : u8 o → octet_text_ok o = true.
Proof.
  intros Ho. assert (forallb octet_text_ok (seqZ 0 256) = true) as Hall by (vm_compute; reflexivity).
  rewrite forallb_forall in Hall. apply Hall, list_elem_of_In, elem_of_seqZ. in_range.
Qed.

Lemma read_octet_print o rest :
  u8 o → stops 10 rest → read_octet (chars (to_dec o) ++ rest)%list = Some (o, rest).
Proof.
  intros Ho Hstop. pose proof (octet_texts_ok o Ho) as [Hlen Hlead]%andb_true_iff.
  apply Nat.leb_le in Hlen. unfold read_octet, to_dec in *.
  apply read_number_print; [lia|done| |done|done|].
  - split; [apply Ho|]. by apply dec_fuel, Ho.
  - intros _. repeat case_match; try done. by apply negb_true_iff in Hlead.
Qed.

Lemma land_255 z : Z.land z 255 = z mod 2 ^ 8.
Proof. change 255 with (Z.ones 8). by apply Z.land_ones. Qed.

Lemma land_65535 z : Z.land z 65535 = z mod 2 ^ 16.
Proof. change 65535 with (Z.ones 16). by apply Z.land_ones. Qed.

(** Gluing a low part of [k] bits under a high part. *)
Lemma lor_shiftl_low a s k : 0 ≤ k → 0 ≤ s < 2 ^ k → Z.lor (Z.shiftl a k) s = a * 2 ^ k + s.
Proof.
  intros Hk Hs. rewrite <-Z.shiftl_mul_pow2 by done.
  assert (Z.land (Z.shiftl a k) s = 0) as Hland.
  { apply Z.bits_inj'. intros i Hi. rewrite Z.land_spec, Z.bits_0. destruct (decide (i < k)).
    - by rewrite Z.shiftl_spec_low.
    - destruct (decide (s = 0)) as [->|]; [by rewrite Z.bits_0, andb_false_r|].
      rewrite (Z.bits_above_log2 s), andb_false_r; [done|lia|].
      assert (Z.log2 s < k) by (apply Z.log2_lt_pow2; lia). lia. }
  by rewrite Z.add_nocarry_lxor, Z.lxor_lor.
Qed.

Lemma div_pow_step x k j :
  0 ≤ k → 0 ≤ j → x / 2 ^ (k + j) * 2 ^ j + (x / 2 ^ k) mod 2 ^ j = x / 2 ^ k.
Proof.
  intros Hk Hj. rewrite Z.pow_add_r, <-Z.div_div by lia.
  pose proof (Z.div_mod (x / 2 ^ k) (2 ^ j) ltac:(lia)). lia.
Qed.

Lemma octets_typed b : Forall u8 (octets b).
Proof.
  unfold octets. repeat constructor; rewrite ?land_255; apply Z.mod_pos_bound; lia.
Qed.

Lemma octets_join b :
  u32 b →
  match octets b with
  | [o1; o2; o3; o4] =>
      Z.lor (Z.lor (Z.shiftl o1 24) (Z.shiftl o2 16)) (Z.lor (Z.shiftl o3 8) o4) = b
  | _ => False
  end.
Proof.
  intros Hb. unfold octets. rewrite !land_255, !Z.shiftr_div_pow2 by lia.
  rewrite (lor_shiftl_low _ _ 8) by (try apply Z.mod_pos_bound; lia).
  assert (∀ x y, Z.lor (Z.shiftl x 24) (Z.shiftl y 16) = Z.shiftl (Z.lor (Z.shiftl x 8) y) 16) as Hsh.
  { intros x y. by rewrite Z.shiftl_lor, Z.shiftl_shiftl by lia. }
  rewrite Hsh, (lor_shiftl_low _ _ 8) by (try apply Z.mod_pos_bound; lia).
  pose proof (Z.mod_pos_bound (b / 2 ^ 8) (2 ^ 8) ltac:(lia)).
  pose proof (Z.mod_pos_bound b (2 ^ 8) ltac:(lia)).
  rewrite lor_shiftl_low by lia. unfold fits in Hb.
  rewrite (Z.mod_small (b / 2 ^ 24)) by (split; [apply Z.div_pos; lia|apply Z.div_lt_upper_bound; lia]).
  pose proof (div_pow_step b 16 8 ltac:(lia) ltac:(lia)) as Hs2. change (16 + 8) with 24 in Hs2.
  pose proof (div_pow_step b 8 8 ltac:(lia) ltac:(lia)) as Hs1. change (8 + 8) with 16 in Hs1.
  pose proof (div_pow_step b 0 8 ltac:(lia) ltac:(lia)) as Hs0. change (0 + 8) with 8 in Hs0.
  rewrite Z.pow_0_r, Z.div_1_r in Hs0. lia.
Qed.

Lemma read_ipv4_print b rest :
  u32 b → stops 10 rest → read_ipv4_addr (chars (display_v4 b) ++ rest)%list = Some (b, rest).
Proof.
  intros Hb Hstop. pose proof (octets_typed b) as Ht. pose proof (octets_join b Hb) as Hj.
  unfold display_v4. destruct (octets b) as [|o1 [|o2 [|o3 [|o4 [|]]]]]; try done.
  rewrite !Forall_cons in Ht. destruct Ht as (H1 & H2 & H3 & H4 & _).
  unfold join. cbn [map String.concat]. rewrite !chars_app. cbn [chars app].
  repeat (rewrite <-!app_assoc; cbn [app]). unfold read_ipv4_addr, read_separator.
  do 3 (rewrite read_octet_print by done; cbn [mbind option_bind read_given_char];
        change (Ascii.eqb "." ".") with true; cbn [mbind option_bind]).
  rewrite read_octet_print by done. cbn [mbind option_bind]. by rewrite Hj.
Qed.

Lemma parse_display_v4 b : u32 b → parse_ip (display_v4 b) = Some (V4 b).
Proof.
  intros Hb. unfold parse_ip. pose proof (read_ipv4_print b [] Hb I) as Hr.
  rewrite app_nil_r in Hr. by rewrite Hr.
Qed.

(** ** IPv6 round trip *)

Lemma segments_typed b : Forall u16 (segments b).
Proof.
  unfold segments. cbn [map]. repeat constructor; rewrite ?land_65535; apply Z.mod_pos_bound; lia.
Qed.

Lemma segments_join b : u128 b → join_segments (segments b) = b.
Proof.
  intros Hb.
  assert (∀ i acc, 0 ≤ i → acc = b / 2 ^ (16 * i + 16) →
    Z.lor (Z.shiftl acc 16) (Z.land (Z.shiftr b (16 * i)) 65535) = b / 2 ^ (16 * i)) as Hstep.
  { intros i acc Hi ->. rewrite land_65535, Z.shiftr_div_pow2 by lia.
    rewrite lor_shiftl_low by (try apply Z.mod_pos_bound; lia). apply div_pow_step; lia. }
  unfold join_segments, segments. cbn [map foldl].
  rewrite (Hstep 7 0), (Hstep 6), (Hstep 5), (Hstep 4), (Hstep 3), (Hstep 2), (Hstep 1), (Hstep 0)
    by (done || (symmetry; apply Z.div_small; exact Hb)).
  apply Z.div_1_r.
Qed.

(** The segments between and around the compressed zeroes are all of them. *)
Lemma longest_zeroes_run full i cur lng segs :
  drop i full = segs → (i ≤ length full)%nat →
  (∀ j, (cur.1 ≤ j < cur.1 + cur.2)%nat → full !! j = Some 0) →
  (cur.2 = 0 ∨ cur.1 + cur.2 = i)%nat →
  (∀ j, (lng.1 ≤ j < lng.1 + lng.2)%nat → full !! j = Some 0) →
  let r := longest_zeroes i cur lng segs in
  ∀ j, (r.1 ≤ j < r.1 + r.2)%nat → full !! j = Some 0.
Proof.
  revert i cur lng. induction segs as [|s segs IH]; intros i cur lng Hd Hi Hcur Hadj Hlng; [done|].
  assert (full !! i = Some s) as Hs by (by rewrite <-(Nat.add_0_r i), <-lookup_drop, Hd).
  assert (drop (S i) full = segs) as Hd' by (by rewrite <-Nat.add_1_r, <-drop_drop, Hd).
  pose proof (lookup_lt_Some _ _ _ Hs). cbn [longest_zeroes].
  destruct (Z.eqb_spec s 0) as [->|]; [|apply IH; cbn; auto; lia].
  set (cur' := match cur.2 with O => (i, 1%nat) | S n => (cur.1, S (S n)) end).
  assert ((cur'.1 + cur'.2)%nat = S i ∧
    ∀ j, (cur'.1 ≤ j < cur'.1 + cur'.2)%nat → full !! j = Some 0) as [Hadj' Hcur'].
  { unfold cur'. destruct cur as [c [|n]]; cbn in *.
    - split; [lia|]. intros j Hj. by replace j with i by lia.
    - split; [lia|]. intros j Hj. destruct (decide (j = i)) as [->|]; [done|]. apply Hcur. lia. }
  apply IH; auto. by destruct (_ <? _)%nat.
Qed.

Lemma zero_run (full : list Z) s n :
  (∀ j, (s ≤ j < s + n)%nat → full !! j = Some 0) →
  full = (take s full ++ replicate n 0 ++ drop (s + n) full)%list.
Proof.
  revert s. induction n as [|n IH]; intros s Hz.
  - rewrite Nat.add_0_r. cbn. by rewrite take_drop.
  - rewrite (IH s) at 1 by (intros; apply Hz; lia). f_equal.
    rewrite (drop_S full 0 (s + n)) by (apply Hz; lia).
    replace (s + S n)%nat with (S (s + n)) by lia.
    change (0 :: drop (S (s + n)) full) with ([0] ++ drop (S (s + n)) full)%list.
    rewrite app_assoc, <-replicate_S_end. done.
Qed.

(** The text of groups [i], [i+1], ..., each but group 0 behind a colon. *)
Fixpoint group_text (i : nat) (gs : list Z) : list ascii :=
  match gs with
  | [] => []
  | g :: gs =>
      ((match i with O => [] | S _ => [":"%char] end)
       ++ chars (to_hex g) ++ group_text (S i) gs)%list
  end.

Lemma chars_fmt_subslice gs : chars (fmt_subslice gs) = group_text 0 gs.
Proof.
  unfold fmt_subslice, join. destruct gs as [|g gs]; [done|]. cbn [map group_text app].
  generalize 0%nat as i. revert g. induction gs as [|g' gs IH]; intros g i.
  - cbn. by rewrite app_nil_r.
  - cbn [map String.concat]. rewrite !chars_app. cbn [chars app group_text].
    f_equal. f_equal. apply (IH g' (S i)).
Qed.

Definition dot_free (l : list ascii) : Prop := Forall (λ c, c ≠ "."%char) l.

Lemma hex_text g : u16 g → dot_free (chars (to_hex g)) ∧ (String.length (to_hex g) ≤ 4)%nat.
Proof.
  intros Hg. split.
  - destruct (print_radix_parse 16 16 ltac:(lia) 4 g "") as (ds & Hds & _ & Hhex & _); [|done|].
    { unfold fits in Hg. split; [lia|]. change (16 ^ (Z.of_nat 4 + 1)) with 1048576. lia. }
    unfold to_hex. rewrite Hds. cbn. rewrite app_nil_r. apply Forall_forall. intros c Hc ->.
    rewrite forallb_forall in Hhex. by specialize (Hhex _ (proj1 (list_elem_of_In _ _) Hc)).
  - unfold to_hex. etransitivity; [apply (print_radix_length 16 3)|]; cbn; in_range.
Qed.

Lemma group_text_dot_free i gs : Forall u16 gs → dot_free (group_text i gs).
Proof.
  intros Hgs. revert i. induction Hgs as [|g gs Hg Hgs IH]; intros i; cbn; [constructor|].
  apply Forall_app. split; [by destruct i; repeat constructor|].
  apply Forall_app. split; [by apply hex_text|apply IH].
Qed.

Lemma read_digits_suffix radix max r n l v k l' :
  read_digits radix max r n l = Some (v, k, l') → ∃ p, l = (p ++ l')%list.
Proof.
  revert r n. induction l as [|c l IH]; intros r n; cbn [read_digits].
  - intros [= _ _ <-]. by exists [].
  - destruct (to_digit radix c) as [d|]; [|intros [= _ _ <-]; by exists []].
    destruct (_ <? _)%nat; [done|]. intros [p ->]%IH. by exists (c :: p).
Qed.

Lemma read_ipv4_dot_free l : dot_free l → read_ipv4_addr l = None.
Proof.
  intros Hd. unfold read_ipv4_addr, read_separator, read_octet, read_number.
  destruct (read_digits _ _ _ _ l) as [[[v k] l1]|] eqn:Hr; [|done]. cbn [mbind option_bind].
  destruct (try_from 8 v); [|done]. cbn [mbind option_bind].
  destruct (_ =? _)%nat; [done|]. destruct (_ && _); [done|]. cbn [mbind option_bind].
  apply read_digits_suffix in Hr as [p ->]. apply Forall_app in Hd as [_ Hd].
  destruct Hd as [|c l1 Hc Hd]; [done|]. cbn [read_given_char].
  destruct (Ascii.eqb_spec c "."%char); [done|]. done.
Qed.

Lemma read_hex_print g rest :
  u16 g → stops 16 rest →
  read_number 16 16 4 true (chars (to_hex g) ++ rest)%list = Some (g, rest).
Proof.
  intros Hg Hstop. apply read_number_print; [lia|done| |done|by apply hex_text|done].
  unfold fits in Hg. change (16 ^ (Z.of_nat 4 + 1)) with 1048576. lia.
Qed.

Lemma read_embedded_dot_free i l :
  dot_free l → read_separator ":"%char i read_ipv4_addr l = None.
Proof.
  intros Hd. destruct i as [|i]; cbn [read_separator]; [by apply read_ipv4_dot_free|].
  destruct Hd as [|c l Hc Hd]; [done|]. cbn [read_given_char].
  destruct (Ascii.eqb c ":"%char); [|done]. cbn [mbind option_bind]. by apply read_ipv4_dot_free.
Qed.

Lemma read_groups_text room i gs rest :
  Forall u16 gs → dot_free rest → stops 16 rest → (length gs ≤ room)%nat →
  (length gs = room ∨
   read_separator ":"%char (i + length gs) (read_number 16 16 4 true) rest = None) →
  read_groups room i (group_text i gs ++ rest)%list = (gs, false, rest).
Proof.
  intros Hgs Hdot Hstop. revert room i. induction Hgs as [|g gs Hg Hgs IH]; intros room i Hlen Hend.
  - cbn [group_text app]. destruct room as [|room]; [done|]. destruct Hend as [|Hend]; [done|].
    cbn [length] in Hend. rewrite Nat.add_0_r in Hend. cbn [read_groups].
    rewrite read_embedded_dot_free, Hend by done. by destruct room.
  - cbn [length] in *. destruct room as [|room]; [lia|]. cbn [read_groups].
    rewrite read_embedded_dot_free
      by (apply Forall_app; split; [apply (group_text_dot_free i (g :: gs)); by constructor|done]).
    replace (match room with O => None | S _ => None end) with
      (None (A := Z * list ascii)) by (by destruct room).
    assert (stops 16 (group_text (S i) gs ++ rest)%list) as Hs by (by destruct gs).
    assert (read_separator ":"%char i (read_number 16 16 4 true) (group_text i (g :: gs) ++ rest)%list
      = Some (g, group_text (S i) gs ++ rest)%list) as ->.
    { destruct i; cbn [group_text app read_separator read_given_char].
      - rewrite <-app_assoc. by apply read_hex_print.
      - change (Ascii.eqb ":" ":") with true. cbn [mbind option_bind].
        rewrite <-app_assoc. by apply read_hex_print. }
    rewrite IH; [done|lia|]. destruct Hend as [|Hend]; [left; lia|right].
    by replace (S i + length gs)%nat with (i + S (length gs))%nat by lia.
Qed.

Lemma display_v6_mapped b v4 :
  u128 b → to_ipv4_mapped b = Some v4 →
  u32 v4 ∧ join_segments [0; 0; 0; 0; 0; 65535; Z.shiftr v4 16; Z.land v4 65535] = b.
Proof.
  intros Hb. unfold to_ipv4_mapped. destruct (Z.eqb_spec (Z.shiftr b 32) 65535) as [Hhi|]; [|done].
  intros [= <-]. rewrite ones_umax, Z.land_ones by lia.
  pose proof (Z.mod_pos_bound b (2 ^ 32) ltac:(lia)) as Hm. split; [done|].
  unfold join_segments. cbn [foldl]. rewrite !Z.shiftl_0_l, !Z.lor_0_l.
  rewrite land_65535, !Z.shiftr_div_pow2 by lia. rewrite Z.shiftr_div_pow2 in Hhi by lia.
  rewrite (lor_shiftl_low 65535 _ 16); [|lia|].
  2: { split; [apply Z.div_pos; lia|]. apply Z.div_lt_upper_bound; lia. }
  rewrite lor_shiftl_low by (try apply Z.mod_pos_bound; lia).
  pose proof (Z.div_mod (b mod 2 ^ 32) (2 ^ 16) ltac:(lia)).
  pose proof (Z.div_mod b (2 ^ 32) ltac:(lia)). lia.
Qed.

Lemma parse_mapped v4 :
  u32 v4 →
  parse_ip ("::ffff:" +:+ display_v4 v4) =
    Some (V6 (join_segments [0; 0; 0; 0; 0; 65535; Z.shiftr v4 16; Z.land v4 65535])).
Proof.
  intros Hv. unfold parse_ip. rewrite chars_app. set (l := chars (display_v4 v4)).
  assert (read_separator ":"%char 1 read_ipv4_addr (":"%char :: l) = Some (v4, [])) as Hread.
  { cbn [read_separator read_given_char]. change (Ascii.eqb ":" ":") with true. cbn [mbind option_bind].
    rewrite <-(app_nil_r l). by apply read_ipv4_print. }
  change (read_ipv4_addr (chars "::ffff:" ++ l)%list) with (@None (Z * list ascii)). cbv beta iota.
  unfold read_ipv6_addr.
  change (read_groups 8 0 (chars "::ffff:" ++ l)%list) with
    (@nil Z, false, (chars "::ffff:" ++ l)%list). cbv beta iota.
  change (length (@nil Z) =? 8)%nat with false. cbv beta iota.
  change (read_given_char ":" (chars "::ffff:" ++ l)%list) with
    (Some (tt, (chars ":ffff:" ++ l)%list)). cbn [mbind option_bind].
  change (read_given_char ":" (chars ":ffff:" ++ l)%list) with
    (Some (tt, (chars "ffff:" ++ l)%list)). cbn [mbind option_bind].
  change (8 - (length (@nil Z) + 1))%nat with 7%nat.
  assert (read_groups 7 0 (chars "ffff:" ++ l)%list =
    ([65535; Z.shiftr v4 16; Z.land v4 65535], true, [])) as ->.
  { change (read_groups 7 0 (chars "ffff:" ++ l)%list) with
      (let '(gs, ipv4, l'') := read_groups 6 1 (":"%char :: l) in (65535 :: gs, ipv4, l'')).
    cbn [read_groups]. by rewrite Hread. }
  reflexivity.
Qed.

Lemma parse_plain_v6 segs s n :
  Forall u16 segs → length segs = 8%nat →
  (∀ j, (s ≤ j < s + n)%nat → segs !! j = Some 0) →
  parse_ip (if (1 <? n)%nat then
              fmt_subslice (take s segs) +:+ "::" +:+ fmt_subslice (drop (s + n) segs)
            else fmt_subslice segs) = Some (V6 (join_segments segs)).
Proof.
  intros Ht Hlen Hz. unfold parse_ip. destruct (Nat.ltb_spec 1 n) as [Hn|Hn].
  - assert (s + n ≤ 8)%nat as Hsn.
    { pose proof (lookup_lt_Some _ _ _ (Hz (s + n - 1)%nat ltac:(lia))). lia. }
    rewrite !chars_app, !chars_fmt_subslice. set (head := take s segs). set (tail := drop (s + n) segs).
    assert (Forall u16 head ∧ Forall u16 tail) as [Hh Htl]
      by (by split; [apply Forall_take|apply Forall_drop]).
    assert (length head = s ∧ length tail = 8 - (s + n))%nat as [Hlh Hlt]
      by (unfold head, tail; rewrite length_take, length_drop; lia).
    change (chars "::") with [":"%char; ":"%char]. cbn [app].
    assert (dot_free (":"%char :: ":"%char :: group_text 0 tail)) as Hdot
      by (repeat constructor; [done..|by apply group_text_dot_free]).
    rewrite read_ipv4_dot_free by (apply Forall_app; split; [by apply group_text_dot_free|done]).
    unfold read_ipv6_addr. rewrite read_groups_text; [|done..|lia|by right; destruct (length head)].
    rewrite (proj2 (Nat.eqb_neq _ _)) by lia.
    do 2 (cbn [read_given_char]; change (Ascii.eqb ":" ":") with true; cbn [mbind option_bind]).
    rewrite <-(app_nil_r (group_text 0 tail)).
    rewrite read_groups_text; [|done|constructor|done|lia|by right; destruct (length tail)].
    cbn [mbind option_bind]. replace (8 - length head - length tail)%nat with n by lia.
    unfold head, tail. by rewrite <-(zero_run segs s n Hz).
  - rewrite chars_fmt_subslice, read_ipv4_dot_free by (by apply group_text_dot_free).
    unfold read_ipv6_addr. rewrite <-(app_nil_r (group_text 0 segs)).
    rewrite read_groups_text; [|done|constructor|done|lia|by left]. rewrite Hlen. done.
Qed.

Lemma parse_display_v6 b : u128 b → parse_ip (display_v6 b) = Some (V6 b).
Proof.
  intros Hb. unfold display_v6. destruct (to_ipv4_mapped b) as [v4|] eqn:Hm.
  - apply display_v6_mapped in Hm as [Hv Hj]; [|done]. by rewrite parse_mapped, Hj.
  - destruct (longest_zeroes 0 (0, 0)%nat (0, 0)%nat (segments b)) as [s n] eqn:Hl.
    pose proof (longest_zeroes_run (segments b) 0 (0, 0)%nat (0, 0)%nat (segments b)) as Hrun.
    rewrite Hl in Hrun. rewrite (parse_plain_v6 (segments b) s n).
    + by rewrite segments_join.
    + apply segments_typed.
    + done.
    + apply Hrun; cbn; try done; try lia.
Qed.

Lemma parse_display a : ip_typed a → parse_ip (display_ip a) = Some a.
Proof. destruct a; [apply parse_display_v4|apply parse_display_v6]. Qed.

Lemma display_ip_inj a a' : ip_typed a → ip_typed a' → display_ip a = display_ip a' → a = a'.
Proof.
  intros Ha Ha' Heq. apply (f_equal parse_ip) in Heq.
  rewrite !parse_display in Heq by done. congruence.
Qed.

(** The characters of a printed address. *)
Definition is_ip_char (c : ascii) : bool :=
  is_hex_lower c || Ascii.eqb c "."%char || Ascii.eqb c ":"%char.

Lemma display_v4_chars b : all_bytes is_ip_char (display_v4 b) = true.
Proof.
  apply all_bytes_join; [done|]. apply Forall_forall.
  intros x (o & <- & Ho)%list_elem_of_In%in_map_iff. apply list_elem_of_In in Ho.
  eapply all_bytes_class; [|apply to_dec_all_digits]; [by vm_compute|].
  pose proof (octets_typed b) as Ht. rewrite Forall_forall in Ht. by apply Ht.
Qed.

Lemma fmt_subslice_chars gs : Forall u16 gs → all_bytes is_ip_char (fmt_subslice gs) = true.
Proof.
  intros Hgs. apply all_bytes_join; [done|]. apply Forall_forall.
  intros x (g & <- & Hg)%list_elem_of_In%in_map_iff. apply list_elem_of_In in Hg.
  rewrite Forall_forall in Hgs. specialize (Hgs g Hg).
  destruct (print_radix_parse 16 16 ltac:(lia) 4 g "") as (ds & Hds & _ & Hhex & _); [|done|].
  { unfold fits in Hgs. split; [lia|]. change (16 ^ (Z.of_nat 4 + 1)) with 1048576. lia. }
  apply (all_bytes_class is_hex_lower); [by vm_compute|].
  unfold all_bytes, to_hex. rewrite Hds. cbn. by rewrite app_nil_r.
Qed.

Lemma display_ip_chars a : all_bytes is_ip_char (display_ip a) = true.
Proof.
  destruct a as [b|b]; cbn [display_ip]; [apply display_v4_chars|]. unfold display_v6.
  destruct (to_ipv4_mapped b) as [v4|].
  - by rewrite all_bytes_app, display_v4_chars.
  - pose proof (segments_typed b) as Ht. destruct (longest_zeroes _ _ _ _) as [s n].
    destruct (1 <? n)%nat; [|by apply fmt_subslice_chars].
    by rewrite !all_bytes_app, !fmt_subslice_chars by (by try apply Forall_take; try apply Forall_drop).
Qed.

Lemma display_ip_nonempty a : ip_typed a → display_ip a ≠ "".
Proof. intros Ha%parse_display Hnil. rewrite Hnil in Ha. done. Qed.

(** ** A parsed address fits its width *)

Lemma read_number_fits bits radix max zero l n l' :
  read_number bits radix max zero l = Some (n, l') → fits bits n.
Proof.
  unfold read_number. destruct (read_digits radix max 0 0 l) as [[[r k] l1]|]; [cbn|done].
  destruct (try_from bits r) as [v|] eqn:Hv; [cbn|done]. apply try_from_Some in Hv as [-> Hf].
  destruct (k =? 0)%nat; [done|]. destruct (_ && _ && _); [done|]. by intros [= <- _].
Qed.

Lemma read_separated {A} sep i (inner : Reader A) l x :
  read_separator sep i inner l = Some x → ∃ l', inner l' = Some x.
Proof.
  destruct i as [|i]; cbn; [eauto|]. destruct (read_given_char sep l) as [[[] l']|]; [cbn|done]. eauto.
Qed.

Lemma read_ipv4_fits l b l' : read_ipv4_addr l = Some (b, l') → u32 b.
Proof.
  unfold read_ipv4_addr.
  assert (∀ i l x l', read_separator "."%char i read_octet l = Some (x, l') → fits 8 x) as Hoct.
  { intros i l0 x l1 [l2 Hr]%read_separated. by eapply read_number_fits. }
  destruct (read_separator _ 0 _ l) as [[x0 l0]|] eqn:H0; [cbn [mbind option_bind]|done].
  destruct (read_separator _ 1 _ l0) as [[x1 l1]|] eqn:H1; [cbn [mbind option_bind]|done].
  destruct (read_separator _ 2 _ l1) as [[x2 l2]|] eqn:H2; [cbn [mbind option_bind]|done].
  destruct (read_separator _ 3 _ l2) as [[x3 l3]|] eqn:H3; [cbn [mbind option_bind]|done].
  intros [= <- _]. apply Hoct in H0, H1, H2, H3. unfold fits in *.
  replace (Z.lor (Z.shiftl x0 24) (Z.shiftl x1 16)) with (Z.shiftl (x0 * 2 ^ 8 + x1) 16).
  - rewrite (lor_shiftl_low x2 x3 8), lor_shiftl_low by lia. unfold u32, fits. lia.
  - rewrite <-(lor_shiftl_low x0 x1 8), Z.shiftl_lor, Z.shiftl_shiftl by lia. done.
Qed.

Lemma read_groups_fit room i l gs v4 l' :
  read_groups room i l = (gs, v4, l') → Forall u16 gs ∧ (length gs ≤ room)%nat.
Proof.
  revert i l gs v4 l'. induction room as [|room IH]; intros i l gs v4 l'; cbn.
  { intros [= <- _ _]. split; [constructor|done]. }
  destruct (match room with O => None | S _ => _ end) as [[b l1]|] eqn:He.
  - intros [= <- _ _]. destruct room as [|room]; [done|].
    apply read_separated in He as [l2 Hb%read_ipv4_fits]. unfold u32, fits in Hb. split; [|cbn; lia].
    rewrite land_65535, Z.shiftr_div_pow2 by lia. apply Forall_cons. split.
    + split; [apply Z.div_pos; lia|apply Z.div_lt_upper_bound; lia].
    + apply Forall_singleton, Z.mod_pos_bound. lia.
  - destruct (read_separator _ _ (read_number _ _ _ _) l) as [[g l1]|] eqn:Hg; [|intros [= <- _ _]; split; [constructor|cbn; lia]].
    destruct (read_groups room (S i) l1) as [[gs' v4'] l2] eqn:Hrec. intros [= <- _ _].
    apply read_separated in Hg as [l3 Hg%read_number_fits]. apply IH in Hrec as [Hf Hl].
    split; [by constructor|cbn; lia].
Qed.

Lemma join_segments_fits segs k :
  Forall u16 segs → (length segs ≤ k)%nat → fits (16 * Z.of_nat k) (join_segments segs).
Proof.
  intros HF Hl. assert (∀ acc n, fits (16 * Z.of_nat n) acc →
    fits (16 * Z.of_nat (n + length segs)) (foldl (λ acc s, Z.lor (Z.shiftl acc 16) s) acc segs)) as Hgen.
  { clear Hl. induction HF as [|s segs Hs HF IH]; intros acc n Ha; cbn [foldl length].
    - by rewrite Nat.add_0_r.
    - rewrite Nat.add_succ_r, <-Nat.add_succ_l. apply IH. unfold u16, fits in *.
      rewrite lor_shiftl_low by lia.
      replace (16 * Z.of_nat (S n)) with (16 * Z.of_nat n + 16) by lia. rewrite Z.pow_add_r by lia. nia. }
  specialize (Hgen 0 0%nat ltac:(split; lia)). cbn [Nat.add] in Hgen. unfold join_segments, fits in *.
  assert (2 ^ (16 * Z.of_nat (length segs)) ≤ 2 ^ (16 * Z.of_nat k)) by (apply Z.pow_le_mono_r; lia). lia.
Qed.

Lemma read_ipv6_fits l b l' : read_ipv6_addr l = Some (b, l') → u128 b.
Proof.
  unfold read_ipv6_addr. destruct (read_groups 8 0 l) as [[h v4] l1] eqn:Hh.
  apply read_groups_fit in Hh as [Hf Hl].
  destruct (length h =? 8)%nat; [intros [= <- _]; by apply (join_segments_fits h 8)|].
  destruct v4; [done|]. destruct (read_given_char _ l1) as [[[] l2]|]; [cbn [mbind option_bind]|done].
  destruct (read_given_char _ l2) as [[[] l3]|]; [cbn [mbind option_bind]|done].
  destruct (read_groups (8 - (length h + 1)) 0 l3) as [[t v4'] l4] eqn:Ht.
  apply read_groups_fit in Ht as [Hft Hlt]. intros [= <- _]. apply (join_segments_fits _ 8).
  - rewrite !Forall_app. split_and!; [done| |done]. apply Forall_replicate. unfold u16, fits. lia.
  - rewrite !length_app, length_replicate. lia.
Qed.

Lemma parse_ip_typed s a : parse_ip s = Some a → ip_typed a.
Proof.
  unfold parse_ip. destruct (read_ipv4_addr (chars s)) as [[b l]|] eqn:H4; cbn [mbind option_bind].
  - destruct l; [|done]. intros [= <-]. by eapply read_ipv4_fits.
  - destruct (read_ipv6_addr (chars s)) as [[b l]|] eqn:H6; cbn [mbind option_bind]; [|done].
    destruct l; [|done]. intros [= <-]. by eapply read_ipv6_fits.
Qed.
