(* ===== verification/Env.v ===== *)
(** The operating system as the program sees it.

    Every read of a clock, a cancellation flag or file metadata and every child
    process is a query to a [World]: an [Environment] that answers as an
    arbitrary function of everything that happened so far, and the history of
    queries with their answers.  Quantifying over environments therefore covers
    every behaviour of the kernel, of the tools and of the other threads.  Two
    guarantees of the standard library are built in: [Instant::now] never goes
    back, and a [CancellationToken] that was cancelled stays cancelled (the
    flag is only ever stored [true]). *)

From S2P Require Import Prelude Machine Text.
Open Scope string_scope.
Open Scope Z_scope.

(** A path is its bytes. *)
Definition is_absolute (path : string) : bool :=
  match path with String c _ => Ascii.eqb c "/"%char | "" => false end.

Record CommandSpec := mkCommand {
  program : string;
  arguments : list string;
}.

#[export] Instance command_eq_dec : EqDecision CommandSpec.
Proof. solve_decision. Defined.

(** How a child process ended: it did not start, its standard input could not
    be written, it could not be waited for, or it exited. The texts are the
    [Display] of the [io::Error] or of the [ExitStatus]. *)
Inductive ProcessOutcome :=
| SpawnFailed (error : string)
| StdinFailed (error : string)
| WaitFailed (error : string)
| Exited (success : bool) (status stdout stderr : string).

(** What [symlink_metadata] and [File::metadata] report. *)
Record Metadata := mkMetadata {
  md_is_file : bool;
  md_is_dir : bool;
  md_is_symlink : bool;
  md_mode : Z;
  md_len : Z;
}.

Definition Token : Type := Z.

Inductive Event :=
| EvInstant (t : Z)
| EvCancelled (token : Token) (flag : bool)
| EvCancel (token : Token)
| EvUnixTime (seconds : Z)
| EvProcess (command : CommandSpec) (stdin : option string) (outcome : ProcessOutcome)
| EvMetadata (path : string) (answer : option Metadata)
| EvOpen (path : string)
| EvLock (path : string) (granted : bool)
| EvPrint (stderr : bool) (line : string).

Record Environment := mkEnvironment {
  env_instant : list Event → Z;
  env_cancelled : list Event → Token → bool;
  env_unix_time : list Event → Z;
  env_process : list Event → CommandSpec → option string → ProcessOutcome;
  env_metadata : list Event → string → option Metadata;
}.

(** [history] lists the events newest first. *)
Record World := mkWorld {
  env : Environment;
  history : list Event;
}.

Definition log (e : Event) (w : World) : World := mkWorld (env w) (e :: history w).

(** The newest clock reading, which the next one cannot precede. *)
Fixpoint last_instant (h : list Event) : option Z :=
  match h with
  | [] => None
  | EvInstant t :: _ => Some t
  | _ :: h => last_instant h
  end.

Definition cancel_seen (token : Token) (e : Event) : bool :=
  match e with
  | EvCancelled token' true | EvCancel token' => token' =? token
  | _ => false
  end.

(** ** Queries, on a receiver [C] next to the world *)

Section queries.
Context {C E : Type}.

Definition on_world {A} (f : World → A * World) : Act (C * World) E A :=
  λ '(c, w), let '(a, w') := f w in (Ok a, (c, w')).

(** [Instant::now()]. *)
Definition instant_now : Act (C * World) E Z :=
  on_world (λ w,
    let t := env_instant (env w) (history w) in
    let t := match last_instant (history w) with Some t0 => Z.max t0 t | None => t end in
    (t, log (EvInstant t) w)).

(** [token.is_cancelled()]. *)
Definition is_cancelled (token : Token) : Act (C * World) E bool :=
  on_world (λ w,
    let flag := existsb (cancel_seen token) (history w) || env_cancelled (env w) (history w) token in
    (flag, log (EvCancelled token flag) w)).

(** [token.cancel()]. *)
Definition cancel (token : Token) : Act (C * World) E unit :=
  on_world (λ w, (tt, log (EvCancel token) w)).

(** Seconds since the Unix epoch, zero for a clock set before it. *)
Definition unix_time : Act (C * World) E Z :=
  on_world (λ w,
    let t := Z.max 0 (env_unix_time (env w) (history w)) in (t, log (EvUnixTime t) w)).

(** Runs a child process, with standard input when it is piped. *)
Definition spawn (command : CommandSpec) (stdin : option string) :
    Act (C * World) E ProcessOutcome :=
  on_world (λ w,
    let outcome := env_process (env w) (history w) command stdin in
    (outcome, log (EvProcess command stdin outcome) w)).

Definition metadata (path : string) : Act (C * World) E (option Metadata) :=
  on_world (λ w,
    let answer := env_metadata (env w) (history w) path in (answer, log (EvMetadata path answer) w)).
End queries.

(** Calls a method of the field [get] of the receiver. *)
Definition on_field {C D E A} (get : C → D) (set : D → C → C) (m : Act (D * World) E A) :
    Act (C * World) E A :=
  λ '(c, w), let '(r, (d, w')) := m (get c, w) in (r, (set d c, w')).

(** Reads and writes of the receiver itself. *)
Definition self {C E A} (f : C → A) : Act (C * World) E A := λ '(c, w), (Ok (f c), (c, w)).
Definition set_self {C E} (f : C → C) : Act (C * World) E unit := λ '(c, w), (Ok tt, (f c, w)).

(** Runs [m] with a local variable next to the receiver and returns its result
    together with the final value of the variable. *)
Definition with_local {C L E F A} (l : L) (m : Act ((C * L) * World) E A) :
    Act (C * World) F ((E + A) * L) :=
  λ '(c, w),
    match m ((c, l), w) with
    | (Ok a, ((c', l'), w')) => (Ok (inr a, l'), (c', w'))
    | (Err e, ((c', l'), w')) => (Ok (inl e, l'), (c', w'))
    | (Panic, ((c', _), w')) => (Panic, (c', w'))
    end.

(** The receiver of a call made while a local variable is in scope. *)
Definition on_self {C L E A} (m : Act (C * World) E A) : Act ((C * L) * World) E A :=
  on_field fst (λ c s, (c, s.2)) m.

Definition local {C L E A} (f : L → A) : Act ((C * L) * World) E A := self (λ s, f s.2).
Definition set_local {C L E} (f : L → L) : Act ((C * L) * World) E unit :=
  set_self (λ s, (s.1, f s.2)).

(** ** Rules *)

Section rules.
Context {C E : Type}.
Implicit Types (c : C) (w : World).

Lemma wp_self {A} (f : C → A) (Q : Result E A → C * World → Prop) c w :
  Q (Ok (f c)) (c, w) → wp (self f) Q (c, w).
Proof. done. Qed.

Lemma wp_set_self f (Q : Result E unit → C * World → Prop) c w :
  Q (Ok tt) (f c, w) → wp (set_self f) Q (c, w).
Proof. done. Qed.

Lemma wp_on_field {D A} (get : C → D) set (m : Act (D * World) E A) Q c w :
  wp m (λ r '(d, w'), Q r (set d c, w')) (get c, w) → wp (on_field get set m) Q (c, w).
Proof. unfold wp, on_field. by destruct (m _) as [? [? ?]]. Qed.

Lemma wp_with_local {L F A} (l : L) (m : Act ((C * L) * World) E A)
    (Q : Result F ((E + A) * L) → C * World → Prop) c w :
  wp m (λ r '((c', l'), w'),
    match r with
    | Ok a => Q (Ok (inr a, l')) (c', w')
    | Err e => Q (Ok (inl e, l')) (c', w')
    | Panic => Q Panic (c', w')
    end) ((c, l), w) →
  wp (with_local l m) Q (c, w).
Proof. unfold wp, with_local. by destruct (m _) as [[?|?|] [[? ?] ?]]. Qed.
End rules.

Lemma keeps_self {C E A} (I : C * World → Prop) (f : C → A) : (self f : Act _ E A) keeps I.
Proof. by intros [c w] Hs _. Qed.

#[export] Hint Resolve keeps_self : invariant.

(** Runs the combinators of a call up to the next call of another component. *)
Ltac wp_run :=
  repeat first
    [ wp_head
    | lazymatch goal with
      | |- wp (self _) _ _ => apply wp_self
      | |- wp (set_self _) _ _ => apply wp_set_self
      | |- wp (on_field _ _ _) _ _ => apply wp_on_field
      | |- wp (local _) _ _ => apply wp_self
      | |- wp (set_local _) _ _ => apply wp_set_self
      | |- wp (with_local _ _) _ _ => apply wp_with_local
      end; cbn beta iota zeta ].

(** ** Facts *)

(** The newest reading is an upper bound of all readings. *)
Definition clock_ok (h : list Event) : Prop :=
  ∀ t, EvInstant t ∈ h → ∃ t0, last_instant h = Some t0 ∧ t ≤ t0.

(** [w'] happens after [w]. *)
Definition later (w w' : World) : Prop := ∃ l, history w' = (l ++ history w)%list.

Lemma last_instant_in h t : last_instant h = Some t → EvInstant t ∈ h.
Proof.
  induction h as [|e h IH]; cbn; [done|].
  destruct e; try (intros Hl; apply elem_of_cons; right; by apply IH).
  intros [= ->]. apply elem_of_cons. by left.
Qed.

Lemma clock_ok_log_other e h :
  clock_ok h → (∀ t, e ≠ EvInstant t) → clock_ok (e :: h).
Proof.
  intros Hok Hne t [<-|Hin]%elem_of_cons; [by destruct (Hne t)|].
  destruct (Hok t Hin) as (t0 & Hl & Hle). exists t0. split; [|done].
  destruct e; try done. by destruct (Hne t1).
Qed.

Lemma later_refl w : later w w.
Proof. by exists []. Qed.

Lemma later_trans w1 w2 w3 : later w1 w2 → later w2 w3 → later w1 w3.
Proof.
  intros [l1 H1] [l2 H2]. exists (l2 ++ l1)%list. by rewrite H2, H1, app_assoc.
Qed.

Lemma later_log e w : later w (log e w).
Proof. by exists [e]. Qed.

Lemma later_cancelled token w w' :
  later w w' → existsb (cancel_seen token) (history w) = true →
  existsb (cancel_seen token) (history w') = true.
Proof. intros [l ->] H. rewrite existsb_app, H. apply orb_true_r. Qed.

Lemma instant_now_spec {C E} (c : C) w :
  ∃ t, @instant_now C E (c, w) = (Ok t, (c, log (EvInstant t) w)) ∧
    (clock_ok (history w) → ∀ t', EvInstant t' ∈ history w → t' ≤ t).
Proof.
  unfold instant_now, on_world.
  exists (match last_instant (history w) with
          | Some t0 => Z.max t0 (env_instant (env w) (history w))
          | None => env_instant (env w) (history w) end).
  split; [done|]. intros Hok t' Hin. destruct (Hok t' Hin) as (t0 & -> & ?). lia.
Qed.

Lemma clock_ok_log_now h t :
  clock_ok h → (∀ t', EvInstant t' ∈ h → t' ≤ t) → clock_ok (EvInstant t :: h).
Proof.
  intros Hok Hle t' [[= ->]|Hin]%elem_of_cons; exists t; cbn; split; auto; lia.
Qed.
