(* ===== verification/Transport.v ===== *)
(** Transport contracts: [core/transport/src/lib.rs].

    The data exchanged with every transport adapter, the validation of DNS and
    connection parameters, the deadline and cancellation check, and the
    [Transport] trait as a class of operations. *)

From S2P Require Import Prelude Machine Text Net Env.
Open Scope string_scope.
Open Scope Z_scope.

Inductive TransportKind :=
| WireGuard | Vless | Hysteria2 | Tuic | Trojan | Shadowsocks
| Ikev2 | OpenVpn | SoftEther | Socks5 | HttpProxy.

Inductive TransportError :=
| InvalidConfig (reason : string)
| Cancelled
| TimedOut
| AlreadyConnected
| NotConnected
| AuthenticationFailed
| Network (reason : string).

#[export] Instance kind_eq_dec : EqDecision TransportKind.
Proof. solve_decision. Defined.
#[export] Instance transport_error_eq_dec : EqDecision TransportError.
Proof. solve_decision. Defined.

Definition display_transport_error (e : TransportError) : string :=
  match e with
  | InvalidConfig reason => "invalid configuration: " +:+ reason
  | Cancelled => "connection attempt cancelled"
  | TimedOut => "connection attempt timed out"
  | AlreadyConnected => "transport is already connected"
  | NotConnected => "transport is not connected"
  | AuthenticationFailed => "transport authentication failed"
  | Network reason => "transport network error: " +:+ reason
  end.

(** ** DNS policy *)

Record DnsConfig := mkDns { resolvers : list IpAddr }.

Definition canonical_address (address : IpAddr) : IpAddr :=
  match address with
  | V6 b => match to_ipv4_mapped b with Some v4 => V4 v4 | None => V6 b end
  | V4 b => V4 b
  end.

Fixpoint check_resolvers (unique : gset IpAddr) (l : list IpAddr) : Result TransportError unit :=
  match l with
  | [] => Ok tt
  | resolver :: l =>
      let address := canonical_address resolver in
      if is_unspecified address || is_multicast address || bool_decide (address ∈ unique)
      then Err (InvalidConfig "invalid or duplicate DNS resolver")
      else check_resolvers ({[address]} ∪ unique) l
  end.

Definition validate_dns (c : DnsConfig) : Result TransportError unit :=
  let n := length (resolvers c) in
  if (n =? 0)%nat || (8 <? n)%nat
  then Err (InvalidConfig "DNS resolver list must contain between 1 and 8 addresses")
  else check_resolvers ∅ (resolvers c).

(** ** Connection parameters *)

Record Endpoint := mkEndpoint { host : string; port : Z }.

#[export] Instance endpoint_eq_dec : EqDecision Endpoint.
Proof. solve_decision. Defined.

Record TransportConfig := mkTransportConfig {
  tc_kind : TransportKind;
  tc_endpoint : Endpoint;
  connect_timeout : Z;
}.

Definition is_empty (s : string) : bool := match s with "" => true | _ => false end.

Definition validate_transport (c : TransportConfig) : Result TransportError unit :=
  if is_empty (trim (host (tc_endpoint c))) then Err (InvalidConfig "endpoint host is empty") else
  if connect_timeout c =? 0 then Err (InvalidConfig "connect timeout is zero") else
  Ok tt.

(** ** Deadline and cancellation *)

Record ConnectContext := mkContext { deadline : Z; cancellation : Token }.

Definition check {C} (context : ConnectContext) : Act (C * World) TransportError unit :=
  cancelled ← is_cancelled (cancellation context);
  if (cancelled : bool) then raise Cancelled else
  now ← instant_now;
  if deadline context <=? now then raise TimedOut else
  mret tt.

(** ** Sessions and health *)

Record Session := mkSession {
  session_id : string;
  session_transport : TransportKind;
  established_at : Z;
}.

Inductive HealthStatus := Healthy | Degraded | Unavailable.

#[export] Instance health_eq_dec : EqDecision HealthStatus.
Proof. solve_decision. Defined.

Record TransportHealth := mkHealth {
  status : HealthStatus;
  round_trip_time : option Z;
  health_consecutive_failures : Z;
}.

(** ** The [Transport] trait *)

Class Transport (T : Type) := {
  kind : T → TransportKind;
  connect : TransportConfig → ConnectContext → Act (T * World) TransportError Session;
  disconnect : Act (T * World) TransportError unit;
  health : Act (T * World) Infallible TransportHealth;
}.

(** ** What the DNS validation accepts *)

Definition resolver_usable (a : IpAddr) : Prop :=
  is_unspecified (canonical_address a) = false ∧ is_multicast (canonical_address a) = false.

Definition dns_well_formed (c : DnsConfig) : Prop :=
  (1 ≤ length (resolvers c) ≤ 8)%nat ∧ Forall resolver_usable (resolvers c) ∧
  NoDup (canonical_address <$> resolvers c).

Lemma check_resolvers_ok l :
  check_resolvers ∅ l = Ok tt ↔
  Forall resolver_usable l ∧ NoDup (canonical_address <$> l).
Proof.
  apply unique_loop_spec; [done|]. intros seen a l'. cbn [check_resolvers].
  unfold resolver_usable. destruct (is_unspecified _), (is_multicast _);
    case_bool_decide; naive_solver.
Qed.

Lemma check_resolvers_result unique l :
  check_resolvers unique l = Ok tt ∨
  check_resolvers unique l = Err (InvalidConfig "invalid or duplicate DNS resolver").
Proof.
  revert unique. induction l as [|r l IH]; intros unique; cbn; [by left|].
  destruct (_ || _); [by right|apply IH].
Qed.

(** ** The check of a connection attempt *)

Definition bound_reached {C} (r : Result TransportError unit * (C * World)) : Prop :=
  r.1 = Err Cancelled ∨ r.1 = Err TimedOut.

Lemma check_cases {C} context (c : C) w :
  (∃ w', check context (c, w) = (Err Cancelled, (c, w')) ∧
     w' = log (EvCancelled (cancellation context) true) w) ∨
  (existsb (cancel_seen (cancellation context)) (history w) = false ∧
   ∃ t w', check context (c, w) =
       ((if deadline context <=? t then Err TimedOut else Ok tt), (c, w')) ∧
     w' = log (EvInstant t) (log (EvCancelled (cancellation context) false) w) ∧
     (clock_ok (history w) → ∀ t', EvInstant t' ∈ history w → t' ≤ t)).
Proof.
  unfold check, is_cancelled, on_world. run.
  destruct (existsb _ (history w)) eqn:Hseen; cbn [orb]; [left; eauto|].
  destruct (env_cancelled _ _ _); [left; eauto|]. right. split; [done|].
  set (w1 := log (EvCancelled (cancellation context) false) w).
  destruct (@instant_now_spec C TransportError c w1) as (t & -> & Hle).
  exists t, (log (EvInstant t) w1). split; [|split; [done|]].
  - by destruct (deadline context <=? t).
  - intros Hok t' Hin. apply Hle.
    + apply clock_ok_log_other; [done|]. by intros ? [=].
    + apply elem_of_cons. by right.
Qed.

Lemma check_later {C} context (c c' : C) w r w' :
  check context (c, w) = (r, (c', w')) →
  c' = c ∧ later w w' ∧ (clock_ok (history w) → clock_ok (history w')).
Proof.
  destruct (check_cases context c w) as [(w1 & -> & ->)|(_ & t & w1 & -> & -> & Hle)];
    intros [= <- <- <-]; (split; [done|]); split.
  - apply later_log.
  - intros. apply clock_ok_log_other; [done|]. by intros ? [=].
  - eapply later_trans; apply later_log.
  - intros Hok. cbn. apply clock_ok_log_now.
    + apply clock_ok_log_other; [done|]. by intros ? [=].
    + intros t' [[=]|Hin]%elem_of_cons. auto.
Qed.

(** ** Theorems *)

(** [DnsConfig::validate] accepts exactly the lists of one to eight unicast
    addresses that stay distinct once IPv4-mapped forms are identified with
    their IPv4 addresses, and it always returns. *)
Theorem validate_dns_spec c :
  (validate_dns c = Ok tt ↔ dns_well_formed c) ∧
  (validate_dns c = Ok tt ∨ ∃ reason, validate_dns c = Err (InvalidConfig reason)).
Proof.
  unfold validate_dns, dns_well_formed.
  destruct (length (resolvers c) =? 0)%nat eqn:H0.
  { apply Nat.eqb_eq in H0. cbn. split; [split; [done|lia]|eauto]. }
  destruct (8 <? length (resolvers c))%nat eqn:H8.
  { apply Nat.ltb_lt in H8. cbn. split; [split; [done|lia]|eauto]. }
  apply Nat.eqb_neq in H0. apply Nat.ltb_ge in H8. cbn. split.
  - rewrite check_resolvers_ok. split; [intros (? & ?)|intros (_ & ? & ?)]; split_and!; try done; try lia.
  - destruct (check_resolvers_result ∅ (resolvers c)) as [-> | ->]; eauto.
Qed.

(** A bound that was reached stays reached: once [check] has reported
    cancellation or timeout, every later check of the same context fails too,
    whatever the environment does in between. *)
Theorem check_stays_failed {C} context (c c' : C) w w' w2 (c2 : C) :
  clock_ok (history w) → bound_reached (check context (c, w)) →
  (check context (c, w)).2 = (c', w') → later w' w2 → clock_ok (history w2) →
  bound_reached (check context (c2, w2)).
Proof.
  intros Hok Hr Hw Hlater Hok2. unfold bound_reached in *.
  destruct (check_cases context c w) as [(w1 & Hc & ->)|(_ & t & w1 & Hc & -> & _)];
    rewrite Hc in Hw, Hr; injection Hw as <- <-.
  - assert (existsb (cancel_seen (cancellation context)) (history w2) = true) as Hseen.
    { apply (later_cancelled _ _ _ Hlater). cbn. by rewrite Z.eqb_refl. }
    destruct (check_cases context c2 w2) as [(? & -> & _)|(Hn & _)]; [by left|congruence].
  - destruct (deadline context <=? t) eqn:Hd; [|cbn in Hr; naive_solver].
    apply Z.leb_le in Hd.
    destruct (check_cases context c2 w2) as [(? & -> & _)|(_ & t2 & ? & -> & _ & Hle)]; [by left|].
    right. cbn. rewrite (proj2 (Z.leb_le _ _)); [done|].
    transitivity t; [done|]. apply Hle; [done|]. destruct Hlater as [l ->].
    apply elem_of_app. right. apply elem_of_cons. by left.
Qed.

(** A quiet environment: the clock stands still, nothing is cancelled, every
    process succeeds with empty output and no file exists. *)
Definition quiet_env : Environment :=
  mkEnvironment (λ _, 0) (λ _ _, false) (λ _, 0) (λ _ _ _, Exited true "exit status: 0" "" "")
    (λ _ _, None).

Definition quiet_world : World := mkWorld quiet_env [].

Lemma check_stays_failed_witness :
  let context := mkContext 0 1 in
  let late := (check context (tt, quiet_world)).2.2 in
  (check context (tt, quiet_world)).1 = Err TimedOut ∧
  bound_reached (check context (tt, log (EvCancel 2) late)).
Proof.
  cbn zeta. split; [reflexivity|].
  eapply (check_stays_failed (mkContext 0 1) tt tt quiet_world).
  - intros t Hin. by apply not_elem_of_nil in Hin.
  - right. reflexivity.
  - reflexivity.
  - apply later_log.
  - intros t Hin. cbn in Hin.
    repeat (apply elem_of_cons in Hin as [Hin|Hin];
      [first [discriminate | injection Hin as ->; exists 0; split; [reflexivity|lia]]|]).
    by apply not_elem_of_nil in Hin.
Defined.
