(* ===== verification/WireGuard.v ===== *)
(** WireGuard profiles and the lifecycle adapter: [core/transport/src/wireguard.rs].

    Profiles are validated with explicit machine-word masks; the theorems give
    the meaning of those masks as sets of addresses and show that no shift can
    overflow on the paths that reach it.  The adapter turns a
    [WireGuardBackend] into a [Transport]. *)

From S2P Require Import Prelude Machine Text Net Env Transport.
Open Scope string_scope.
Open Scope Z_scope.

Definition MINIMUM_MTU : Z := 1280.
Definition MAXIMUM_MTU : Z := 9000.
Definition MAXIMUM_KEEPALIVE_SECONDS : Z := 300.

(** ** Data *)

Record TunnelAddress := mkTunnelAddress { ta_address : IpAddr; ta_prefix_length : Z }.

Record AllowedIp := mkAllowedIp { ai_network : IpAddr; ai_prefix_length : Z }.

#[export] Instance allowed_ip_eq_dec : EqDecision AllowedIp.
Proof. solve_decision. Defined.
#[export] Program Instance allowed_ip_countable : Countable AllowedIp :=
  inj_countable (λ a, (ai_network a, ai_prefix_length a))
    (λ p, Some (mkAllowedIp p.1 p.2)) _.
Next Obligation. by intros []. Qed.

(** A 32-byte key as its bytes. *)
Definition Key : Type := list Z.

Record WireGuardConfig := mkWireGuardConfig {
  peer_public_key : Key;
  wg_endpoint : Endpoint;
  tunnel_addresses : list TunnelAddress;
  allowed_ips : list AllowedIp;
  persistent_keepalive_seconds : option Z;
  mtu : Z;
}.

Record WireGuardNodeConfig := mkNodeConfig {
  listen_port : Z;
  interface_addresses : list TunnelAddress;
  node_mtu : Z;
}.

Record WireGuardNodeGatewayPolicy := mkGatewayPolicy { client_networks : list AllowedIp }.

Record WireGuardNodePeer := mkPeer {
  public_key : Key;
  peer_allowed_ips : list AllowedIp;
  peer_keepalive_seconds : option Z;
}.

Record WireGuardNodeHealth := mkNodeHealth {
  node_status : HealthStatus;
  configured_peers : nat;
  observed_peers : nat;
  recent_handshakes : nat;
  node_consecutive_failures : Z;
}.

(** ** Networks *)

Definition valid_network {E} (a : AllowedIp) : Result E bool :=
  match ai_network a with
  | V4 bits =>
      if (32 <? ai_prefix_length a) || is_multicast (V4 bits) then Ok false else
      mask ← (if ai_prefix_length a =? 0 then Ok 0
              else s ← u_sub 8 32 (ai_prefix_length a); u_shl 32 (umax 32) s);
      Ok (Z.land bits mask =? bits)
  | V6 bits =>
      if (128 <? ai_prefix_length a) || is_multicast (V6 bits) then Ok false else
      mask ← (if ai_prefix_length a =? 0 then Ok 0
              else s ← u_sub 8 128 (ai_prefix_length a); u_shl 128 (umax 128) s);
      Ok (Z.land bits mask =? bits)
  end.

Definition networks_overlap {E} (left right : AllowedIp) : Result E bool :=
  match ai_network left, ai_network right with
  | V4 l, V4 r =>
      let prefix := Z.min (ai_prefix_length left) (ai_prefix_length right) in
      s ← u_sub 8 32 prefix;
      mask ← u_shl 32 (umax 32) s;
      Ok (Z.land l mask =? Z.land r mask)
  | V6 l, V6 r =>
      let prefix := Z.min (ai_prefix_length left) (ai_prefix_length right) in
      s ← u_sub 8 128 prefix;
      mask ← u_shl 128 (umax 128) s;
      Ok (Z.land l mask =? Z.land r mask)
  | _, _ => Ok false
  end.

Definition network_matches_address {E} (network : AllowedIp) (address : TunnelAddress) :
    Result E bool :=
  if negb (ai_prefix_length network =? ta_prefix_length address) then Ok false else
  let prefix_length := ai_prefix_length network in
  match ai_network network, ta_address address with
  | V4 n, V4 a =>
      s ← u_sub 8 32 prefix_length;
      mask ← u_shl 32 (umax 32) s;
      Ok (Z.land n mask =? Z.land a mask)
  | V6 n, V6 a =>
      s ← u_sub 8 128 prefix_length;
      mask ← u_shl 128 (umax 128) s;
      Ok (Z.land n mask =? Z.land a mask)
  | _, _ => Ok false
  end.

(** ** Validation *)

Fixpoint check_addresses (unique : gset IpAddr) (l : list TunnelAddress) :
    Result TransportError unit :=
  match l with
  | [] => Ok tt
  | a :: l =>
      let maximum_prefix := if is_ipv4 (ta_address a) then 32 else 128 in
      if (maximum_prefix <? ta_prefix_length a) || is_unspecified (ta_address a)
         || is_multicast (ta_address a)
      then Err (InvalidConfig "invalid tunnel address prefix")
      else if bool_decide (ta_address a ∈ unique)
      then Err (InvalidConfig "duplicate WireGuard tunnel address")
      else check_addresses ({[ta_address a]} ∪ unique) l
  end.

Definition validate_interface_addresses (l : list TunnelAddress) : Result TransportError unit :=
  if (length l =? 0)%nat || (16 <? length l)%nat
  then Err (InvalidConfig "WireGuard interface requires between 1 and 16 addresses")
  else check_addresses ∅ l.

Definition validate_keepalive (seconds : option Z) : Result TransportError unit :=
  reject_if (match seconds with
             | Some s => (s =? 0) || (MAXIMUM_KEEPALIVE_SECONDS <? s)
             | None => false
             end)
    (InvalidConfig "WireGuard keepalive is outside safe bounds").

Definition validate_mtu (m : Z) : Result TransportError unit :=
  reject_if (negb ((MINIMUM_MTU <=? m) && (m <=? MAXIMUM_MTU)))
    (InvalidConfig "WireGuard MTU is outside safe bounds").

Definition validate_node_config (c : WireGuardNodeConfig) : Result TransportError unit :=
  validate_interface_addresses (interface_addresses c);;
  validate_mtu (node_mtu c).

(** Short-circuiting [any] over a test that may panic. *)
Fixpoint any_m {E A} (f : A → Result E bool) (l : list A) : Result E bool :=
  match l with
  | [] => Ok false
  | x :: l => b ← f x; if (b : bool) then Ok true else any_m f l
  end.

Fixpoint check_client_networks (before l : list AllowedIp) : Result TransportError unit :=
  match l with
  | [] => Ok tt
  | network :: l =>
      let maximum_prefix := if is_ipv4 (ai_network network) then 32 else 128 in
      invalid ←
        (if (ai_prefix_length network =? 0) || (ai_prefix_length network =? maximum_prefix)
            || is_unspecified (ai_network network) then Ok true
         else v ← valid_network network; Ok (negb v));
      if (invalid : bool)
      then Err (InvalidConfig "invalid WireGuard node gateway client network") else
      overlap ← any_m (λ other, networks_overlap other network) before;
      if (overlap : bool)
      then Err (InvalidConfig "overlapping WireGuard node gateway client networks")
      else check_client_networks (before ++ [network])%list l
  end.

Definition validate_gateway (p : WireGuardNodeGatewayPolicy) : Result TransportError unit :=
  if (length (client_networks p) =? 0)%nat || (16 <? length (client_networks p))%nat
  then Err (InvalidConfig "WireGuard node gateway requires between 1 and 16 client networks")
  else check_client_networks [] (client_networks p).

Definition validate_for_node (p : WireGuardNodeGatewayPolicy) (c : WireGuardNodeConfig) :
    Result TransportError unit :=
  validate_gateway p;;
  validate_node_config c;;
  mismatch ←
    (if negb (length (client_networks p) =? length (interface_addresses c))%nat then Ok true
     else any_m (λ network,
            found ← any_m (network_matches_address network) (interface_addresses c);
            Ok (negb found)) (client_networks p));
  reject_if mismatch
    (InvalidConfig "WireGuard node gateway networks do not match interface addresses").

Definition zero_key (k : Key) : bool := forallb (λ b, b =? 0) k.

Fixpoint check_host_routes (unique : gset AllowedIp) (l : list AllowedIp) :
    Result TransportError unit :=
  match l with
  | [] => Ok tt
  | a :: l =>
      let host_prefix := if is_ipv4 (ai_network a) then 32 else 128 in
      if negb (ai_prefix_length a =? host_prefix) || is_unspecified (ai_network a)
         || is_multicast (ai_network a) || bool_decide (a ∈ unique)
      then Err (InvalidConfig "invalid or duplicate WireGuard node peer host route")
      else check_host_routes ({[a]} ∪ unique) l
  end.

Definition validate_peer (p : WireGuardNodePeer) : Result TransportError unit :=
  if zero_key (public_key p) then Err (InvalidConfig "WireGuard node peer public key is zero") else
  if (length (peer_allowed_ips p) =? 0)%nat || (16 <? length (peer_allowed_ips p))%nat
  then Err (InvalidConfig "WireGuard node peer requires between 1 and 16 host routes") else
  check_host_routes ∅ (peer_allowed_ips p);;
  validate_keepalive (peer_keepalive_seconds p).

Fixpoint check_allowed_ips (unique : gset AllowedIp) (l : list AllowedIp) :
    Result TransportError unit :=
  match l with
  | [] => Ok tt
  | a :: l =>
      v ← valid_network a;
      if negb v || bool_decide (a ∈ unique)
      then Err (InvalidConfig "invalid or duplicate WireGuard allowed IP prefix")
      else check_allowed_ips ({[a]} ∪ unique) l
  end.

Definition validate_wireguard (c : WireGuardConfig) : Result TransportError unit :=
  if zero_key (peer_public_key c) then Err (InvalidConfig "WireGuard peer public key is zero") else
  if is_empty (trim (host (wg_endpoint c))) then Err (InvalidConfig "endpoint host is empty") else
  validate_interface_addresses (tunnel_addresses c);;
  if (length (allowed_ips c) =? 0)%nat || (64 <? length (allowed_ips c))%nat
  then Err (InvalidConfig "WireGuard allowed IP list must contain between 1 and 64 prefixes") else
  check_allowed_ips ∅ (allowed_ips c);;
  validate_keepalive (persistent_keepalive_seconds c);;
  validate_mtu (mtu c).

(** ** The adapter *)

Class WireGuardBackend (B : Type) := {
  bring_up : string → WireGuardConfig → ConnectContext → Act (B * World) TransportError unit;
  bring_down : string → Act (B * World) TransportError unit;
  backend_health : Act (B * World) Infallible TransportHealth;
}.

Record WireGuardAdapter (B : Type) := mkAdapter {
  interface : string;
  profile : WireGuardConfig;
  backend : B;
  connected : bool;
}.
Arguments mkAdapter {B}.
Arguments interface {B}.
Arguments profile {B}.
Arguments backend {B}.
Arguments connected {B}.

Definition wg_valid_interface (name : string) : bool :=
  negb (is_empty name) && (len name <=? 15)
  && all_bytes (λ c, is_ascii_alphanumeric c || Ascii.eqb c "_"%char || Ascii.eqb c "-"%char) name.

Section adapter.
Context {B : Type} `{WireGuardBackend B}.

Definition set_backend (b : B) (a : WireGuardAdapter B) : WireGuardAdapter B :=
  mkAdapter (interface a) (profile a) b (connected a).

Definition set_connected (c : bool) (a : WireGuardAdapter B) : WireGuardAdapter B :=
  mkAdapter (interface a) (profile a) (backend a) c.

Definition adapter_new (name : string) (p : WireGuardConfig) (b : B) :
    Result TransportError (WireGuardAdapter B) :=
  if negb (wg_valid_interface name)
  then Err (InvalidConfig "invalid WireGuard interface name") else
  validate_wireguard p;;
  Ok (mkAdapter name p b false).

Definition adapter_connect (config : TransportConfig) (context : ConnectContext) :
    Act (WireGuardAdapter B * World) TransportError Session :=
  me ← self (λ a, a);
  guard_err (connected me) AlreadyConnected;;
  guard_err (negb (bool_decide (tc_kind config = WireGuard))
             || negb (bool_decide (tc_endpoint config = wg_endpoint (profile me))))
    (InvalidConfig "WireGuard transport parameters do not match profile");;
  lift (validate_transport config);;
  check context;;
  on_field backend set_backend (bring_up (interface me) (profile me) context);;
  set_self (set_connected true);;
  now ← instant_now;
  mret (mkSession (interface me) WireGuard now).

Definition adapter_disconnect : Act (WireGuardAdapter B * World) TransportError unit :=
  me ← self (λ a, a);
  guard_err (negb (connected me)) NotConnected;;
  on_field backend set_backend (bring_down (interface me));;
  set_self (set_connected false).

Definition adapter_health : Act (WireGuardAdapter B * World) Infallible TransportHealth :=
  me ← self (λ a, a);
  if negb (connected me) then mret (mkHealth Unavailable None 0) else
  on_field backend set_backend backend_health.

#[export] Instance adapter_transport : Transport (WireGuardAdapter B) := {|
  kind _ := WireGuard;
  connect := adapter_connect;
  disconnect := adapter_disconnect;
  health := adapter_health;
|}.
End adapter.

(** ** Meaning of prefixes *)

Definition width (a : IpAddr) : Z := if is_ipv4 a then 32 else 128.

Definition bits_of (a : IpAddr) : Z := match a with V4 b | V6 b => b end.

Definition network_typed (n : AllowedIp) : Prop := ip_typed (ai_network n) ∧ u8 (ai_prefix_length n).

Definition address_typed (a : TunnelAddress) : Prop :=
  ip_typed (ta_address a) ∧ u8 (ta_prefix_length a).

(** [a] has the first [p] bits of [n]. *)
Definition in_prefix (n : IpAddr) (p : Z) (a : IpAddr) : Prop :=
  is_ipv4 a = is_ipv4 n ∧
  Z.shiftr (bits_of a) (width n - p) = Z.shiftr (bits_of n) (width n - p).

(** The addresses of a network. *)
Definition in_network (n : AllowedIp) (a : IpAddr) : Prop :=
  in_prefix (ai_network n) (ai_prefix_length n) a.

(** No bit is set beyond the prefix. *)
Definition canonical_network (n : AllowedIp) : Prop :=
  ai_prefix_length n ≤ width (ai_network n) ∧ is_multicast (ai_network n) = false ∧
  bits_of (ai_network n) mod 2 ^ (width (ai_network n) - ai_prefix_length n) = 0.

(** A routed client subnet: canonical, neither a default route nor a host. *)
Definition client_network (n : AllowedIp) : Prop :=
  0 < ai_prefix_length n < width (ai_network n) ∧ is_unspecified (ai_network n) = false ∧
  canonical_network n.

Definition disjoint_networks (n m : AllowedIp) : Prop :=
  ∀ a, in_network n a → in_network m a → False.

#[export] Instance in_prefix_dec n p a : Decision (in_prefix n p a).
Proof. unfold in_prefix. apply _. Defined.
#[export] Instance canonical_network_dec n : Decision (canonical_network n).
Proof. unfold canonical_network. apply _. Defined.

Lemma width_pos a : 0 < width a ≤ 128.
Proof. unfold width. case_match; lia. Qed.

(** The masking code of one address family, once for both widths. *)
Lemma mask_compare {E} w p x y :
  0 < w ≤ 128 → 0 < p ≤ w → fits w x → fits w y →
  (s ← u_sub 8 w p; mask ← u_shl w (umax w) s; Ok (Z.land x mask =? Z.land y mask)) =
  (Ok (bool_decide (Z.shiftr x (w - p) = Z.shiftr y (w - p))) : Result E bool).
Proof.
  intros Hw Hp Hx Hy. unfold u_sub. rewrite checked_ok by in_range. run.
  destruct (@shl_mask E w (w - p) ltac:(lia)) as (m & -> & Hm).
  f_equal. rewrite !Hm by done. apply eq_true_iff_eq.
  rewrite Z.eqb_eq, bool_decide_eq_true. apply shiftl_shiftr_eq. lia.
Qed.

Lemma networks_overlap_eval {E} l r :
  network_typed l → network_typed r →
  0 < ai_prefix_length l ≤ width (ai_network l) → 0 < ai_prefix_length r ≤ width (ai_network r) →
  @networks_overlap E l r = Ok (bool_decide (in_prefix (ai_network l)
    (Z.min (ai_prefix_length l) (ai_prefix_length r)) (ai_network r))).
Proof.
  destruct l as [[x|x] pl], r as [[y|y] pr]; unfold networks_overlap, network_typed, in_prefix, width; cbn;
    intros [Hx _] [Hy _] Hl Hr; [|f_equal; symmetry; apply bool_decide_eq_false; naive_solver..|];
    (etransitivity; [apply (mask_compare _ (Z.min pl pr)); [lia|lia|done|done]|]);
    f_equal; apply bool_decide_ext; naive_solver.
Qed.

Lemma network_matches_eval {E} n a :
  network_typed n → address_typed a → 0 < ai_prefix_length n ≤ width (ai_network n) →
  @network_matches_address E n a =
    Ok (bool_decide (ai_prefix_length n = ta_prefix_length a ∧ in_network n (ta_address a))).
Proof.
  destruct n as [[x|x] pl], a as [[y|y] pr]; unfold network_matches_address, network_typed,
    address_typed, in_network, in_prefix, width; cbn;
    intros [Hx _] [Hy _] Hl; (destruct (Z.eqb_spec pl pr) as [<-|Hne]; cbn;
      [|f_equal; symmetry; apply bool_decide_eq_false; naive_solver]);
    [|f_equal; symmetry; apply bool_decide_eq_false; naive_solver..|];
    (etransitivity; [apply (mask_compare _ pl); [lia|lia|done|done]|]);
    f_equal; apply bool_decide_ext; naive_solver.
Qed.

Lemma valid_network_eval {E} n :
  network_typed n → @valid_network E n = Ok (bool_decide (canonical_network n)).
Proof.
  destruct n as [a p]. unfold network_typed, canonical_network. cbn. intros [Ha Hp].
  assert (∀ w x, 0 < w ≤ 128 → fits w x →
    (if (w <? p) || is_multicast a then Ok false else
      mask ← (if p =? 0 then Ok 0 else s ← u_sub 8 w p; u_shl w (umax w) s);
      Ok (Z.land x mask =? x) : Result E bool) =
    Ok (bool_decide (p ≤ w ∧ is_multicast a = false ∧ x mod 2 ^ (w - p) = 0))) as Hgen.
  { intros w x Hw Hx. destruct (Z.ltb_spec w p) as [Hgt|Hle]; cbn [orb].
    { f_equal. symmetry. apply bool_decide_eq_false. lia. }
    destruct (is_multicast a); [f_equal; symmetry; apply bool_decide_eq_false; naive_solver|].
    destruct (Z.eqb_spec p 0) as [->|Hnz]; run.
    - rewrite Z.land_0_r, Z.sub_0_r. f_equal. apply eq_true_iff_eq.
      rewrite Z.eqb_eq, bool_decide_eq_true. unfold fits in Hx.
      rewrite Z.mod_small by lia. naive_solver lia.
    - unfold u_sub. rewrite checked_ok by in_range.
      destruct (@shl_mask E w (w - p)) as (m & -> & Hm); [unfold fits in Hp; lia|].
      f_equal. rewrite Hm by done. apply eq_true_iff_eq.
      rewrite Z.eqb_eq, bool_decide_eq_true, shiftl_shiftr_id by lia. naive_solver. }
  destruct a as [x|x]; unfold valid_network; cbn [ai_network ai_prefix_length];
    etransitivity; [apply (Hgen 32); [lia|done]|done|apply (Hgen 128); [lia|done]|done].
Qed.

Lemma in_prefix_refl n p : in_prefix n p n.
Proof. done. Qed.

Lemma in_prefix_sym n m p : in_prefix n p m → in_prefix m p n.
Proof. unfold in_prefix, width. intros [-> ->]. done. Qed.

Lemma width_family a b : is_ipv4 a = is_ipv4 b → width a = width b.
Proof. unfold width. by intros ->. Qed.

(** Two prefixes meet exactly when the shorter one covers the other. *)
Lemma prefixes_meet l r :
  ai_prefix_length l ≤ width (ai_network l) → ai_prefix_length r ≤ width (ai_network r) →
  in_prefix (ai_network l) (Z.min (ai_prefix_length l) (ai_prefix_length r)) (ai_network r) ↔
  ∃ a, in_network l a ∧ in_network r a.
Proof.
  intros Hl Hr. unfold in_network. split.
  - intros Hin. destruct (Z.min_spec (ai_prefix_length l) (ai_prefix_length r)) as [[_ Hm]|[_ Hm]];
      rewrite Hm in Hin; eauto using in_prefix_refl, in_prefix_sym.
  - intros (a & [F1 S1] & [F2 S2]). rewrite F1 in F2. symmetry in F2.
    pose proof (width_family _ _ F2) as Hw. split; [done|]. rewrite <-Hw in *.
    transitivity (Z.shiftr (bits_of a) (width (ai_network r) -
      Z.min (ai_prefix_length l) (ai_prefix_length r))).
    + symmetry. eapply shiftr_coarser; [|done]. lia.
    + eapply shiftr_coarser; [|done]. lia.
Qed.

(** ** The gateway policy *)

Definition gateway_well_formed (p : WireGuardNodeGatewayPolicy) : Prop :=
  (1 ≤ length (client_networks p) ≤ 16)%nat ∧ Forall client_network (client_networks p) ∧
  ForallOrdPairs disjoint_networks (client_networks p).

Definition gateway_typed (p : WireGuardNodeGatewayPolicy) : Prop :=
  Forall network_typed (client_networks p).

Lemma any_m_pure {E A} (f : A → Result E bool) (g : A → bool) l :
  (∀ x, x ∈ l → f x = Ok (g x)) → any_m f l = Ok (existsb g l).
Proof.
  induction l as [|x l IH]; intros Hf; cbn [any_m existsb]; [done|].
  rewrite Hf by set_solver. run. destruct (g x); cbn; [done|]. apply IH. set_solver.
Qed.

Lemma client_network_prefix n : client_network n → 0 < ai_prefix_length n ≤ width (ai_network n).
Proof. intros [? _]. lia. Qed.

Lemma overlap_any {E} before n :
  network_typed n → client_network n → Forall network_typed before → Forall client_network before →
  ∃ b, @any_m E _ (λ other, networks_overlap other n) before = Ok b ∧
    (b = false ↔ Forall (λ m, disjoint_networks m n) before).
Proof.
  intros Hn Hc Ht Hb. rewrite Forall_forall in Ht, Hb. eexists. split.
  - apply any_m_pure. intros m Hm. apply networks_overlap_eval; auto using client_network_prefix.
  - rewrite <-not_true_iff_false, existsb_exists, Forall_forall.
    assert (∀ m, m ∈ before → bool_decide (in_prefix (ai_network m)
      (Z.min (ai_prefix_length m) (ai_prefix_length n)) (ai_network n)) = true ↔
      ¬ disjoint_networks m n) as Hiff.
    { intros m Hm. rewrite bool_decide_eq_true.
      pose proof (client_network_prefix m (Hb m Hm)). pose proof (client_network_prefix n Hc).
      rewrite prefixes_meet by lia. unfold disjoint_networks. split; [naive_solver|].
      intros Hnd. destruct (decide (in_prefix (ai_network m)
        (Z.min (ai_prefix_length m) (ai_prefix_length n)) (ai_network n))) as [Hin|Hin].
      - apply prefixes_meet in Hin; [done|lia..].
      - destruct Hnd. intros a H1 H2. destruct Hin. apply prefixes_meet; [lia..|eauto]. }
    split.
    + intros Hno m Hm. intros a H1 H2. apply Hno. exists m.
      rewrite <-list_elem_of_In. split; [done|]. apply Hiff; [done|]. intros Hd. by apply (Hd a).
    + intros Hall (m & Hm & Htrue). rewrite <-list_elem_of_In in Hm.
      apply Hiff in Htrue; [|done]. by apply Htrue, Hall.
Qed.

Lemma client_network_test {E} n :
  network_typed n →
  (if (ai_prefix_length n =? 0)
      || (ai_prefix_length n =? (if is_ipv4 (ai_network n) then 32 else 128))
      || is_unspecified (ai_network n) then Ok true
   else v ← valid_network n; Ok (negb v) : Result E bool) = Ok (negb (bool_decide (client_network n))).
Proof.
  intros Hn. fold (width (ai_network n)). rewrite valid_network_eval by done. run.
  pose proof Hn as [_ Hp]. unfold fits in Hp. unfold client_network.
  destruct (Z.eqb_spec (ai_prefix_length n) 0); cbn [orb].
  { f_equal. symmetry. apply negb_true_iff, bool_decide_eq_false. lia. }
  destruct (Z.eqb_spec (ai_prefix_length n) (width (ai_network n))); cbn [orb].
  { f_equal. symmetry. apply negb_true_iff, bool_decide_eq_false. lia. }
  destruct (is_unspecified (ai_network n)).
  { f_equal. symmetry. apply negb_true_iff, bool_decide_eq_false. naive_solver. }
  do 2 f_equal. apply bool_decide_ext. unfold canonical_network. naive_solver lia.
Qed.

Lemma check_client_networks_spec before l :
  Forall network_typed before → Forall client_network before → Forall network_typed l →
  (check_client_networks before l = Ok tt ∨ ∃ e, check_client_networks before l = Err e) ∧
  (check_client_networks before l = Ok tt ↔
   Forall client_network l ∧ ForallOrdPairs disjoint_networks l ∧
   ∀ n m, n ∈ before → m ∈ l → disjoint_networks n m).
Proof.
  revert before. induction l as [|n l IH]; intros before Hbt Hbc Hlt; cbn [check_client_networks].
  { split; [by left|]. split; [|done]. intros _. split_and!; [constructor|constructor|set_solver]. }
  apply Forall_cons in Hlt as [Hnt Hlt]. rewrite client_network_test by done. run.
  destruct (decide (client_network n)) as [Hc|Hc].
  2: { rewrite bool_decide_eq_false_2 by done. cbn. split; [eauto|]. split; [done|].
       intros [Hf _]. by apply Forall_cons in Hf as [? _]. }
  rewrite bool_decide_eq_true_2 by done. cbn [negb].
  destruct (@overlap_any TransportError before n) as (b & -> & Hb); [done..|].
  destruct b.
  - split; [eauto|]. split; [done|]. intros (_ & _ & Hd). exfalso.
    enough (true = false) by done. apply Hb, Forall_forall. intros m Hm. apply Hd; set_solver.
  - assert (Forall (λ m, disjoint_networks m n) before) as Hdis by (by apply Hb).
    destruct (IH (before ++ [n])%list) as [Hres Hiff]; [apply Forall_app; split; [done|by apply Forall_singleton]..|done|].
    split; [done|]. rewrite Hiff. split.
    + intros (Hf & Hp & Hd). split_and!.
      * by constructor.
      * constructor; [|done]. apply Forall_forall. intros m Hm. apply Hd; set_solver.
      * rewrite Forall_forall in Hdis. intros m1 m2 H1 [->|H2]%elem_of_cons; [auto|]. apply Hd; set_solver.
    + intros (Hf & Hp & Hd). apply Forall_cons in Hf as [_ Hf]. inversion Hp as [|? ? Hn Hp']; subst.
      split_and!; [done|done|]. rewrite Forall_forall in Hn.
      intros m1 m2 [H1 | ->%list_elem_of_singleton]%elem_of_app Hm2; [apply Hd; set_solver|auto].
Qed.

Lemma validate_gateway_spec p :
  gateway_typed p →
  (validate_gateway p = Ok tt ∨ ∃ e, validate_gateway p = Err e) ∧
  (validate_gateway p = Ok tt ↔ gateway_well_formed p).
Proof.
  intros Ht. unfold validate_gateway, gateway_well_formed.
  destruct (length (client_networks p) =? 0)%nat eqn:H0.
  { apply Nat.eqb_eq in H0. cbn. split; [eauto|]. split; [done|lia]. }
  destruct (16 <? length (client_networks p))%nat eqn:H16.
  { apply Nat.ltb_lt in H16. cbn. split; [eauto|]. split; [done|lia]. }
  apply Nat.eqb_neq in H0. apply Nat.ltb_ge in H16. cbn [orb].
  destruct (check_client_networks_spec [] (client_networks p)) as [Hres Hiff]; [done..|].
  split; [done|]. rewrite Hiff. split.
  - intros (? & ? & _). split_and!; [lia..|done|done].
  - intros (_ & ? & ?). split_and!; [done..|]. intros n m Hn. by apply not_elem_of_nil in Hn.
Qed.

(** ** Interfaces, peers and profiles *)

Definition interface_address_ok (a : TunnelAddress) : Prop :=
  ta_prefix_length a ≤ width (ta_address a) ∧ is_unspecified (ta_address a) = false ∧
  is_multicast (ta_address a) = false.

Definition addresses_well_formed (l : list TunnelAddress) : Prop :=
  (1 ≤ length l ≤ 16)%nat ∧ Forall interface_address_ok l ∧ NoDup (ta_address <$> l).

Definition keepalive_ok (s : option Z) : Prop :=
  ∀ k, s = Some k → 0 < k ≤ MAXIMUM_KEEPALIVE_SECONDS.

Definition mtu_ok (m : Z) : Prop := MINIMUM_MTU ≤ m ≤ MAXIMUM_MTU.

Definition host_route (a : AllowedIp) : Prop :=
  ai_prefix_length a = width (ai_network a) ∧ is_unspecified (ai_network a) = false ∧
  is_multicast (ai_network a) = false.

Definition peer_well_formed (p : WireGuardNodePeer) : Prop :=
  zero_key (public_key p) = false ∧ (1 ≤ length (peer_allowed_ips p) ≤ 16)%nat ∧
  Forall host_route (peer_allowed_ips p) ∧ NoDup (peer_allowed_ips p) ∧
  keepalive_ok (peer_keepalive_seconds p).

Definition profile_well_formed (c : WireGuardConfig) : Prop :=
  zero_key (peer_public_key c) = false ∧ trim (host (wg_endpoint c)) ≠ "" ∧
  addresses_well_formed (tunnel_addresses c) ∧ (1 ≤ length (allowed_ips c) ≤ 64)%nat ∧
  Forall canonical_network (allowed_ips c) ∧ NoDup (allowed_ips c) ∧
  keepalive_ok (persistent_keepalive_seconds c) ∧ mtu_ok (mtu c).

Definition optional_u16 (s : option Z) : Prop := ∀ k, s = Some k → u16 k.

Lemma length_test n k :
  (1 ≤ k)%nat → ((n =? 0)%nat || (k <? n)%nat) = negb (bool_decide (1 ≤ n ≤ k)%nat).
Proof.
  intros Hk. case_bool_decide; cbn [negb].
  - apply orb_false_iff. rewrite Nat.eqb_neq, Nat.ltb_ge. lia.
  - apply orb_true_iff. rewrite Nat.eqb_eq, Nat.ltb_lt. lia.
Qed.

Lemma check_addresses_spec l :
  check_addresses ∅ l = Ok tt ↔ Forall interface_address_ok l ∧ NoDup (ta_address <$> l).
Proof.
  apply unique_loop_spec; [done|]. intros seen a l'. cbn [check_addresses].
  unfold interface_address_ok. fold (width (ta_address a)).
  destruct (Z.ltb_spec (width (ta_address a)) (ta_prefix_length a)), (is_unspecified _),
    (is_multicast _); cbn [orb]; try (naive_solver lia). case_bool_decide; naive_solver.
Qed.

Lemma validate_interface_addresses_spec l :
  validate_interface_addresses l = Ok tt ↔ addresses_well_formed l.
Proof.
  unfold validate_interface_addresses, addresses_well_formed.
  rewrite length_test by lia. case_bool_decide; cbn; [|naive_solver].
  rewrite check_addresses_spec. naive_solver.
Qed.

Lemma validate_keepalive_spec s :
  optional_u16 s → validate_keepalive s = Ok tt ↔ keepalive_ok s.
Proof.
  intros Ht. unfold validate_keepalive, keepalive_ok, reject_if.
  destruct s as [k|]; [|naive_solver]. specialize (Ht k eq_refl). unfold fits in Ht.
  destruct ((k =? 0) || (MAXIMUM_KEEPALIVE_SECONDS <? k)) eqn:Hb; split; try done.
  - intros Hk. specialize (Hk k eq_refl). lia.
  - intros _ k' [= <-]. lia.
Qed.

Lemma validate_mtu_spec m : validate_mtu m = Ok tt ↔ mtu_ok m.
Proof.
  unfold validate_mtu, mtu_ok, reject_if.
  destruct ((MINIMUM_MTU <=? m) && (m <=? MAXIMUM_MTU)) eqn:Hb; cbn; split; try done; lia.
Qed.

Lemma validate_node_config_spec c :
  validate_node_config c = Ok tt ↔
  addresses_well_formed (interface_addresses c) ∧ mtu_ok (node_mtu c).
Proof.
  unfold validate_node_config. rewrite <-validate_interface_addresses_spec, <-validate_mtu_spec.
  destruct (validate_interface_addresses _) as [[]| |]; run; naive_solver.
Qed.

Lemma check_host_routes_spec l :
  check_host_routes ∅ l = Ok tt ↔ Forall host_route l ∧ NoDup l.
Proof.
  rewrite (unique_loop_spec host_route id); [by rewrite list_fmap_id|done|].
  intros seen a l'. cbn [check_host_routes]. unfold host_route. fold (width (ai_network a)).
  destruct (Z.eqb_spec (ai_prefix_length a) (width (ai_network a))), (is_unspecified _),
    (is_multicast _); cbn [orb negb]; try case_bool_decide; naive_solver.
Qed.

Lemma check_allowed_ips_spec l :
  Forall network_typed l →
  check_allowed_ips ∅ l = Ok tt ↔ Forall canonical_network l ∧ NoDup l.
Proof.
  intros Ht.
  assert (∀ seen, check_allowed_ips seen l = Ok tt ↔
    Forall canonical_network l ∧ NoDup l ∧ ∀ a, a ∈ l → a ∉ seen) as Hgen.
  2: { rewrite Hgen. split; [naive_solver|]. intros [? ?]. split_and!; set_solver. }
  induction l as [|a l IH]; intros seen; cbn [check_allowed_ips].
  { split; [|done]. intros _. split_and!; [constructor|constructor|set_solver]. }
  apply Forall_cons in Ht as [Ha Ht]. rewrite valid_network_eval by done. run.
  rewrite Forall_cons, NoDup_cons.
  case_bool_decide as Hc; cbn [negb orb]; [|naive_solver].
  case_bool_decide as Hs; [naive_solver set_solver|]. rewrite IH by done. set_solver.
Qed.

Lemma validate_peer_spec p :
  optional_u16 (peer_keepalive_seconds p) → validate_peer p = Ok tt ↔ peer_well_formed p.
Proof.
  intros Ht. unfold validate_peer, peer_well_formed. rewrite length_test by lia.
  destruct (zero_key _); [naive_solver|]. case_bool_decide; cbn [negb]; [|naive_solver].
  rewrite <-validate_keepalive_spec by done. pose proof (check_host_routes_spec (peer_allowed_ips p)).
  destruct (check_host_routes _ _) as [[]| |]; run; naive_solver.
Qed.

Lemma is_empty_spec s : is_empty s = false ↔ s ≠ "".
Proof. by destruct s. Qed.

(** Every routed network owns an interface address. *)
Definition matched (n : AllowedIp) (a : TunnelAddress) : Prop :=
  ai_prefix_length n = ta_prefix_length a ∧ in_network n (ta_address a).

#[export] Instance matched_dec n a : Decision (matched n a).
Proof. unfold matched, in_network. apply _. Defined.

Lemma all_matched_test {E} nets addrs :
  Forall network_typed nets → Forall address_typed addrs →
  Forall client_network nets →
  @any_m E _ (λ n, found ← any_m (network_matches_address n) addrs; Ok (negb found)) nets =
    Ok (negb (bool_decide (Forall (λ n, Exists (matched n) addrs) nets))).
Proof.
  intros Hnt Hat Hc. rewrite Forall_forall in Hnt, Hc. rewrite Forall_forall in Hat.
  etransitivity.
  { apply (any_m_pure _ (λ n, negb (bool_decide (Exists (matched n) addrs)))). intros n Hn.
    rewrite (any_m_pure _ (λ a, bool_decide (matched n a))).
    - run. do 2 f_equal. apply eq_true_iff_eq. rewrite existsb_exists, bool_decide_eq_true, Exists_exists.
      setoid_rewrite bool_decide_eq_true. by setoid_rewrite list_elem_of_In.
    - intros a Ha. rewrite network_matches_eval; auto using client_network_prefix. }
  f_equal. apply eq_true_iff_eq. rewrite existsb_exists, negb_true_iff, bool_decide_eq_false.
  split.
  - intros (n & Hn & Hb%negb_true_iff%bool_decide_eq_false) HF. rewrite Forall_forall in HF.
    apply Hb, HF. by rewrite list_elem_of_In.
  - intros (n & Hn & Hb)%not_Forall_Exists%Exists_exists; [|apply _]. exists n.
    rewrite <-list_elem_of_In, bool_decide_eq_false_2 by done. done.
Qed.

(** Pairwise disjoint networks that each own an address, as many as there are
    addresses, leave no address uncovered. *)
Lemma matched_covers nets addrs :
  ForallOrdPairs disjoint_networks nets →
  Forall (λ n, Exists (matched n) addrs) nets → length nets = length addrs →
  ∀ a, a ∈ addrs → ∃ n, n ∈ nets ∧ matched n a.
Proof.
  intros Hd Hm Hlen.
  assert (∃ owned, Forall2 matched nets owned ∧ NoDup owned ∧ owned ⊆ addrs) as
    (owned & Hf2 & Hnd & Hsub).
  { clear Hlen. induction Hd as [|n nets Hn Hd IH]; [exists []; split_and!; [constructor|constructor|set_solver]|].
    apply Forall_cons in Hm as [He Hm]. destruct (IH Hm) as (owned & Hf2 & Hnd & Hsub).
    apply Exists_exists in He as (a & Ha & Hma). exists (a :: owned).
    split_and!; [by constructor| |set_solver]. constructor; [|done]. intros Hin.
    destruct (list_elem_of_lookup_1 _ _ Hin) as (i & Hi).
    destruct (Forall2_lookup_r _ _ _ _ _ Hf2 Hi) as (m & Hmi & [_ Hmm]).
    rewrite Forall_forall in Hn. apply (Hn m (list_elem_of_lookup_2 _ _ _ Hmi) (ta_address a)); [|done].
    apply Hma. }
  assert (length owned = length addrs) as Hol by (rewrite <-(Forall2_length _ _ _ Hf2); done).
  intros a Ha. assert (a ∈ owned) as Hin.
  { apply list_elem_of_In. refine (NoDup_length_incl (l := owned) (l' := addrs) _ _ _ a _); [by apply NoDup_ListNoDup|lia| |].
    - intros x. rewrite <-!list_elem_of_In. apply Hsub.
    - by apply list_elem_of_In. }
  destruct (list_elem_of_lookup_1 _ _ Hin) as (i & Hi).
  destruct (Forall2_lookup_r _ _ _ _ _ Hf2 Hi) as (n & Hn & Hmn).
  exists n. split; [by eapply list_elem_of_lookup_2|done].
Qed.

Lemma validate_interface_addresses_returns l : validate_interface_addresses l ≠ Panic.
Proof.
  unfold validate_interface_addresses. case_match eqn:Hlen; [done|]. clear Hlen.
  generalize (∅ : gset IpAddr). induction l as [|a l IH]; intros seen; cbn [check_addresses]; [done|].
  destruct (_ || _); [done|]. case_bool_decide; [done|apply IH].
Qed.

Lemma validate_node_config_returns c : validate_node_config c ≠ Panic.
Proof.
  unfold validate_node_config. pose proof (validate_interface_addresses_returns (interface_addresses c)).
  destruct (validate_interface_addresses _); run; try done. unfold validate_mtu, reject_if. by case_match.
Qed.

(** ** Theorems *)

(** [networks_overlap] decides whether two networks share an address; with
    prefixes between one bit and the full width its shift cannot panic. *)
Theorem networks_overlap_spec {E} l r :
  network_typed l → network_typed r →
  0 < ai_prefix_length l ≤ width (ai_network l) → 0 < ai_prefix_length r ≤ width (ai_network r) →
  ∃ b, @networks_overlap E l r = Ok b ∧
    (b = true ↔ ∃ a, ip_typed a ∧ in_network l a ∧ in_network r a).
Proof.
  intros Hl Hr Pl Pr. eexists. split; [by apply networks_overlap_eval|].
  rewrite bool_decide_eq_true. split.
  - unfold in_network. intros Hin.
    destruct (Z.min_spec (ai_prefix_length l) (ai_prefix_length r)) as [[_ Hm]|[_ Hm]]; rewrite Hm in Hin.
    + exists (ai_network r). split_and!; [apply Hr|done|apply in_prefix_refl].
    + exists (ai_network l). split_and!; [apply Hl|apply in_prefix_refl|by apply in_prefix_sym].
  - intros (a & _ & Ha). apply prefixes_meet; [lia..|eauto].
Qed.

(** 10.1.0.0/16 and 10.0.0.0/8. *)
Lemma networks_overlap_spec_witness :
  ∃ b, @networks_overlap unit (mkAllowedIp (V4 167837696) 16) (mkAllowedIp (V4 167772160) 8) = Ok b
    ∧ b = true.
Proof.
  destruct (@networks_overlap_spec unit (mkAllowedIp (V4 167837696) 16) (mkAllowedIp (V4 167772160) 8))
    as (b & Hb & _); [by repeat split..|cbn; lia|cbn; lia|].
  exists b. split; [exact Hb|]. vm_compute in Hb. by injection Hb as <-.
Defined.

(** [WireGuardNodeGatewayPolicy::validate] accepts exactly the policies with
    one to sixteen canonical client subnets that are pairwise disjoint as sets
    of addresses, and it never panics. *)
Theorem validate_gateway_exact p :
  gateway_typed p →
  (validate_gateway p = Ok tt ↔ gateway_well_formed p) ∧ validate_gateway p ≠ Panic.
Proof.
  intros Ht. destruct (validate_gateway_spec p Ht) as [Hres Hiff]. split; [done|].
  by destruct Hres as [-> | [e ->]].
Qed.

Definition sample_gateway : WireGuardNodeGatewayPolicy :=
  mkGatewayPolicy [mkAllowedIp (V4 169082880) 24; mkAllowedIp (V4 169083136) 24].

Lemma validate_gateway_exact_witness :
  gateway_well_formed sample_gateway ∧ validate_gateway sample_gateway = Ok tt.
Proof.
  assert (validate_gateway sample_gateway = Ok tt) as H by reflexivity.
  split; [|exact H]. apply (validate_gateway_exact sample_gateway); [|exact H].
  repeat constructor; cbn; lia.
Defined.

(** When a gateway policy is accepted for a node, its networks and the
    interface addresses describe the same prefixes: every client network
    contains an interface address of its prefix length, and, the networks being
    disjoint and as many as the addresses, every interface address lies in a
    client network.  The check never panics. *)
Theorem validate_for_node_covers p c :
  gateway_typed p → Forall address_typed (interface_addresses c) →
  validate_for_node p c ≠ Panic ∧
  (validate_for_node p c = Ok tt →
   (∀ n, n ∈ client_networks p → ∃ a, a ∈ interface_addresses c ∧ matched n a) ∧
   (∀ a, a ∈ interface_addresses c → ∃ n, n ∈ client_networks p ∧ matched n a)).
Proof.
  intros Ht Hat. unfold validate_for_node. destruct (validate_gateway_spec p Ht) as [Hres Hiff].
  destruct Hres as [Hok | [e ->]]; [|by run]. rewrite Hok. run.
  apply Hiff in Hok as (_ & Hc & Hd). pose proof (validate_node_config_returns c).
  destruct (validate_node_config c); [|by run..]. run.
  destruct (Nat.eqb_spec (length (client_networks p)) (length (interface_addresses c))) as [Hlen|];
    cbn [negb]; [|done].
  pose proof (@all_matched_test TransportError _ _ Ht Hat Hc) as Htest. run in Htest. rewrite Htest.
  case_bool_decide as Hm; cbn [negb]; [|done]. split; [done|]. intros _. split.
  - intros n Hn. rewrite Forall_forall in Hm. apply Exists_exists, Hm, Hn.
  - by apply matched_covers.
Qed.

Definition sample_node_config : WireGuardNodeConfig :=
  mkNodeConfig 51820 [mkTunnelAddress (V4 169083137) 24; mkTunnelAddress (V4 169082881) 24] 1420.

Lemma validate_for_node_covers_witness :
  validate_for_node sample_gateway sample_node_config = Ok tt ∧
  ∃ n, n ∈ client_networks sample_gateway ∧ matched n (mkTunnelAddress (V4 169082881) 24).
Proof.
  assert (validate_for_node sample_gateway sample_node_config = Ok tt) as H by reflexivity.
  split; [exact H|].
  apply (validate_for_node_covers sample_gateway sample_node_config); [..|exact H|].
  - repeat constructor; cbn; lia.
  - repeat constructor; cbn; lia.
  - apply elem_of_cons. right. apply elem_of_cons. by left.
Defined.

(** C38: [WireGuardConfig::validate] accepts exactly the well-formed profiles: a
    nonzero key, a nonblank endpoint, bounded distinct unicast interface
    addresses, bounded distinct canonical prefixes, and keepalive and MTU inside
    their limits. *)
Theorem validate_wireguard_exact c :
  Forall network_typed (allowed_ips c) → optional_u16 (persistent_keepalive_seconds c) →
  validate_wireguard c = Ok tt ↔ profile_well_formed c.
Proof.
  intros Ht Hk. unfold validate_wireguard, profile_well_formed. rewrite length_test by lia.
  rewrite <-is_empty_spec, <-validate_interface_addresses_spec, <-validate_mtu_spec.
  rewrite <-(validate_keepalive_spec _ Hk). pose proof (check_allowed_ips_spec _ Ht) as Hal.
  destruct (zero_key _); [naive_solver|]. destruct (is_empty _); [naive_solver|].
  destruct (validate_interface_addresses _) as [[]| |]; run; [|naive_solver..].
  case_bool_decide; cbn [negb]; [|naive_solver].
  destruct (check_allowed_ips _ _) as [[]| |]; [|naive_solver..].
  destruct (validate_keepalive _) as [[]| |]; naive_solver.
Qed.

Definition sample_profile : WireGuardConfig :=
  mkWireGuardConfig (replicate 32 7) (mkEndpoint "192.0.2.1" 51820)
    [mkTunnelAddress (V4 169082882) 32] [mkAllowedIp (V4 0) 0; mkAllowedIp (V6 0) 0] (Some 25) 1420.

Lemma validate_wireguard_exact_witness :
  validate_wireguard sample_profile = Ok tt ∧ profile_well_formed sample_profile.
Proof.
  assert (validate_wireguard sample_profile = Ok tt) as H by (vm_compute; reflexivity).
  split; [exact H|]. apply (validate_wireguard_exact sample_profile); [..|exact H].
  - repeat constructor; cbn; lia.
  - intros k [= <-]. split; cbn; lia.
Defined.
