(* ===== verification/KillSwitch.v ===== *)
(** The kill switch and the connection controller: [core/killswitch/src/lib.rs].

    [KillSwitch] is the traffic-policy state machine; [ConnectionController]
    couples it with a [Transport] and a [Firewall].  The firewall's promise (an
    accepted policy is enforced, a rejected one leaves the previous policy in
    force) is the class [FirewallSpec], and [Independent] says that the
    transport does not touch the firewall; against these interfaces the
    controller is shown fail-secure on every path, errors included. *)

From S2P Require Import Prelude Machine Text Net Env Transport WireGuard.
Open Scope string_scope.
Open Scope Z_scope.

(** ** The state machine *)

Inductive TrafficPolicy :=
| Disabled
| BlockNonTunnel
| TunnelOnly (tunnel : string).

#[export] Instance policy_eq_dec : EqDecision TrafficPolicy.
Proof. solve_decision. Defined.

Record KillSwitch := mkKillSwitch {
  always_on : bool;
  policy : TrafficPolicy;
}.

Inductive KillSwitchError := AlwaysOn | NotEnabled | InvalidInterface | TransportActive.

#[export] Instance ks_error_eq_dec : EqDecision KillSwitchError.
Proof. solve_decision. Defined.

Definition display_ks_error (e : KillSwitchError) : string :=
  match e with
  | AlwaysOn => "always-on kill switch cannot be disabled"
  | NotEnabled => "kill switch is not enabled"
  | InvalidInterface => "invalid tunnel interface name"
  | TransportActive => "transport teardown is not complete"
  end.

Definition ks_valid_interface (name : string) : bool :=
  negb (is_empty name) && (len name <=? 63)
  && all_bytes (λ c, is_ascii_alphanumeric c || Ascii.eqb c "-"%char
                     || Ascii.eqb c "_"%char || Ascii.eqb c "."%char) name.

Definition set_policy (p : TrafficPolicy) (k : KillSwitch) : KillSwitch :=
  mkKillSwitch (always_on k) p.

Definition ks_new (always_on : bool) : KillSwitch :=
  mkKillSwitch always_on (if always_on then BlockNonTunnel else Disabled).

Definition enable (k : KillSwitch) : KillSwitch := set_policy BlockNonTunnel k.

Definition ks_disable : Act KillSwitch KillSwitchError unit :=
  k ← read (λ k, k);
  guard_err (always_on k) AlwaysOn;;
  update (set_policy Disabled).

Definition tunnel_established (name : string) : Act KillSwitch KillSwitchError unit :=
  k ← read (λ k, k);
  guard_err (bool_decide (policy k = Disabled)) NotEnabled;;
  guard_err (negb (ks_valid_interface name)) InvalidInterface;;
  update (set_policy (TunnelOnly name)).

Definition tunnel_lost (k : KillSwitch) : KillSwitch :=
  if bool_decide (policy k = Disabled) then k else set_policy BlockNonTunnel k.

(** ** The firewall boundary *)

Inductive FirewallError := FirewallErr (reason : string).

Definition display_firewall_error (e : FirewallError) : string :=
  match e with FirewallErr reason => "firewall policy failed: " +:+ reason end.

Class Firewall (F : Type) := {
  fw_apply : TrafficPolicy → Act (F * World) FirewallError unit;
}.

(** The in-memory backend for domain tests. *)
Inductive MemoryFirewall := memory_firewall.

#[export] Instance memory_firewall_ops : Firewall MemoryFirewall := {|
  fw_apply _ := mret tt;
|}.

(** What an implementation promises: it applies policies atomically and leaves
    the previous policy effective when an update fails. *)
Class FirewallSpec (F : Type) `{Firewall F} := {
  enforces : F → World → TrafficPolicy → Prop;
  apply_accepted : ∀ p f w f' w',
    fw_apply p (f, w) = (Ok tt, (f', w')) → enforces f' w' p;
  apply_rejected : ∀ p q f w e f' w',
    fw_apply p (f, w) = (Err e, (f', w')) → enforces f w q → enforces f' w' q;
}.

(** The transport never changes what the firewall enforces. *)
Class Independent (T F : Type) `{Transport T} `{FirewallSpec F} := {
  connect_frame : ∀ config context t w r t' w' f q,
    connect config context (t, w) = (r, (t', w')) → enforces f w q → enforces f w' q;
  disconnect_frame : ∀ t w r t' w' f q,
    disconnect (t, w) = (r, (t', w')) → enforces f w q → enforces f w' q;
  health_frame : ∀ t w r t' w' f q,
    health (t, w) = (r, (t', w')) → enforces f w q → enforces f w' q;
}.

(** ** The controller *)

Inductive ConnectionError :=
| FirewallFailed (e : FirewallError)
| KillSwitchFailed (e : KillSwitchError)
| TransportFailed (e : TransportError).

Definition display_connection_error (e : ConnectionError) : string :=
  match e with
  | FirewallFailed e => display_firewall_error e
  | KillSwitchFailed e => display_ks_error e
  | TransportFailed e => display_transport_error e
  end.

Record ConnectionController (T F : Type) := mkController {
  kill_switch : KillSwitch;
  transport : T;
  firewall : F;
  transport_may_be_active : bool;
}.
Arguments mkController {T F}.
Arguments kill_switch {T F}.
Arguments transport {T F}.
Arguments firewall {T F}.
Arguments transport_may_be_active {T F}.

Section controller.
Context {T F : Type} `{Transport T} `{Firewall F}.
Implicit Types c : ConnectionController T F.

Definition set_kill_switch (k : KillSwitch) c : ConnectionController T F :=
  mkController k (transport c) (firewall c) (transport_may_be_active c).
Definition set_transport (t : T) c : ConnectionController T F :=
  mkController (kill_switch c) t (firewall c) (transport_may_be_active c).
Definition set_firewall (f : F) c : ConnectionController T F :=
  mkController (kill_switch c) (transport c) f (transport_may_be_active c).
Definition set_active (b : bool) c : ConnectionController T F :=
  mkController (kill_switch c) (transport c) (firewall c) b.

Definition controller_policy c : TrafficPolicy := policy (kill_switch c).

Definition apply_policy (p : TrafficPolicy) :
    Act (ConnectionController T F * World) ConnectionError unit :=
  act_map_err FirewallFailed (on_field firewall set_firewall (fw_apply p)).

Definition transport_disconnect :
    Act (ConnectionController T F * World) ConnectionError unit :=
  act_map_err TransportFailed (on_field transport set_transport disconnect).

(** [ConnectionController::new]: the initial policy is applied first. *)
Definition controller_new (k : KillSwitch) (t : T) :
    Act (F * World) FirewallError (ConnectionController T F) :=
  fw_apply (policy k);;
  f ← self (λ f, f);
  mret (mkController k t f false).

(** [if self.transport.disconnect().is_ok() { self.transport_may_be_active = false; }]
    followed by the error return. *)
Definition abandon (error : ConnectionError) {A} :
    Act (ConnectionController T F * World) ConnectionError A :=
  r ← attempt (E := ConnectionError) transport_disconnect;
  (match r with inr _ => set_self (set_active false) | inl _ => mret tt end);;
  raise error.

Definition controller_connect (config : TransportConfig) (context : ConnectContext) :
    Act (ConnectionController T F * World) ConnectionError Session :=
  me ← self (λ c, c);
  let blocking := enable (kill_switch me) in
  apply_policy (policy blocking);;
  set_self (set_kill_switch blocking);;
  set_self (set_active true);;
  session ← act_map_err TransportFailed
    (on_field transport set_transport (connect config context));
  me ← self (λ c, c);
  match tunnel_established (session_id session) (kill_switch me) with
  | (Ok _, tunnel) =>
      applied ← attempt (E := ConnectionError) (apply_policy (policy tunnel));
      match applied with
      | inl error => abandon error
      | inr _ => set_self (set_kill_switch tunnel);; mret session
      end
  | (Err error, _) => abandon (KillSwitchFailed error)
  | (Panic, _) => lift Panic
  end.

Definition controller_disconnect : Act (ConnectionController T F * World) ConnectionError unit :=
  me ← self (λ c, c);
  let blocking := tunnel_lost (kill_switch me) in
  apply_policy (policy blocking);;
  set_self (set_kill_switch blocking);;
  transport_disconnect;;
  set_self (set_active false).

Definition controller_disable : Act (ConnectionController T F * World) ConnectionError unit :=
  me ← self (λ c, c);
  guard_err (transport_may_be_active me) (KillSwitchFailed TransportActive);;
  guard_err (match controller_policy me with TunnelOnly _ => true | _ => false end)
    (KillSwitchFailed NotEnabled);;
  match ks_disable (kill_switch me) with
  | (Ok _, disabled) =>
      apply_policy (policy disabled);;
      set_self (set_kill_switch disabled)
  | (Err error, _) => raise (KillSwitchFailed error)
  | (Panic, _) => lift Panic
  end.

(** ** Sequences of calls *)

(** The public calls; [transport_mut] is used to ask the transport's health. *)
Inductive ControllerCall :=
| CallConnect (config : TransportConfig) (context : ConnectContext)
| CallDisconnect
| CallDisable
| CallHealth.

Definition controller_call (call : ControllerCall) :
    Act (ConnectionController T F * World) ConnectionError unit :=
  match call with
  | CallConnect config context => controller_connect config context;; mret tt
  | CallDisconnect => controller_disconnect
  | CallDisable => controller_disable
  | CallHealth => act_map_err infallible (on_field transport set_transport health);; mret tt
  end.

(** [steps s s'] when some sequence of calls that do not panic leads from [s] to
    [s'], whatever each of them returns. *)
Inductive steps : ConnectionController T F * World → ConnectionController T F * World → Prop :=
| steps_refl s : steps s s
| steps_call s call r s' s'' :
    steps s s' → controller_call call s' = (r, s'') → r ≠ Panic → steps s s''.
End controller.

(** ** The state machine keeps its promises *)

Inductive KillSwitchStep : KillSwitch → KillSwitch → Prop :=
| step_enable k : KillSwitchStep k (enable k)
| step_disable k : KillSwitchStep k (ks_disable k).2
| step_established k name : KillSwitchStep k (tunnel_established name k).2
| step_lost k : KillSwitchStep k (tunnel_lost k).

Definition ks_reachable (k : KillSwitch) : Prop :=
  ∃ always_on, rtc KillSwitchStep (ks_new always_on) k.

Definition ks_invariant (k : KillSwitch) : Prop :=
  (always_on k = true → policy k ≠ Disabled) ∧
  (∀ name, policy k = TunnelOnly name → ks_valid_interface name = true).

Lemma tunnel_established_cases name k :
  tunnel_established name k =
    if bool_decide (policy k = Disabled) then (Err NotEnabled, k)
    else if ks_valid_interface name then (Ok tt, set_policy (TunnelOnly name) k)
    else (Err InvalidInterface, k).
Proof.
  unfold tunnel_established. run. case_bool_decide; [done|]. by destruct (ks_valid_interface name).
Qed.

Lemma ks_disable_cases k :
  ks_disable k = if always_on k then (Err AlwaysOn, k) else (Ok tt, set_policy Disabled k).
Proof. unfold ks_disable. run. by destruct (always_on k). Qed.

Lemma ks_step_always_on k k' : KillSwitchStep k k' → always_on k' = always_on k.
Proof.
  destruct 1; [done| | |].
  - rewrite ks_disable_cases. destruct (always_on k) eqn:Ho; exact Ho.
  - rewrite tunnel_established_cases. case_bool_decide; [done|]. by destruct (ks_valid_interface name).
  - unfold tunnel_lost. by case_bool_decide.
Qed.

Lemma ks_invariant_new b : ks_invariant (ks_new b).
Proof. by destruct b. Qed.

Lemma ks_invariant_enable k : ks_invariant (enable k).
Proof. by split. Qed.

Lemma ks_invariant_lost k : ks_invariant k → ks_invariant (tunnel_lost k).
Proof. unfold tunnel_lost. case_bool_decide; [done|]. by split. Qed.

Lemma ks_invariant_step k k' : ks_invariant k → KillSwitchStep k k' → ks_invariant k'.
Proof.
  intros Hk. destruct 1; auto using ks_invariant_enable, ks_invariant_lost.
  - rewrite ks_disable_cases. destruct (always_on k) eqn:Ho; [done|]. by split; cbn; [congruence|].
  - rewrite tunnel_established_cases. case_bool_decide; [done|].
    destruct (ks_valid_interface name) eqn:Hv; [|done]. split; cbn; [done|]. by intros ? [= <-].
Qed.

Lemma ks_invariant_reachable k : ks_reachable k → ks_invariant k.
Proof.
  intros [b Hr]. pose proof (ks_invariant_new b) as Hi.
  induction Hr as [|k1 k2 k3 Hs Hr IH]; [done|]. eauto using ks_invariant_step.
Qed.

(** ** The controller is fail-secure *)

Section fail_secure.
Context {T F : Type} `{HI : Independent T F}.
Implicit Types (c : ConnectionController T F) (w : World).

(** What the program records is what the system enforces; filtering is never
    off while a transport may be active or the kill switch is always on. *)
Definition fail_secure (s : ConnectionController T F * World) : Prop :=
  enforces (firewall s.1) s.2 (controller_policy s.1) ∧
  ks_invariant (kill_switch s.1) ∧
  (transport_may_be_active s.1 = true → controller_policy s.1 ≠ Disabled).

Lemma wp_apply_policy p c w Q :
  (∀ f w', enforces f w' p → Q (Ok tt) (set_firewall f c, w')) →
  (∀ e f w', (∀ q, enforces (firewall c) w q → enforces f w' q) →
    Q (Err (FirewallFailed e)) (set_firewall f c, w')) →
  (∀ s, Q Panic s) →
  wp (apply_policy p) Q (c, w).
Proof.
  intros Hok Herr Hpanic. unfold apply_policy. wp_run. apply wp_intro.
  intros [[]|e|] [f w'] Hm; cbn; [|eauto..].
  - apply Hok. by eapply apply_accepted.
  - apply Herr. intros q. by eapply apply_rejected.
Qed.

Lemma wp_transport_disconnect c w Q :
  (∀ r t w', (∀ f q, enforces f w q → enforces f w' q) →
    Q (map_err TransportFailed r) (set_transport t c, w')) →
  wp transport_disconnect Q (c, w).
Proof.
  intros HQ. unfold transport_disconnect. wp_run. apply wp_intro.
  intros r [t w'] Hm. apply HQ. intros f q. by eapply disconnect_frame.
Qed.

(** Giving up a connection keeps the recorded policy and what is enforced. *)
Lemma wp_abandon error {A} c w (Q : Result ConnectionError A → _ → Prop) :
  (∀ t b w', (∀ q, enforces (firewall c) w q → enforces (firewall c) w' q) →
    Q (Err error) (set_active b (set_transport t c), w')) →
  (∀ s, Q Panic s) →
  wp (abandon error) Q (c, w).
Proof.
  intros HQ Hp. unfold abandon. wp_run. apply wp_transport_disconnect.
  intros [[]|e|] t w' Hframe; cbn; wp_run; [..|done].
  - apply HQ. eauto.
  - apply (HQ t (transport_may_be_active c)). eauto.
Qed.

(** What a connection attempt from [(c, w)] can end in. *)
Definition connect_outcome config context c w
    (r : Result ConnectionError Session) (s : ConnectionController T F * World) : Prop :=
  let attempted r1 :=
    ∃ f1 w1 s1, enforces f1 w1 BlockNonTunnel ∧
      connect config context (transport c, w1) = (r1, s1) in
  match r with
  | Ok session =>
      attempted (Ok session) ∧
      controller_policy s.1 = TunnelOnly (session_id session) ∧
      transport_may_be_active s.1 = true
  | Err e =>
      (∃ e' f, e = FirewallFailed e' ∧ s.1 = set_firewall f c) ∨
      ((∃ r1, attempted r1) ∧ controller_policy s.1 = BlockNonTunnel)
  | Panic => True
  end.

Lemma wp_connect config context c w :
  fail_secure (c, w) →
  wp (controller_connect config context)
    (λ r s, connect_outcome config context c w r s ∧ (r ≠ Panic → fail_secure s)) (c, w).
Proof.
  intros (Henf & Hks & Hact). unfold controller_connect. wp_run.
  apply wp_apply_policy; cbn; [| |done].
  2: { intros e f w' Hrej. split; [left; eauto|]. intros _. split_and!; cbn; auto; apply Hks. }
  intros f1 w1 Hf1. wp_run. apply wp_intro. intros r1 [t1 w2] Hconn. cbn in Hconn.
  pose proof (λ f q, connect_frame _ _ _ _ _ _ _ f q Hconn) as Hframe.
  assert (Hatt : ∃ f1 w1 s1, enforces f1 w1 BlockNonTunnel ∧
    connect config context (transport c, w1) = (r1, s1)) by eauto 10.
  assert (∀ e t b f w', enforces f w' BlockNonTunnel →
    connect_outcome config context c w (Err e)
      (mkController (enable (kill_switch c)) t f b, w') ∧
    (Err (A := Session) e ≠ Panic → fail_secure (mkController (enable (kill_switch c)) t f b, w')))
    as Hblocked.
  { intros e t b f w' Hf. cbn. split; [right; eauto|]. intros _. split_and!; [done| |done].
    apply ks_invariant_enable. }
  destruct r1 as [session|e1|]; cbn [map_err]; wp_run; [|eauto|done].
  rewrite tunnel_established_cases. cbn [kill_switch set_transport set_active set_kill_switch].
  rewrite bool_decide_eq_false_2 by done.
  destruct (ks_valid_interface (session_id session)) eqn:Hv.
  - wp_run. apply wp_apply_policy; cbn; [| |done].
    + intros f2 w3 Hf2. wp_run. split; [by split_and!|]. intros _.
      split_and!; [done|split; cbn; [done|]|done]. by intros ? [= <-].
    + intros e2 f2 w3 Hrej. wp_run. apply wp_abandon; [|done].
      intros t b w4 Hfr. apply Hblocked. cbn in Hfr. eauto.
  - apply wp_abandon; [|done]. intros t b w4 Hfr. apply Hblocked. cbn in Hfr. eauto.
Qed.

(** A disconnect blocks first; only a completed teardown clears the flag. *)
Definition disconnect_outcome c (r : Result ConnectionError unit)
    (s : ConnectionController T F * World) : Prop :=
  match r with
  | Ok _ => controller_policy s.1 = policy (tunnel_lost (kill_switch c)) ∧
      transport_may_be_active s.1 = false
  | Err (FirewallFailed _) => ∃ f, s.1 = set_firewall f c
  | Err (TransportFailed _) => controller_policy s.1 = policy (tunnel_lost (kill_switch c)) ∧
      transport_may_be_active s.1 = transport_may_be_active c
  | Err (KillSwitchFailed _) => False
  | Panic => True
  end.

Lemma wp_disconnect c w :
  fail_secure (c, w) →
  wp controller_disconnect
    (λ r s, disconnect_outcome c r s ∧ (r ≠ Panic → fail_secure s)) (c, w).
Proof.
  intros (Henf & Hks & Hact). unfold controller_disconnect. wp_run.
  assert (policy (kill_switch c) ≠ Disabled → policy (tunnel_lost (kill_switch c)) ≠ Disabled) as Hlost.
  { unfold tunnel_lost. by case_bool_decide. }
  apply wp_apply_policy; cbn; [| |done].
  2: { intros e f w' Hrej. split; [by eauto|]. intros _. split_and!; cbn; auto; apply Hks. }
  intros f1 w1 Hf1. wp_run. apply wp_transport_disconnect. intros r t w' Hframe.
  destruct r as [[]|e|]; cbn [map_err]; wp_run; [..|done]; (split; [done|]); intros _;
    split_and!; cbn; eauto using ks_invariant_lost; done.
Qed.

Definition disable_outcome c (r : Result ConnectionError unit)
    (s : ConnectionController T F * World) : Prop :=
  match r with
  | Ok _ => controller_policy s.1 = Disabled ∧ transport_may_be_active c = false ∧
      always_on (kill_switch c) = false
  | Err (FirewallFailed _) => ∃ f, s.1 = set_firewall f c
  | Err (KillSwitchFailed e) => s.1 = c ∧
      match e with
      | TransportActive => transport_may_be_active c = true
      | NotEnabled => ∃ name, controller_policy c = TunnelOnly name
      | AlwaysOn => always_on (kill_switch c) = true
      | InvalidInterface => False
      end
  | Err (TransportFailed _) => False
  | Panic => True
  end.

Lemma wp_disable c w :
  fail_secure (c, w) →
  wp controller_disable (λ r s, disable_outcome c r s ∧ (r ≠ Panic → fail_secure s)) (c, w).
Proof.
  intros (Henf & Hks & Hact). unfold controller_disable. wp_run.
  apply wp_guard; intros Ha; wp_run; [done|].
  apply wp_guard; intros Ht; wp_run.
  { split; [|done]. split; [done|]. destruct (controller_policy c); [done..|]. eauto. }
  rewrite ks_disable_cases. destruct (always_on (kill_switch c)) eqn:Ho; wp_run; [done|].
  apply wp_apply_policy; cbn; [| |done].
  - intros f w' Hf. wp_run. split; [done|]. intros _. split_and!; cbn; [done| |congruence].
    split; cbn; [congruence|done].
  - intros e f w' Hrej. split; [by eauto|]. intros _. split_and!; cbn; auto; apply Hks.
Qed.

Lemma fail_secure_call call s r s' :
  fail_secure s → controller_call call s = (r, s') → r ≠ Panic → fail_secure s'.
Proof.
  destruct s as [c w]. intros Hs Hcall Hr. revert Hr.
  eapply (wp_elim _ (λ r s', r ≠ Panic → fail_secure s')), Hcall. clear Hcall.
  destruct call as [config context| | |]; cbn.
  - wp_run. eapply wp_mono; [by apply wp_connect|]. intros [a|e|] ? [_ Hf]; cbn; wp_run; intros; by apply Hf.
  - eapply wp_mono; [by apply wp_disconnect|]. by intros ?? [_ ?].
  - eapply wp_mono; [by apply wp_disable|]. by intros ?? [_ ?].
  - wp_run. apply wp_intro. intros [h|[]|] [t w'] Hh; cbn; wp_run; [|done]. intros _.
    destruct Hs as (? & ? & ?). split_and!; cbn; auto. by eapply health_frame.
Qed.

Lemma fail_secure_steps s s' : fail_secure s → steps s s' → fail_secure s'.
Proof. intros Hs. induction 1; eauto using fail_secure_call. Qed.

Lemma fail_secure_new k t f w c s :
  ks_invariant k → controller_new k t (f, w) = (Ok c, s) → fail_secure (c, s.2).
Proof.
  intros Hk Hn.
  refine (wp_elim _ (λ r s, r = Ok c → fail_secure (c, s.2)) _ _ _ _ Hn eq_refl). unfold controller_new. wp_run. apply wp_intro.
  intros [[]|e|] [f' w'] Ha; cbn; try done. wp_run. intros [= <-].
  split_and!; cbn; [by eapply apply_accepted|apply Hk..|done].
Qed.
End fail_secure.

(** ** What no call changes

    Always-on mode is fixed at construction, and so are every property [P] of
    the transport and [G] of the firewall that their own operations keep. *)

Section kept.
Context {T F : Type} `{Transport T} `{Firewall F} (P : T → Prop) (G : F → Prop).
Context (connect_kept : ∀ config context t w r t' w',
  connect config context (t, w) = (r, (t', w')) → P t → P t').
Context (disconnect_kept : ∀ t w r t' w', disconnect (t, w) = (r, (t', w')) → P t → P t').
Context (apply_kept : ∀ p f w r f' w', fw_apply p (f, w) = (r, (f', w')) → G f → G f').
Implicit Types (c : ConnectionController T F) (w : World).

Definition kept (mode : bool) (s : ConnectionController T F * World) : Prop :=
  always_on (kill_switch s.1) = mode ∧ P (transport s.1) ∧ G (firewall s.1).

Lemma wp_apply_policy_kept mode p s Q :
  kept mode s → (∀ r s', kept mode s' → kill_switch s'.1 = kill_switch s.1 → Q r s') →
  wp (apply_policy p) Q s.
Proof.
  destruct s as [c1 w]. intros (Hm & HP & HG) HQ. unfold apply_policy. wp_run. apply wp_intro.
  intros r [f w'] Ha. apply HQ; [|done]. split_and!; [done..|]. cbn. eauto.
Qed.

Lemma wp_transport_disconnect_kept mode s Q :
  kept mode s → (∀ r s', kept mode s' → Q r s') → wp transport_disconnect Q s.
Proof.
  destruct s as [c1 w]. intros (Hm & HP & HG) HQ. unfold transport_disconnect. wp_run. apply wp_intro.
  intros r [t w'] Hd. apply HQ. split_and!; [done| |done]. cbn. eauto.
Qed.

Lemma wp_abandon_kept {A} mode error s (Q : Result ConnectionError A → _ → Prop) :
  kept mode s → (∀ r s', kept mode s' → Q r s') → wp (abandon error) Q s.
Proof.
  intros Hs HQ. unfold abandon. wp_run. apply (wp_transport_disconnect_kept mode); [done|].
  intros [[]|e|] [c' w'] Hs'; wp_run; by apply HQ.
Qed.

Lemma wp_connect_kept mode config context s :
  kept mode s → wp (controller_connect config context) (λ _ s', kept mode s') s.
Proof.
  destruct s as [c w]. intros Hs. unfold controller_connect. wp_run.
  apply (wp_apply_policy_kept mode); [done|]. intros [[]|e|] [c1 w1] (Hm1 & HP1 & HG1) _; wp_run; [|done..].
  apply wp_intro. intros r [t w2] Hconn.
  assert (kept mode (set_transport t (set_active true (set_kill_switch (enable (kill_switch c)) c1)), w2))
    as Hs2 by (split_and!; [apply Hs|cbn; eauto|done]).
  destruct r as [session|e|]; cbn [map_err]; wp_run; [|done..].
  rewrite tunnel_established_cases. case_bool_decide; [by apply (wp_abandon_kept mode)|].
  destruct (ks_valid_interface _); [|by apply (wp_abandon_kept mode)]. wp_run.
  apply (wp_apply_policy_kept mode); [done|].
  intros [[]|e|] [c3 w3] Hs3 Hk3; wp_run; [| |done]; [|by apply (wp_abandon_kept mode)].
  split; [|apply Hs3]. cbn. apply Hs.
Qed.

Lemma wp_disconnect_kept mode s :
  kept mode s → wp controller_disconnect (λ _ s', kept mode s') s.
Proof.
  destruct s as [c w]. intros Hs. unfold controller_disconnect. wp_run.
  apply (wp_apply_policy_kept mode); [done|]. intros [[]|e|] [c1 w1] Hs1 _; wp_run; [|done..].
  apply (wp_transport_disconnect_kept mode).
  - split; [|apply Hs1]. cbn. unfold tunnel_lost. case_bool_decide; apply Hs.
  - intros [[]|e|] [c2 w2] Hs2; by wp_run.
Qed.

Lemma wp_disable_kept mode s :
  kept mode s → wp controller_disable (λ _ s', kept mode s') s.
Proof.
  destruct s as [c w]. intros Hs. unfold controller_disable. wp_run.
  apply wp_guard; intros _; wp_run; [done|]. apply wp_guard; intros _; wp_run; [done|].
  rewrite ks_disable_cases. destruct (always_on (kill_switch c)) eqn:Ho; wp_run; [done|].
  apply (wp_apply_policy_kept mode); [done|]. intros [[]|e|] [c1 w1] Hs1 _; wp_run; [|done..].
  split; [|apply Hs1]. cbn. apply Hs.
Qed.
End kept.

(** ** A failed WireGuard connection *)

Section unreleased.
Context {B F : Type} `{WireGuardBackend B} `{Firewall F}.
Implicit Types (c : ConnectionController (WireGuardAdapter B) F) (w : World).

Fixpoint run_calls (calls : list ControllerCall)
    (s : ConnectionController (WireGuardAdapter B) F * World) :=
  match calls with
  | [] => s
  | call :: calls => run_calls calls (controller_call call s).2
  end.

Definition is_connect (call : ControllerCall) : bool :=
  match call with CallConnect _ _ => true | _ => false end.

(** The controller waits for a teardown that the adapter refuses to start. *)
Definition unreleased (s : ConnectionController (WireGuardAdapter B) F * World) : Prop :=
  transport_may_be_active s.1 = true ∧ connected (transport s.1) = false ∧
  controller_policy s.1 = BlockNonTunnel.

Lemma adapter_connect_failed config context (a : WireGuardAdapter B) w :
  connected a = false →
  wp (adapter_connect config context)
    (λ r s, r = Panic ∨ (∃ session, r = Ok session) ∨ connected s.1 = false) (a, w).
Proof.
  intros Ha. unfold adapter_connect. wp_run.
  apply wp_guard; intros _; wp_run; [by eauto|].
  apply wp_guard; intros _; wp_run; [by eauto|].
  destruct (validate_transport config); wp_run; [|by eauto..].
  apply wp_intro. intros [[]|e|] [a' w'] Hc; wp_run; [| |by eauto].
  2: { apply check_later in Hc as [-> _]. by eauto. }
  apply check_later in Hc as [-> _]. apply wp_intro. intros [[]|e|] [b' w''] _; wp_run; [|by eauto..].
  apply wp_intro. intros r s Hr. destruct r; wp_run; [by eauto| |by eauto].
  unfold instant_now, on_world in Hr. by injection Hr.
Qed.

Lemma unreleased_call call s :
  is_connect call = false → unreleased s → unreleased (controller_call call s).2.
Proof.
  destruct s as [c w]. intros Hcall (Hact & Hconn & Hpol). cbn in *.
  change (wp (controller_call call) (λ _ s, unreleased s) (c, w)).
  destruct call as [| | |]; [done|..]; cbn.
  - unfold controller_disconnect. wp_run. unfold apply_policy at 1. wp_run. apply wp_intro.
    intros [[]|e|] [f w'] _; cbn; wp_run; [|done..]. unfold transport_disconnect. wp_run.
    cbn. unfold adapter_disconnect. wp_run. rewrite Hconn. cbn.
    assert (policy (tunnel_lost (kill_switch c)) = BlockNonTunnel) as Hl.
    { unfold tunnel_lost. by case_bool_decide. }
    by split_and!.
  - unfold controller_disable. wp_run. by rewrite Hact.
  - wp_run. cbn. unfold adapter_health. wp_run. rewrite Hconn. cbn. by destruct c as [? []].
Qed.

Lemma unreleased_calls calls s :
  Forall (λ call, is_connect call = false) calls → unreleased s → unreleased (run_calls calls s).
Proof.
  intros Hc. revert s. induction Hc as [|call calls Hcall Hc IH]; cbn; [done|].
  intros s Hs. by apply IH, unreleased_call.
Qed.

Lemma connect_unreleased config context c w e s :
  connected (transport c) = false →
  controller_connect config context (c, w) = (Err (TransportFailed e), s) → unreleased s.
Proof.
  intros Hc Hrun.
  refine (wp_elim _ (λ r s, r = Err (TransportFailed e) → unreleased s) _ _ _ _ Hrun eq_refl).
  unfold controller_connect. wp_run. unfold apply_policy at 1. wp_run. apply wp_intro.
  intros [[]|e1|] [f w1] _; cbn [map_err]; wp_run; [|done..].
  eapply wp_mono; [by apply (adapter_connect_failed config context)|].
  intros r1 [a1 w2] Hr1. destruct r1 as [session|e1|]; cbn [map_err]; wp_run; [| |done].
  2: { intros _. destruct Hr1 as [?|[[??]|?]]; by split_and!. }
  clear Hr1. rewrite tunnel_established_cases.
  assert (∀ error c w, (∀ e, error ≠ TransportFailed e) →
    wp (abandon error) (λ (r : Result ConnectionError Session) s,
      r = Err (TransportFailed e) → unreleased s) (c, w)) as Habandon.
  { intros error c' w' Hne. unfold abandon. wp_run. apply wp_intro.
    intros [[]|?|] [? ?] _; cbn; wp_run; [..|done]; intros [= ->]; by destruct (Hne e). }
  cbn. rewrite bool_decide_eq_false_2 by done.
  destruct (ks_valid_interface _); [|by apply Habandon].
  wp_run. apply wp_intro. intros [[]|e2|] [c2 w3] Happ; cbn; wp_run; [done| |done].
  apply Habandon. revert Happ. unfold apply_policy, act_map_err.
  destruct (on_field _ _ _ _) as [[|?|] ?]; cbn; by intros [= <- _].
Qed.
End unreleased.

(** ** Theorems *)

(** Along every sequence of kill-switch operations, including refused ones,
    an always-on switch never leaves filtering off and a tunnel policy only
    ever names an accepted interface. *)
Theorem kill_switch_invariant k :
  ks_reachable k →
  (always_on k = true → policy k ≠ Disabled) ∧
  (∀ name, policy k = TunnelOnly name → ks_valid_interface name = true).
Proof. apply ks_invariant_reachable. Qed.

Lemma kill_switch_invariant_witness :
  let k := (tunnel_established "wg0" (ks_disable (ks_new true)).2).2 in
  policy k = TunnelOnly "wg0" ∧ (always_on k = true → policy k ≠ Disabled).
Proof.
  cbn zeta. split; [vm_compute; reflexivity|].
  apply kill_switch_invariant. exists true.
  eapply rtc_l; [apply step_disable|]. eapply rtc_l; [apply step_established|]. apply rtc_refl.
Defined.

(** C21: the controller is fail-secure: from its construction with a reachable
    kill switch, along every sequence of calls and whatever each of them
    returns, the policy the program records is the one the firewall enforces,
    and filtering is off only while no transport may be active and the kill
    switch is not always on. *)
Theorem controller_fail_secure {T F} `{HI : Independent T F} k t f w
    (c : ConnectionController T F) s c' w' :
  ks_reachable k → controller_new k t (f, w) = (Ok c, s) → steps (c, s.2) (c', w') →
  enforces (firewall c') w' (controller_policy c') ∧
  (controller_policy c' = Disabled →
   transport_may_be_active c' = false ∧ always_on (kill_switch c') = false).
Proof.
  intros Hk Hnew Hsteps.
  destruct (fail_secure_steps _ _ (fail_secure_new k t f w c s (ks_invariant_reachable _ Hk) Hnew) Hsteps)
    as (Henf & [Hon _] & Hact); cbn in *.
  split; [done|]. intros Hd.
  split; apply not_true_iff_false; [by intros ?%Hact|by intros ?%Hon].
Qed.

(** [ConnectionController::connect] arms blocking before the transport runs.
    It succeeds with the policy that permits only the session's tunnel; it
    fails either because arming was rejected, leaving everything as it was and
    the transport untouched, or after the transport was tried under an
    enforced [BlockNonTunnel], which then stays recorded and enforced. *)
Theorem controller_connect_secure {T F} `{HI : Independent T F} config context
    (c : ConnectionController T F) w r s :
  fail_secure (c, w) → controller_connect config context (c, w) = (r, s) → r ≠ Panic →
  connect_outcome config context c w r s ∧
  enforces (firewall s.1) s.2 (controller_policy s.1).
Proof.
  intros Hs Hrun Hr. destruct (wp_elim _ _ _ _ _ (wp_connect config context c w Hs) Hrun) as [Ho Hf].
  split; [done|]. by apply Hf.
Qed.

(** [disconnect] restores blocking before teardown and clears the activity
    flag only when teardown completed; [disable] succeeds only without an active
    transport and without always-on mode, and every refusal names its cause and
    changes nothing.  Both leave the recorded policy enforced. *)
Theorem controller_release_secure {T F} `{HI : Independent T F}
    (c : ConnectionController T F) w :
  fail_secure (c, w) →
  (∀ r s, controller_disconnect (c, w) = (r, s) → r ≠ Panic →
    disconnect_outcome c r s ∧ enforces (firewall s.1) s.2 (controller_policy s.1)) ∧
  (∀ r s, controller_disable (c, w) = (r, s) → r ≠ Panic →
    disable_outcome c r s ∧ enforces (firewall s.1) s.2 (controller_policy s.1)).
Proof.
  intros Hs. split; intros r s Hrun Hr.
  - destruct (wp_elim _ _ _ _ _ (wp_disconnect c w Hs) Hrun) as [Ho Hf]. split; [done|]. by apply Hf.
  - destruct (wp_elim _ _ _ _ _ (wp_disable c w Hs) Hrun) as [Ho Hf]. split; [done|]. by apply Hf.
Qed.

(** After a WireGuard connection attempt fails in the transport, filtering
    cannot be released without a later successful connect: the adapter answers
    every [disconnect] with [NotConnected], so the activity flag stays set and
    every [disable] is refused with [TransportActive]. *)
Theorem failed_connect_not_releasable {B F} `{WireGuardBackend B} `{Firewall F} config context
    (c : ConnectionController (WireGuardAdapter B) F) w e s calls :
  connected (transport c) = false →
  controller_connect config context (c, w) = (Err (TransportFailed e), s) →
  Forall (λ call, is_connect call = false) calls →
  controller_policy (run_calls calls s).1 = BlockNonTunnel ∧
  controller_disable (run_calls calls s) =
    (Err (KillSwitchFailed TransportActive), run_calls calls s).
Proof.
  intros Hc Hrun Hcalls.
  destruct (unreleased_calls calls s Hcalls) as (Hact & _ & Hpol); [by eapply connect_unreleased|].
  split; [done|]. unfold controller_disable. destruct (run_calls calls s) as [c' w']. cbn in Hact.
  unfold self. run. by rewrite Hact.
Qed.

(** ** Witnesses: a firewall that keeps its last policy, a transport with a switch *)

Inductive LastPolicy := last_policy (p : TrafficPolicy) (refuse_tunnels : bool).

#[export] Instance last_policy_ops : Firewall LastPolicy := {|
  fw_apply p := λ '(last_policy q refuse, w),
    match p, refuse with
    | TunnelOnly _, true => (Err (FirewallErr "refused"), (last_policy q refuse, w))
    | _, _ => (Ok tt, (last_policy p refuse, w))
    end;
|}.

#[export] Instance last_policy_spec : FirewallSpec LastPolicy.
Proof.
  refine {| enforces := λ '(last_policy q _) _ p, q = p |}.
  - intros p [q refuse] w [q' refuse'] w'. cbn. by destruct p, refuse; intros [= <-].
  - intros p r [q refuse] w e [q' refuse'] w'. cbn.
    destruct p, refuse; try done. by intros [= _ <-].
Defined.

Inductive SwitchTransport := switch_transport (works up : bool).

#[export] Instance switch_transport_ops : Transport SwitchTransport := {|
  kind _ := WireGuard;
  connect config context := λ '(switch_transport works up, w),
    if works then (Ok (mkSession "wg0" WireGuard 0), (switch_transport works true, w))
    else (Err TimedOut, (switch_transport works up, w));
  disconnect := λ '(switch_transport works up, w), (Ok tt, (switch_transport works false, w));
  health := λ s, (Ok (mkHealth Healthy None 0), s);
|}.

#[export] Instance switch_independent : Independent SwitchTransport LastPolicy.
Proof.
  split.
  - intros config context [works up] w r t' w' f q. cbn. by destruct works; intros [= _ _ <-].
  - intros [works up] w r t' w' f q. cbn. by intros [= _ _ <-].
  - intros [works up] w r t' w' f q. cbn. by intros [= _ _ <-].
Qed.

Definition sample_transport_config : TransportConfig :=
  mkTransportConfig WireGuard (mkEndpoint "192.0.2.1" 51820) (from_secs 1).

Definition sample_controller (works refuse : bool) : ConnectionController SwitchTransport LastPolicy :=
  mkController (ks_new false) (switch_transport works false) (last_policy Disabled refuse) false.

Lemma sample_fail_secure works refuse w : fail_secure (sample_controller works refuse, w).
Proof. by repeat split. Qed.

Lemma controller_fail_secure_witness :
  let c := sample_controller true false in
  let s1 := (controller_connect sample_transport_config (mkContext 1 1) (c, quiet_world)).2 in
  let s3 := (controller_disable (controller_disconnect s1).2).2 in
  controller_policy s1.1 = TunnelOnly "wg0" ∧ enforces (firewall s1.1) s1.2 (TunnelOnly "wg0") ∧
  controller_policy s3.1 = Disabled ∧ transport_may_be_active s3.1 = false.
Proof.
  cbn zeta. split; [reflexivity|]. split.
  - refine (proj1 (controller_fail_secure (ks_new false) (switch_transport true false)
      (last_policy Disabled false) quiet_world (sample_controller true false)
      (last_policy Disabled false, quiet_world)
      (controller_connect sample_transport_config (mkContext 1 1)
         (sample_controller true false, quiet_world)).2.1
      quiet_world _ _ _)).
    + exists false. apply rtc_refl.
    + reflexivity.
    + eapply (steps_call _ (CallConnect sample_transport_config (mkContext 1 1)));
        [apply steps_refl|reflexivity|discriminate].
  - split; reflexivity.
Defined.

Lemma controller_connect_secure_witness :
  let s := (controller_connect sample_transport_config (mkContext 1 1)
              (sample_controller true true, quiet_world)) in
  s.1 = Err (FirewallFailed (FirewallErr "refused")) ∧
  controller_policy s.2.1 = BlockNonTunnel ∧ enforces (firewall s.2.1) s.2.2 BlockNonTunnel.
Proof.
  cbn zeta. split; [reflexivity|]. split; [reflexivity|].
  refine (proj2 (controller_connect_secure sample_transport_config (mkContext 1 1)
    (sample_controller true true) quiet_world _ _ (sample_fail_secure _ _ _) eq_refl _)).
  discriminate.
Defined.

Lemma controller_release_secure_witness :
  (controller_disable (sample_controller true true, quiet_world)).1 = Ok tt ∧
  disable_outcome (sample_controller true true) (Ok tt)
    (controller_disable (sample_controller true true, quiet_world)).2.
Proof.
  split; [reflexivity|].
  refine (proj1 (proj2 (controller_release_secure (sample_controller true true) quiet_world
    (sample_fail_secure _ _ _)) (Ok tt) _ eq_refl _)).
  discriminate.
Defined.

Inductive DeadBackend := dead_backend.

#[export] Instance dead_backend_ops : WireGuardBackend DeadBackend := {|
  bring_up _ _ _ := raise (Network "unreachable");
  bring_down _ := mret tt;
  backend_health := mret (mkHealth Unavailable None 0);
|}.

Definition dead_controller : ConnectionController (WireGuardAdapter DeadBackend) LastPolicy :=
  mkController (ks_new false) (mkAdapter "wg0" sample_profile dead_backend false)
    (last_policy Disabled false) false.

Lemma failed_connect_not_releasable_witness :
  let s := (controller_connect sample_transport_config (mkContext 1 1)
              (dead_controller, quiet_world)).2 in
  controller_policy (run_calls [CallDisconnect; CallDisable] s).1 = BlockNonTunnel ∧
  controller_disable (run_calls [CallDisconnect; CallDisable] s) =
    (Err (KillSwitchFailed TransportActive), run_calls [CallDisconnect; CallDisable] s).
Proof.
  cbn zeta.
  apply (failed_connect_not_releasable sample_transport_config (mkContext 1 1)
    dead_controller quiet_world (Network "unreachable") _ [CallDisconnect; CallDisable]).
  - reflexivity.
  - vm_compute. reflexivity.
  - repeat constructor.
Defined.
