(* ===== verification/Process.v ===== *)
(** The process boundary of the Linux backends: [core/transport/src/linux.rs].

    [CommandRunner] is the injectable trait with its default methods,
    [SystemCommandRunner] its production implementation over the [World].  The
    promise clients rely on is [RunnerSpec]: a runner keeps the sequence of the
    commands it reported as successful, each call extends it by at most its own
    command, and reading clocks, flags or files does not touch it.  The file
    also holds the trust checks on executables and key files. *)

From S2P Require Import Prelude Machine Text Net Env Transport.
Open Scope string_scope.
Open Scope Z_scope.

(** ** The trait *)

Class CommandRunner (R : Type) := {
  runner_run : CommandSpec → Act (R * World) TransportError unit;
  runner_output : CommandSpec → Act (R * World) TransportError string;
  runner_input : CommandSpec → string → Act (R * World) TransportError unit;
}.

(** The default bodies of [output] and [input]. *)
Definition default_output {R} (run : CommandSpec → Act (R * World) TransportError unit)
    (command : CommandSpec) : Act (R * World) TransportError string :=
  run command;; mret "".

Definition default_input {R} (command : CommandSpec) (input : string) :
    Act (R * World) TransportError unit :=
  raise (Network "platform command input is unsupported").

(** ** The system runner *)

Inductive SystemCommandRunner := system_command_runner.

Definition command_bound : Z := 64 * 1024.

Definition exit_error (status stderr : string) : TransportError :=
  Network ("platform command exited with " +:+ status +:+ ": " +:+ bounded_reason stderr).

(** [Command::output]: standard input is not piped, and the wait is part of the
    same call. *)
Definition system_output (command : CommandSpec) :
    Act (SystemCommandRunner * World) TransportError string :=
  outcome ← spawn command None;
  match outcome with
  | SpawnFailed error | StdinFailed error | WaitFailed error =>
      raise (Network ("platform command failed to start: " +:+ error))
  | Exited success status stdout stderr =>
      if (success : bool) then
        if command_bound <? len stdout
        then raise (Network "platform command output exceeds safe bounds")
        else mret stdout
      else raise (exit_error status stderr)
  end.

Definition system_run (command : CommandSpec) :
    Act (SystemCommandRunner * World) TransportError unit :=
  system_output command;; mret tt.

Definition system_input (command : CommandSpec) (input : string) :
    Act (SystemCommandRunner * World) TransportError unit :=
  if command_bound <? len input
  then raise (Network "platform command input exceeds safe bounds") else
  outcome ← spawn command (Some input);
  match outcome with
  | SpawnFailed error => raise (Network ("platform command failed to start: " +:+ error))
  | StdinFailed error => raise (Network ("platform command input failed: " +:+ error))
  | WaitFailed error => raise (Network ("platform command wait failed: " +:+ error))
  | Exited success status stdout stderr =>
      if (success : bool) then mret tt else raise (exit_error status stderr)
  end.

#[export] Instance system_runner_ops : CommandRunner SystemCommandRunner := {|
  runner_run := system_run;
  runner_output := system_output;
  runner_input := system_input;
|}.

(** ** Trust checks *)

Definition unsafe_mode (mode mask : Z) : bool := negb (Z.land mode mask =? 0).

(** [validate_executable]: an existing absolute regular file that someone may
    execute, not a symbolic link. *)
Definition executable_ok (path : string) (m : Metadata) : bool :=
  negb (negb (is_absolute path) || negb (md_is_file m) || md_is_symlink m
        || (Z.land (md_mode m) 73 =? 0)).

Section trust.
Context {C : Type}.

Definition validate_executable (path : string) : Act (C * World) TransportError unit :=
  answer ← metadata path;
  m ← lift (ok_or answer (InvalidConfig "platform executable is unavailable"));
  guard_err (negb (executable_ok path m))
    (InvalidConfig "platform executable must be an absolute executable regular file").

Record LinuxTools := mkTools { ip : string; wg : string; private_key : string }.

(** A private regular file: no group or other permission bits. *)
Definition private_file_ok (path : string) (m : Metadata) : bool :=
  negb (negb (is_absolute path) || negb (md_is_file m) || md_is_symlink m
        || unsafe_mode (md_mode m) 63).

Definition validate_tools (t : LinuxTools) : Act (C * World) TransportError unit :=
  validate_executable (ip t);;
  validate_executable (wg t);;
  answer ← metadata (private_key t);
  m ← lift (ok_or answer (InvalidConfig "WireGuard private key is unavailable"));
  guard_err (negb (private_file_ok (private_key t) m))
    (InvalidConfig "WireGuard private key must be a private regular file").

Record LinuxDnsTools := mkDnsTools { resolvectl : string }.

Definition validate_dns_tools (t : LinuxDnsTools) : Act (C * World) TransportError unit :=
  validate_executable (resolvectl t).

Record LinuxNodeGatewayTools := mkGatewayTools { gw_nft : string; gw_sysctl : string }.

Definition validate_gateway_tools (t : LinuxNodeGatewayTools) :
    Act (C * World) TransportError unit :=
  validate_executable (gw_nft t);;
  validate_executable (gw_sysctl t).

(** The common prefix of [LinuxWireGuardBackend::new] and
    [LinuxWireGuardNode::new]. *)
Definition validate_backend_tools (t : LinuxTools) : Act (C * World) TransportError unit :=
  validate_tools t;;
  guard_err (negb (utf8_valid (private_key t)))
    (InvalidConfig "WireGuard private key path is not UTF-8").
End trust.

Definition linux_valid_interface (name : string) : bool :=
  negb (is_empty name) && (len name <=? 15)
  && all_bytes (λ c, is_ascii_alphanumeric c || Ascii.eqb c "_"%char || Ascii.eqb c "-"%char) name.

(** ** [Debug] of an error

    [format!("{:?}")] escapes quotes, backslashes and control characters; which
    characters outside ASCII are printed as they are is the Unicode table of
    the standard library. *)

Class UnicodeTables := { printable : string → bool }.

Definition code_point (c : string) : Z :=
  match map code (chars c) with
  | [a] => a
  | [a; b] => Z.land a 31 * 64 + Z.land b 63
  | [a; b; d] => (Z.land a 15 * 64 + Z.land b 63) * 64 + Z.land d 63
  | [a; b; d; e] => ((Z.land a 7 * 64 + Z.land b 63) * 64 + Z.land d 63) * 64 + Z.land e 63
  | _ => 0
  end.

Definition backslash : string := String (byte 92) "".

Definition escape_debug `{UnicodeTables} (c : string) : string :=
  let p := code_point c in
  if p =? 0 then backslash +:+ "0"
  else if p =? 9 then backslash +:+ "t"
  else if p =? 13 then backslash +:+ "r"
  else if p =? 10 then backslash +:+ "n"
  else if (p =? 34) || (p =? 92) then backslash +:+ c
  else if (if p <? 128 then (32 <=? p) && (p <? 127) else printable c) then c
  else backslash +:+ "u{" +:+ print_radix 6 16 p "" +:+ "}".

Definition debug_str `{UnicodeTables} (s : string) : string :=
  quote +:+ String.concat "" (map escape_debug (lossy_chars s)) +:+ quote.

Definition debug_transport_error `{UnicodeTables} (e : TransportError) : string :=
  match e with
  | InvalidConfig reason => "InvalidConfig(" +:+ debug_str reason +:+ ")"
  | Cancelled => "Cancelled"
  | TimedOut => "TimedOut"
  | AlreadyConnected => "AlreadyConnected"
  | NotConnected => "NotConnected"
  | AuthenticationFailed => "AuthenticationFailed"
  | Network reason => "Network(" +:+ debug_str reason +:+ ")"
  end.

(** [{:?}] of a [Result<(), TransportError>] held as the value of a call. *)
Definition debug_outcome `{UnicodeTables} (r : TransportError + unit) : string :=
  match r with
  | inr _ => "Ok(())"
  | inl e => "Err(" +:+ debug_transport_error e +:+ ")"
  end.

(** ** The promise of a runner *)

Definition Invocation : Type := CommandSpec * option string.

(** Queries other than child processes. *)
Definition is_process (e : Event) : bool :=
  match e with EvProcess _ _ _ => true | _ => false end.

Definition processes (w : World) : list Event := filter is_process (history w).

(** Child processes fed through a pipe. *)
Definition is_piped (e : Event) : bool :=
  match e with EvProcess _ (Some _) _ => true | _ => false end.

Definition piped (w : World) : list Event := filter is_piped (history w).

(** The lines written to standard output and, for [true], standard error. *)
Definition print_of (e : Event) : option (bool * string) :=
  match e with EvPrint stderr line => Some (stderr, line) | _ => None end.

Definition printed (w : World) : list (bool * string) := omap print_of (history w).

Lemma piped_processes w w' : processes w = processes w' → piped w = piped w'.
Proof.
  assert (∀ h : list Event, filter is_piped h = filter is_piped (filter is_process h)) as Hf.
  { intros h. rewrite list_filter_filter. apply list_filter_iff.
    intros []; cbn; try naive_solver. }
  unfold processes, piped. rewrite (Hf (history w)), (Hf (history w')). by intros ->.
Qed.

Lemma processes_log e w : is_process e = false → processes (log e w) = processes w.
Proof. intros He. unfold processes. cbn. by rewrite He. Qed.

Class RunnerSpec (R : Type) `{CommandRunner R} := {
  (** The commands reported as successful, newest first. *)
  completed : R → World → list Invocation;
  completed_frame : ∀ r w w', processes w = processes w' → completed r w = completed r w';
  run_ok : ∀ c r w r' w', runner_run c (r, w) = (Ok tt, (r', w')) →
    completed r' w' = (c, None) :: completed r w;
  run_err : ∀ c r w e r' w', runner_run c (r, w) = (Err e, (r', w')) →
    completed r' w' = completed r w;
  output_ok : ∀ c r w out r' w', runner_output c (r, w) = (Ok out, (r', w')) →
    completed r' w' = (c, None) :: completed r w;
  output_err : ∀ c r w e r' w', runner_output c (r, w) = (Err e, (r', w')) →
    completed r' w' = completed r w;
  run_piped : ∀ c r w res r' w', runner_run c (r, w) = (res, (r', w')) → piped w' = piped w;
  output_piped : ∀ c r w res r' w',
    runner_output c (r, w) = (res, (r', w')) → piped w' = piped w;
  input_ok : ∀ c i r w r' w', runner_input c i (r, w) = (Ok tt, (r', w')) →
    completed r' w' = (c, Some i) :: completed r w;
  input_err : ∀ c i r w e r' w', runner_input c i (r, w) = (Err e, (r', w')) →
    completed r' w' = completed r w;
}.

(** Whether the system runner reports a finished process as successful. *)
Definition reported_success (stdin : option string) (o : ProcessOutcome) : bool :=
  match o, stdin with
  | Exited true _ stdout _, None => len stdout <=? command_bound
  | Exited true _ _ _, Some input => len input <=? command_bound
  | _, _ => false
  end.

Definition successful (h : list Event) : list Invocation :=
  omap (λ e, match e with
             | EvProcess c i o => if reported_success i o then Some (c, i) else None
             | _ => None
             end) h.

Lemma successful_processes h : successful h = successful (filter is_process h).
Proof.
  unfold successful. induction h as [|e h IH]; [done|]. rewrite filter_cons.
  destruct e; cbn; try exact IH. by rewrite IH.
Qed.

Lemma system_output_completed c s w r s' w' :
  system_output c (s, w) = (r, (s', w')) →
  successful (history w') =
    match r with Ok _ => (c, None) :: successful (history w) | _ => successful (history w) end.
Proof.
  unfold system_output, spawn, on_world. run. cbn [log history].
  destruct (env_process _ _ _ _) as [?|?|?|success status out err] eqn:Ho;
    try (by intros; simplify_eq).
  destruct success; [|by intros; simplify_eq].
  destruct (Z.ltb_spec command_bound (len out)) as [Hl|Hl]; intros; simplify_eq;
    unfold successful; cbn.
  - by rewrite (proj2 (Z.leb_gt _ _)) by lia.
  - by rewrite (proj2 (Z.leb_le _ _)) by lia.
Qed.

Lemma system_run_completed c s w r s' w' :
  system_run c (s, w) = (r, (s', w')) →
  successful (history w') =
    match r with Ok _ => (c, None) :: successful (history w) | _ => successful (history w) end.
Proof.
  unfold system_run. pose proof (system_output_completed c s w) as Hout.
  run.
  destruct (system_output c (s, w)) as [[out|e|] [s1 w1]] eqn:Hr; intros; simplify_eq;
    by apply (Hout _ _ _ eq_refl).
Qed.

Lemma system_output_piped c s w r s' w' :
  system_output c (s, w) = (r, (s', w')) → piped w' = piped w.
Proof.
  unfold system_output, spawn, on_world. run. cbn [log history].
  destruct (env_process _ _ _ _) as [?|?|?|[] status out err]; [by intros; simplify_eq..| |];
    [|by intros; simplify_eq]. by destruct (_ <? _); intros; simplify_eq.
Qed.

Lemma system_run_piped c s w r s' w' :
  system_run c (s, w) = (r, (s', w')) → piped w' = piped w.
Proof.
  unfold system_run. pose proof (system_output_piped c s w) as Hout. run.
  destruct (system_output c (s, w)) as [[out|e|] [s1 w1]] eqn:Hr; intros; simplify_eq;
    by apply (Hout _ _ _ eq_refl).
Qed.

Lemma system_input_completed c i s w r s' w' :
  system_input c i (s, w) = (r, (s', w')) →
  successful (history w') =
    match r with Ok _ => (c, Some i) :: successful (history w) | _ => successful (history w) end.
Proof.
  unfold system_input. destruct (Z.ltb_spec command_bound (len i)) as [Hl|Hl].
  { unfold raise. by intros; simplify_eq. }
  unfold spawn, on_world. run. cbn [log history].
  destruct (env_process _ _ _ _) as [?|?|?|[] status out err] eqn:Ho; try (by intros; simplify_eq).
  intros; simplify_eq. unfold successful. cbn. by rewrite (proj2 (Z.leb_le _ _)) by lia.
Qed.

#[export] Instance system_runner_spec : RunnerSpec SystemCommandRunner.
Proof.
  refine {| completed := λ _ w, successful (history w) |}.
  - intros _ w w' Hp. rewrite (successful_processes (history w)), (successful_processes (history w')).
    unfold processes in Hp. by rewrite Hp.
  - intros *. apply system_run_completed.
  - intros *. apply system_run_completed.
  - intros *. apply system_output_completed.
  - intros *. apply system_output_completed.
  - intros *. apply system_run_piped.
  - intros *. apply system_output_piped.
  - intros *. apply system_input_completed.
  - intros *. apply system_input_completed.
Defined.

(** ** Rules for clients *)

Section client_rules.
Context {R : Type} `{RunnerSpec R}.

Lemma wp_runner_run c r w Q :
  (∀ r' w', completed r' w' = (c, None) :: completed r w → piped w' = piped w →
    Q (Ok tt) (r', w')) →
  (∀ e r' w', completed r' w' = completed r w → piped w' = piped w → Q (Err e) (r', w')) →
  (∀ r' w', piped w' = piped w → Q Panic (r', w')) →
  wp (runner_run c) Q (r, w).
Proof.
  intros Hok Herr Hp. apply wp_intro. intros res [r' w'] Hm. pose proof (run_piped _ _ _ _ _ _ Hm).
  destruct res as [[]|e|]; eauto using run_err, run_ok.
Qed.

Lemma wp_runner_output c r w Q :
  (∀ out r' w', completed r' w' = (c, None) :: completed r w → piped w' = piped w →
    Q (Ok out) (r', w')) →
  (∀ e r' w', completed r' w' = completed r w → piped w' = piped w → Q (Err e) (r', w')) →
  (∀ r' w', piped w' = piped w → Q Panic (r', w')) →
  wp (runner_output c) Q (r, w).
Proof.
  intros Hok Herr Hp. apply wp_intro. intros res [r' w'] Hm. pose proof (output_piped _ _ _ _ _ _ Hm).
  destruct res as [out|e|]; eauto using output_err, output_ok.
Qed.

Lemma wp_runner_input c i r w Q :
  (∀ r' w', completed r' w' = (c, Some i) :: completed r w → Q (Ok tt) (r', w')) →
  (∀ e r' w', completed r' w' = completed r w → Q (Err e) (r', w')) →
  (∀ s, Q Panic s) →
  wp (runner_input c i) Q (r, w).
Proof.
  intros Hok Herr Hp. apply wp_intro. intros [[]|e|] [r' w'] Hm; [|eauto using input_err|done].
  apply Hok. by apply input_ok.
Qed.
End client_rules.

Section query_rules.
Context {C : Type}.
Implicit Types c : C.

(** The bound check of an attempt runs no process and leaves its receiver. *)
Lemma wp_check context c w Q :
  (∀ w', processes w' = processes w → Q (Ok tt) (c, w')) →
  (∀ e w', e = Cancelled ∨ e = TimedOut → processes w' = processes w → Q (Err e) (c, w')) →
  wp (check context) Q (c, w).
Proof.
  intros Hok Herr. apply wp_intro. intros r [c' w'] Hc.
  destruct (check_cases context c w) as [(w1 & Heq & ->)|(_ & t & w1 & Heq & -> & _)];
    rewrite Heq in Hc; simplify_eq; [apply Herr; auto|].
  destruct (deadline context <=? t); [apply Herr; auto|by apply Hok].
Qed.

Lemma wp_metadata {E} path c w (Q : Result E (option Metadata) → C * World → Prop) :
  (∀ answer, answer = env_metadata (env w) (history w) path →
    Q (Ok answer) (c, log (EvMetadata path answer) w)) →
  wp (metadata path) Q (c, w).
Proof. intros HQ. by apply HQ. Qed.

Lemma wp_validate_executable path c w Q :
  (∀ m w', executable_ok path m = true → EvMetadata path (Some m) ∈ history w' →
    later w w' → processes w' = processes w → Q (Ok tt) (c, w')) →
  (∀ reason w', processes w' = processes w → Q (Err (InvalidConfig reason)) (c, w')) →
  wp (validate_executable path) Q (c, w).
Proof.
  intros Hok Herr. unfold validate_executable. wp_run. apply wp_metadata. intros answer Ha.
  wp_run. destruct answer as [m|]; cbn [ok_or]; wp_run; [|by apply Herr].
  apply wp_guard; intros Hg; [by apply Herr|]. apply negb_false_iff in Hg.
  eapply Hok; [done|..|done]; [|apply later_log]. apply elem_of_cons. by left.
Qed.

(** [e] was seen after [w]. *)
Definition observed (e : Event) (w : World) : Prop := e ∈ history w.

Lemma observed_later e w w' : observed e w → later w w' → observed e w'.
Proof. unfold observed. intros He [l ->]. apply elem_of_app. by right. Qed.

(** What a passed [LinuxTools::validate] has seen. *)
Definition tools_trusted (t : LinuxTools) (w : World) : Prop :=
  (∃ m, observed (EvMetadata (ip t) (Some m)) w ∧ executable_ok (ip t) m = true) ∧
  (∃ m, observed (EvMetadata (wg t) (Some m)) w ∧ executable_ok (wg t) m = true) ∧
  (∃ m, observed (EvMetadata (private_key t) (Some m)) w ∧
    private_file_ok (private_key t) m = true).

Lemma wp_validate_tools t c w Q :
  (∀ w', tools_trusted t w' → processes w' = processes w → Q (Ok tt) (c, w')) →
  (∀ reason w', processes w' = processes w → Q (Err (InvalidConfig reason)) (c, w')) →
  wp (validate_tools t) Q (c, w).
Proof.
  intros Hok Herr. unfold validate_tools. wp_run.
  apply wp_validate_executable; [|auto]. intros m1 w1 Hm1 Hi1 Hl1 Hp1. wp_run.
  apply wp_validate_executable; [|intros; apply Herr; congruence]. intros m2 w2 Hm2 Hi2 Hl2 Hp2. wp_run.
  apply wp_metadata. intros answer Ha. wp_run.
  destruct answer as [m|]; cbn [ok_or]; wp_run; [|apply Herr; rewrite processes_log by done; congruence].
  apply wp_guard; intros Hg; [apply Herr; rewrite processes_log by done; congruence|]. apply negb_false_iff in Hg.
  apply Hok; [|rewrite processes_log by done; congruence]. split_and!.
  - exists m1. split; [|done]. apply (observed_later _ w1); [done|]. eapply later_trans, later_log. done.
  - exists m2. split; [|done]. apply (observed_later _ w2); [done|apply later_log].
  - exists m. split; [|done]. apply elem_of_cons. by left.
Qed.

Lemma wp_validate_backend_tools t c w Q :
  (∀ w', tools_trusted t w' → utf8_valid (private_key t) = true →
    processes w' = processes w → Q (Ok tt) (c, w')) →
  (∀ reason w', processes w' = processes w → Q (Err (InvalidConfig reason)) (c, w')) →
  wp (validate_backend_tools t) Q (c, w).
Proof.
  intros Hok Herr. unfold validate_backend_tools. wp_run.
  apply wp_validate_tools; [|auto]. intros w1 Ht Hp. wp_run.
  apply wp_guard; intros Hg; [by apply Herr|]. apply negb_false_iff in Hg. auto.
Qed.
End query_rules.

(** ** Calls that pipe nothing

    The hint database [piped] shows that a call leaves the piped processes as
    they were by following its combinators. *)

Definition no_pipe {C E A} (m : Act (C * World) E A) : Prop := ∀ s, piped (m s).2.2 = piped s.2.

Create HintDb piped.

Section no_pipe.
Context {C E : Type}.

Lemma no_pipe_ret {A} (a : A) : no_pipe (C := C) (E := E) (mret a).
Proof. done. Qed.

Lemma no_pipe_raise {A} (e : E) : no_pipe (C := C) (A := A) (raise e).
Proof. done. Qed.

Lemma no_pipe_lift {A} (r : Result E A) : no_pipe (C := C) (lift r).
Proof. done. Qed.

Lemma no_pipe_self {A} (f : C → A) : no_pipe (E := E) (self f).
Proof. by intros []. Qed.

Lemma no_pipe_set_self (f : C → C) : no_pipe (E := E) (set_self f).
Proof. by intros []. Qed.

Lemma no_pipe_guard b (e : E) : no_pipe (C := C) (guard_err b e).
Proof. by destruct b. Qed.

Lemma no_pipe_bind {A B} (m : Act (C * World) E A) (f : A → Act (C * World) E B) :
  no_pipe m → (∀ a, no_pipe (f a)) → no_pipe (m ≫= f).
Proof.
  intros Hm Hf s. specialize (Hm s). unfold mbind, act_bind.
  destruct (m s) as [[a|e|] s']; cbn in *; [|done..]. rewrite Hf. done.
Qed.

Lemma no_pipe_attempt {F A} (m : Act (C * World) E A) : no_pipe m → no_pipe (attempt (F := F) m).
Proof. intros Hm s. specialize (Hm s). unfold attempt. by destruct (m s) as [[a|e|] s']. Qed.

Lemma no_pipe_map_err {F A} (f : E → F) (m : Act (C * World) E A) : no_pipe m → no_pipe (act_map_err f m).
Proof. intros Hm s. specialize (Hm s). unfold act_map_err. by destruct (m s). Qed.

Lemma no_pipe_for_each {X} (l : list X) (f : X → Act (C * World) E unit) :
  (∀ x, no_pipe (f x)) → no_pipe (for_each l f).
Proof.
  intros Hf. induction l as [|x l IH]; [apply no_pipe_ret|]. by apply no_pipe_bind.
Qed.

Lemma no_pipe_on_field {D A} (get : C → D) set (m : Act (D * World) E A) :
  no_pipe m → no_pipe (on_field get set m).
Proof. intros Hm [c w]. specialize (Hm (get c, w)). unfold on_field. by destruct (m _) as [? [? ?]]. Qed.

Lemma no_pipe_with_local {L F A} (l : L) (m : Act ((C * L) * World) E A) :
  no_pipe m → no_pipe (with_local (F := F) l m).
Proof.
  intros Hm [c w]. specialize (Hm ((c, l), w)). unfold with_local.
  by destruct (m _) as [[?|?|] [[? ?] ?]].
Qed.

Lemma no_pipe_instant : no_pipe (C := C) (E := E) instant_now.
Proof. by intros []. Qed.

Lemma no_pipe_unix_time : no_pipe (C := C) (E := E) unix_time.
Proof. by intros []. Qed.

Lemma no_pipe_check context : no_pipe (C := C) (check context).
Proof.
  intros [c w]. apply (wp_check context c w (λ _ s, piped s.2 = piped w));
    intros; by apply piped_processes.
Qed.

Lemma no_pipe_metadata path : no_pipe (C := C) (E := E) (metadata path).
Proof. by intros []. Qed.
End no_pipe.

Lemma no_pipe_run `{RunnerSpec R} c : no_pipe (runner_run c).
Proof. intros [r w]. cbn. destruct (runner_run c (r, w)) as [res [r' w']] eqn:Hr. by eapply run_piped. Qed.

Lemma no_pipe_output `{RunnerSpec R} c : no_pipe (runner_output c).
Proof. intros [r w]. cbn. destruct (runner_output c (r, w)) as [res [r' w']] eqn:Hr. by eapply output_piped. Qed.

#[export] Hint Resolve no_pipe_ret no_pipe_raise no_pipe_lift no_pipe_self no_pipe_set_self
  no_pipe_guard no_pipe_attempt no_pipe_map_err no_pipe_for_each no_pipe_on_field
  no_pipe_with_local no_pipe_instant no_pipe_unix_time no_pipe_check no_pipe_metadata
  no_pipe_run no_pipe_output : piped.

(** Follows binds and case distinctions down to the calls of the database. *)
Ltac no_pipe :=
  repeat first
    [ solve [eauto with piped]
    | apply no_pipe_bind; [|intros ?]
    | apply no_pipe_attempt | apply no_pipe_map_err | apply no_pipe_on_field
    | apply no_pipe_with_local | (apply no_pipe_for_each; intros ?)
    | case_match ].

(** ** Reading the system changes nothing

    A quiet call only reads the file system: it keeps the environment and
    neither starts a process nor prints nor looks at a clock or a token.  The
    hint database [quiet] follows the combinators of a call. *)

Definition is_read (e : Event) : bool :=
  match e with EvMetadata _ _ | EvOpen _ | EvLock _ _ => true | _ => false end.

Definition only_reads (w w' : World) : Prop :=
  env w' = env w ∧ ∃ l, history w' = (l ++ history w)%list ∧ Forall (λ e, is_read e = true) l.

Lemma only_reads_refl w : only_reads w w.
Proof. split; [done|]. by exists []. Qed.

Lemma only_reads_log e w : is_read e = true → only_reads w (log e w).
Proof. intros He. split; [done|]. exists [e]. by split; [|constructor]. Qed.

Lemma only_reads_trans w1 w2 w3 : only_reads w1 w2 → only_reads w2 w3 → only_reads w1 w3.
Proof.
  intros [He1 (l1 & Hl1 & Hr1)] [He2 (l2 & Hl2 & Hr2)]. split; [congruence|].
  exists (l2 ++ l1)%list. rewrite Hl2, Hl1, app_assoc. split; [done|]. by apply Forall_app.
Qed.

Lemma only_reads_processes w w' : only_reads w w' → processes w' = processes w.
Proof.
  intros [_ (l & Hl & Hr)]. unfold processes. rewrite Hl, filter_app. clear Hl.
  induction Hr as [|e l He Hr IH]; [done|]. rewrite filter_cons_False; [done|]. destruct e; try done; by intros [].
Qed.

Lemma only_reads_printed w w' : only_reads w w' → printed w' = printed w.
Proof.
  intros [_ (l & Hl & Hr)]. unfold printed. rewrite Hl, omap_app. clear Hl.
  induction Hr as [|e l He Hr IH]; [done|]. by destruct e.
Qed.

Definition quiet {C E A} (m : Act (C * World) E A) : Prop := ∀ s, only_reads s.2 (m s).2.2.

Lemma quiet_env {C E A} (m : Act (C * World) E A) s : quiet m → env (m s).2.2 = env s.2.
Proof. intros Hm. apply Hm. Qed.

Lemma quiet_processes {C E A} (m : Act (C * World) E A) s : quiet m → processes (m s).2.2 = processes s.2.
Proof. intros Hm. by apply only_reads_processes. Qed.

Create HintDb quiet.

Section quiet.
Context {C E : Type}.

Lemma quiet_ret {A} (a : A) : quiet (C := C) (E := E) (mret a).
Proof. intros s. apply only_reads_refl. Qed.

Lemma quiet_raise {A} (e : E) : quiet (C := C) (A := A) (raise e).
Proof. intros s. apply only_reads_refl. Qed.

Lemma quiet_lift {A} (r : Result E A) : quiet (C := C) (lift r).
Proof. intros s. apply only_reads_refl. Qed.

Lemma quiet_guard b (e : E) : quiet (C := C) (guard_err b e).
Proof. destruct b; intros s; apply only_reads_refl. Qed.

Lemma quiet_bind {A B} (m : Act (C * World) E A) (f : A → Act (C * World) E B) :
  quiet m → (∀ a, quiet (f a)) → quiet (m ≫= f).
Proof.
  intros Hm Hf s. specialize (Hm s). unfold mbind, act_bind.
  destruct (m s) as [[a|e|] s']; cbn [fst snd] in *; [|done..]. by eapply only_reads_trans; [|apply Hf].
Qed.

Lemma quiet_map_err {F A} (f : E → F) (m : Act (C * World) E A) : quiet m → quiet (act_map_err f m).
Proof. intros Hm s. specialize (Hm s). unfold act_map_err. by destruct (m s). Qed.

Lemma quiet_metadata path : quiet (C := C) (E := E) (metadata path).
Proof. intros []. by apply only_reads_log. Qed.

(** A quiet call in the middle of others. *)
Lemma wp_quiet {A} (m : Act (C * World) E A) (Q : Result E A → C * World → Prop) c w :
  quiet m → (∀ r c' w', only_reads w w' → Q r (c', w')) → wp m Q (c, w).
Proof. intros Hq HQ. unfold wp. specialize (Hq (c, w)). destruct (m (c, w)) as [r [c' w']]. by apply HQ. Qed.

End quiet.

#[export] Hint Resolve quiet_ret quiet_raise quiet_lift quiet_guard quiet_map_err quiet_metadata : quiet.

Ltac quiet :=
  repeat first
    [ solve [eauto with quiet]
    | apply quiet_bind; [|intros ?]
    | apply quiet_map_err
    | case_match ].

(** ** Theorems *)

(** A passed [LinuxTools::validate] has seen that both executables are
    absolute, regular, executable and not symbolic links, and that the private
    key is an absolute regular file without any group or other permission; a
    refusal is always a configuration error, and no process is started. *)
Theorem validate_tools_trust {C} (t : LinuxTools) (c : C) w r s :
  validate_tools t (c, w) = (r, s) →
  processes s.2 = processes w ∧
  match r with
  | Ok _ =>
      ∃ m1 m2 m3, observed (EvMetadata (ip t) (Some m1)) s.2 ∧
        observed (EvMetadata (wg t) (Some m2)) s.2 ∧
        observed (EvMetadata (private_key t) (Some m3)) s.2 ∧
        Forall (λ '(p, m), is_absolute p = true ∧ md_is_file m = true ∧ md_is_symlink m = false)
          [(ip t, m1); (wg t, m2); (private_key t, m3)] ∧
        Z.land (md_mode m1) 73 ≠ 0 ∧ Z.land (md_mode m2) 73 ≠ 0 ∧ Z.land (md_mode m3) 63 = 0
  | Err e => ∃ reason, e = InvalidConfig reason
  | Panic => False
  end.
Proof.
  by_wp. apply wp_validate_tools; [|by eauto].
  intros w' ((m1 & Ho1 & H1) & (m2 & Ho2 & H2) & m3 & Ho3 & H3) Hp. split; [done|].
  exists m1, m2, m3. unfold executable_ok, private_file_ok, unsafe_mode in *.
  rewrite ?negb_true_iff, ?orb_false_iff in H1, H2, H3.
  destruct H1 as [[[??]?]?%Z.eqb_neq], H2 as [[[??]?]?%Z.eqb_neq], H3 as [[[??]?]?%negb_false_iff%Z.eqb_eq].
  split_and!; try done. repeat constructor; try done; by apply negb_false_iff.
Qed.

Definition trusted_env : Environment :=
  mkEnvironment (λ _, 0) (λ _ _, false) (λ _, 0) (λ _ _ _, Exited true "exit status: 0" "" "")
    (λ _ path, Some (mkMetadata true false false
       (if bool_decide (path = "/etc/cyberia/key") then 33152 else 33261) 44)).

Definition trusted_world : World := mkWorld trusted_env [].

Definition sample_tools : LinuxTools := mkTools "/usr/sbin/ip" "/usr/bin/wg" "/etc/cyberia/key".

Lemma validate_tools_trust_witness :
  (validate_tools sample_tools (tt, trusted_world)).1 = Ok tt ∧
  processes (validate_tools sample_tools (tt, trusted_world)).2.2 = [].
Proof.
  split; [vm_compute; reflexivity|].
  exact (proj1 (validate_tools_trust sample_tools tt trusted_world _ _ eq_refl)).
Defined.
