(* ===== verification/Nftables.v ===== *)
(** The nftables firewall: [core/killswitch/src/linux.rs].

    A traffic policy is rendered as one nftables transaction over a private
    table and applied through [nft --file -].  The theorems show that the text
    has exactly the intended lines whatever the policy, that it determines
    policy and endpoint, and that the backend keeps the firewall promise
    [FirewallSpec] with respect to the transactions [nft] accepted. *)

From S2P Require Import Prelude Machine Text Net Env Transport WireGuard KillSwitch Process.
Open Scope string_scope.
Open Scope Z_scope.

Definition TABLE_NAME : string := "cyberia_vpn".

Record NftablesConfig := mkNftables {
  endpoint_address : IpAddr;
  endpoint_port : Z;
}.

Inductive NftablesError :=
| NftInvalidInterface
| NftInvalidExecutable
| NftCommand (reason : string).

Definition display_nft_error (e : NftablesError) : string :=
  match e with
  | NftInvalidInterface => "invalid nftables tunnel interface"
  | NftInvalidExecutable => "invalid nftables executable"
  | NftCommand reason => "nftables command failed: " +:+ reason
  end.

Definition nft_valid_interface (name : string) : bool :=
  negb (is_empty name) && (len name <=? 63)
  && all_bytes (λ c, is_ascii_alphanumeric c || Ascii.eqb c "-"%char
                     || Ascii.eqb c "_"%char || Ascii.eqb c "."%char) name.

(** [NftablesConfig::render]. *)
Definition render (c : NftablesConfig) (p : TrafficPolicy) : Result NftablesError string :=
  let rules := "add table inet " +:+ TABLE_NAME +:+ newline
               +:+ "flush table inet " +:+ TABLE_NAME +:+ newline in
  if bool_decide (p = Disabled)
  then Ok (rules +:+ "delete table inet " +:+ TABLE_NAME +:+ newline)
  else
    let rules := rules +:+ "add chain inet " +:+ TABLE_NAME
      +:+ " output { type filter hook output priority -100; policy drop; }" +:+ newline in
    let rules := rules +:+ "add rule inet " +:+ TABLE_NAME
      +:+ " output oifname " +:+ quote +:+ "lo" +:+ quote +:+ " accept" +:+ newline in
    let address_family := if is_ipv4 (endpoint_address c) then "ip" else "ip6" in
    let rules := rules +:+ "add rule inet " +:+ TABLE_NAME +:+ " output " +:+ address_family
      +:+ " daddr " +:+ display_ip (endpoint_address c) +:+ " udp dport "
      +:+ to_dec (endpoint_port c) +:+ " accept" +:+ newline in
    match p with
    | TunnelOnly interface =>
        if negb (nft_valid_interface interface) then Err NftInvalidInterface
        else Ok (rules +:+ "add rule inet " +:+ TABLE_NAME +:+ " output oifname " +:+ quote
                 +:+ interface +:+ quote +:+ " accept" +:+ newline)
    | _ => Ok rules
    end.

(** ** Runners *)

Class NftablesRunner (N : Type) := {
  nft_apply : string → Act (N * World) NftablesError unit;
}.

Record SystemNftablesRunner := mkSystemNftables { executable : string }.

Definition nft_validate_executable {C} (path : string) : Act (C * World) NftablesError unit :=
  answer ← metadata path;
  m ← lift (ok_or answer NftInvalidExecutable);
  guard_err (negb (executable_ok path m)) NftInvalidExecutable.

Definition system_nftables_new {C} (path : string) :
    Act (C * World) NftablesError SystemNftablesRunner :=
  nft_validate_executable path;;
  mret (mkSystemNftables path).

Definition nft_command (n : SystemNftablesRunner) : CommandSpec :=
  mkCommand (executable n) ["--file"; "-"].

Definition system_nft_apply (rules : string) : Act (SystemNftablesRunner * World) NftablesError unit :=
  me ← self (λ n, n);
  outcome ← spawn (nft_command me) (Some rules);
  match outcome with
  | SpawnFailed error => raise (NftCommand ("failed to start nft: " +:+ error))
  | StdinFailed error => raise (NftCommand ("failed to write nft rules: " +:+ error))
  | WaitFailed error => raise (NftCommand ("failed to wait for nft: " +:+ error))
  | Exited success status stdout stderr =>
      if (success : bool) then mret tt
      else raise (NftCommand ("nft exited with " +:+ status +:+ ": " +:+ bounded_reason stderr))
  end.

#[export] Instance system_nftables_ops : NftablesRunner SystemNftablesRunner := {|
  nft_apply := system_nft_apply;
|}.

(** ** The backend *)

Record NftablesBackend (N : Type) := mkNftBackend {
  nft_config : NftablesConfig;
  nft_runner : N;
}.
Arguments mkNftBackend {N}.
Arguments nft_config {N}.
Arguments nft_runner {N}.

Section backend.
Context {N : Type} `{NftablesRunner N}.

Definition set_nft_runner (n : N) (b : NftablesBackend N) : NftablesBackend N :=
  mkNftBackend (nft_config b) n.

Definition nft_backend_apply (p : TrafficPolicy) : Act (NftablesBackend N * World) NftablesError unit :=
  me ← self (λ b, b);
  rules ← lift (render (nft_config me) p);
  on_field nft_runner set_nft_runner (nft_apply rules).

#[export] Instance nft_firewall : Firewall (NftablesBackend N) := {|
  fw_apply p := act_map_err (λ e, FirewallErr (display_nft_error e)) (nft_backend_apply p);
|}.
End backend.

(** ** The promise of a runner, and the firewall promise it gives *)

Class NftablesSpec (N : Type) `{NftablesRunner N} := {
  (** The transactions [nft] accepted, newest first. *)
  accepted : N → World → list string;
  accepted_frame : ∀ n w w', piped w = piped w' → accepted n w = accepted n w';
  nft_apply_ok : ∀ rules n w n' w', nft_apply rules (n, w) = (Ok tt, (n', w')) →
    accepted n' w' = rules :: accepted n w;
  nft_apply_err : ∀ rules n w e n' w', nft_apply rules (n, w) = (Err e, (n', w')) →
    accepted n' w' = accepted n w;
}.

(** The newest accepted transaction is the rendering of [p]. *)
Definition in_force {N} `{NftablesSpec N} (b : NftablesBackend N) (w : World) (p : TrafficPolicy) : Prop :=
  ∃ rules, render (nft_config b) p = Ok rules ∧ head (accepted (nft_runner b) w) = Some rules.

Lemma render_no_panic c p : render c p ≠ Panic.
Proof.
  unfold render. case_bool_decide; [done|]. destruct p; try done. by destruct (nft_valid_interface _).
Qed.

#[export] Instance nft_firewall_spec {N} `{NftablesSpec N} : FirewallSpec (NftablesBackend N).
Proof.
  refine {| enforces := in_force |}.
  - intros p b w b' w'. cbn.
    cut (wp (act_map_err (λ e, FirewallErr (display_nft_error e)) (nft_backend_apply p))
      (λ r s, r = Ok tt → in_force s.1 s.2 p) (b, w)).
    { intros Hwp Hrun. exact (wp_elim _ _ _ _ _ Hwp Hrun eq_refl). }
    wp_run. unfold nft_backend_apply. wp_run.
    destruct (render (nft_config b) p) as [rules|e|] eqn:Hr; wp_run; [|done..].
    apply wp_intro. intros [[]|e|] [n w1] Ha; cbn; [|done..]. intros _.
    exists rules. split; [done|]. cbn. by rewrite (nft_apply_ok _ _ _ _ _ Ha).
  - intros p q b w e b' w'. cbn. intros Hrun (old & Hold & Hhead). revert Hrun.
    cut (wp (act_map_err (λ e, FirewallErr (display_nft_error e)) (nft_backend_apply p))
      (λ r s, r = Err e → in_force s.1 s.2 q) (b, w)).
    { intros Hwp Hrun. exact (wp_elim _ _ _ _ _ Hwp Hrun eq_refl). }
    wp_run. unfold nft_backend_apply. wp_run.
    destruct (render (nft_config b) p) as [rules|e'|] eqn:Hr; wp_run; [| |done].
    + apply wp_intro. intros [[]|e'|] [n w1] Ha; cbn; [done| |done]. intros _.
      exists old. split; [done|]. cbn. by rewrite (nft_apply_err _ _ _ _ _ _ Ha).
    + intros _. by exists old.
Defined.

(** The system runner: the transactions of its own executable that exited
    successfully. *)
Definition accepted_by (exe : string) (h : list Event) : list string :=
  omap (λ e, match e with
             | EvProcess c (Some rules) (Exited true _ _ _) =>
                 if bool_decide (c = mkCommand exe ["--file"; "-"]) then Some rules else None
             | _ => None
             end) h.

Lemma accepted_by_piped exe h : accepted_by exe h = accepted_by exe (filter is_piped h).
Proof.
  unfold accepted_by. induction h as [|e h IH]; [done|].
  destruct e as [?|? ?|?|?|c [i|] o|? ?|?|? ?|? ?]; cbn; try exact IH. by rewrite IH.
Qed.

Lemma system_nft_apply_accepted rules n w r n' w' :
  system_nft_apply rules (n, w) = (r, (n', w')) →
  accepted_by (executable n') (history w') =
    match r with
    | Ok _ => rules :: accepted_by (executable n) (history w)
    | _ => accepted_by (executable n) (history w)
    end.
Proof.
  unfold system_nft_apply, self, spawn, on_world. run. cbn [log history].
  destruct (env_process _ _ _ _) as [?|?|?|[] status out err]; [by intros; simplify_eq..| |];
    [|by intros; simplify_eq].
  intros; simplify_eq. unfold accepted_by. cbn. by rewrite bool_decide_eq_true_2.
Qed.

#[export] Instance system_nftables_spec : NftablesSpec SystemNftablesRunner.
Proof.
  refine {| accepted := λ n w, accepted_by (executable n) (history w) |}.
  - intros n w w' Hp. rewrite (accepted_by_piped _ (history w)), (accepted_by_piped _ (history w')).
    unfold piped in Hp. by rewrite Hp.
  - intros *. apply system_nft_apply_accepted.
  - intros *. apply system_nft_apply_accepted.
Defined.

(** ** What the text says *)

(** The lines of a policy, word by word. *)
Definition policy_lines (c : NftablesConfig) (p : TrafficPolicy) : list (list string) :=
  let table verb := [verb; "table"; "inet"; TABLE_NAME] in
  let accept condition :=
    (["add"; "rule"; "inet"; TABLE_NAME; "output"] ++ condition ++ ["accept"])%list in
  let quoted name := quote +:+ name +:+ quote in
  let family := if is_ipv4 (endpoint_address c) then "ip" else "ip6" in
  let blocking :=
    [ ["add"; "chain"; "inet"; TABLE_NAME; "output"; "{"; "type"; "filter"; "hook"; "output";
       "priority"; "-100;"; "policy"; "drop;"; "}"];
      accept ["oifname"; quoted "lo"];
      accept [family; "daddr"; display_ip (endpoint_address c); "udp"; "dport";
              to_dec (endpoint_port c)] ] in
  ([table "add"; table "flush"] ++
   match p with
   | Disabled => [table "delete"]
   | BlockNonTunnel => blocking
   | TunnelOnly name => blocking ++ [accept ["oifname"; quoted name]]
   end)%list.

Definition policy_acceptable (p : TrafficPolicy) : bool :=
  match p with TunnelOnly name => nft_valid_interface name | _ => true end.

Definition nftables_typed (c : NftablesConfig) : Prop :=
  ip_typed (endpoint_address c) ∧ u16 (endpoint_port c).

Lemma render_eval c p :
  render c p =
    if policy_acceptable p then Ok (unlines (map (join " ") (policy_lines c p)))
    else Err NftInvalidInterface.
Proof.
  unfold render, policy_acceptable. destruct p as [| |name].
  - rewrite bool_decide_eq_true_2 by done. reflexivity.
  - rewrite bool_decide_eq_false_2 by done. cbn [policy_lines app map]. rewrite !unlines_cons.
    unfold join. cbn [String.concat app]. generalize (display_ip (endpoint_address c)) as address.
    generalize (to_dec (endpoint_port c)) as port. intros port address.
    destruct (is_ipv4 _); rewrite !string_app_assoc; reflexivity.
  - rewrite bool_decide_eq_false_2 by done. destruct (nft_valid_interface name); cbn [negb]; [|done].
    cbn [policy_lines app map]. rewrite !unlines_cons.
    unfold join. cbn [String.concat app]. generalize (display_ip (endpoint_address c)) as address.
    generalize (to_dec (endpoint_port c)) as port. intros port address.
    destruct (is_ipv4 _); rewrite !string_app_assoc; reflexivity.
Qed.

Lemma is_word_class p w :
  w ≠ "" → forallb (λ c, implb (p c) (is_word_char c)) all_ascii = true → all_bytes p w = true →
  is_word w.
Proof. intros Hne Hp Hw. split; [done|]. by apply (all_bytes_class p). Qed.

Lemma to_dec_nonempty n : 0 ≤ n → to_dec n ≠ "".
Proof.
  intros Hn Heq. destruct (to_dec_digits (Z.log2 n + 1) n) as (ds & Hds & Hne & _).
  - split; [done|]. destruct (decide (n = 0)) as [->|]; [by vm_compute|].
    rewrite Z.add_1_r. apply Z.log2_spec. lia.
  - rewrite Heq in Hds. by subst.
Qed.

Lemma display_ip_word a : ip_typed a → is_word (display_ip a).
Proof.
  intros Ha. apply (is_word_class is_ip_char); [by apply display_ip_nonempty|by vm_compute|].
  apply display_ip_chars.
Qed.

Lemma to_dec_word n : 0 ≤ n → is_word (to_dec n).
Proof.
  intros Hn. apply (is_word_class is_ascii_digit); [by apply to_dec_nonempty|by vm_compute|].
  by apply to_dec_all_digits.
Qed.

Lemma quoted_word name : nft_valid_interface name = true → is_word (quote +:+ name +:+ quote).
Proof.
  intros [_ Hb]%andb_true_iff. split; [done|]. rewrite !all_bytes_app.
  rewrite (all_bytes_class _ is_word_char name) with (2 := Hb) by (by vm_compute). done.
Qed.

Lemma policy_words c p :
  nftables_typed c → policy_acceptable p = true → Forall (Forall is_word) (policy_lines c p).
Proof.
  intros [Ha [Hp _]] Hok. pose proof (display_ip_word _ Ha). pose proof (to_dec_word _ Hp).
  assert (is_word (if is_ipv4 (endpoint_address c) then "ip" else "ip6")) by (by destruct (is_ipv4 _)).
  destruct p as [| |name]; cbn [policy_acceptable] in Hok;
    unfold policy_lines; cbn [app]; repeat first [done | by apply quoted_word | constructor].
Qed.

Lemma render_words c p rules :
  nftables_typed c → render c p = Ok rules →
  policy_acceptable p = true ∧ words_of rules = policy_lines c p.
Proof.
  intros Ht. rewrite render_eval. destruct (policy_acceptable p) eqn:Hok; [|done]. intros Hr.
  assert (rules = unlines (map (join " ") (policy_lines c p))) as -> by congruence.
  split; [done|]. by apply words_unlines, policy_words.
Qed.

Lemma quoted_inj n n' : quote +:+ n +:+ quote = quote +:+ n' +:+ quote → n = n'.
Proof.
  intros Heq%(f_equal chars). rewrite !chars_app in Heq. cbn [chars app] in Heq.
  injection Heq as Heq. apply chars_inj. by apply app_inv_tail in Heq.
Qed.

(** ** Theorems *)

(** C22: [NftablesConfig::render] succeeds exactly on acceptable policies, and the
    text consists of exactly the intended lines and words: the owned table is
    recreated or deleted, the output chain drops by default, and the only
    accepting rules are loopback, the endpoint's address and UDP port and, for
    an established tunnel, that one interface.  No value can add a line or a
    word. *)
Theorem render_exact c p :
  nftables_typed c →
  (∃ rules, render c p = Ok rules ∧ policy_acceptable p = true ∧
     words_of rules = policy_lines c p) ∨
  (render c p = Err NftInvalidInterface ∧ policy_acceptable p = false).
Proof.
  intros Ht. destruct (policy_acceptable p) eqn:Hok.
  - left. eexists. split; [by rewrite render_eval, Hok|]. split; [done|].
    apply render_words; [done|]. by rewrite render_eval, Hok.
  - right. by rewrite render_eval, Hok.
Qed.

Definition sample_nftables : NftablesConfig := mkNftables (V4 3221225985) 51820.

Lemma render_exact_witness :
  ∃ rules, render sample_nftables (TunnelOnly "cyberia0") = Ok rules ∧
    length (words_of rules) = 6%nat ∧
    last (words_of rules) = Some ["add"; "rule"; "inet"; "cyberia_vpn"; "output"; "oifname";
                                  quote +:+ "cyberia0" +:+ quote; "accept"].
Proof.
  destruct (render_exact sample_nftables (TunnelOnly "cyberia0")) as [(rules & Hr & _ & Hw)|[Hr _]].
  - split; cbn; unfold fits; lia.
  - exists rules. rewrite Hw. split; [exact Hr|]. split; reflexivity.
  - vm_compute in Hr. discriminate.
Defined.

(** The text determines what it enforces: if two renderings coincide, the
    policies are equal, and so are the endpoints unless filtering is off. *)
Theorem render_determines c c' p p' rules :
  nftables_typed c → nftables_typed c' →
  render c p = Ok rules → render c' p' = Ok rules → p = p' ∧ (p ≠ Disabled → c = c').
Proof.
  intros Ht Ht' [_ Hw]%render_words [_ Hw']%render_words; [|done..].
  rewrite Hw in Hw'. clear Hw. destruct c as [a port], c' as [a' port'], Ht as [Ha Hp], Ht' as [Ha' Hp'].
  cbn in Ha, Ha', Hp, Hp'.
  assert (∀ x y, display_ip a = x → x = y → display_ip a' = y → a = a') as Haddr
    by (intros; apply display_ip_inj; congruence).
  assert (to_dec port = to_dec port' → port = port') as Hport.
  { intros Heq%(f_equal (parse_dec 16)). rewrite !parse_to_dec in Heq by done. congruence. }
  destruct p as [| |n], p' as [| |n']; cbn [policy_lines app] in Hw'; try discriminate; [done|..];
    injection Hw'; intros; subst.
  - split; [done|]. intros _. f_equal; eauto.
  - split; [f_equal; apply quoted_inj; congruence|]. intros _. f_equal; eauto.
Qed.

Lemma render_determines_witness :
  ∃ rules, render sample_nftables BlockNonTunnel = Ok rules ∧
    ∀ c' p', nftables_typed c' → render c' p' = Ok rules →
      p' = BlockNonTunnel ∧ c' = sample_nftables.
Proof.
  eexists. split; [vm_compute; reflexivity|]. intros c' p' Ht Hr.
  destruct (render_determines sample_nftables c' BlockNonTunnel p' _
    ltac:(split; cbn; unfold fits; lia) Ht ltac:(vm_compute; reflexivity) Hr) as [<- Hc].
  split; [done|]. symmetry. by apply Hc.
Defined.
