(* ===== verification/Linux.v ===== *)
(** The client side of [core/transport/src/linux.rs]: the WireGuard backend that
    drives [ip] and [wg], and the DNS backend that drives [resolvectl].

    Both issue sequences of commands that may fail or be cancelled at any
    point.  The theorems follow the resources those commands create: after
    every call, successful or not, what the backend records as its own is
    exactly what is left to undo, except when a cleanup command itself failed,
    which the returned error then says. *)

From S2P Require Import Prelude Machine Text Net Env Transport WireGuard Process.
Open Scope string_scope.
Open Scope Z_scope.

Definition MAXIMUM_HANDSHAKE_AGE_SECONDS : Z := 180.

(** ** Arguments *)

Definition ALPHABET : string :=
  "ABCDEFGHIJKLMNOPQRSTUVWXYZabcdefghijklmnopqrstuvwxyz0123456789+/".

Definition alphabet_char (i : Z) : ascii := default "A"%char (chars ALPHABET !! Z.to_nat i).

(** [key.chunks(3)]. *)
Fixpoint chunks3 (l : list Z) : list (list Z) :=
  match l with
  | [] => []
  | [a] => [[a]]
  | [a; b] => [[a; b]]
  | a :: b :: c :: l => [a; b; c] :: chunks3 l
  end.

Definition encode_chunk (chunk : list Z) : list ascii :=
  let first := default 0 (chunk !! 0%nat) in
  let second := default 0 (chunk !! 1%nat) in
  let third := default 0 (chunk !! 2%nat) in
  [ alphabet_char (Z.shiftr first 2);
    alphabet_char (Z.lor (Z.shiftl (Z.land first 3) 4) (Z.shiftr second 4));
    (if (1 <? length chunk)%nat
     then alphabet_char (Z.lor (Z.shiftl (Z.land second 15) 2) (Z.shiftr third 6))
     else "="%char);
    (if (2 <? length chunk)%nat then alphabet_char (Z.land third 63) else "="%char) ].

Definition encode_key (key : Key) : string := of_chars (concat (map encode_chunk (chunks3 key))).

Definition endpoint_text (e : Endpoint) : string :=
  if contains_char ":"%char (host e)
  then "[" +:+ host e +:+ "]:" +:+ to_dec (port e)
  else host e +:+ ":" +:+ to_dec (port e).

(** [format!("{}/{}", address, prefix_length)]. *)
Definition cidr (a : IpAddr) (prefix : Z) : string := display_ip a +:+ "/" +:+ to_dec prefix.

Definition allowed_ips_text (l : list AllowedIp) : string :=
  join "," (map (λ a, cidr (ai_network a) (ai_prefix_length a)) l).

Definition keepalive_arguments (seconds : option Z) : list string :=
  match seconds with Some s => ["persistent-keepalive"; to_dec s] | None => [] end.

(** ** The WireGuard backend *)

Inductive AddressFamily := FamilyV4 | FamilyV6.

Definition family_argument (f : AddressFamily) : string :=
  match f with FamilyV4 => "-4" | FamilyV6 => "-6" end.

Inductive PolicyRule :=
| NotFirewallMark (family : AddressFamily)
| SuppressDefault (family : AddressFamily).

Record LinuxWireGuardBackend (R : Type) := mkLinuxBackend {
  lb_tools : LinuxTools;
  lb_runner : R;
  routing_mark : Z;
  active_rules : list PolicyRule;
  lb_active_interface : option string;
  lb_health_failures : Z;
}.
Arguments mkLinuxBackend {R}.
Arguments lb_tools {R}.
Arguments lb_runner {R}.
Arguments routing_mark {R}.
Arguments active_rules {R}.
Arguments lb_active_interface {R}.
Arguments lb_health_failures {R}.

(** [latest_handshake]: the newest nonzero timestamp of the second fields. *)
Definition latest_handshake (output : string) : option Z :=
  if negb (utf8_valid output) then None else
  let stamps := omap (λ line, split_ascii_whitespace line !! 1%nat ≫= parse_dec 64) (lines output) in
  match stamps with
  | [] => None
  | t :: ts => let m := foldr Z.max t ts in if m =? 0 then None else Some m
  end.

Definition fresh_handshake (now timestamp : Z) : bool :=
  (timestamp <=? now) && (now - timestamp <=? MAXIMUM_HANDSHAKE_AGE_SECONDS).

Section wireguard.
Context {R : Type} `{CommandRunner R} `{UnicodeTables}.
Local Abbreviation Self := (LinuxWireGuardBackend R).

Definition set_lb_runner (r : R) (b : Self) : Self :=
  mkLinuxBackend (lb_tools b) r (routing_mark b) (active_rules b) (lb_active_interface b)
    (lb_health_failures b).
Definition set_active_rules (l : list PolicyRule) (b : Self) : Self :=
  mkLinuxBackend (lb_tools b) (lb_runner b) (routing_mark b) l (lb_active_interface b)
    (lb_health_failures b).
Definition set_lb_interface (i : option string) (b : Self) : Self :=
  mkLinuxBackend (lb_tools b) (lb_runner b) (routing_mark b) (active_rules b) i
    (lb_health_failures b).
Definition set_lb_failures (n : Z) (b : Self) : Self :=
  mkLinuxBackend (lb_tools b) (lb_runner b) (routing_mark b) (active_rules b)
    (lb_active_interface b) n.

Definition linux_backend_new (t : LinuxTools) (mark : Z) : Act (R * World) TransportError Self :=
  validate_backend_tools t;;
  r ← self (λ r, r);
  mret (mkLinuxBackend t r mark [] None 0).

Definition lb_command (prog : LinuxTools → string) (arguments : list string) :
    Act (Self * World) TransportError unit :=
  me ← self (λ b, b);
  on_field lb_runner set_lb_runner (runner_run (mkCommand (prog (lb_tools me)) arguments)).

Definition lb_delete_interface (interface : string) : Act (Self * World) TransportError unit :=
  lb_command ip ["link"; "delete"; "dev"; interface].

Definition wg_set_arguments (b : Self) (interface : string) (p : WireGuardConfig) : list string :=
  (["set"; interface; "private-key"; to_string_lossy (private_key (lb_tools b));
    "fwmark"; to_dec (routing_mark b); "peer"; encode_key (peer_public_key p);
    "endpoint"; endpoint_text (wg_endpoint p); "allowed-ips"; allowed_ips_text (allowed_ips p)]
   ++ keepalive_arguments (persistent_keepalive_seconds p))%list.

Definition lb_configure (interface : string) (p : WireGuardConfig) (context : ConnectContext) :
    Act (Self * World) TransportError unit :=
  me ← self (λ b, b);
  check context;;
  lb_command wg (wg_set_arguments me interface p);;
  for_each (tunnel_addresses p) (λ a,
    check context;;
    lb_command ip ["address"; "add"; cidr (ta_address a) (ta_prefix_length a); "dev"; interface]);;
  check context;;
  lb_command ip ["link"; "set"; "dev"; interface; "mtu"; to_dec (mtu p); "up"].

Definition family_of (a : IpAddr) : AddressFamily :=
  match a with V4 _ => FamilyV4 | V6 _ => FamilyV6 end.

(** The arguments after the family and [rule add] or [rule delete]. *)
Definition rule_selector (mark : Z) (rule : PolicyRule) : list string :=
  match rule with
  | NotFirewallMark _ => ["not"; "fwmark"; to_dec mark; "table"; to_dec mark]
  | SuppressDefault _ => ["table"; "main"; "suppress_prefixlength"; "0"]
  end.

Definition rule_family (rule : PolicyRule) : AddressFamily :=
  match rule with NotFirewallMark f | SuppressDefault f => f end.

(** [install_routes] with the caller's vector of rules as a local variable. *)
Definition install_route (interface : string) (context : ConnectContext) (a : AllowedIp) :
    Act ((Self * list PolicyRule) * World) TransportError unit :=
  check context;;
  let family := family_of (ai_network a) in
  let fam := family_argument family in
  if negb (ai_prefix_length a =? 0) then
    on_self (lb_command ip [fam; "route"; "replace"; cidr (ai_network a) (ai_prefix_length a);
                            "dev"; interface])
  else
    mark ← self (λ s, routing_mark s.1);
    on_self (lb_command ip [fam; "route"; "replace"; "default"; "dev"; interface;
                            "table"; to_dec mark]);;
    on_self (lb_command ip ([fam; "rule"; "add"] ++ rule_selector mark (NotFirewallMark family))%list);;
    set_local (λ rules, rules ++ [NotFirewallMark family])%list;;
    on_self (lb_command ip ([fam; "rule"; "add"] ++ rule_selector mark (SuppressDefault family))%list);;
    set_local (λ rules, rules ++ [SuppressDefault family])%list.

Definition install_routes (interface : string) (p : WireGuardConfig) (context : ConnectContext) :
    Act ((Self * list PolicyRule) * World) TransportError unit :=
  for_each (allowed_ips p) (install_route interface context).

Definition remove_policy_rule (rule : PolicyRule) : Act (Self * World) TransportError unit :=
  mark ← self routing_mark;
  lb_command ip
    ([family_argument (rule_family rule); "rule"; "delete"] ++ rule_selector mark rule)%list.

(** [while let Some(rule) = rules.last() { remove(rule)?; rules.pop(); }]: one
    round per rule is enough. *)
Fixpoint remove_loop (rounds : nat) : Act ((Self * list PolicyRule) * World) TransportError unit :=
  match rounds with
  | O => mret tt
  | S rounds =>
      rules ← local (λ l, l);
      match last rules with
      | None => mret tt
      | Some rule =>
          on_self (remove_policy_rule rule);;
          set_local (λ l, take (pred (length l)) l);;
          remove_loop rounds
      end
  end.

Definition remove_policy_rules : Act ((Self * list PolicyRule) * World) TransportError unit :=
  rules ← local (λ l, l);
  remove_loop (S (length rules)).

Definition cleanup_error (setup_error : TransportError) (rules interface : TransportError + unit) :
    TransportError :=
  Network ("WireGuard setup failed: " +:+ display_transport_error setup_error
           +:+ "; cleanup failed: rules=" +:+ debug_outcome rules
           +:+ ", interface=" +:+ debug_outcome interface).

(** [return Err(self.rollback_setup(interface, &mut rules, setup_error))]. *)
Definition rollback_setup (interface : string) (rules : list PolicyRule)
    (setup_error : TransportError) : Act (Self * World) TransportError unit :=
  removed ← with_local rules remove_policy_rules;
  deleted ← attempt (E := TransportError) (lb_delete_interface interface);
  match removed.1, deleted with
  | inr _, inr _ => raise setup_error
  | rules, interface => raise (cleanup_error setup_error rules interface)
  end.

Definition lb_bring_up (interface : string) (p : WireGuardConfig) (context : ConnectContext) :
    Act (Self * World) TransportError unit :=
  me ← self (λ b, b);
  guard_err (match lb_active_interface me with Some _ => true | None => false end) AlreadyConnected;;
  check context;;
  lb_command ip ["link"; "add"; "dev"; interface; "type"; "wireguard"];;
  configured ← attempt (E := TransportError) (lb_configure interface p context);
  match configured with
  | inl setup_error => rollback_setup interface [] setup_error
  | inr _ =>
      routed ← with_local [] (install_routes interface p context);
      match routed with
      | (inl setup_error, rules) => rollback_setup interface rules setup_error
      | (inr _, rules) =>
          set_self (set_active_rules rules);;
          set_self (set_lb_interface (Some interface))
      end
  end.

Definition lb_bring_down (interface : string) : Act (Self * World) TransportError unit :=
  me ← self (λ b, b);
  guard_err (negb (bool_decide (lb_active_interface me = Some interface))) NotConnected;;
  set_self (set_active_rules []);;
  removed ← with_local (active_rules me) remove_policy_rules;
  match removed with
  | (inl error, rules) => set_self (set_active_rules rules);; raise error
  | (inr _, _) =>
      lb_delete_interface interface;;
      set_self (set_lb_interface None)
  end.

Definition lb_health : Act (Self * World) Infallible TransportHealth :=
  me ← self (λ b, b);
  match lb_active_interface me with
  | None => mret (mkHealth Unavailable None (lb_health_failures me))
  | Some interface =>
      output ← attempt (E := TransportError) (on_field lb_runner set_lb_runner
        (runner_output (mkCommand (wg (lb_tools me)) ["show"; interface; "latest-handshakes"])));
      match output with
      | inl _ =>
          let failures := saturating_add 32 (lb_health_failures me) 1 in
          set_self (set_lb_failures failures);;
          mret (mkHealth Unavailable None failures)
      | inr output =>
          set_self (set_lb_failures 0);;
          now ← unix_time;
          let fresh := match latest_handshake output with
                       | Some timestamp => fresh_handshake now timestamp
                       | None => false
                       end in
          mret (mkHealth (if fresh then Healthy else Degraded) None 0)
      end
  end.

#[export] Instance linux_wireguard_backend : WireGuardBackend Self := {|
  bring_up := lb_bring_up;
  bring_down := lb_bring_down;
  backend_health := lb_health;
|}.
End wireguard.

(** ** The DNS backend *)

Record LinuxDnsBackend (R : Type) := mkDnsBackend {
  dns_tools : LinuxDnsTools;
  dns_runner : R;
  dns_active_interface : option string;
}.
Arguments mkDnsBackend {R}.
Arguments dns_tools {R}.
Arguments dns_runner {R}.
Arguments dns_active_interface {R}.

Section dns.
Context {R : Type} `{CommandRunner R}.
Local Abbreviation Self := (LinuxDnsBackend R).

Definition set_dns_runner (r : R) (b : Self) : Self :=
  mkDnsBackend (dns_tools b) r (dns_active_interface b).
Definition set_dns_interface (i : option string) (b : Self) : Self :=
  mkDnsBackend (dns_tools b) (dns_runner b) i.

Definition dns_new (t : LinuxDnsTools) : Act (R * World) TransportError Self :=
  validate_dns_tools t;;
  r ← self (λ r, r);
  mret (mkDnsBackend t r None).

Definition dns_command (arguments : list string) : Act (Self * World) TransportError unit :=
  me ← self (λ b, b);
  on_field dns_runner set_dns_runner (runner_run (mkCommand (resolvectl (dns_tools me)) arguments)).

(** The closure of [configure]. *)
Definition dns_setup (interface : string) (c : DnsConfig) (context : ConnectContext) :
    Act (Self * World) TransportError unit :=
  dns_command (["dns"; interface] ++ map display_ip (resolvers c))%list;;
  check context;;
  dns_command ["domain"; interface; "~."];;
  check context;;
  dns_command ["default-route"; interface; "yes"].

Definition dns_configure (interface : string) (c : DnsConfig) (context : ConnectContext) :
    Act (Self * World) TransportError unit :=
  me ← self (λ b, b);
  guard_err (match dns_active_interface me with Some _ => true | None => false end) AlreadyConnected;;
  guard_err (negb (linux_valid_interface interface)) (InvalidConfig "invalid DNS interface name");;
  lift (validate_dns c);;
  check context;;
  result ← attempt (E := TransportError) (dns_setup interface c context);
  match result with
  | inl setup_error =>
      reverted ← attempt (E := TransportError) (dns_command ["revert"; interface]);
      match reverted with
      | inl cleanup_error =>
          set_self (set_dns_interface (Some interface));;
          raise (Network ("DNS setup failed: " +:+ display_transport_error setup_error
                          +:+ "; cleanup failed: " +:+ display_transport_error cleanup_error))
      | inr _ => raise setup_error
      end
  | inr _ => set_self (set_dns_interface (Some interface))
  end.

Definition needs_revert (b : Self) : bool :=
  match dns_active_interface b with Some _ => true | None => false end.

Definition dns_revert (interface : string) : Act (Self * World) TransportError unit :=
  me ← self (λ b, b);
  guard_err (negb (bool_decide (dns_active_interface me = Some interface))) NotConnected;;
  dns_command ["revert"; interface];;
  set_self (set_dns_interface None).
End dns.

(** ** Resources

    The links and routing rules that completed commands created and did not
    delete again, as a multiset.  Routes, addresses and peers live and die with
    their link. *)

Inductive Resource :=
| Link (name : string)
| Rule (selector : list string).

#[export] Instance resource_eq_dec : EqDecision Resource.
Proof. solve_decision. Defined.
#[export] Program Instance resource_countable : Countable Resource :=
  inj_countable (λ r, match r with Link n => inl n | Rule s => inr s end)
    (λ s, Some (match s with inl n => Link n | inr s => Rule s end)) _.
Next Obligation. by intros []. Qed.

Abbreviation Ledger := (gmultiset Resource).

Definition effect (arguments : list string) (l : Ledger) : Ledger :=
  match arguments with
  | o1 :: o2 :: o3 :: rest =>
      if String.eqb o1 "link" && String.eqb o2 "add"
      then match rest with name :: _ => l ⊎ {[+ Link name +]} | [] => l end
      else if String.eqb o1 "link" && String.eqb o2 "delete"
      then match rest with name :: _ => l ∖ {[+ Link name +]} | [] => l end
      else if String.eqb o2 "rule" then
        if String.eqb o3 "add" then l ⊎ {[+ Rule (o1 :: rest) +]}
        else if String.eqb o3 "delete" then l ∖ {[+ Rule (o1 :: rest) +]}
        else l
      else l
  | _ => l
  end.

Definition ledger_of (l : list Invocation) : Ledger :=
  foldr (λ inv l, effect (arguments inv.1) l) ∅ l.

Section resources.
Context {R : Type} `{RunnerSpec R} `{UnicodeTables}.
Local Abbreviation Self := (LinuxWireGuardBackend R).
Implicit Types (b : Self) (w : World) (l : Ledger).

Definition ledger (r : R) (w : World) : Ledger := ledger_of (completed r w).

(** [s] differs from [b] at most in its runner, the ledger is [l], and nothing
    was piped to a process since [p]. *)
Definition at_ledger b l (p : list Event) (s : Self * World) : Prop :=
  s.1 = set_lb_runner (lb_runner s.1) b ∧ ledger (lb_runner s.1) s.2 = l ∧ piped s.2 = p.

Definition unpiped {A} (p : list Event) (Q : Result TransportError A → Self * World → Prop) : Prop :=
  ∀ s, piped s.2 = p → Q Panic s.

Lemma wp_lb_command b l p prog args s Q :
  at_ledger b l p s →
  (∀ s', at_ledger b (effect args l) p s' → Q (Ok tt) s') →
  (∀ e s', at_ledger b l p s' → Q (Err e) s') →
  unpiped p Q →
  wp (lb_command prog args) Q s.
Proof.
  destruct s as [b1 w]. intros (Hb & Hl & Hp) Hok Herr Hpanic. cbn in Hb, Hl, Hp.
  unfold lb_command. wp_run. apply wp_runner_run.
  - intros r' w' Hc Hp'. apply Hok. split_and!; cbn; [by rewrite Hb| |congruence].
    unfold ledger, ledger_of in *. rewrite Hc. cbn [foldr fst arguments]. by rewrite Hl.
  - intros e r' w' Hc Hp'. apply Herr. split_and!; cbn; [by rewrite Hb| |congruence].
    unfold ledger in *. by rewrite Hc.
  - intros r' w' Hp'. apply Hpanic. cbn. congruence.
Qed.

Lemma at_ledger_processes b l p b1 w w' :
  at_ledger b l p (b1, w) → processes w' = processes w → at_ledger b l p (b1, w').
Proof.
  intros (Hb & Hl & Hp) Hw. cbn in Hb, Hl, Hp.
  split_and!; cbn; [done| |rewrite <-Hp; by apply piped_processes].
  rewrite <-Hl. unfold ledger. f_equal. by apply completed_frame.
Qed.

Lemma wp_lb_check b l p context s Q :
  at_ledger b l p s →
  (∀ s', at_ledger b l p s' → Q (Ok tt) s') →
  (∀ e s', at_ledger b l p s' → Q (Err e) s') →
  wp (check context) Q s.
Proof.
  destruct s as [b1 w]. intros Hs Hok Herr. apply wp_check; eauto using at_ledger_processes.
Qed.

Lemma effect_wg_set b interface profile l :
  effect (wg_set_arguments b interface profile) l = l.
Proof. unfold effect, wg_set_arguments. cbn. by destruct (String.eqb interface "rule"). Qed.

(** Configuration touches nothing the ledger counts. *)
Lemma wp_lb_configure b l p interface profile context s (Q : Result TransportError unit → _ → Prop) :
  at_ledger b l p s →
  (∀ r s', r ≠ Panic → at_ledger b l p s' → Q r s') →
  unpiped p Q →
  wp (lb_configure interface profile context) Q s.
Proof.
  intros Hs HQ Hp. destruct s as [b1 w]. unfold lb_configure. wp_run.
  eapply wp_lb_check; [done|intros s1 Hs1|intros e s1 Hs1; by apply HQ]. wp_run.
  eapply wp_lb_command; [done|intros s2 Hs2|intros e s2 Hs2; by apply HQ|done]. wp_run.
  rewrite effect_wg_set in Hs2.
  eapply (wp_for_each (λ _ s, at_ledger b l p s)); [exact Hs2| |].
  - intros _ a s3 Hs3. wp_run.
    eapply wp_lb_check; [done|intros s4 Hs4|intros e s4 Hs4; by apply HQ]. wp_run.
    eapply wp_lb_command; [done|intros s5 Hs5; exact Hs5|intros e s5 Hs5; by apply HQ|done].
  - intros s3 Hs3. wp_run.
    eapply wp_lb_check; [done|intros s4 Hs4|intros e s4 Hs4; by apply HQ]. wp_run.
    eapply wp_lb_command; [done|intros s5 Hs5; by apply HQ|intros e s5 Hs5; by apply HQ|done].
Qed.

(** ** Policy rules *)

Definition rule_resource (mark : Z) (rule : PolicyRule) : Resource :=
  Rule (family_argument (rule_family rule) :: rule_selector mark rule).

Definition rule_resources (mark : Z) (rules : list PolicyRule) : Ledger :=
  list_to_set_disj (rule_resource mark <$> rules).

Lemma rule_resources_snoc mark rules rule :
  rule_resources mark (rules ++ [rule])%list =
    rule_resources mark rules ⊎ {[+ rule_resource mark rule +]}.
Proof.
  unfold rule_resources. rewrite fmap_app, list_to_set_disj_app. f_equal. apply (right_id_L ∅ (⊎)).
Qed.

Lemma effect_rule_add mark rule family l :
  rule_family rule = family →
  effect ([family_argument family; "rule"; "add"] ++ rule_selector mark rule)%list l =
    l ⊎ {[+ rule_resource mark rule +]}.
Proof. intros <-. by destruct rule as [[]|[]]. Qed.

Lemma effect_rule_delete mark rule l :
  effect ([family_argument (rule_family rule); "rule"; "delete"] ++ rule_selector mark rule)%list l =
    l ∖ {[+ rule_resource mark rule +]}.
Proof. by destruct rule as [[]|[]]. Qed.

(** The rules an allowed prefix needs. *)
Definition prefix_rules (a : AllowedIp) : list PolicyRule :=
  if ai_prefix_length a =? 0
  then [NotFirewallMark (family_of (ai_network a)); SuppressDefault (family_of (ai_network a))]
  else [].

(** The caller's rules are those the ledger holds beyond [l]. *)
Definition at_rules b l p (s : (Self * list PolicyRule) * World) : Prop :=
  at_ledger b (l ⊎ rule_resources (routing_mark b) s.1.2) p (s.1.1, s.2).

Lemma at_rules_mark b l p b1 rules w :
  at_rules b l p ((b1, rules), w) → routing_mark b1 = routing_mark b.
Proof. intros (Hb & _). cbn in Hb. by rewrite Hb. Qed.

(** A command issued while the rules are a local variable. *)
Lemma wp_rules_command b l p prog args b1 (rules : list PolicyRule) w
    (Q : Result TransportError unit → (Self * list PolicyRule) * World → Prop) :
  at_ledger b l p (b1, w) →
  (∀ b' w', at_ledger b (effect args l) p (b', w') → Q (Ok tt) ((b', rules), w')) →
  (∀ e b' w', at_ledger b l p (b', w') → Q (Err e) ((b', rules), w')) →
  (∀ s, piped s.2 = p → Q Panic s) →
  wp (on_self (lb_command prog args)) Q ((b1, rules), w).
Proof.
  intros Hs Hok Herr Hp. apply wp_on_field. cbn [fst]. eapply wp_lb_command; [done|..].
  - intros [b' w'] Hs'. by apply Hok.
  - intros e [b' w'] Hs'. by apply Herr.
  - intros [b' w'] Hs'. by apply Hp.
Qed.

Lemma at_rules_push b l p b1 rules w rule :
  at_ledger b ((l ⊎ rule_resources (routing_mark b) rules) ⊎
    {[+ rule_resource (routing_mark b) rule +]}) p (b1, w) →
  at_rules b l p ((b1, rules ++ [rule])%list, w).
Proof. unfold at_rules. cbn [fst snd]. by rewrite rule_resources_snoc, (assoc_L (⊎)). Qed.

Lemma wp_install_route b l p interface context a b1 rules w Q :
  at_rules b l p ((b1, rules), w) →
  (∀ s', at_rules b l p s' → s'.1.2 = (rules ++ prefix_rules a)%list → Q (Ok tt) s') →
  (∀ e s', at_rules b l p s' → Q (Err e) s') →
  (∀ s', piped s'.2 = p → Q Panic s') →
  wp (install_route interface context a) Q ((b1, rules), w).
Proof.
  intros Hs Hok Herr Hp. unfold install_route, prefix_rules in *. wp_run.
  apply wp_check; [intros w1 Hw1|intros e w1 _ Hw1; apply Herr; by eapply at_ledger_processes].
  eapply (at_ledger_processes _ _ _ _ _ w1) in Hs; [|done]. cbn [fst snd] in Hs. wp_run.
  destruct (Z.eqb_spec (ai_prefix_length a) 0); cbn [negb].
  2: { eapply wp_rules_command; [done|intros b2 w2 Hs2; apply Hok|by intros; apply Herr|done].
       - by destruct (ai_network a).
       - cbn. by rewrite app_nil_r. }
  wp_run. cbn [fst]. rewrite (at_rules_mark _ _ _ _ _ _ Hs).
  eapply wp_rules_command; [done|intros b2 w2 Hs2|by intros; apply Herr|done]. wp_run.
  replace (effect _ _) with (l ⊎ rule_resources (routing_mark b) rules) in Hs2
    by (by destruct (ai_network a)).
  eapply wp_rules_command; [done|intros b3 w3 Hs3|by intros; apply Herr|done]. wp_run.
  rewrite (effect_rule_add _ (NotFirewallMark _)) in Hs3 by done. apply at_rules_push in Hs3.
  eapply wp_rules_command; [done|intros b4 w4 Hs4|by intros; apply Herr|done]. wp_run.
  rewrite (effect_rule_add _ (SuppressDefault _)) in Hs4 by done. apply at_rules_push in Hs4.
  cbn [fst snd] in *. apply Hok; [done|]. cbn [fst snd]. by rewrite <-app_assoc.
Qed.

Definition profile_rules (l : list AllowedIp) : list PolicyRule := concat (map prefix_rules l).

Lemma wp_install_routes b l p interface profile context b1 w Q :
  at_ledger b l p (b1, w) →
  (∀ s', at_rules b l p s' → s'.1.2 = profile_rules (allowed_ips profile) → Q (Ok tt) s') →
  (∀ e s', at_rules b l p s' → Q (Err e) s') →
  (∀ s', piped s'.2 = p → Q Panic s') →
  wp (install_routes interface profile context) Q ((b1, []), w).
Proof.
  intros Hs Hok Herr Hp. unfold install_routes.
  apply (wp_for_each (λ visited s, at_rules b l p s ∧ s.1.2 = profile_rules visited)).
  - split; [|done]. unfold at_rules. cbn. by rewrite (right_id_L ∅ (⊎)).
  - intros visited a [[b2 rules] w2] [Hs2 Hr]. cbn in Hr.
    eapply wp_install_route; [done|..]; [|auto..].
    intros s3 Hs3 Hr3. split; [done|]. rewrite Hr3, Hr. unfold profile_rules.
    rewrite map_app, concat_app. cbn. by rewrite app_nil_r.
  - intros s [Hs' Hr]. by apply Hok.
Qed.

Lemma take_pred_snoc {A} (l : list A) x : take (pred (length (l ++ [x]))) (l ++ [x])%list = l.
Proof. rewrite length_app, Nat.add_1_r. cbn. apply take_app_length. Qed.

(** Removing rules in reverse order: on success none is left, on failure the
    ones left are those still installed. *)
Lemma wp_remove_loop b l p rounds b1 rules w Q :
  at_rules b l p ((b1, rules), w) → (length rules < rounds)%nat →
  (∀ b' w', at_rules b l p ((b', []), w') → Q (Ok tt) ((b', []), w')) →
  (∀ e s', at_rules b l p s' → Q (Err e) s') →
  (∀ s', piped s'.2 = p → Q Panic s') →
  wp (remove_loop rounds) Q ((b1, rules), w).
Proof.
  revert b1 rules w. induction rounds as [|rounds IH]; intros b1 rules w Hs Hlen Hok Herr Hp; [lia|].
  cbn [remove_loop]. wp_run. cbn [snd]. destruct rules as [|rule rules _] using rev_ind.
  { cbn [last]. wp_run. by apply Hok. }
  rewrite last_snoc. wp_run. apply wp_on_field. unfold remove_policy_rule. wp_run. cbn [fst].
  rewrite (at_rules_mark _ _ _ _ _ _ Hs).
  eapply wp_lb_command; [exact Hs| |intros e [b' w'] Hs'; by apply Herr|intros [b' w'] Hs'; by apply Hp].
  intros [b2 w2] Hs2. wp_run. cbn [fst snd] in *.
  rewrite effect_rule_delete, rule_resources_snoc, (assoc_L (⊎)) in Hs2.
  rewrite take_pred_snoc. apply IH; auto; [|rewrite length_app in Hlen; cbn in Hlen; lia].
  unfold at_rules. cbn [fst snd]. revert Hs2. generalize (l ⊎ rule_resources (routing_mark b) rules).
  intros l'. by replace ((l' ⊎ {[+ rule_resource (routing_mark b) rule +]})
    ∖ {[+ rule_resource (routing_mark b) rule +]}) with l' by multiset_solver.
Qed.

Lemma wp_remove_policy_rules b l p b1 rules w Q :
  at_rules b l p ((b1, rules), w) →
  (∀ b' w', at_rules b l p ((b', []), w') → Q (Ok tt) ((b', []), w')) →
  (∀ e s', at_rules b l p s' → Q (Err e) s') →
  (∀ s', piped s'.2 = p → Q Panic s') →
  wp remove_policy_rules Q ((b1, rules), w).
Proof. intros. unfold remove_policy_rules. wp_run. eapply wp_remove_loop; eauto. Qed.

(** ** Accounting *)

Definition interface_resource (i : option string) : Ledger :=
  match i with Some name => {[+ Link name +]} | None => ∅ end.

(** What the backend records as its own. *)
Definition owned b : Ledger :=
  interface_resource (lb_active_interface b) ⊎ rule_resources (routing_mark b) (active_rules b).

(** The outstanding resources are the foreign ones and the recorded ones. *)
Definition accounted (base : Ledger) (s : Self * World) : Prop :=
  ledger (lb_runner s.1) s.2 = base ⊎ owned s.1 ∧
  (lb_active_interface s.1 = None → active_rules s.1 = []).

Lemma owned_idle base b :
  lb_active_interface b = None → active_rules b = [] → base ⊎ owned b = base.
Proof. unfold owned. intros -> ->. cbn. multiset_solver. Qed.

Definition is_cleanup_error (e : TransportError) : Prop :=
  ∃ setup rules interface, e = cleanup_error setup rules interface ∧
    (rules ≠ inr tt ∨ interface ≠ inr tt).

Lemma at_ledger_fields b l p s :
  at_ledger b l p s →
  lb_active_interface s.1 = lb_active_interface b ∧ active_rules s.1 = active_rules b ∧
  routing_mark s.1 = routing_mark b.
Proof. by intros (-> & _). Qed.

Lemma wp_rollback b base p interface rules setup b1 w Q :
  at_rules b (base ⊎ {[+ Link interface +]}) p ((b1, rules), w) →
  (∀ s', at_ledger b base p s' → Q (Err setup) s') →
  (∀ e l' s', is_cleanup_error e → base ⊆ l' → at_ledger b l' p s' → Q (Err e) s') →
  unpiped p Q →
  wp (rollback_setup interface rules setup) Q (b1, w).
Proof.
  intros Hs Hok Herr Hp. unfold rollback_setup. wp_run.
  eapply wp_remove_policy_rules; [exact Hs|..].
  - intros b2 w2 Hs2. wp_run. unfold lb_delete_interface. cbn [fst].
    unfold at_rules in Hs2. cbn [fst snd rule_resources fmap list_fmap list_to_set_disj] in Hs2.
    eapply wp_lb_command; [exact Hs2|intros s3 Hs3|intros e3 s3 Hs3|intros s3 Hs3; by apply Hp]; wp_run.
    + apply Hok. cbn in Hs3.
      replace base with ((base ⊎ {[+ Link interface +]} ⊎ ∅) ∖ {[+ Link interface +]}) at 1
        by multiset_solver. exact Hs3.
    + eapply Herr; [by eexists _, _, _; split; [done|by right]| |done]. multiset_solver.
  - intros e [[b2 rules'] w2] Hs2. wp_run. cbn [fst]. unfold lb_delete_interface.
    eapply wp_lb_command; [exact Hs2|intros s3 Hs3|intros e3 s3 Hs3|intros s3 Hs3; by apply Hp];
      wp_run; (eapply Herr; [by eexists _, _, _; split; [done|by left]| |exact Hs3]);
      cbn; multiset_solver.
  - intros [[b2 rules'] w2] Hp2. by apply Hp.
Qed.

(** What [bring_up] promises to a caller that holds nothing. *)
Definition bring_up_outcome (base : Ledger) (interface : string) (profile : WireGuardConfig)
    (r : Result TransportError unit) (s : Self * World) : Prop :=
  match r with
  | Ok _ => accounted base s ∧ lb_active_interface s.1 = Some interface ∧
      active_rules s.1 = profile_rules (allowed_ips profile)
  | Err e => lb_active_interface s.1 = None ∧
      (accounted base s ∨ (is_cleanup_error e ∧ base ⊆ ledger (lb_runner s.1) s.2))
  | Panic => True
  end.

Lemma accounted_idle base b p s :
  lb_active_interface b = None → active_rules b = [] → at_ledger b base p s → accounted base s.
Proof.
  intros Hi Hr Hs. destruct (at_ledger_fields _ _ _ _ Hs) as (Hi' & Hr' & _).
  destruct Hs as (_ & Hl & _). split; [|congruence]. rewrite Hl. unfold owned.
  rewrite Hi', Hr', Hi, Hr. cbn. multiset_solver.
Qed.

Lemma wp_bring_up base interface profile context b w :
  accounted base (b, w) → lb_active_interface b = None →
  wp (lb_bring_up interface profile context)
    (λ r s, bring_up_outcome base interface profile r s ∧ piped s.2 = piped w) (b, w).
Proof.
  intros [Hl Hr] Hi. cbn in Hl, Hr. specialize (Hr Hi).
  assert (at_ledger b base (piped w) (b, w)) as Hs.
  { split_and!; cbn; [by destruct b| |done]. rewrite Hl. unfold owned. rewrite Hi, Hr. cbn. multiset_solver. }
  assert (∀ e s', at_ledger b base (piped w) s' →
    bring_up_outcome base interface profile (Err e) s' ∧ piped s'.2 = piped w) as Hidle.
  { intros e s' Hs'. split; [|apply Hs']. split; [|left; by eapply accounted_idle].
    destruct (at_ledger_fields _ _ _ _ Hs') as (-> & _). done. }
  assert (∀ e l' s', is_cleanup_error e → base ⊆ l' → at_ledger b l' (piped w) s' →
    bring_up_outcome base interface profile (Err e) s' ∧ piped s'.2 = piped w) as Hleft.
  { intros e l' s' He Hb Hs'. split; [|apply Hs'].
    destruct (at_ledger_fields _ _ _ _ Hs') as (Hi' & _). split; [congruence|]. right. split; [done|].
    by destruct Hs' as (_ & -> & _). }
  unfold lb_bring_up. wp_run. rewrite Hi. apply wp_guard; [done|intros _]. wp_run.
  eapply wp_lb_check; [done|intros s1 Hs1|auto]. wp_run.
  eapply wp_lb_command; [done|intros s2 Hs2|auto|by split]. wp_run.
  cbn in Hs2.
  eapply wp_lb_configure; [done|intros r s3 Hr3 Hs3|by split].
  destruct s3 as [b3 w3], r as [[]|e|]; [| |done]; wp_run.
  - eapply wp_install_routes; [done|..].
    + intros [[b4 rules] w4] Hs4 Hrules. cbn in Hrules. wp_run.
      destruct (at_ledger_fields _ _ _ _ Hs4) as (_ & _ & Hmark).
      destruct Hs4 as (_ & Hl4 & Hp4). cbn in Hl4, Hmark, Hp4.
      split; [|done]. split_and!; [split; [|done]|done|done].
      cbn [fst snd set_lb_interface set_active_rules lb_runner]. rewrite Hl4.
      unfold owned. cbn [set_lb_interface set_active_rules lb_active_interface interface_resource
        routing_mark active_rules fst snd]. by rewrite Hmark, (assoc_L (⊎)).
    + intros e [[b4 rules] w4] Hs4. wp_run. by eapply wp_rollback; eauto.
    + intros [[b4 rules] w4] Hp4. by split.
  - eapply (wp_rollback b base (piped w)); [|eauto..|by split]. unfold at_rules. cbn.
    by rewrite (right_id_L ∅ (⊎)).
Qed.

(** What [bring_down] promises: it releases everything, or keeps for a retry
    exactly what is still installed. *)
Definition bring_down_outcome (base : Ledger) (interface : string) b
    (r : Result TransportError unit) (s : Self * World) : Prop :=
  match r with
  | Ok _ => lb_active_interface s.1 = None ∧ accounted base s
  | Err e => lb_active_interface s.1 = lb_active_interface b ∧ accounted base s ∧
      (lb_active_interface b ≠ Some interface → e = NotConnected ∧ s.1 = b)
  | Panic => True
  end.

Lemma wp_bring_down base interface b w :
  accounted base (b, w) →
  wp (lb_bring_down interface)
    (λ r s, bring_down_outcome base interface b r s ∧ piped s.2 = piped w) (b, w).
Proof.
  intros Hacc. pose proof Hacc as [Hl _]. cbn in Hl. unfold lb_bring_down. wp_run.
  apply wp_guard; intros Hg; wp_run.
  { apply negb_true_iff, bool_decide_eq_false in Hg. by split. }
  apply negb_false_iff, bool_decide_eq_true in Hg.
  set (b0 := set_active_rules [] b).
  assert (at_rules b0 (base ⊎ {[+ Link interface +]}) (piped w) ((b0, active_rules b), w)) as Hs.
  { unfold at_rules. cbn [fst snd]. split_and!; cbn [fst snd]; [by destruct b| |done].
    change (lb_runner b0) with (lb_runner b). rewrite Hl. unfold owned. rewrite Hg.
    by rewrite (assoc_L (⊎)). }
  eapply wp_remove_policy_rules; [exact Hs|..].
  - intros b1 w1 Hs1. wp_run. unfold lb_delete_interface.
    unfold at_rules in Hs1. cbn [fst snd] in Hs1.
    change (rule_resources (routing_mark b0) []) with (∅ : Ledger) in Hs1.
    rewrite (right_id_L ∅ (⊎)) in Hs1.
    eapply wp_lb_command; [exact Hs1|intros [b2 w2] Hs2|intros e [b2 w2] Hs2|intros s2 Hp2; by split].
    + wp_run. destruct (at_ledger_fields _ _ _ _ Hs2) as (_ & Hr2 & _). cbn in Hr2.
      destruct Hs2 as (_ & Hl2 & Hp2). cbn [fst snd] in Hl2, Hp2. split; [|done]. split; [done|].
      split; [|done]. cbn [fst snd set_lb_interface lb_runner]. rewrite Hl2. unfold owned.
      cbn [set_lb_interface lb_active_interface interface_resource active_rules]. rewrite Hr2.
      change (rule_resources _ []) with (∅ : Ledger). 
      change (effect _ ?l) with (l ∖ {[+ Link interface +]}). multiset_solver.
    + destruct (at_ledger_fields _ _ _ _ Hs2) as (Hi2 & Hr2 & Hm2). cbn in Hi2, Hr2, Hm2.
      destruct Hs2 as (_ & Hl2 & Hp2). cbn [fst snd] in Hl2, Hp2.
      split; [|done]. split_and!; [done| |congruence]. split; [|cbn; congruence].
      cbn [fst snd]. rewrite Hl2. unfold owned. rewrite Hi2, Hr2, Hg.
      change (rule_resources _ []) with (∅ : Ledger). by rewrite (right_id_L ∅ (⊎)).
  - intros e [[b1 rules] w1] Hs1. wp_run.
    destruct (at_ledger_fields _ _ _ _ Hs1) as (Hi1 & _ & Hm1). cbn in Hi1, Hm1.
    destruct Hs1 as (_ & Hl1 & Hp1). cbn [fst snd] in Hl1, Hp1.
    split; [|done]. split_and!; [done| |congruence].
    split; [|cbn; congruence]. cbn [fst snd set_active_rules lb_runner]. rewrite Hl1. unfold owned.
    cbn [set_active_rules lb_active_interface routing_mark active_rules].
    rewrite Hi1, Hg, Hm1. by rewrite (assoc_L (⊎)).
  - intros [[b1 rules] w1] Hp1. by split.
Qed.

(** Reading health leaves everything but the failure counter. *)
Lemma wp_lb_health base b w :
  accounted base (b, w) →
  wp lb_health (λ r s, (r ≠ Panic → accounted base s ∧
    lb_active_interface s.1 = lb_active_interface b) ∧ piped s.2 = piped w) (b, w).
Proof.
  intros Hacc. unfold lb_health. wp_run. destruct (lb_active_interface b) as [i|] eqn:Hi; wp_run.
  2: { split; [|done]. intros _. by split. }
  destruct Hacc as [Hl Hn]. cbn in Hl, Hn. apply wp_runner_output.
  - intros out r' w' Hc Hp. wp_run. unfold unix_time. apply wp_intro. unfold on_world.
    intros res s Hres. injection Hres as <- <-. wp_run. split; [|exact Hp]. intros _.
    split; [|done]. split; [|cbn; congruence]. cbn [fst snd set_lb_failures set_lb_runner lb_runner].
    unfold ledger, ledger_of in *.
    rewrite (completed_frame _ (log (EvUnixTime _) w') w') by (by rewrite processes_log).
    rewrite Hc. cbn [foldr fst arguments]. etransitivity; [|exact Hl].
    unfold effect at 1. cbn. by destruct (String.eqb i "rule").
  - intros e r' w' Hc Hp. wp_run. split; [|exact Hp]. intros _. split; [|done]. split; [|cbn; congruence].
    cbn [fst snd set_lb_failures set_lb_runner lb_runner]. unfold ledger in *. by rewrite Hc.
  - intros r' w' Hp. by split.
Qed.

(** ** Sequences of calls *)

Inductive BackendCall :=
| CallUp (interface : string) (profile : WireGuardConfig) (context : ConnectContext)
| CallDown (interface : string)
| CallBackendHealth.

Definition backend_call (call : BackendCall) : Act (Self * World) TransportError unit :=
  match call with
  | CallUp interface profile context => lb_bring_up interface profile context
  | CallDown interface => lb_bring_down interface
  | CallBackendHealth => act_map_err infallible lb_health;; mret tt
  end.

(** Calls that do not panic and do not report a failed cleanup. *)
Inductive clean_calls : Self * World → Self * World → Prop :=
| clean_refl s : clean_calls s s
| clean_step s call s' r s'' :
    clean_calls s s' → backend_call call s' = (r, s'') → r ≠ Panic →
    (∀ e, r = Err e → ¬ is_cleanup_error e) → clean_calls s s''.

Lemma accounted_call base call s r s' :
  accounted base s → backend_call call s = (r, s') → r ≠ Panic →
  (∀ e, r = Err e → ¬ is_cleanup_error e) → accounted base s'.
Proof.
  destruct s as [b w]. intros Hs. destruct call as [interface profile context|interface|]; cbn.
  - by_wp. destruct (lb_active_interface b) as [i|] eqn:Hi.
    + unfold lb_bring_up. wp_run. rewrite Hi. apply wp_guard; [|done]. intros _. by wp_run.
    + eapply wp_mono; [by apply wp_bring_up|]. intros [[]|e|] s' [Ho _] Hr Hc; cbn in Ho; [|..|done].
      * apply Ho.
      * destruct Ho as [_ [?|[? _]]]; [done|]. by destruct (Hc e).
  - by_wp. eapply wp_mono; [by apply wp_bring_down|].
    intros [[]|e|] s' [Ho _] Hr Hc; cbn in Ho; [apply Ho|apply Ho|done].
  - by_wp. wp_run. eapply wp_mono; [by apply wp_lb_health|].
    intros [h|[]|] s' [Ho _]; cbn; wp_run; [|done]. intros _ _. by apply Ho.
Qed.

Lemma accounted_calls base s s' : accounted base s → clean_calls s s' → accounted base s'.
Proof. intros Hs. induction 1; eauto using accounted_call. Qed.
End resources.

(** ** Resolver state *)

(** Whether the completed commands left resolver state on [interface]. *)
Fixpoint dns_touched (interface : string) (l : list Invocation) : bool :=
  match l with
  | [] => false
  | (c, _) :: l =>
      match arguments c with
      | verb :: name :: _ =>
          if String.eqb name interface then
            if String.eqb verb "revert" then false
            else if String.eqb verb "dns" || String.eqb verb "domain"
                    || String.eqb verb "default-route" then true
            else dns_touched interface l
          else dns_touched interface l
      | _ => dns_touched interface l
      end
  end.

Section resolver.
Context {R : Type} `{RunnerSpec R}.
Local Abbreviation Self := (LinuxDnsBackend R).
Implicit Types (b : Self) (w : World).

(** Resolver state is only ever left where it is recorded for a revert. *)
Definition dns_recorded (s : Self * World) : Prop :=
  ∀ i, dns_touched i (completed (dns_runner s.1) s.2) = true → dns_active_interface s.1 = Some i.

(** Only [interface] may carry resolver state; the record is [active]. *)
Definition dns_only (interface : string) (active : option string) (p : list Event)
    (s : Self * World) : Prop :=
  (∀ i, i ≠ interface → dns_touched i (completed (dns_runner s.1) s.2) = false) ∧
  dns_active_interface s.1 = active ∧ piped s.2 = p.

Lemma wp_dns_command interface active p verb rest s Q :
  dns_only interface active p s →
  (∀ s', dns_only interface active p s' →
    (verb = "revert" → dns_touched interface (completed (dns_runner s'.1) s'.2) = false) →
    Q (Ok tt) s') →
  (∀ e s', dns_only interface active p s' → Q (Err e) s') →
  (∀ s', piped s'.2 = p → Q Panic s') →
  wp (dns_command (verb :: interface :: rest)) Q s.
Proof.
  destruct s as [b w]. intros (Ht & Ha & Hp) Hok Herr Hpanic. cbn in Ht, Ha, Hp.
  unfold dns_command. wp_run. apply wp_runner_run.
  - intros r' w' Hc Hp'. apply Hok; cbn [fst snd set_dns_runner dns_runner].
    + split_and!; cbn; [|done|congruence]. intros i Hi. rewrite Hc. cbn.
      by rewrite (proj2 (String.eqb_neq interface i)), Ht by congruence.
    + intros ->. rewrite Hc. cbn. by rewrite String.eqb_refl.
  - intros e r' w' Hc Hp'. apply Herr. split_and!; cbn; [|done|congruence].
    intros i Hi. rewrite Hc. by apply Ht.
  - intros r' w' Hp'. apply Hpanic. cbn. congruence.
Qed.

Lemma wp_dns_check interface active p context s Q :
  dns_only interface active p s →
  (∀ s', dns_only interface active p s' → Q (Ok tt) s') →
  (∀ e s', dns_only interface active p s' → Q (Err e) s') →
  wp (check context) Q s.
Proof.
  destruct s as [b w]. intros (Ht & Ha & Hp) Hok Herr. cbn in Ht, Ha, Hp.
  assert (∀ w', processes w' = processes w → dns_only interface active p (b, w')) as Hsame.
  { intros w' Hw. split_and!; cbn; [|done|rewrite <-Hp; by apply piped_processes].
    intros i Hi. rewrite (completed_frame _ w' w Hw). by apply Ht. }
  apply wp_check; auto.
Qed.

Lemma wp_dns_setup interface active p c context s Q :
  dns_only interface active p s →
  (∀ r s', r ≠ Panic → dns_only interface active p s' → Q r s') →
  (∀ s', piped s'.2 = p → Q Panic s') →
  wp (dns_setup interface c context) Q s.
Proof.
  intros Hs HQ Hp. unfold dns_setup. wp_run.
  assert (∀ verb rest s Q', dns_only interface active p s →
    (∀ s', dns_only interface active p s' → Q' (Ok tt) s') →
    (∀ e s', dns_only interface active p s' → Q' (Err e) s') →
    (∀ s', piped s'.2 = p → Q' Panic s') →
    wp (dns_command (verb :: interface :: rest)) Q' s) as Hcommand.
  { intros. eapply wp_dns_command; eauto. }
  eapply Hcommand; [done|intros s1 Hs1|by intros; apply HQ|done]. wp_run.
  eapply wp_dns_check; [done|intros s2 Hs2|by intros; apply HQ]. wp_run.
  eapply Hcommand; [done|intros s3 Hs3|by intros; apply HQ|done]. wp_run.
  eapply wp_dns_check; [done|intros s4 Hs4|by intros; apply HQ]. wp_run.
  eapply Hcommand; [done|by intros; apply HQ|by intros; apply HQ|done].
Qed.

(** An error leaves either nothing or a record to revert. *)
Definition dns_configure_outcome (interface : string) b (r : Result TransportError unit)
    (s : Self * World) : Prop :=
  match r with
  | Ok _ => dns_active_interface b = None ∧ dns_active_interface s.1 = Some interface
  | Err _ => dns_active_interface s.1 = dns_active_interface b ∨
      (dns_active_interface b = None ∧ dns_active_interface s.1 = Some interface)
  | Panic => True
  end.

Lemma wp_dns_configure interface c context b w :
  dns_recorded (b, w) →
  wp (dns_configure interface c context)
    (λ r s, (r ≠ Panic → dns_recorded s) ∧ dns_configure_outcome interface b r s ∧
      piped s.2 = piped w) (b, w).
Proof.
  intros Hs. unfold dns_configure. wp_run.
  apply wp_guard; intros Hg1; wp_run; [split; [done|by split; [left|]]|].
  apply wp_guard; intros Hg2; wp_run; [split; [done|by split; [left|]]|].
  assert (dns_active_interface b = None) as Hn by (by destruct (dns_active_interface b)).
  assert (∀ w', processes w' = processes w → dns_only interface None (piped w) (b, w')) as Honly.
  { intros w' Hw. split_and!; [|done|by apply piped_processes]. intros i Hi.
    rewrite (completed_frame _ w' w Hw). apply not_true_iff_false. intros Ht%Hs. cbn in Ht. congruence. }
  destruct (validate_dns c) as [[]|e|]; wp_run;
    [|split; [done|by split; [left|]]|by split; [done|split]].
  apply wp_check.
  2: { intros e w' _ Hw. wp_run. split; [intros _|split; [by left|by apply piped_processes]].
       intros i. cbn. rewrite (completed_frame _ w' w Hw). apply Hs. }
  intros w1 Hw1. wp_run. apply Honly in Hw1. clear Honly.
  assert (∀ s, dns_only interface None (piped w) s →
    (True → dns_recorded (set_dns_interface (Some interface) s.1, s.2)) ∧
    piped s.2 = piped w) as Hrec.
  { intros s (Ht & _ & Hp). split; [intros _|done]. intros i Hi. cbn in Hi |- *.
    destruct (decide (i = interface)) as [->|Hne]; [done|]. rewrite Ht in Hi; done. }
  eapply wp_dns_setup; [done| |by split].
  intros [[]|setup|] [b2 w2] Hr2 Hs2; wp_run; [..|done].
  { destruct (Hrec _ Hs2) as [Hr Hp]. split_and!; [by intros _; apply Hr|by split|done]. }
  eapply wp_dns_command; [done|..].
  - intros s3 (Ht & Ha & Hp) Hrev. wp_run. split_and!; [|left; congruence|done].
    intros _ i Hi. destruct (decide (i = interface)) as [->|Hne];
      [rewrite (Hrev eq_refl) in Hi; done|rewrite Ht in Hi; done].
  - intros e [b3 w3] Hs3. wp_run. destruct (Hrec _ Hs3) as [Hr Hp].
    split_and!; [by intros _; apply Hr|by right|done].
  - intros s3 Hp. by split.
Qed.

Definition dns_revert_outcome (interface : string) b (r : Result TransportError unit)
    (s : Self * World) : Prop :=
  match r with
  | Ok _ => dns_active_interface b = Some interface ∧ dns_active_interface s.1 = None
  | Err e => dns_active_interface s.1 = dns_active_interface b ∧
      (dns_active_interface b ≠ Some interface → e = NotConnected ∧ s = (b, s.2))
  | Panic => True
  end.

Lemma wp_dns_revert interface b w :
  dns_recorded (b, w) →
  wp (dns_revert interface)
    (λ r s, (r ≠ Panic → dns_recorded s) ∧ dns_revert_outcome interface b r s ∧
      piped s.2 = piped w) (b, w).
Proof.
  intros Hs. unfold dns_revert. wp_run. apply wp_guard; intros Hg; wp_run.
  { apply negb_true_iff, bool_decide_eq_false in Hg. by split_and!. }
  apply negb_false_iff, bool_decide_eq_true in Hg.
  assert (∀ i, i ≠ interface → dns_touched i (completed (dns_runner b) w) = false) as Hother.
  { intros i Hi. apply not_true_iff_false. intros Ht%Hs. cbn in Ht. congruence. }
  unfold dns_command. wp_run. apply wp_runner_run.
  - intros r' w' Hc Hp. wp_run. split_and!; [|done|done]. intros _ i. cbn. rewrite Hc. cbn.
    destruct (String.eqb_spec interface i) as [<-|]; [done|]. rewrite Hother by congruence. done.
  - intros e r' w' Hc Hp. wp_run. split_and!; [|split; [done|congruence]|done].
    intros _ i. cbn. rewrite Hc. apply Hs.
  - intros r' w' Hp. by split_and!.
Qed.
End resolver.

(** ** Keys *)

(** The value of a character of the base64 alphabet, and the decoding of
    groups of four characters (RFC 4648). *)
Definition sextet (c : ascii) : option Z :=
  '(i, _) ← list_find (λ c', c' = c) (chars ALPHABET); Some (Z.of_nat i).

Definition decode_group (c1 c2 c3 c4 : ascii) : option (list Z) :=
  v1 ← sextet c1;
  v2 ← sextet c2;
  if Ascii.eqb c3 "="%char then
    if Ascii.eqb c4 "="%char then Some [v1 * 4 + v2 / 16] else None
  else
    v3 ← sextet c3;
    if Ascii.eqb c4 "="%char then Some [v1 * 4 + v2 / 16; v2 mod 16 * 16 + v3 / 4]
    else
      v4 ← sextet c4;
      Some [v1 * 4 + v2 / 16; v2 mod 16 * 16 + v3 / 4; v3 mod 4 * 64 + v4].

Fixpoint base64_decode (l : list ascii) : option (list Z) :=
  match l with
  | [] => Some []
  | c1 :: c2 :: c3 :: c4 :: l =>
      bytes ← decode_group c1 c2 c3 c4;
      rest ← base64_decode l;
      Some (bytes ++ rest)%list
  | _ => None
  end.

Definition sextet_ok (i : Z) : bool :=
  bool_decide (sextet (alphabet_char i) = Some i) && negb (Ascii.eqb (alphabet_char i) "="%char).

Lemma sextets i :
  0 ≤ i < 64 → sextet (alphabet_char i) = Some i ∧ Ascii.eqb (alphabet_char i) "="%char = false.
Proof.
  intros Hi. assert (forallb sextet_ok (seqZ 0 64) = true) as Hall by (vm_compute; reflexivity).
  rewrite forallb_forall in Hall.
  specialize (Hall i ltac:(apply list_elem_of_In, elem_of_seqZ; lia)).
  apply andb_true_iff in Hall as [?%bool_decide_eq_true ?%negb_true_iff]. done.
Qed.

Lemma shr_div a k : 0 ≤ k → Z.shiftr a k = a / 2 ^ k.
Proof. apply Z.shiftr_div_pow2. Qed.

(** The four sextets of a chunk as arithmetic. *)
Lemma encode_chunk_eval first second third :
  u8 first → u8 second → u8 third →
  let i2 := first mod 4 * 16 + second / 16 in
  let i3 := second mod 16 * 4 + third / 64 in
  encode_chunk [first; second; third] =
    [alphabet_char (first / 4); alphabet_char i2; alphabet_char i3; alphabet_char (third mod 64)] ∧
  encode_chunk [first; second] =
    [alphabet_char (first / 4); alphabet_char i2; alphabet_char (second mod 16 * 4); "="%char] ∧
  encode_chunk [first] =
    [alphabet_char (first / 4); alphabet_char (first mod 4 * 16); "="%char; "="%char] ∧
  0 ≤ first / 4 < 64 ∧ 0 ≤ i2 < 64 ∧ 0 ≤ i3 < 64 ∧ 0 ≤ third mod 64 < 64.
Proof.
  intros H1 H2 H3 i2 i3. unfold fits in *. unfold encode_chunk. cbn [lookup list_lookup default length]. unfold id.
  change 3 with (Z.ones 2). change 15 with (Z.ones 4). change 63 with (Z.ones 6).
  rewrite !Z.land_ones, !shr_div by lia. cbn [Nat.ltb Nat.leb].
  change (2 ^ 2) with 4. change (2 ^ 4) with 16. change (2 ^ 6) with 64.
  pose proof (Z.mod_pos_bound first 4 ltac:(lia)). pose proof (Z.mod_pos_bound second 16 ltac:(lia)).
  pose proof (Z.mod_pos_bound third 64 ltac:(lia)).
  assert (0 ≤ first / 4 < 64) by (split; [apply Z.div_pos|apply Z.div_lt_upper_bound]; lia).
  assert (0 ≤ second / 16 < 16) by (split; [apply Z.div_pos|apply Z.div_lt_upper_bound]; lia).
  assert (0 ≤ third / 64 < 4) by (split; [apply Z.div_pos|apply Z.div_lt_upper_bound]; lia).
  rewrite !lor_shiftl_low by (change (2 ^ 4) with 16; change (2 ^ 2) with 4; lia || (cbn; lia)).
  change (0 / 64) with 0. change (0 / 16) with 0. rewrite !Z.lor_0_r, !Z.shiftl_mul_pow2 by lia.
  split_and!; try done; lia.
Qed.

Lemma div_mod_mul a b c : 0 ≤ c < b → (a * b + c) / b = a ∧ (a * b + c) mod b = c.
Proof.
  intros Hc. rewrite Z.add_comm, Z.div_add, Z.mod_add, Z.div_small, Z.mod_small by lia. lia.
Qed.

Lemma div_mod_glue a b : 0 < b → a / b * b + a mod b = a.
Proof. intros ?. pose proof (Z.div_mod a b ltac:(lia)). lia. Qed.

Lemma decode_chunk chunk rest bytes :
  Forall u8 chunk → (1 ≤ length chunk ≤ 3)%nat → base64_decode rest = Some bytes →
  base64_decode (encode_chunk chunk ++ rest)%list = Some (chunk ++ bytes)%list.
Proof.
  intros Hb Hlen Hrest. pose proof (λ a b, Z.mod_pos_bound a b) as Hmod.
  destruct chunk as [|x [|y [|z [|]]]]; cbn in Hlen; try lia; rewrite ?Forall_cons in Hb.
  - destruct Hb as [Hx _]. destruct (encode_chunk_eval x 0 0) as (_ & _ & -> & R1 & R2 & _);
      [done|done|done|]. change (0 / 16) with 0 in R2. rewrite Z.add_0_r in R2.
    cbn [app base64_decode]. unfold decode_group.
    destruct (sextets _ R1) as [-> _], (sextets _ R2) as [-> _].
    cbn [mbind option_bind]. change (Ascii.eqb "=" "=") with true. cbn [mbind option_bind].
    rewrite Hrest, Z.div_mul, div_mod_glue by lia. done.
  - destruct Hb as (Hx & Hy & _).
    destruct (encode_chunk_eval x y 0) as (_ & -> & _ & R1 & R2 & R3 & _); [done|done|done|].
    change (0 / 64) with 0 in R3. rewrite Z.add_0_r in R3. cbn [app base64_decode]. unfold decode_group.
    destruct (sextets _ R1) as [-> _], (sextets _ R2) as [-> _], (sextets _ R3) as [-> ->].
    cbn [mbind option_bind]. change (Ascii.eqb "=" "=") with true. cbn [mbind option_bind].
    destruct (div_mod_mul (x mod 4) 16 (y / 16)) as [-> ->].
    { unfold fits in Hy. split; [apply Z.div_pos|apply Z.div_lt_upper_bound]; lia. }
    rewrite Hrest, Z.div_mul, !div_mod_glue by lia. done.
  - destruct Hb as (Hx & Hy & Hz & _).
    destruct (encode_chunk_eval x y z) as (-> & _ & _ & R1 & R2 & R3 & R4); [done|done|done|].
    cbn [app base64_decode]. unfold decode_group.
    destruct (sextets _ R1) as [-> _], (sextets _ R2) as [-> _], (sextets _ R3) as [-> ->],
      (sextets _ R4) as [-> ->]. cbn [mbind option_bind].
    destruct (div_mod_mul (x mod 4) 16 (y / 16)) as [-> ->].
    { unfold fits in Hy. split; [apply Z.div_pos|apply Z.div_lt_upper_bound]; lia. }
    destruct (div_mod_mul (y mod 16) 4 (z / 64)) as [-> ->].
    { unfold fits in Hz. split; [apply Z.div_pos|apply Z.div_lt_upper_bound]; lia. }
    rewrite Hrest, !div_mod_glue by lia. done.
Qed.

Lemma decode_chunks : ∀ key,
  Forall u8 key → base64_decode (concat (map encode_chunk (chunks3 key))) = Some key.
Proof.
  fix IH 1. intros [|x [|y [|z key]]] Hk; cbn [chunks3 map concat].
  - done.
  - apply (decode_chunk [x] [] []); [done|cbn; lia|done].
  - apply (decode_chunk [x; y] [] []); [done|cbn; lia|done].
  - rewrite !Forall_cons in Hk. destruct Hk as (Hx & Hy & Hz & Hk).
    apply (decode_chunk [x; y; z] _ key); [by rewrite !Forall_cons, Forall_nil|cbn; lia|by apply IH].
Qed.

Lemma chunks_length : ∀ key,
  length (concat (map encode_chunk (chunks3 key))) = (4 * ((length key + 2) / 3))%nat.
Proof.
  fix IH 1. intros [|x [|y [|z key]]]; cbn [chunks3 map concat]; try done.
  rewrite length_app, IH. cbn [length encode_chunk].
  replace (S (S (S (length key))) + 2)%nat with (1 * 3 + (length key + 2))%nat by lia.
  rewrite Nat.div_add_l by lia. lia.
Qed.

(** ** The removal loop ends

    The source writes an unbounded [while let Some(rule) = rules.last()]; its
    executions, without a bound on the rounds, are this relation. *)

Section removal.
Context {R : Type} `{CommandRunner R} `{UnicodeTables}.
Local Abbreviation Loop := (LinuxWireGuardBackend R * list PolicyRule * World)%type.

Inductive while_rules : nat → Loop → Result TransportError unit → Loop → Prop :=
| while_end b w : while_rules 0 (b, [], w) (Ok tt) (b, [], w)
| while_stop b rules rule w r b' w' :
    remove_policy_rule rule (b, w) = (r, (b', w')) → is_ok r = false →
    while_rules 1 (b, (rules ++ [rule])%list, w) r (b', (rules ++ [rule])%list, w')
| while_next n b rules rule w b' w' r s :
    remove_policy_rule rule (b, w) = (Ok tt, (b', w')) → while_rules n (b', rules, w') r s →
    while_rules (S n) (b, (rules ++ [rule])%list, w) r s.

Lemma while_rules_determined n s r t :
  while_rules n s r t → ∀ n' r' t', while_rules n' s r' t' → n' = n ∧ r' = r ∧ t' = t.
Proof.
  induction 1 as [b w|b rules rule w r b' w' Hr He|n b rules rule w b' w' r s Hr Hw IH]; intros n' r' t' H'.
  - inversion H'; subst; [done|by destruct rules..].
  - inversion H' as [|? ? ? ? ? ? ? Hr' He' Hs|? ? ? ? ? ? ? ? ? Hr' Hw' Hn Hs]; subst; [by destruct rules| |];
      match goal with Heq : (_ ++ [_])%list = (_ ++ [_])%list |- _ => apply app_inj_tail in Heq as [-> ->] end;
      rewrite Hr in Hr'; injection Hr'; intros; subst; done.
  - inversion H' as [|? ? ? ? ? ? ? Hr' He' Hs|? ? ? ? ? ? ? ? ? Hr' Hw' Hn Hs]; subst; [by destruct rules| |];
      match goal with Heq : (_ ++ [_])%list = (_ ++ [_])%list |- _ => apply app_inj_tail in Heq as [-> ->] end;
      rewrite Hr in Hr'; injection Hr'; intros; subst; [done|].
    destruct (IH _ _ _ Hw') as (-> & -> & ->). done.
Qed.

Lemma remove_loop_rounds rounds rules b w :
  (length rules < rounds)%nat →
  ∃ n, (n ≤ length rules)%nat ∧
    while_rules n (b, rules, w) (remove_loop rounds (b, rules, w)).1 (remove_loop rounds (b, rules, w)).2.
Proof.
  revert rules b w. induction rounds as [|rounds IH]; intros rules b w Hlen; [lia|].
  cbn [remove_loop]. unfold local, self, set_local, set_self, on_self, on_field. run. cbn [fst snd].
  destruct rules as [|rule rules _] using rev_ind; [exists 0%nat; split; [lia|constructor]|].
  rewrite last_snoc, length_app in *. cbn [length] in *.
  destruct (remove_policy_rule rule (b, w)) as [r [b' w']] eqn:Hr. cbn [fst snd]. rewrite Hr.
  destruct r as [[]|e|]; [|exists 1%nat; (split; [lia|]); by eapply while_stop..].
  cbn [fst snd]. rewrite take_pred_snoc. destruct (IH rules b' w' ltac:(lia)) as (n & Hn & Hw).
  exists (S n). split; [lia|]. by eapply while_next.
Qed.
End removal.

(** ** Theorems *)

(** C23: [bring_up] is all or nothing.  It succeeds with the interface and
    exactly the policy rules of the profile's default routes recorded and
    outstanding; when it fails, nothing it created is left, or the error is the
    one that reports a failed cleanup. *)
Theorem bring_up_all_or_nothing {R} `{RunnerSpec R} `{UnicodeTables} base interface profile context
    (b : LinuxWireGuardBackend R) w r s :
  accounted base (b, w) → lb_active_interface b = None →
  lb_bring_up interface profile context (b, w) = (r, s) → r ≠ Panic →
  match r with
  | Ok _ => lb_active_interface s.1 = Some interface ∧
      active_rules s.1 = profile_rules (allowed_ips profile) ∧
      ledger (lb_runner s.1) s.2 =
        base ⊎ {[+ Link interface +]}
             ⊎ rule_resources (routing_mark s.1) (profile_rules (allowed_ips profile))
  | Err e => lb_active_interface s.1 = None ∧
      (ledger (lb_runner s.1) s.2 = base ∨ is_cleanup_error e)
  | Panic => False
  end.
Proof.
  intros Hacc Hi. by_wp. eapply wp_mono; [by apply wp_bring_up|].
  intros [[]|e|] s [Ho _] Hr; cbn in Ho; [| |done].
  - destruct Ho as ([Hl _] & Hi' & Hr'). split_and!; [done..|]. rewrite Hl. unfold owned.
    rewrite Hi', Hr'. by rewrite (assoc_L (⊎)).
  - destruct Ho as [Hi' [[Hl Hrules]|[? _]]]; split; auto. left. rewrite Hl. by apply owned_idle, Hrules.
Qed.

(** Teardown is retryable.  [bring_down] of a foreign interface changes
    nothing; otherwise it either releases everything the backend owned, or
    fails with the record of what is still installed exact, whichever command
    failed. *)
Theorem bring_down_retryable {R} `{RunnerSpec R} `{UnicodeTables} base interface
    (b : LinuxWireGuardBackend R) w r s :
  accounted base (b, w) → lb_bring_down interface (b, w) = (r, s) → r ≠ Panic →
  accounted base s ∧
  match r with
  | Ok _ => lb_active_interface s.1 = None ∧ ledger (lb_runner s.1) s.2 = base
  | Err e => lb_active_interface s.1 = lb_active_interface b ∧
      (lb_active_interface b ≠ Some interface → e = NotConnected ∧ s.1 = b)
  | Panic => False
  end.
Proof.
  intros Hacc. by_wp. eapply wp_mono; [by apply wp_bring_down|].
  intros [[]|e|] s [Ho _] Hr; cbn in Ho; [| |done].
  - destruct Ho as [Hi Ha]. split_and!; [done..|]. destruct Ha as [Hl Hrules]. rewrite Hl.
    by apply owned_idle, Hrules.
  - by destruct Ho as (Hi & Ha & Hf).
Qed.

(** C24: over every sequence of [bring_up], [bring_down] and [health] calls, in
    any order and with any results except a reported cleanup failure, the links
    and rules outstanding in the system are those of the start plus exactly the
    ones the backend records. *)
Theorem backend_accounts {R} `{RunnerSpec R} `{UnicodeTables} (b : LinuxWireGuardBackend R) w s :
  lb_active_interface b = None → active_rules b = [] → clean_calls (b, w) s →
  ledger (lb_runner s.1) s.2 = ledger (lb_runner b) w ⊎ owned s.1.
Proof.
  intros Hi Hr Hcalls. apply (accounted_calls (ledger (lb_runner b) w)) in Hcalls as [Hl _]; [done|].
  split; cbn; [|done]. by rewrite owned_idle.
Qed.


(** [encode_key] is base64: a 32-byte key becomes 44 characters from which
    decoding recovers the key, so distinct keys have distinct encodings. *)
Theorem encode_key_roundtrip key :
  Forall u8 key → length key = 32%nat →
  String.length (encode_key key) = 44%nat ∧
  base64_decode (chars (encode_key key)) = Some key ∧
  ∀ key', Forall u8 key' → encode_key key' = encode_key key → key' = key.
Proof.
  intros Hk Hlen.
  assert (∀ k, Forall u8 k → base64_decode (chars (encode_key k)) = Some k) as Hdec.
  { intros k Hk'. unfold encode_key. rewrite String.list_ascii_of_string_of_list_ascii.
    by apply decode_chunks. }
  split_and!.
  - rewrite <-length_chars. unfold encode_key. rewrite String.list_ascii_of_string_of_list_ascii.
    by rewrite chunks_length, Hlen.
  - by apply Hdec.
  - intros key' Hk' Heq%(f_equal (λ s, base64_decode (chars s))). rewrite !Hdec in Heq by done. congruence.
Qed.

(** C25: the removal loop of [remove_policy_rules] ends, on every list of rules and
    whatever the commands answer.  The source's [while let] has exactly one
    execution from each state, which runs at most one command per rule, and the
    bounded loop of the model computes it; giving the model more rounds changes
    nothing. *)
Theorem remove_rules_terminates {R} `{CommandRunner R} (b : LinuxWireGuardBackend R) rules w :
  ∃ n, (n ≤ length rules)%nat ∧
    while_rules n (b, rules, w) (remove_policy_rules (b, rules, w)).1 (remove_policy_rules (b, rules, w)).2 ∧
    (∀ n' r s, while_rules n' (b, rules, w) r s → n' = n ∧ (r, s) = remove_policy_rules (b, rules, w)) ∧
    ∀ more, remove_loop (S (length rules) + more) (b, rules, w) = remove_policy_rules (b, rules, w).
Proof.
  change (remove_policy_rules (b, rules, w)) with (remove_loop (S (length rules)) (b, rules, w)).
  destruct (remove_loop_rounds (S (length rules)) rules b w ltac:(lia)) as (n & Hn & Hw).
  exists n. split_and!; [done..| |].
  - intros n' r s H'. destruct (while_rules_determined _ _ _ _ Hw _ _ _ H') as (-> & -> & ->).
    by rewrite <-surjective_pairing.
  - intros more. destruct (remove_loop_rounds (S (length rules) + more) rules b w ltac:(lia)) as (n' & _ & Hw').
    destruct (while_rules_determined _ _ _ _ Hw _ _ _ Hw') as (_ & Hr & Hs).
    by rewrite (surjective_pairing (remove_loop _ _)), Hr, Hs, <-surjective_pairing.
Qed.

(** ** Witnesses: the system runner in an environment where commands succeed *)

#[export] Instance ascii_tables : UnicodeTables := {| printable _ := false |}.

Definition sample_backend : LinuxWireGuardBackend SystemCommandRunner :=
  mkLinuxBackend sample_tools system_command_runner 51820 [] None 0.

Definition sample_context : ConnectContext := mkContext (from_secs 30) 1.

Definition sample_up :=
  lb_bring_up "cyberia0" sample_profile sample_context (sample_backend, quiet_world).

Lemma sample_backend_accounted : accounted ∅ (sample_backend, quiet_world).
Proof. split; [|done]. symmetry. by apply owned_idle. Qed.

Lemma bring_up_all_or_nothing_witness :
  sample_up.1 = Ok tt ∧
  lb_active_interface sample_up.2.1 = Some "cyberia0" ∧
  length (active_rules sample_up.2.1) = 4%nat.
Proof.
  assert (lb_bring_up "cyberia0" sample_profile sample_context (sample_backend, quiet_world) =
    (Ok tt, sample_up.2)) as Hrun by (vm_compute; reflexivity).
  destruct (bring_up_all_or_nothing ∅ "cyberia0" sample_profile sample_context sample_backend
    quiet_world (Ok tt) sample_up.2 sample_backend_accounted eq_refl Hrun ltac:(discriminate))
    as (Hi & Hr & _).
  split; [vm_compute; reflexivity|]. split; [exact Hi|]. rewrite Hr. vm_compute. reflexivity.
Defined.

Definition sample_down := lb_bring_down "cyberia0" sample_up.2.

Lemma sample_up_accounted : accounted ∅ sample_up.2.
Proof.
  apply (accounted_call ∅ (CallUp "cyberia0" sample_profile sample_context) (sample_backend, quiet_world)
    (Ok tt)); [apply sample_backend_accounted|vm_compute; reflexivity|discriminate|discriminate].
Qed.

Lemma bring_down_retryable_witness :
  sample_down.1 = Ok tt ∧ ledger (lb_runner sample_down.2.1) sample_down.2.2 = ∅.
Proof.
  assert (lb_bring_down "cyberia0" (sample_up.2.1, sample_up.2.2) = (Ok tt, sample_down.2))
    as Hrun by (vm_compute; reflexivity).
  pose proof sample_up_accounted as Hacc. rewrite (surjective_pairing sample_up.2) in Hacc.
  destruct (bring_down_retryable ∅ "cyberia0" sample_up.2.1 sample_up.2.2 (Ok tt) sample_down.2
    Hacc Hrun ltac:(discriminate)) as (_ & _ & Hl).
  split; [vm_compute; reflexivity|exact Hl].
Defined.

Lemma backend_accounts_witness :
  ledger (lb_runner sample_down.2.1) sample_down.2.2 =
    ledger (lb_runner sample_backend) quiet_world ⊎ owned sample_down.2.1.
Proof.
  apply (backend_accounts sample_backend quiet_world sample_down.2); [reflexivity|reflexivity|].
  apply (clean_step _ (CallDown "cyberia0") sample_up.2 (Ok tt));
    [|vm_compute; reflexivity|discriminate|discriminate].
  apply (clean_step _ (CallUp "cyberia0" sample_profile sample_context) (sample_backend, quiet_world)
    (Ok tt)); [apply clean_refl|vm_compute; reflexivity|discriminate|discriminate].
Defined.

Definition sample_dns : LinuxDnsBackend SystemCommandRunner :=
  mkDnsBackend (mkDnsTools "/usr/bin/resolvectl") system_command_runner None.

Definition sample_dns_config : DnsConfig := mkDns [V4 168427521].

Definition sample_dns_up :=
  dns_configure "cyberia0" sample_dns_config sample_context (sample_dns, quiet_world).


Lemma encode_key_roundtrip_witness :
  encode_key (replicate 32 7) = "BwcHBwcHBwcHBwcHBwcHBwcHBwcHBwcHBwcHBwcHBwc=" ∧
  base64_decode (chars (encode_key (replicate 32 7))) = Some (replicate 32 7).
Proof.
  split; [vm_compute; reflexivity|].
  apply (encode_key_roundtrip (replicate 32 7)); [|reflexivity].
  apply Forall_replicate. split; lia.
Defined.
