(* ===== verification/LinuxNode.v ===== *)
(** The node side of [core/transport/src/linux.rs]: the managed WireGuard node
    with its peers, the forwarding gateway and their composition.

    The node's bookkeeping (which keys are managed, which routes each of them
    owns) is an invariant over all operations, and the peers recorded are
    exactly the ones the completed [wg] commands configured. *)

From S2P Require Import Prelude Machine Text Net Env Transport WireGuard Process Linux.
Open Scope string_scope.
Open Scope Z_scope.

Definition MAXIMUM_NODE_PEERS : nat := 4096.

(** ** The node *)

Record LinuxWireGuardNode (R : Type) := mkNode {
  node_tools : LinuxTools;
  node_runner : R;
  node_active_interface : option string;
  peers : gset Key;
  assigned_routes : gmap AllowedIp Key;
  node_health_failures : Z;
}.
Arguments mkNode {R}.
Arguments node_tools {R}.
Arguments node_runner {R}.
Arguments node_active_interface {R}.
Arguments peers {R}.
Arguments assigned_routes {R}.
Arguments node_health_failures {R}.

(** The loop of [node_handshakes] over the remaining lines. *)
Fixpoint count_handshakes (now : Z) (observed recent : nat) (l : list string) : option (nat * nat) :=
  match l with
  | [] => Some (observed, recent)
  | line :: l =>
      match split_ascii_whitespace line with
      | [_; field] =>
          timestamp ← parse_dec 64 field;
          count_handshakes now (S observed)
            (if negb (timestamp =? 0) && fresh_handshake now timestamp then S recent else recent) l
      | _ => None
      end
  end.

Definition node_handshakes (now : Z) (output : string) : option (nat * nat) :=
  if utf8_valid output then count_handshakes now 0 0 (lines output) else None.

Section node.
Context {R : Type} `{CommandRunner R}.
Local Abbreviation Self := (LinuxWireGuardNode R).

Definition set_node_runner (r : R) (n : Self) : Self :=
  mkNode (node_tools n) r (node_active_interface n) (peers n) (assigned_routes n)
    (node_health_failures n).
Definition set_node_interface (i : option string) (n : Self) : Self :=
  mkNode (node_tools n) (node_runner n) i (peers n) (assigned_routes n) (node_health_failures n).
Definition set_ownership (p : gset Key) (r : gmap AllowedIp Key) (n : Self) : Self :=
  mkNode (node_tools n) (node_runner n) (node_active_interface n) p r (node_health_failures n).
Definition set_node_failures (f : Z) (n : Self) : Self :=
  mkNode (node_tools n) (node_runner n) (node_active_interface n) (peers n) (assigned_routes n) f.

Definition node_new (t : LinuxTools) : Act (R * World) TransportError Self :=
  validate_backend_tools t;;
  r ← self (λ r, r);
  mret (mkNode t r None ∅ ∅ 0).

Definition node_command (prog : LinuxTools → string) (arguments : list string) :
    Act (Self * World) TransportError unit :=
  me ← self (λ n, n);
  on_field node_runner set_node_runner (runner_run (mkCommand (prog (node_tools me)) arguments)).

Definition node_delete_interface (interface : string) : Act (Self * World) TransportError unit :=
  node_command ip ["link"; "delete"; "dev"; interface].

Definition configure_node (interface : string) (c : WireGuardNodeConfig) (context : ConnectContext) :
    Act (Self * World) TransportError unit :=
  check context;;
  me ← self (λ n, n);
  node_command wg ["set"; interface; "private-key"; to_string_lossy (private_key (node_tools me));
                   "listen-port"; to_dec (listen_port c)];;
  for_each (interface_addresses c) (λ a,
    check context;;
    node_command ip ["address"; "add"; cidr (ta_address a) (ta_prefix_length a); "dev"; interface]);;
  check context;;
  node_command ip ["link"; "set"; "dev"; interface; "mtu"; to_dec (node_mtu c); "up"].

Definition node_start (interface : string) (c : WireGuardNodeConfig) (context : ConnectContext) :
    Act (Self * World) TransportError unit :=
  me ← self (λ n, n);
  guard_err (match node_active_interface me with Some _ => true | None => false end) AlreadyConnected;;
  guard_err (negb (linux_valid_interface interface))
    (InvalidConfig "invalid WireGuard node interface name");;
  lift (validate_node_config c);;
  check context;;
  node_command ip ["link"; "add"; "dev"; interface; "type"; "wireguard"];;
  configured ← attempt (E := TransportError) (configure_node interface c context);
  match configured with
  | inl setup_error =>
      deleted ← attempt (E := TransportError) (node_delete_interface interface);
      match deleted with
      | inl cleanup_error =>
          raise (Network ("WireGuard node setup failed: " +:+ display_transport_error setup_error
                          +:+ "; cleanup failed: " +:+ display_transport_error cleanup_error))
      | inr _ => raise setup_error
      end
  | inr _ => set_self (set_node_interface (Some interface))
  end.

Definition peer_arguments (interface : string) (p : WireGuardNodePeer) : list string :=
  (["set"; interface; "peer"; encode_key (public_key p); "allowed-ips";
    allowed_ips_text (peer_allowed_ips p)]
   ++ keepalive_arguments (peer_keepalive_seconds p))%list.

(** [for route in &peer.allowed_ips { assigned_routes.insert(route, key); }]. *)
Definition assign_routes (key : Key) (routes : list AllowedIp) (m : gmap AllowedIp Key) :
    gmap AllowedIp Key :=
  foldl (λ m route, <[route := key]> m) m routes.

Definition add_peer (p : WireGuardNodePeer) : Act (Self * World) TransportError unit :=
  lift (validate_peer p);;
  me ← self (λ n, n);
  interface ← lift (ok_or (node_active_interface me) NotConnected);
  guard_err (MAXIMUM_NODE_PEERS <=? size (peers me))%nat
    (InvalidConfig "WireGuard node peer capacity reached");;
  guard_err (bool_decide (public_key p ∈ peers me))
    (InvalidConfig "WireGuard node peer is already managed");;
  guard_err (existsb (λ route, bool_decide (is_Some (assigned_routes me !! route)))
               (peer_allowed_ips p))
    (InvalidConfig "WireGuard node peer route is already assigned");;
  node_command wg (peer_arguments interface p);;
  set_self (λ n, set_ownership ({[public_key p]} ∪ peers n)
                   (assign_routes (public_key p) (peer_allowed_ips p) (assigned_routes n)) n).

Definition remove_peer (key : Key) : Act (Self * World) TransportError unit :=
  me ← self (λ n, n);
  interface ← lift (ok_or (node_active_interface me) NotConnected);
  guard_err (negb (bool_decide (key ∈ peers me)))
    (InvalidConfig "WireGuard node peer is not managed");;
  node_command wg ["set"; interface; "peer"; encode_key key; "remove"];;
  set_self (λ n, set_ownership (peers n ∖ {[key]})
                   (filter (λ '(_, owner), owner ≠ key) (assigned_routes n)) n).

Definition node_stop : Act (Self * World) TransportError unit :=
  me ← self (λ n, n);
  interface ← lift (ok_or (node_active_interface me) NotConnected);
  node_delete_interface interface;;
  set_self (λ n, set_ownership ∅ ∅ (set_node_interface None n)).

Definition node_unavailable (n : Self) (failures : Z) : WireGuardNodeHealth :=
  mkNodeHealth Unavailable (size (peers n)) 0 0 failures.

Definition node_health : Act (Self * World) Infallible WireGuardNodeHealth :=
  me ← self (λ n, n);
  match node_active_interface me with
  | None => mret (node_unavailable me (node_health_failures me))
  | Some interface =>
      output ← attempt (E := TransportError) (on_field node_runner set_node_runner
        (runner_output (mkCommand (wg (node_tools me)) ["show"; interface; "latest-handshakes"])));
      let failures := saturating_add 32 (node_health_failures me) 1 in
      match output with
      | inl _ =>
          set_self (set_node_failures failures);;
          mret (node_unavailable me failures)
      | inr output =>
          now ← unix_time;
          match node_handshakes now output with
          | None =>
              set_self (set_node_failures failures);;
              mret (node_unavailable me failures)
          | Some (observed, recent) =>
              set_self (set_node_failures 0);;
              mret (mkNodeHealth (if (observed =? size (peers me))%nat then Healthy else Degraded)
                      (size (peers me)) observed recent 0)
          end
      end
  end.
End node.

(** ** The gateway *)

Record LinuxWireGuardNodeGateway (R : Type) := mkGateway {
  gateway_tools : LinuxNodeGatewayTools;
  gateway_runner : R;
  gateway_active : bool;
}.
Arguments mkGateway {R}.
Arguments gateway_tools {R}.
Arguments gateway_runner {R}.
Arguments gateway_active {R}.

Definition forwarding_keys (p : WireGuardNodeGatewayPolicy) : list string :=
  ((if existsb (λ n, is_ipv4 (ai_network n)) (client_networks p)
    then ["net.ipv4.ip_forward"] else [])
   ++ (if existsb (λ n, is_ipv6 (ai_network n)) (client_networks p)
       then ["net.ipv6.conf.all.forwarding"] else []))%list.

Definition gateway_network_rules (wireguard_interface uplink_interface : string) (n : AllowedIp) :
    string :=
  let family := if is_ipv4 (ai_network n) then "ip" else "ip6" in
  let prefix := cidr (ai_network n) (ai_prefix_length n) in
  "add rule inet cyberia_vpn_node forward iifname " +:+ quote +:+ wireguard_interface +:+ quote
  +:+ " oifname " +:+ quote +:+ uplink_interface +:+ quote +:+ " " +:+ family +:+ " saddr "
  +:+ prefix +:+ " accept" +:+ newline
  +:+ "add rule inet cyberia_vpn_node postrouting oifname " +:+ quote +:+ uplink_interface +:+ quote
  +:+ " " +:+ family +:+ " saddr " +:+ prefix +:+ " masquerade" +:+ newline.

Definition node_gateway_rules (wireguard_interface uplink_interface : string)
    (p : WireGuardNodeGatewayPolicy) : string :=
  foldl (λ rules n, rules +:+ gateway_network_rules wireguard_interface uplink_interface n)
    ("add table inet cyberia_vpn_node" +:+ newline
     +:+ "add chain inet cyberia_vpn_node forward { type filter hook forward priority 0; policy drop; }"
     +:+ newline
     +:+ "add chain inet cyberia_vpn_node postrouting { type nat hook postrouting priority 100; policy accept; }"
     +:+ newline
     +:+ "add rule inet cyberia_vpn_node forward ct state established,related accept" +:+ newline)
    (client_networks p).

Section gateway.
Context {R : Type} `{CommandRunner R}.
Local Abbreviation Self := (LinuxWireGuardNodeGateway R).

Definition set_gateway_runner (r : R) (g : Self) : Self :=
  mkGateway (gateway_tools g) r (gateway_active g).
Definition set_gateway_active (b : bool) (g : Self) : Self :=
  mkGateway (gateway_tools g) (gateway_runner g) b.

Definition gateway_new (t : LinuxNodeGatewayTools) : Act (R * World) TransportError Self :=
  validate_gateway_tools t;;
  r ← self (λ r, r);
  mret (mkGateway t r false).

Definition interfaces_usable (first second : string) : bool :=
  linux_valid_interface first && linux_valid_interface second && negb (String.eqb first second).

Definition nft_transaction (rules : string) : Act (Self * World) TransportError unit :=
  me ← self (λ g, g);
  on_field gateway_runner set_gateway_runner
    (runner_input (mkCommand (gw_nft (gateway_tools me)) ["--file"; "-"]) rules).

Definition check_forwarding (key : string) : Act (Self * World) TransportError unit :=
  me ← self (λ g, g);
  output ← on_field gateway_runner set_gateway_runner
    (runner_output (mkCommand (gw_sysctl (gateway_tools me)) ["-n"; key]));
  guard_err (negb (String.eqb output ("1" +:+ newline)) && negb (String.eqb output "1"))
    (InvalidConfig "kernel IP forwarding is disabled").

Definition gateway_enable (wireguard_interface uplink_interface : string)
    (p : WireGuardNodeGatewayPolicy) (context : ConnectContext) :
    Act (Self * World) TransportError unit :=
  me ← self (λ g, g);
  guard_err (gateway_active me) AlreadyConnected;;
  guard_err (negb (interfaces_usable wireguard_interface uplink_interface))
    (InvalidConfig "invalid WireGuard node gateway interface");;
  lift (validate_gateway p);;
  check context;;
  for_each (forwarding_keys p) check_forwarding;;
  check context;;
  nft_transaction (node_gateway_rules wireguard_interface uplink_interface p);;
  set_self (set_gateway_active true).

Definition gateway_disable : Act (Self * World) TransportError unit :=
  me ← self (λ g, g);
  guard_err (negb (gateway_active me)) NotConnected;;
  nft_transaction ("delete table inet cyberia_vpn_node" +:+ newline);;
  set_self (set_gateway_active false).
End gateway.

(** ** The managed node *)

Record LinuxManagedWireGuardNode (NR GR : Type) := mkManaged {
  managed_interface : string;
  managed_uplink : string;
  managed_node : LinuxWireGuardNode NR;
  managed_gateway : LinuxWireGuardNodeGateway GR;
  managed_active : bool;
}.
Arguments mkManaged {NR GR}.
Arguments managed_interface {NR GR}.
Arguments managed_uplink {NR GR}.
Arguments managed_node {NR GR}.
Arguments managed_gateway {NR GR}.
Arguments managed_active {NR GR}.

Section managed.
Context {NR GR : Type} `{CommandRunner NR} `{CommandRunner GR}.
Local Abbreviation Self := (LinuxManagedWireGuardNode NR GR).

Definition set_managed_node (n : LinuxWireGuardNode NR) (m : Self) : Self :=
  mkManaged (managed_interface m) (managed_uplink m) n (managed_gateway m) (managed_active m).
Definition set_managed_gateway (g : LinuxWireGuardNodeGateway GR) (m : Self) : Self :=
  mkManaged (managed_interface m) (managed_uplink m) (managed_node m) g (managed_active m).
Definition set_managed_active (b : bool) (m : Self) : Self :=
  mkManaged (managed_interface m) (managed_uplink m) (managed_node m) (managed_gateway m) b.

Definition managed_new (interface uplink : string) (n : LinuxWireGuardNode NR)
    (g : LinuxWireGuardNodeGateway GR) : Result TransportError Self :=
  if negb (interfaces_usable interface uplink)
  then Err (InvalidConfig "invalid managed WireGuard node interface")
  else Ok (mkManaged interface uplink n g false).

Definition on_node {A} (m : Act (LinuxWireGuardNode NR * World) TransportError A) :
    Act (Self * World) TransportError A :=
  on_field managed_node set_managed_node m.

Definition on_gateway {A} (m : Act (LinuxWireGuardNodeGateway GR * World) TransportError A) :
    Act (Self * World) TransportError A :=
  on_field managed_gateway set_managed_gateway m.

Definition managed_start (c : WireGuardNodeConfig) (p : WireGuardNodeGatewayPolicy)
    (context : ConnectContext) : Act (Self * World) TransportError unit :=
  me ← self (λ m, m);
  guard_err (managed_active me) AlreadyConnected;;
  lift (validate_for_node p c);;
  on_node (node_start (managed_interface me) c context);;
  enabled ← attempt (E := TransportError)
    (on_gateway (gateway_enable (managed_interface me) (managed_uplink me) p context));
  match enabled with
  | inl setup_error =>
      stopped ← attempt (E := TransportError) (on_node node_stop);
      match stopped with
      | inl cleanup_error =>
          raise (Network ("node gateway setup failed: " +:+ display_transport_error setup_error
                          +:+ "; cleanup failed: " +:+ display_transport_error cleanup_error))
      | inr _ => raise setup_error
      end
  | inr _ => set_self (set_managed_active true)
  end.

Definition managed_add_peer (p : WireGuardNodePeer) : Act (Self * World) TransportError unit :=
  me ← self (λ m, m);
  guard_err (negb (managed_active me)) NotConnected;;
  on_node (add_peer p).

Definition managed_remove_peer (key : Key) : Act (Self * World) TransportError unit :=
  me ← self (λ m, m);
  guard_err (negb (managed_active me)) NotConnected;;
  on_node (remove_peer key).

Definition managed_health : Act (Self * World) Infallible WireGuardNodeHealth :=
  on_field managed_node set_managed_node node_health.

Definition managed_stop : Act (Self * World) TransportError unit :=
  me ← self (λ m, m);
  guard_err (negb (managed_active me)) NotConnected;;
  on_gateway gateway_disable;;
  on_node node_stop;;
  set_self (set_managed_active false).
End managed.

(** ** Peers in the kernel

    The peers that the completed commands configured on an interface: [wg set]
    adds or removes one, creating or deleting the link starts from none. *)

Definition peer_effect (interface : string) (arguments : list string) (k : gset string) : gset string :=
  match arguments with
  | o1 :: o2 :: o3 :: o4 :: rest =>
      if String.eqb o1 "link" then
        if (String.eqb o2 "add" || String.eqb o2 "delete") && String.eqb o4 interface then ∅ else k
      else if String.eqb o1 "set" && String.eqb o3 "peer" && String.eqb o2 interface then
        match rest with
        | [flag] => if String.eqb flag "remove" then k ∖ {[o4]} else {[o4]} ∪ k
        | _ => {[o4]} ∪ k
        end
      else k
  | _ => k
  end.

Definition configured_peers_of (interface : string) (l : list Invocation) : gset string :=
  foldr (λ inv k, peer_effect interface (arguments inv.1) k) ∅ l.

Definition key_typed (k : Key) : Prop := Forall u8 k ∧ length k = 32%nat.

Lemma encode_key_inj k k' :
  key_typed k → key_typed k' → encode_key k = encode_key k' → k = k'.
Proof.
  intros [Hk _] [Hk' _] Heq%(f_equal (λ s, base64_decode (chars s))).
  unfold encode_key in Heq. rewrite !String.list_ascii_of_string_of_list_ascii, !decode_chunks in Heq by done.
  congruence.
Qed.

(** ** Ownership *)

Section ownership.
Context {R : Type}.
Local Abbreviation Self := (LinuxWireGuardNode R).

(** Every assigned route is a host route that belongs to a managed peer, every
    managed peer has a usable key and a route, the capacity is respected, and
    an inactive node owns nothing. *)
Definition ownership_ok (n : Self) : Prop :=
  (size (peers n) ≤ MAXIMUM_NODE_PEERS)%nat ∧
  (∀ route key, assigned_routes n !! route = Some key → key ∈ peers n ∧ host_route route) ∧
  (∀ key, key ∈ peers n → key_typed key ∧ zero_key key = false ∧
     ∃ route, assigned_routes n !! route = Some key) ∧
  (node_active_interface n = None → peers n = ∅ ∧ assigned_routes n = ∅).

Lemma assign_routes_lookup key routes (m : gmap AllowedIp Key) route :
  assign_routes key routes m !! route = if decide (route ∈ routes) then Some key else m !! route.
Proof.
  unfold assign_routes. revert m. induction routes as [|r routes IH]; intros m; [done|].
  cbn [foldl]. rewrite IH. destruct (decide (route ∈ routes)) as [Hin|Hin].
  - rewrite decide_True; [done|]. apply elem_of_cons. by right.
  - destruct (decide (route = r)) as [->|Hne].
    + rewrite decide_True by (apply elem_of_cons; by left). apply lookup_insert_eq.
    + rewrite decide_False by (rewrite elem_of_cons; naive_solver). by apply lookup_insert_ne.
Qed.

Definition peer_typed (p : WireGuardNodePeer) : Prop :=
  key_typed (public_key p) ∧ optional_u16 (peer_keepalive_seconds p).

Lemma ownership_add n p :
  ownership_ok n → peer_typed p → validate_peer p = Ok tt →
  is_Some (node_active_interface n) →
  (size (peers n) < MAXIMUM_NODE_PEERS)%nat → public_key p ∉ peers n →
  (∀ route, route ∈ peer_allowed_ips p → assigned_routes n !! route = None) →
  ownership_ok (set_ownership ({[public_key p]} ∪ peers n)
    (assign_routes (public_key p) (peer_allowed_ips p) (assigned_routes n)) n).
Proof.
  intros (Hsize & Hroutes & Hpeers & _) [Hkey Hka] Hv [i Hi] Hcap Hnew Hfree.
  apply validate_peer_spec in Hv as (Hz & Hlen & Hhost & _ & _); [|done].
  split_and!; cbn.
  - rewrite size_union, size_singleton by set_solver. lia.
  - intros route key. rewrite assign_routes_lookup. destruct (decide _) as [Hin|Hin].
    + intros [= <-]. split; [set_solver|]. rewrite Forall_forall in Hhost. by apply Hhost.
    + intros [? ?]%Hroutes. split; [set_solver|done].
  - intros key [->%elem_of_singleton|Hin]%elem_of_union.
    + split_and!; [apply Hkey..|done|]. destruct (peer_allowed_ips p) as [|r rs]; [cbn in Hlen; lia|].
      exists r. by rewrite assign_routes_lookup, decide_True by (apply elem_of_cons; by left).
    + destruct (Hpeers key Hin) as (Ht & Hz' & route & Hr). split_and!; [apply Ht..|done|].
      exists route. rewrite assign_routes_lookup, decide_False; [done|].
      intros Hin'%Hfree. congruence.
  - congruence.
Qed.

Lemma ownership_remove n key :
  ownership_ok n → is_Some (node_active_interface n) →
  ownership_ok (set_ownership (peers n ∖ {[key]})
    (filter (λ '(_, owner), owner ≠ key) (assigned_routes n)) n).
Proof.
  intros (Hsize & Hroutes & Hpeers & _) [i Hi]. split_and!; cbn.
  - etransitivity; [|exact Hsize]. apply subseteq_size. set_solver.
  - intros route key'. rewrite map_lookup_filter_Some. intros [[? ?]%Hroutes ?]. split; [set_solver|done].
  - intros key' [Hin Hne%not_elem_of_singleton]%elem_of_difference.
    destruct (Hpeers key' Hin) as (Ht & Hz & route & Hr). split_and!; [apply Ht..|done|].
    exists route. by rewrite map_lookup_filter_Some.
  - congruence.
Qed.

(** Adding a peer and removing it again restores the bookkeeping. *)
Lemma ownership_roundtrip n p :
  ownership_ok n → public_key p ∉ peers n →
  (∀ route, route ∈ peer_allowed_ips p → assigned_routes n !! route = None) →
  ({[public_key p]} ∪ peers n) ∖ {[public_key p]} = peers n ∧
  filter (λ '(_, owner), owner ≠ public_key p)
    (assign_routes (public_key p) (peer_allowed_ips p) (assigned_routes n)) = assigned_routes n.
Proof.
  intros (_ & Hroutes & _ & _) Hnew Hfree. split; [set_solver|]. apply map_eq. intros route.
  apply option_eq. intros key. rewrite map_lookup_filter_Some, assign_routes_lookup.
  destruct (decide (route ∈ peer_allowed_ips p)) as [Hin|Hin].
  - rewrite (Hfree route Hin). naive_solver.
  - split; [naive_solver|]. intros Hr. split; [done|]. intros ->. by apply Hroutes in Hr as [? _].
Qed.
End ownership.

(** ** Operations *)

Section operations.
Context {R : Type} `{RunnerSpec R}.
Local Abbreviation Self := (LinuxWireGuardNode R).
Implicit Types (n : Self) (w : World).

(** [s] differs from [n] at most in its runner; the kernel has the peers [k] on
    [interface]. *)
Definition at_peers n (interface : string) (k : gset string) (s : Self * World) : Prop :=
  s.1 = set_node_runner (node_runner s.1) n ∧
  configured_peers_of interface (completed (node_runner s.1) s.2) = k.

Lemma wp_node_command n i k prog args s Q :
  at_peers n i k s →
  (∀ s', at_peers n i (peer_effect i args k) s' → Q (Ok tt) s') →
  (∀ e s', at_peers n i k s' → Q (Err e) s') →
  (∀ s', Q Panic s') →
  wp (node_command prog args) Q s.
Proof.
  destruct s as [n1 w]. intros (Hn & Hk) Hok Herr Hpanic. cbn in Hn, Hk.
  unfold node_command. wp_run. apply wp_runner_run.
  - intros r' w' Hc _. apply Hok. split; cbn [fst snd]; [by rewrite Hn|].
    unfold configured_peers_of in *. cbn [set_node_runner node_runner]. rewrite Hc.
    cbn [foldr fst arguments]. by rewrite Hk.
  - intros e r' w' Hc _. apply Herr. split; cbn; [by rewrite Hn|]. by rewrite Hc.
  - intros r' w' _. apply Hpanic.
Qed.

Lemma wp_node_check n i k context s Q :
  at_peers n i k s →
  (∀ s', at_peers n i k s' → Q (Ok tt) s') →
  (∀ e s', at_peers n i k s' → Q (Err e) s') →
  wp (check context) Q s.
Proof.
  destruct s as [n1 w]. intros (Hn & Hk) Hok Herr. cbn in Hn, Hk.
  assert (∀ w', processes w' = processes w → at_peers n i k (n1, w')) as Hsame.
  { intros w' Hw. split; cbn; [done|]. by rewrite (completed_frame _ w' w Hw). }
  apply wp_check; auto.
Qed.

Lemma wp_configure_node n i k interface c context s Q :
  at_peers n i k s →
  (∀ r s', r ≠ Panic → at_peers n i k s' → Q r s') →
  (∀ s', Q Panic s') →
  wp (configure_node interface c context) Q s.
Proof.
  intros Hs HQ Hp. unfold configure_node. wp_run.
  eapply wp_node_check; [done|intros [n1 w1] Hs1|by intros; apply HQ]. wp_run.
  eapply wp_node_command; [done|intros s2 Hs2|by intros; apply HQ|done]. wp_run.
  apply (wp_for_each (λ _ s, at_peers n i k s)); [exact Hs2| |].
  - intros _ a s3 Hs3. wp_run. eapply wp_node_check; [done|intros s4 Hs4|by intros; apply HQ]. wp_run.
    eapply wp_node_command; [done|intros s5 Hs5; exact Hs5|by intros; apply HQ|done].
  - intros s3 Hs3. wp_run. eapply wp_node_check; [done|intros s4 Hs4|by intros; apply HQ]. wp_run.
    eapply wp_node_command; [done|intros s5 Hs5; by apply HQ|by intros; apply HQ|done].
Qed.

(** The recorded peers are the ones in the kernel. *)
Definition peers_synced (s : Self * World) : Prop :=
  ∀ i, node_active_interface s.1 = Some i →
    configured_peers_of i (completed (node_runner s.1) s.2) = set_map encode_key (peers s.1).

Definition node_consistent (s : Self * World) : Prop := ownership_ok s.1 ∧ peers_synced s.

Lemma same_node n i k s :
  at_peers n i k s →
  node_active_interface s.1 = node_active_interface n ∧ peers s.1 = peers n ∧
  assigned_routes s.1 = assigned_routes n.
Proof. by intros [-> _]. Qed.

Lemma ownership_same n i k s : at_peers n i k s → ownership_ok n → ownership_ok s.1.
Proof. intros [-> _]. done. Qed.

(** A state that differs only in its runner and has no active interface. *)
Lemma consistent_idle n i k s :
  at_peers n i k s → ownership_ok n → node_active_interface n = None → node_consistent s.
Proof.
  intros Hs Hn Hi. split; [by eapply ownership_same|]. intros j Hj.
  destruct (same_node _ _ _ _ Hs) as (Hi' & _). congruence.
Qed.

(** A state that differs only in its runner and keeps the kernel's peers. *)
Lemma consistent_same n i k s :
  at_peers n i k s → ownership_ok n → node_active_interface n = Some i →
  k = set_map encode_key (peers n) → node_consistent s.
Proof.
  intros Hs Hn Hi Hk. split; [by eapply ownership_same|]. intros j Hj.
  destruct (same_node _ _ _ _ Hs) as (Hi' & Hp & _). destruct Hs as [_ Hc].
  rewrite Hp, <-Hk, <-Hc. congruence.
Qed.

Lemma wp_node_start interface c context n w :
  node_consistent (n, w) →
  wp (node_start interface c context)
    (λ r s, r ≠ Panic → node_consistent s ∧
       (∀ e, r = Err e → node_active_interface s.1 = node_active_interface n)) (n, w).
Proof.
  intros Hs. destruct Hs as [Hown Hsync]. cbn in Hown. unfold node_start. wp_run.
  apply wp_guard; intros Hg1; wp_run; [done|]. apply wp_guard; intros Hg2; wp_run; [done|].
  assert (node_active_interface n = None) as Hi by (by destruct (node_active_interface n)).
  destruct (validate_node_config c) as [[]|e|]; wp_run; [|done..].
  set (k := configured_peers_of interface (completed (node_runner n) w)).
  assert (at_peers n interface k (n, w)) as Hs by (split; [by destruct n|done]).
  assert (∀ (r : Result TransportError unit) k' s', at_peers n interface k' s' → r ≠ Panic →
    node_consistent s' ∧ (∀ e, r = Err e → node_active_interface s'.1 = node_active_interface n)) as Hidle.
  { intros r k' s' Hs' _. split; [by eapply consistent_idle|]. intros _ _. by apply (same_node _ _ _ _ Hs'). }
  eapply wp_node_check; [done|intros s1 Hs1|intros e' s' Hs'; wp_run; exact (Hidle (Err e') _ _ Hs')]. wp_run.
  eapply wp_node_command; [done|intros s2 Hs2|intros e' s' Hs'; wp_run; exact (Hidle (Err e') _ _ Hs')|done]. wp_run.
  cbn in Hs2. rewrite String.eqb_refl in Hs2.
  eapply wp_configure_node; [done| |done]. intros [[]|e|] [n3 w3] Hr Hs3; [| |done]; wp_run.
  - intros _. split; [|done]. destruct (same_node _ _ _ _ Hs3) as (_ & Hp3 & Hr3).
    cbn [fst] in Hp3, Hr3.
    destruct Hown as (Hsize & Hroutes & Hpeers & Hnone). specialize (Hnone Hi) as [Hp0 Hr0].
    split.
    + unfold ownership_ok. cbn [fst set_node_interface peers assigned_routes node_active_interface].
      rewrite Hp3, Hr3. by split_and!.
    + intros j [= <-]. cbn. destruct Hs3 as [_ Hk3]. cbn in Hk3. by rewrite Hk3, Hp3, Hp0, set_map_empty.
  - eapply wp_node_command; [done|intros s4 Hs4|intros e' s4 Hs4|done]; wp_run; exact (Hidle (Err _) _ _ Hs4).
Qed.

(** What [add_peer] and [remove_peer] do to the bookkeeping. *)
Definition add_outcome (p : WireGuardNodePeer) n (r : Result TransportError unit) n' : Prop :=
  match r with
  | Ok _ => (public_key p ∉ peers n) ∧
      (∀ route, route ∈ peer_allowed_ips p → assigned_routes n !! route = None) ∧
      peers n' = {[public_key p]} ∪ peers n ∧
      assigned_routes n' = assign_routes (public_key p) (peer_allowed_ips p) (assigned_routes n)
  | Err _ => peers n' = peers n ∧ assigned_routes n' = assigned_routes n
  | Panic => True
  end.

Definition remove_outcome (key : Key) n (r : Result TransportError unit) n' : Prop :=
  match r with
  | Ok _ => key ∈ peers n ∧ peers n' = peers n ∖ {[key]} ∧
      assigned_routes n' = filter (λ '(_, owner), owner ≠ key) (assigned_routes n)
  | Err _ => peers n' = peers n ∧ assigned_routes n' = assigned_routes n
  | Panic => True
  end.

Lemma wp_add_peer p n w :
  node_consistent (n, w) → peer_typed p →
  wp (add_peer p)
    (λ r s, r ≠ Panic → node_consistent s ∧ add_outcome p n r s.1 ∧
       node_active_interface s.1 = node_active_interface n) (n, w).
Proof.
  intros Hs Ht. pose proof Hs as [Hown Hsync]. cbn in Hown. unfold add_peer. wp_run.
  destruct (validate_peer p) as [[]|e|] eqn:Hv; wp_run; [|done..].
  destruct (node_active_interface n) as [i|] eqn:Hi; cbn [ok_or]; wp_run; [|done].
  apply wp_guard; intros Hg1; wp_run; [done|]. apply wp_guard; intros Hg2; wp_run; [done|].
  apply wp_guard; intros Hg3; wp_run; [done|].
  apply Nat.leb_gt in Hg1. apply bool_decide_eq_false in Hg2.
  assert (∀ route, route ∈ peer_allowed_ips p → assigned_routes n !! route = None) as Hfree.
  { intros route Hin. apply eq_None_not_Some. intros Hsome.
    apply not_true_iff_false in Hg3. apply Hg3, existsb_exists. exists route.
    split; [by apply list_elem_of_In|by apply bool_decide_eq_true]. }
  pose proof (Hsync i Hi) as Hk. cbn in Hk.
  assert (at_peers n i (set_map encode_key (peers n)) (n, w)) as Hat by (split; [by destruct n|done]).
  eapply wp_node_command; [exact Hat|intros [n1 w1] Hs1|intros e s1 Hs1|done]; wp_run; intros _.
  - destruct (same_node _ _ _ _ Hs1) as (Hi1 & Hp1 & Hr1). cbn [fst] in *.
    split; [|split; [split_and!; cbn; [done..|by rewrite Hp1|by rewrite Hr1]|cbn; congruence]].
    split.
    + unfold ownership_ok. cbn [fst set_ownership peers assigned_routes node_active_interface].
      rewrite Hi1, Hp1, Hr1. apply (ownership_add n p); eauto.
    + intros j Hj. cbn in Hj |- *. rewrite Hi1, Hi in Hj. injection Hj as <-.
      destruct Hs1 as [_ Hk1]. cbn [fst snd] in Hk1. rewrite Hk1, Hp1.
      unfold peer_effect, peer_arguments. cbn [app]. rewrite (String.eqb_refl i).
      rewrite set_map_union_L, set_map_singleton_L. done.
  - destruct (same_node _ _ _ _ Hs1) as (Hi1 & Hp1 & Hr1).
    split; [by eapply consistent_same|]. by split; [|congruence].
Qed.

Lemma wp_remove_peer key n w :
  node_consistent (n, w) →
  wp (remove_peer key)
    (λ r s, r ≠ Panic → node_consistent s ∧ remove_outcome key n r s.1 ∧
       node_active_interface s.1 = node_active_interface n) (n, w).
Proof.
  intros Hs. pose proof Hs as [Hown Hsync]. cbn in Hown. unfold remove_peer. wp_run.
  destruct (node_active_interface n) as [i|] eqn:Hi; cbn [ok_or]; wp_run; [|done].
  apply wp_guard; intros Hg; wp_run; [done|]. apply negb_false_iff, bool_decide_eq_true in Hg.
  pose proof (Hsync i Hi) as Hk. cbn in Hk.
  assert (at_peers n i (set_map encode_key (peers n)) (n, w)) as Hat by (split; [by destruct n|done]).
  eapply wp_node_command; [exact Hat|intros [n1 w1] Hs1|intros e s1 Hs1|done]; wp_run; intros _.
  - destruct (same_node _ _ _ _ Hs1) as (Hi1 & Hp1 & Hr1). cbn [fst] in *.
    split; [|split; [split_and!; cbn; [done..|by rewrite Hp1|by rewrite Hr1]|cbn; congruence]].
    split.
    + unfold ownership_ok. cbn [fst set_ownership peers assigned_routes node_active_interface].
      rewrite Hi1, Hp1, Hr1. apply (ownership_remove n key); eauto.
    + intros j Hj. cbn in Hj |- *. rewrite Hi1, Hi in Hj. injection Hj as <-.
      destruct Hs1 as [_ Hk1]. cbn [fst snd] in Hk1. rewrite Hk1, Hp1.
      unfold peer_effect. rewrite (String.eqb_refl i).
      change (set_map encode_key (peers n) ∖ {[encode_key key]} =
        (set_map encode_key (peers n ∖ {[key]}) : gset string)).
      destruct Hown as (_ & _ & Hpeers & _). apply set_eq. intros x.
      rewrite elem_of_difference, elem_of_singleton, !elem_of_map. split.
      * intros [(k & -> & Hin) Hne]. exists k. split; [done|]. set_solver.
      * intros (k & -> & [Hin Hne%not_elem_of_singleton]%elem_of_difference). split; [eauto|].
        intros Heq. apply Hne. apply encode_key_inj; [by apply Hpeers..|done].
  - destruct (same_node _ _ _ _ Hs1) as (Hi1 & Hp1 & Hr1).
    split; [by eapply consistent_same|]. by split; [|congruence].
Qed.

Lemma wp_node_stop n w :
  node_consistent (n, w) →
  wp node_stop
    (λ r s, r ≠ Panic → node_consistent s ∧
       match r with
       | Ok _ => is_Some (node_active_interface n) ∧ node_active_interface s.1 = None
       | _ => node_active_interface s.1 = node_active_interface n ∧
           peers s.1 = peers n ∧ assigned_routes s.1 = assigned_routes n
       end) (n, w).
Proof.
  intros Hs. pose proof Hs as [Hown Hsync]. cbn in Hown. unfold node_stop. wp_run.
  destruct (node_active_interface n) as [i|] eqn:Hi; cbn [ok_or]; wp_run; [|done].
  pose proof (Hsync i Hi) as Hk. cbn in Hk.
  assert (at_peers n i (set_map encode_key (peers n)) (n, w)) as Hat by (split; [by destruct n|done]).
  unfold node_delete_interface.
  eapply wp_node_command; [exact Hat|intros [n1 w1] Hs1|intros e s1 Hs1|done]; wp_run; intros _.
  - split; [|by split; [eexists|]]. split; [|done].
    split_and!; cbn -[size]; [rewrite size_empty; apply Nat.le_0_l| |set_solver|done].
    intros route key. by rewrite lookup_empty.
  - destruct (same_node _ _ _ _ Hs1) as (Hi1 & Hp1 & Hr1).
    split; [by eapply consistent_same|]. split; [congruence|done].
Qed.

Lemma wp_node_health n w :
  node_consistent (n, w) →
  wp node_health (λ r s, r ≠ Panic → node_consistent s ∧
    node_active_interface s.1 = node_active_interface n) (n, w).
Proof.
  intros Hs. pose proof Hs as [Hown Hsync]. cbn in Hown. unfold node_health. wp_run.
  destruct (node_active_interface n) as [i|] eqn:Hi; wp_run; [|done].
  pose proof (Hsync i Hi) as Hk. cbn in Hk.
  assert (∀ r w' f, configured_peers_of i (completed r w') = set_map encode_key (peers n) →
    node_consistent (set_node_failures f (set_node_runner r n), w')) as Hcons.
  { intros r w' f Hk'. split; [exact Hown|]. intros j Hj. cbn in Hj |- *. congruence. }
  apply wp_runner_output; [|intros e r' w' Hc _|by intros; wp_run].
  2: { wp_run. intros _. split; [|done]. apply Hcons. by rewrite Hc. }
  intros out r' w' Hc _. wp_run. unfold unix_time. apply wp_intro. intros res s Hres.
  unfold on_world in Hres. injection Hres as <- <-. wp_run.
  assert (∀ e, is_process e = false →
    configured_peers_of i (completed r' (log e w')) = set_map encode_key (peers n)) as Hk'.
  { intros e He. rewrite (completed_frame _ (log e w') w') by (by rewrite processes_log).
    unfold configured_peers_of in *. by rewrite Hc. }
  destruct (node_handshakes _ out) as [[observed recent]|]; wp_run; intros _;
    (split; [by apply Hcons, Hk'|done]).
Qed.
End operations.

(** ** Sequences of node calls *)

Inductive NodeCall :=
| CallStart (interface : string) (c : WireGuardNodeConfig) (context : ConnectContext)
| CallAddPeer (p : WireGuardNodePeer)
| CallRemovePeer (key : Key)
| CallStop
| CallNodeHealth.

Section node_calls.
Context {R : Type} `{RunnerSpec R}.
Local Abbreviation Self := (LinuxWireGuardNode R).

Definition node_call (call : NodeCall) : Act (Self * World) TransportError unit :=
  match call with
  | CallStart interface c context => node_start interface c context
  | CallAddPeer p => add_peer p
  | CallRemovePeer key => remove_peer key
  | CallStop => node_stop
  | CallNodeHealth => act_map_err infallible node_health;; mret tt
  end.

Definition call_typed (call : NodeCall) : Prop :=
  match call with CallAddPeer p => peer_typed p | _ => True end.

(** Any calls with any results, as long as the process does not abort. *)
Inductive node_steps : Self * World → Self * World → Prop :=
| node_refl s : node_steps s s
| node_step s call s' r s'' :
    node_steps s s' → call_typed call → node_call call s' = (r, s'') → r ≠ Panic → node_steps s s''.

Lemma consistent_call call s r s' :
  node_consistent s → call_typed call → node_call call s = (r, s') → r ≠ Panic → node_consistent s'.
Proof.
  destruct s as [n w]. intros Hs Ht. destruct call as [i c context|p|key| |]; cbn; by_wp.
  - eapply wp_mono; [by apply wp_node_start|]. intros r s Ho Hr. by apply Ho.
  - eapply wp_mono; [by apply wp_add_peer|]. intros r s Ho Hr. by apply Ho.
  - eapply wp_mono; [by apply wp_remove_peer|]. intros r s Ho Hr. by apply Ho.
  - eapply wp_mono; [by apply wp_node_stop|]. intros r s Ho Hr. by apply Ho.
  - wp_run. eapply wp_mono; [by apply wp_node_health|].
    intros [h|[]|] s Ho; cbn; wp_run; [|done]. intros _. by apply Ho.
Qed.

Lemma consistent_steps s s' : node_consistent s → node_steps s s' → node_consistent s'.
Proof. intros Hs. induction 1; eauto using consistent_call. Qed.

Lemma consistent_new t (r : R) w : node_consistent (mkNode t r None ∅ ∅ 0, w).
Proof.
  split; [|done]. split_and!; cbn -[size]; [rewrite size_empty; apply Nat.le_0_l| |set_solver|done].
  intros route key. by rewrite lookup_empty.
Qed.
End node_calls.

(** ** The gateway text *)

Definition gateway_lines (wireguard uplink : string) (p : WireGuardNodeGatewayPolicy) :
    list (list string) :=
  let quoted name := quote +:+ name +:+ quote in
  let statement verb rest := (["add"; verb; "inet"; "cyberia_vpn_node"] ++ rest)%list in
  ([ statement "table" [];
     statement "chain" ["forward"; "{"; "type"; "filter"; "hook"; "forward"; "priority"; "0;";
                        "policy"; "drop;"; "}"];
     statement "chain" ["postrouting"; "{"; "type"; "nat"; "hook"; "postrouting"; "priority";
                        "100;"; "policy"; "accept;"; "}"];
     statement "rule" ["forward"; "ct"; "state"; "established,related"; "accept"] ]
   ++ concat (map (λ n,
        let source := [(if is_ipv4 (ai_network n) then "ip" else "ip6"); "saddr";
                       cidr (ai_network n) (ai_prefix_length n)] in
        [ statement "rule" (["forward"; "iifname"; quoted wireguard; "oifname"; quoted uplink]
                            ++ source ++ ["accept"]);
          statement "rule" (["postrouting"; "oifname"; quoted uplink] ++ source ++ ["masquerade"]) ])
        (client_networks p)))%list.

Lemma node_gateway_rules_unlines wireguard uplink p :
  node_gateway_rules wireguard uplink p =
    unlines (map (join " ") (gateway_lines wireguard uplink p)).
Proof.
  unfold node_gateway_rules, gateway_lines. rewrite foldl_push_str, map_app, unlines_app. f_equal.
  induction (client_networks p) as [|n l IH]; [done|]. cbn [map concat]. rewrite map_app, unlines_app, <-IH.
  assert (∀ x y, String.concat "" (x :: y) = x +:+ String.concat "" y) as Hc.
  { intros x [|z y]; cbn [String.concat]; [by rewrite string_app_nil|done]. }
  rewrite Hc. f_equal. cbn [map app]. rewrite !unlines_cons. unfold gateway_network_rules, join.
  cbn [String.concat]. generalize (cidr (ai_network n) (ai_prefix_length n)) as prefix. intros prefix.
  destruct (is_ipv4 _); rewrite !string_app_assoc; reflexivity.
Qed.

Lemma quoted_interface_word name :
  linux_valid_interface name = true → is_word (quote +:+ name +:+ quote).
Proof.
  intros [_ Hb]%andb_true_iff. split; [done|]. rewrite !all_bytes_app.
  by rewrite (all_bytes_class _ is_word_char name) with (2 := Hb) by (by vm_compute).
Qed.

Lemma cidr_word a p : ip_typed a → 0 ≤ p → is_word (cidr a p).
Proof.
  intros Ha Hp. unfold cidr. split.
  - pose proof (display_ip_nonempty a Ha). by destruct (display_ip a).
  - assert (all_bytes is_word_char (display_ip a) = true) as H1
      by (apply (all_bytes_class is_ip_char); [by vm_compute|apply display_ip_chars]).
    assert (all_bytes is_word_char (to_dec p) = true) as H2
      by (apply (all_bytes_class is_ascii_digit); [by vm_compute|by apply to_dec_all_digits]).
    by rewrite !all_bytes_app, H1, H2.
Qed.

Lemma gateway_words wireguard uplink p :
  linux_valid_interface wireguard = true → linux_valid_interface uplink = true → gateway_typed p →
  Forall (Forall is_word) (gateway_lines wireguard uplink p).
Proof.
  intros Hw%quoted_interface_word Hu%quoted_interface_word Ht. unfold gateway_lines. apply Forall_app.
  split; [by repeat constructor|]. induction Ht as [|n l [Ha [Hp _]] Ht IH]; [constructor|].
  cbn [map concat app]. pose proof (cidr_word _ _ Ha Hp).
  assert (is_word (if is_ipv4 (ai_network n) then "ip" else "ip6")) by (by destruct (is_ipv4 _)).
  repeat first [exact IH | done | constructor].
Qed.

(** ** The gateway's flag *)

Definition delete_rules : string := "delete table inet cyberia_vpn_node" +:+ newline.

(** Whether the completed transactions left the forwarding table installed. *)
Definition table_installed (l : list Invocation) : bool :=
  match omap snd l with
  | text :: _ => negb (String.eqb text delete_rules)
  | [] => false
  end.

Section gateway_calls.
Context {R : Type} `{RunnerSpec R}.
Local Abbreviation Self := (LinuxWireGuardNodeGateway R).
Implicit Types (g : Self) (w : World).

Definition gateway_synced (s : Self * World) : Prop :=
  gateway_active s.1 = table_installed (completed (gateway_runner s.1) s.2).

(** The table is [b] and the flag is still [a]. *)
Definition at_table (a b : bool) (s : Self * World) : Prop :=
  gateway_active s.1 = a ∧ table_installed (completed (gateway_runner s.1) s.2) = b.

Lemma wp_gateway_check a b context s Q :
  at_table a b s → (∀ s', at_table a b s' → Q (Ok tt) s') →
  (∀ e s', at_table a b s' → Q (Err e) s') → wp (check context) Q s.
Proof.
  destruct s as [g w]. intros [Ha Hb] Hok Herr. cbn in Ha, Hb.
  assert (∀ w', processes w' = processes w → at_table a b (g, w')) as Hsame.
  { intros w' Hw. split; cbn; [done|]. by rewrite (completed_frame _ w' w Hw). }
  apply wp_check; auto.
Qed.

Lemma wp_nft_transaction a b text s Q :
  at_table a b s →
  (∀ s', at_table a (negb (String.eqb text delete_rules)) s' → Q (Ok tt) s') →
  (∀ e s', at_table a b s' → Q (Err e) s') → (∀ s', Q Panic s') →
  wp (nft_transaction text) Q s.
Proof.
  destruct s as [g w]. intros [Ha Hb] Hok Herr Hp. cbn in Ha, Hb. unfold nft_transaction. wp_run.
  apply wp_runner_input; [intros r' w' Hc; apply Hok|intros e r' w' Hc; apply Herr|intros [r' w']; apply Hp];
    (split; cbn; [done|]); by rewrite Hc.
Qed.

Lemma wp_check_forwarding a b key s Q :
  at_table a b s → (∀ s', at_table a b s' → Q (Ok tt) s') →
  (∀ e s', at_table a b s' → Q (Err e) s') → (∀ s', Q Panic s') →
  wp (check_forwarding key) Q s.
Proof.
  destruct s as [g w]. intros [Ha Hb] Hok Herr Hp. cbn in Ha, Hb. unfold check_forwarding. wp_run.
  assert (∀ r' w' l, completed r' w' = l → table_installed l = b →
    at_table a b (set_gateway_runner r' g, w')) as Hat.
  { intros r' w' l Hc Hl. split; cbn; [done|]. by rewrite Hc. }
  apply wp_runner_output.
  - intros out r' w' Hc _. wp_run. eapply Hat in Hc; [|exact Hb].
    apply wp_guard; intros _; [by apply Herr|by apply Hok].
  - intros e r' w' Hc _. wp_run. apply Herr. by eapply Hat.
  - intros r' w' _. apply Hp.
Qed.

(** A text that begins with a table declaration is not the deletion. *)
Lemma rules_not_delete wireguard uplink p :
  String.eqb (node_gateway_rules wireguard uplink p) delete_rules = false.
Proof.
  rewrite node_gateway_rules_unlines. unfold gateway_lines. cbn [app map]. rewrite unlines_cons.
  reflexivity.
Qed.

Definition enable_outcome g (r : Result TransportError unit) (s : Self * World) : Prop :=
  match r with
  | Ok _ => gateway_active g = false ∧ gateway_active s.1 = true
  | Err _ => gateway_active s.1 = gateway_active g
  | Panic => True
  end.

Lemma wp_gateway_enable wireguard uplink p context g w :
  gateway_synced (g, w) →
  wp (gateway_enable wireguard uplink p context)
    (λ r s, (r ≠ Panic → gateway_synced s) ∧ enable_outcome g r s) (g, w).
Proof.
  intros Hs. unfold gateway_enable. wp_run. apply wp_guard; intros Ha; wp_run; [done|].
  apply wp_guard; intros Hi; wp_run; [done|]. destruct (validate_gateway p) as [[]|e|]; wp_run; [|done..].
  assert (at_table false false (g, w)) as Hat by (split; [done|]; unfold gateway_synced in Hs; cbn in *; congruence).
  assert (∀ e s', at_table false false s' →
    (Err (A := unit) e ≠ Panic → gateway_synced s') ∧ enable_outcome g (Err e) s') as Hidle.
  { intros e s' [Ha' Ht']. split; [|cbn; congruence]. intros _. unfold gateway_synced. congruence. }
  eapply wp_gateway_check; [done|intros s1 Hs1|auto]. wp_run.
  apply (wp_for_each (λ _ s, at_table false false s)); [done| |].
  - intros _ key s2 Hs2. eapply wp_check_forwarding; [done|done|auto|done].
  - intros s2 Hs2. wp_run. eapply wp_gateway_check; [done|intros s3 Hs3|auto]. wp_run.
    eapply wp_nft_transaction; [done|intros [g4 w4] [Ha4 Ht4]|auto|done]. wp_run.
    rewrite rules_not_delete in Ht4. split; [|done]. intros _. unfold gateway_synced. cbn in *. congruence.
Qed.

Definition disable_outcome g (r : Result TransportError unit) (s : Self * World) : Prop :=
  match r with
  | Ok _ => gateway_active g = true ∧ gateway_active s.1 = false
  | Err e => gateway_active s.1 = gateway_active g ∧
      (gateway_active g = false → e = NotConnected ∧ s.1 = g)
  | Panic => True
  end.

Lemma wp_gateway_disable g w :
  gateway_synced (g, w) →
  wp gateway_disable (λ r s, (r ≠ Panic → gateway_synced s) ∧ disable_outcome g r s) (g, w).
Proof.
  intros Hs. unfold gateway_disable. wp_run. apply wp_guard; intros Ha; wp_run.
  { split; [done|]. by split. }
  apply negb_false_iff in Ha.
  assert (at_table true true (g, w)) as Hat by (split; [done|]; unfold gateway_synced in Hs; cbn in *; congruence).
  eapply wp_nft_transaction; [exact Hat|intros [g4 w4] [Ha4 Ht4]|intros e s4 [Ha4 Ht4]|done]; wp_run.
  - split; [|done]. intros _. symmetry. exact Ht4.
  - split; [|cbn; split; congruence]. intros _. unfold gateway_synced. congruence.
Qed.
End gateway_calls.

(** ** The managed node keeps forwarding inside the life of the interface *)

Section managed_calls.
Context {NR GR : Type} `{CommandRunner NR} `{CommandRunner GR}.
Local Abbreviation Node := (LinuxWireGuardNode NR).
Local Abbreviation Gateway := (LinuxWireGuardNodeGateway GR).
Local Abbreviation Self := (LinuxManagedWireGuardNode NR GR).

(** Commands and checks change nothing but the runner. *)
Definition node_kept (n : Node) (s : Node * World) : Prop :=
  s.1 = set_node_runner (node_runner s.1) n.

Lemma wp_node_command_kept n prog args s Q :
  node_kept n s → (∀ r s', node_kept n s' → Q r s') → wp (node_command prog args) Q s.
Proof.
  destruct s as [n1 w]. unfold node_kept. cbn. intros Hn HQ. unfold node_command. wp_run.
  apply wp_intro. intros r [r' w'] _. apply HQ. cbn. by rewrite Hn.
Qed.

Lemma wp_check_kept n context s Q :
  node_kept n s → (∀ r s', node_kept n s' → Q r s') → wp (check context) Q s.
Proof.
  destruct s as [n1 w]. intros Hn HQ. apply wp_intro. intros r [n2 w'] Hc.
  apply check_later in Hc as [-> _]. by apply HQ.
Qed.

Lemma wp_configure_kept n interface c context s Q :
  node_kept n s → (∀ r s', node_kept n s' → Q r s') → wp (configure_node interface c context) Q s.
Proof.
  intros Hs HQ. unfold configure_node. wp_run.
  eapply wp_check_kept; [done|]. intros [[]|e|] [n1 w1] Hs1; wp_run; [|by apply HQ..].
  eapply wp_node_command_kept; [done|]. intros [[]|e|] s2 Hs2; wp_run; [|by apply HQ..].
  apply (wp_for_each (λ _ s, node_kept n s)); [done| |].
  - intros _ a s3 Hs3. wp_run. eapply wp_check_kept; [done|].
    intros [[]|e|] s4 Hs4; wp_run; [|by apply HQ..].
    eapply wp_node_command_kept; [done|]. intros [[]|e|] s5 Hs5; [exact Hs5|by apply HQ..].
  - intros s3 Hs3. wp_run. eapply wp_check_kept; [done|].
    intros [[]|e|] s4 Hs4; wp_run; [|by apply HQ..]. by eapply wp_node_command_kept.
Qed.

(** [r] decides between the new interface and the old one. *)
Definition interface_after (new : option string) (n : Node) (r : Result TransportError unit)
    (s : Node * World) : Prop :=
  match r with
  | Ok _ => node_active_interface s.1 = new
  | _ => node_active_interface s.1 = node_active_interface n
  end.

Lemma kept_interface n s : node_kept n s → node_active_interface s.1 = node_active_interface n.
Proof. unfold node_kept. by intros ->. Qed.

Lemma wp_node_start_interface interface c context n w :
  wp (node_start interface c context) (interface_after (Some interface) n) (n, w).
Proof.
  unfold node_start. wp_run. apply wp_guard; intros _; wp_run; [done|].
  apply wp_guard; intros _; wp_run; [done|]. destruct (validate_node_config c) as [[]|e|]; wp_run; [|done..].
  assert (node_kept n (n, w)) as Hn by (by destruct n).
  eapply wp_check_kept; [done|]. intros [[]|e|] s1 Hs1; wp_run; [|by apply kept_interface..].
  eapply wp_node_command_kept; [done|]. intros [[]|e|] s2 Hs2; wp_run; [|by apply kept_interface..].
  eapply wp_configure_kept; [done|]. intros [[]|e|] [n3 w3] Hs3; wp_run; [done| |by apply kept_interface].
  eapply wp_node_command_kept; [done|]. intros [[]|e'|] s4 Hs4; wp_run; by apply kept_interface.
Qed.

Lemma wp_node_stop_interface n w : wp node_stop (interface_after None n) (n, w).
Proof.
  unfold node_stop. wp_run. destruct (node_active_interface n) as [i|] eqn:Hi; cbn [ok_or]; wp_run; [|done].
  assert (node_kept n (n, w)) as Hn by (by destruct n).
  eapply wp_node_command_kept; [done|]. intros [[]|e'|] [n1 w1] Hs4; wp_run; [done|by apply kept_interface..].
Qed.

Lemma wp_add_peer_interface p (n : Node) w :
  wp (add_peer p) (λ _ s, node_active_interface s.1 = node_active_interface n) (n, w).
Proof.
  unfold add_peer. wp_run. destruct (validate_peer p) as [[]|e|]; wp_run; [|done..].
  destruct (node_active_interface n) as [i|] eqn:Hi; cbn [ok_or]; wp_run; [|done].
  do 3 (apply wp_guard; intros _; wp_run; [done|]).
  assert (node_kept n (n, w)) as Hn by (by destruct n). rewrite <-Hi.
  eapply wp_node_command_kept; [done|]. intros [[]|e'|] [n1 w1] Hs; wp_run;
    apply (kept_interface n (n1, w1) Hs).
Qed.

Lemma wp_remove_peer_interface key (n : Node) w :
  wp (remove_peer key) (λ _ s, node_active_interface s.1 = node_active_interface n) (n, w).
Proof.
  unfold remove_peer. wp_run.
  destruct (node_active_interface n) as [i|] eqn:Hi; cbn [ok_or]; wp_run; [|done].
  apply wp_guard; intros _; wp_run; [done|].
  assert (node_kept n (n, w)) as Hn by (by destruct n). rewrite <-Hi.
  eapply wp_node_command_kept; [done|]. intros [[]|e'|] [n1 w1] Hs; wp_run;
    apply (kept_interface n (n1, w1) Hs).
Qed.

(** [r] decides between the new flag and the old one. *)
Definition flag_after (new : bool) (g : Gateway) (r : Result TransportError unit)
    (s : Gateway * World) : Prop :=
  match r with
  | Ok _ => gateway_active s.1 = new
  | _ => gateway_active s.1 = gateway_active g
  end.

Lemma wp_nft_transaction_flag (g : Gateway) text s Q :
  gateway_active s.1 = gateway_active g →
  (∀ r s', gateway_active s'.1 = gateway_active g → Q r s') → wp (nft_transaction text) Q s.
Proof.
  destruct s as [g1 w]. cbn. intros Hg HQ. unfold nft_transaction. wp_run. apply wp_intro.
  intros r [r' w'] _. by apply HQ.
Qed.

Lemma wp_gateway_enable_flag wireguard uplink p context g w :
  wp (gateway_enable wireguard uplink p context) (flag_after true g) (g, w).
Proof.
  unfold gateway_enable. wp_run. apply wp_guard; intros _; wp_run; [done|].
  apply wp_guard; intros _; wp_run; [done|]. destruct (validate_gateway p) as [[]|e|]; wp_run; [|done..].
  assert (∀ (s : Gateway * World) Q, gateway_active s.1 = gateway_active g →
    (∀ r s', gateway_active s'.1 = gateway_active g → Q r s') → wp (check context) Q s) as Hcheck.
  { intros [g1 w1] Q Hg HQ. apply wp_intro. intros r [g2 w'] [-> _]%check_later. by apply HQ. }
  apply Hcheck; [done|]. intros [[]|e|] s1 Hs1; wp_run; [|done..].
  apply (wp_for_each (λ _ (s : Gateway * World), gateway_active s.1 = gateway_active g)); [done| |].
  - intros _ key [g2 w2] Hs2. unfold check_forwarding. wp_run. apply wp_intro.
    intros [out|e|] [r' w'] _; wp_run; [|done..]. apply wp_guard; intros _; exact Hs2.
  - intros s2 Hs2. wp_run. apply Hcheck; [done|]. intros [[]|e|] s3 Hs3; wp_run; [|done..].
    apply (wp_nft_transaction_flag g); [done|]. intros [[]|e|] [g4 w4] Hs4; by wp_run.
Qed.

Lemma wp_gateway_disable_flag g w : wp gateway_disable (flag_after false g) (g, w).
Proof.
  unfold gateway_disable. wp_run. apply wp_guard; intros _; wp_run; [done|].
  apply (wp_nft_transaction_flag g); [done|]. intros [[]|e|] [g4 w4] Hs4; by wp_run.
Qed.

(** Forwarding is on only while the node is active on its own interface. *)
Definition forwarding_inside (m : Self) : Prop :=
  gateway_active (managed_gateway m) = true →
  managed_active m = true ∧ node_active_interface (managed_node m) = Some (managed_interface m).

Inductive ManagedCall :=
| CallManagedStart (c : WireGuardNodeConfig) (p : WireGuardNodeGatewayPolicy) (context : ConnectContext)
| CallManagedAdd (p : WireGuardNodePeer)
| CallManagedRemove (key : Key)
| CallManagedStop.

Definition managed_call (call : ManagedCall) : Act (Self * World) TransportError unit :=
  match call with
  | CallManagedStart c p context => managed_start c p context
  | CallManagedAdd p => managed_add_peer p
  | CallManagedRemove key => managed_remove_peer key
  | CallManagedStop => managed_stop
  end.

Inductive managed_steps : Self * World → Self * World → Prop :=
| managed_refl s : managed_steps s s
| managed_step s call s' r s'' :
    managed_steps s s' → managed_call call s' = (r, s'') → r ≠ Panic → managed_steps s s''.

Lemma forwarding_call call s r s' :
  forwarding_inside s.1 → managed_call call s = (r, s') → forwarding_inside s'.1.
Proof.
  destruct s as [m w]. intros Hs. unfold forwarding_inside in Hs. cbn in Hs.
  destruct call as [c p context|p|key|]; cbn; by_wp.
  - unfold managed_start. wp_run. apply wp_guard; intros Ha; wp_run; [done|].
    destruct (validate_for_node p c) as [[]|e|]; wp_run; [|done..].
    assert (gateway_active (managed_gateway m) = false) as Hg.
    { apply not_true_iff_false. intros [? _]%Hs. congruence. }
    unfold on_node at 1. wp_run. eapply wp_mono; [apply wp_node_start_interface|].
    intros [[]|e|] [n1 w1] Hn1; wp_run; [|unfold forwarding_inside; cbn; congruence..].
    cbn in Hn1. unfold on_gateway. wp_run. eapply wp_mono; [apply wp_gateway_enable_flag|].
    intros [[]|e|] [g2 w2] Hg2; cbn in Hg2; wp_run; [done| |unfold forwarding_inside; cbn; congruence].
    unfold on_node. wp_run. eapply wp_mono; [apply wp_node_stop_interface|].
    intros [[]|e'|] [n3 w3] _; wp_run; unfold forwarding_inside; cbn; congruence.
  - unfold managed_add_peer. wp_run. apply wp_guard; intros Ha; wp_run; [done|]. unfold on_node. wp_run.
    eapply wp_mono; [apply wp_add_peer_interface|]. intros r [n1 w1] Hn. cbn in Hn.
    unfold forwarding_inside. cbn. by rewrite Hn.
  - unfold managed_remove_peer. wp_run. apply wp_guard; intros Ha; wp_run; [done|]. unfold on_node. wp_run.
    eapply wp_mono; [apply wp_remove_peer_interface|]. intros r [n1 w1] Hn. cbn in Hn.
    unfold forwarding_inside. cbn. by rewrite Hn.
  - unfold managed_stop. wp_run. apply wp_guard; intros Ha; wp_run; [done|]. unfold on_gateway. wp_run.
    eapply wp_mono; [apply wp_gateway_disable_flag|].
    intros [[]|e|] [g1 w1] Hg; cbn in Hg; wp_run;
      [|unfold forwarding_inside; cbn; by rewrite Hg..].
    unfold on_node. wp_run. apply wp_intro. intros [[]|e|] [n2 w2] _; wp_run;
      unfold forwarding_inside; cbn; congruence.
Qed.

Lemma forwarding_steps s s' :
  forwarding_inside s.1 → managed_steps s s' → forwarding_inside s'.1.
Proof. intros Hs. induction 1; eauto using forwarding_call. Qed.
End managed_calls.

(** ** Theorems *)

(** C29: the node's bookkeeping is sound: from a new node, after any sequence of
    [start], [add_peer], [remove_peer], [stop] and [health], failed or not,
    every assigned route is a host route owned by a managed peer, every managed
    peer holds a usable key and a route, at most 4,096 peers are managed, and
    the peers configured in the kernel are exactly the encoded managed keys. *)
Theorem node_bookkeeping {R} `{RunnerSpec R} t (r : R) w n w' :
  node_steps (mkNode t r None ∅ ∅ 0, w) (n, w') →
  (size (peers n) ≤ MAXIMUM_NODE_PEERS)%nat ∧
  (∀ route key, assigned_routes n !! route = Some key → key ∈ peers n ∧ host_route route) ∧
  (∀ key, key ∈ peers n → zero_key key = false ∧ ∃ route, assigned_routes n !! route = Some key) ∧
  (∀ i, node_active_interface n = Some i →
     configured_peers_of i (completed (node_runner n) w') = set_map encode_key (peers n)).
Proof.
  intros Hsteps. destruct (consistent_steps _ _ (consistent_new t r w) Hsteps) as
    [(Hsize & Hroutes & Hpeers & _) Hsync]. split_and!; [done..| |done].
  intros key Hkey. by destruct (Hpeers key Hkey) as (_ & ? & ?).
Qed.

(** [add_peer] takes a key and routes that nobody owns or changes nothing,
    and a following [remove_peer] of the same key restores keys and route
    ownership exactly. *)
Theorem peer_add_remove {R} `{RunnerSpec R} (n : LinuxWireGuardNode R) w p r1 s1 r2 s2 :
  node_consistent (n, w) → peer_typed p →
  add_peer p (n, w) = (r1, s1) → r1 ≠ Panic →
  remove_peer (public_key p) s1 = (r2, s2) → r2 ≠ Panic →
  match r1, r2 with
  | Ok _, Ok _ => (public_key p ∉ peers n) ∧ peers s2.1 = peers n ∧
      assigned_routes s2.1 = assigned_routes n
  | Err _, _ => peers s1.1 = peers n ∧ assigned_routes s1.1 = assigned_routes n
  | _, _ => peers s2.1 = peers s1.1 ∧ assigned_routes s2.1 = assigned_routes s1.1
  end.
Proof.
  intros Hs Ht Hrun1 Hr1 Hrun2 Hr2.
  destruct (wp_elim _ _ _ _ _ (wp_add_peer p n w Hs Ht) Hrun1 Hr1) as (Hs1 & Ho1 & _).
  destruct s1 as [n1 w1].
  destruct (wp_elim _ _ _ _ _ (wp_remove_peer _ n1 w1 Hs1) Hrun2 Hr2) as (_ & Ho2 & _).
  destruct r1 as [[]|e1|]; [|apply Ho1|done]. destruct r2 as [[]|e2|]; [|apply Ho2|done].
  destruct Ho1 as (Hnew & Hfree & Hp1 & Hr1'), Ho2 as (_ & Hp2 & Hr2'). cbn [fst] in *.
  destruct Hs as [Hown _]. rewrite Hp2, Hp1, Hr2', Hr1'.
  by destruct (ownership_roundtrip n p Hown Hnew Hfree) as [-> ->].
Qed.

(** The gateway text has exactly the intended lines: a forward chain that
    drops by default and accepts only established flows and, per client
    network, traffic from the tunnel to the uplink with a source in that
    network, plus its masquerading rule.  No value can add a line or a word. *)
Theorem gateway_rules_exact wireguard uplink p :
  interfaces_usable wireguard uplink = true → gateway_typed p →
  words_of (node_gateway_rules wireguard uplink p) = gateway_lines wireguard uplink p.
Proof.
  intros [[Hw Hu]%andb_true_iff _]%andb_true_iff Ht. rewrite node_gateway_rules_unlines.
  by apply words_unlines, gateway_words.
Qed.

(** The gateway's flag tells the truth: whatever [enable] and [disable]
    return, the flag says whether the completed nftables transactions left the
    forwarding table installed; a failed call leaves flag and table as they
    were. *)
Theorem gateway_flag_exact {R} `{RunnerSpec R} (g : LinuxWireGuardNodeGateway R) w :
  gateway_synced (g, w) →
  (∀ wireguard uplink p context r s,
     gateway_enable wireguard uplink p context (g, w) = (r, s) → r ≠ Panic →
     gateway_synced s ∧ enable_outcome g r s) ∧
  (∀ r s, gateway_disable (g, w) = (r, s) → r ≠ Panic → gateway_synced s ∧ disable_outcome g r s).
Proof.
  intros Hs. split.
  - intros wireguard uplink p context r s. by_wp. eapply wp_mono; [by apply wp_gateway_enable|].
    intros r s [Hsy Ho] Hr. auto.
  - intros r s. by_wp. eapply wp_mono; [by apply wp_gateway_disable|]. intros r s [Hsy Ho] Hr. auto.
Qed.

(** C31: forwarding stays inside the life of the interface: from an inactive
    managed node, after any sequence of calls and results, the gateway is
    active only while the managed node is active on its own interface. *)
Theorem managed_forwarding_inside {NR GR} `{CommandRunner NR} `{CommandRunner GR}
    (m : LinuxManagedWireGuardNode NR GR) w m' w' :
  gateway_active (managed_gateway m) = false → managed_steps (m, w) (m', w') →
  gateway_active (managed_gateway m') = true →
  managed_active m' = true ∧
  node_active_interface (managed_node m') = Some (managed_interface m').
Proof.
  intros Hg Hsteps. apply (forwarding_steps _ _) in Hsteps; [exact Hsteps|].
  unfold forwarding_inside. cbn. congruence.
Qed.

(** A managed node whose forwarding was removed but whose interface could
    not be deleted cannot be stopped any more: every later [stop] returns
    [NotConnected] without deleting the interface, and [start] is refused, so
    the retry the interface deletion error calls for is impossible. *)
Theorem managed_stop_not_retryable {NR GR} `{CommandRunner NR} `{CommandRunner GR}
    (m : LinuxManagedWireGuardNode NR GR) w e m1 w1 :
  managed_stop (m, w) = (Err e, (m1, w1)) → managed_active m = true →
  gateway_active (managed_gateway m1) = false →
  ∀ w2, managed_stop (m1, w2) = (Err NotConnected, (m1, w2)) ∧
    ∀ c p context, managed_start c p context (m1, w2) = (Err AlreadyConnected, (m1, w2)).
Proof.
  intros Hrun Ha Hg w2.
  assert (managed_active m1 = true) as Ha1.
  { refine (wp_elim _ (λ r s, r = Err e → managed_active s.1 = true) _ _ _ _ Hrun eq_refl).
    unfold managed_stop. wp_run. apply wp_guard; intros _; wp_run; [done|].
    unfold on_gateway. wp_run. apply wp_intro. intros [[]|e1|] [g1 w1'] _; wp_run; [|done..].
    unfold on_node. wp_run. apply wp_intro. intros [[]|e1|] [n2 w2'] _; by wp_run. }
  split.
  - unfold managed_stop, self. run. rewrite Ha1. cbn [negb].
    unfold on_gateway, on_field, gateway_disable, self. run. rewrite Hg. cbn. by destruct m1.
  - intros c p context. unfold managed_start, self. run. by rewrite Ha1.
Qed.

(** ** Witnesses *)

Definition sample_node : LinuxWireGuardNode SystemCommandRunner :=
  mkNode sample_tools system_command_runner None ∅ ∅ 0.

Definition sample_peer : WireGuardNodePeer :=
  mkPeer (replicate 32 9) [mkAllowedIp (V4 169082890) 32] (Some 25).

Lemma sample_peer_typed : peer_typed sample_peer.
Proof.
  split; [split; [apply Forall_replicate; split; lia|reflexivity]|]. intros k [= <-]. split; lia.
Qed.

Definition sample_started :=
  node_start "cyberia0" sample_node_config sample_context (sample_node, quiet_world).
Definition sample_added := add_peer sample_peer sample_started.2.
Definition sample_removed := remove_peer (public_key sample_peer) sample_added.2.

Lemma sample_started_steps : node_steps (sample_node, quiet_world) sample_started.2.
Proof.
  apply (node_step _ (CallStart "cyberia0" sample_node_config sample_context) (sample_node, quiet_world)
    (Ok tt)); [apply node_refl|done|vm_compute; reflexivity|discriminate].
Qed.

Lemma node_bookkeeping_witness :
  size (peers sample_added.2.1) = 1%nat ∧
  configured_peers_of "cyberia0" (completed (node_runner sample_added.2.1) sample_added.2.2) =
    set_map encode_key (peers sample_added.2.1).
Proof.
  split; [vm_compute; reflexivity|].
  apply (node_bookkeeping sample_tools system_command_runner quiet_world sample_added.2.1 sample_added.2.2).
  - rewrite <-surjective_pairing.
    apply (node_step _ (CallAddPeer sample_peer) sample_started.2 (Ok tt));
      [apply sample_started_steps|apply sample_peer_typed|vm_compute; reflexivity|discriminate].
  - vm_compute. reflexivity.
Defined.

Lemma peer_add_remove_witness :
  sample_removed.1 = Ok tt ∧ peers sample_removed.2.1 = peers sample_started.2.1.
Proof.
  split; [vm_compute; reflexivity|].
  assert (node_consistent (sample_started.2.1, sample_started.2.2)) as Hs.
  { rewrite <-surjective_pairing. eapply consistent_steps, sample_started_steps. apply consistent_new. }
  assert (add_peer sample_peer (sample_started.2.1, sample_started.2.2) = (Ok tt, sample_added.2)) as H1
    by (vm_compute; reflexivity).
  assert (remove_peer (public_key sample_peer) sample_added.2 = (Ok tt, sample_removed.2)) as H2
    by (vm_compute; reflexivity).
  apply (peer_add_remove _ _ sample_peer (Ok tt) _ (Ok tt) _ Hs sample_peer_typed H1 ltac:(discriminate)
    H2 ltac:(discriminate)).
Defined.

Lemma sample_gateway_typed : gateway_typed sample_gateway.
Proof. repeat constructor; cbn; lia. Qed.

Lemma gateway_rules_exact_witness :
  length (words_of (node_gateway_rules "cyberia0" "eth0" sample_gateway)) = 8%nat ∧
  words_of (node_gateway_rules "cyberia0" "eth0" sample_gateway) !! 4%nat =
    Some ["add"; "rule"; "inet"; "cyberia_vpn_node"; "forward"; "iifname";
          quote +:+ "cyberia0" +:+ quote; "oifname"; quote +:+ "eth0" +:+ quote; "ip"; "saddr";
          "10.20.0.0/24"; "accept"].
Proof.
  rewrite (gateway_rules_exact "cyberia0" "eth0" sample_gateway);
    [|vm_compute; reflexivity|apply sample_gateway_typed].
  split; vm_compute; reflexivity.
Defined.

(** Commands succeed, [sysctl] prints 1, deleting a link fails. *)
Definition busy_env : Environment :=
  mkEnvironment (λ _, 0) (λ _ _, false) (λ _, 0)
    (λ _ c _, match arguments c with
              | ["-n"; _] => Exited true "exit status: 0" ("1" +:+ newline) ""
              | "link" :: "delete" :: _ => Exited false "exit status: 2" "" "Device or resource busy"
              | _ => Exited true "exit status: 0" "" ""
              end)
    (λ _ _, None).

Definition busy_world : World := mkWorld busy_env [].

Definition sample_gateway_state : LinuxWireGuardNodeGateway SystemCommandRunner :=
  mkGateway (mkGatewayTools "/usr/sbin/nft" "/usr/sbin/sysctl") system_command_runner false.

Definition sample_enabled :=
  gateway_enable "cyberia0" "eth0" sample_gateway sample_context (sample_gateway_state, busy_world).

Lemma gateway_flag_exact_witness :
  sample_enabled.1 = Ok tt ∧ gateway_synced sample_enabled.2 ∧
  gateway_active sample_enabled.2.1 = true.
Proof.
  assert (gateway_enable "cyberia0" "eth0" sample_gateway sample_context
    (sample_gateway_state, busy_world) = (Ok tt, sample_enabled.2)) as Hrun by (vm_compute; reflexivity).
  assert (gateway_synced (sample_gateway_state, busy_world)) as Hinit by (vm_compute; reflexivity).
  destruct (gateway_flag_exact sample_gateway_state busy_world Hinit) as [Hen _].
  destruct (Hen _ _ _ _ _ _ Hrun ltac:(discriminate)) as [Hs [_ Ha]].
  split; [vm_compute; reflexivity|]. by split.
Defined.

Definition sample_managed : LinuxManagedWireGuardNode SystemCommandRunner SystemCommandRunner :=
  mkManaged "cyberia0" "eth0" sample_node sample_gateway_state false.

Definition sample_managed_up :=
  managed_start sample_node_config sample_gateway sample_context (sample_managed, busy_world).

Lemma managed_forwarding_inside_witness :
  gateway_active (managed_gateway sample_managed_up.2.1) = true ∧
  node_active_interface (managed_node sample_managed_up.2.1) = Some "cyberia0".
Proof.
  assert (gateway_active (managed_gateway sample_managed_up.2.1) = true) as Hg by (vm_compute; reflexivity).
  split; [exact Hg|].
  destruct (managed_forwarding_inside sample_managed busy_world sample_managed_up.2.1 sample_managed_up.2.2)
    as [_ Hi]; [reflexivity| |exact Hg|].
  - rewrite <-surjective_pairing.
    apply (managed_step _ (CallManagedStart sample_node_config sample_gateway sample_context)
      (sample_managed, busy_world) (Ok tt)); [apply managed_refl|vm_compute; reflexivity|discriminate].
  - rewrite Hi. vm_compute. reflexivity.
Defined.

Definition sample_managed_stop := managed_stop sample_managed_up.2.

Lemma managed_stop_not_retryable_witness :
  sample_managed_stop.1 =
    Err (Network "platform command exited with exit status: 2: Device or resource busy") ∧
  ∀ w, managed_stop (sample_managed_stop.2.1, w) = (Err NotConnected, (sample_managed_stop.2.1, w)).
Proof.
  split; [vm_compute; reflexivity|]. intros w.
  assert (managed_stop (sample_managed_up.2.1, sample_managed_up.2.2) =
    (Err (Network "platform command exited with exit status: 2: Device or resource busy"),
     (sample_managed_stop.2.1, sample_managed_stop.2.2))) as Hrun by (vm_compute; reflexivity).
  apply (managed_stop_not_retryable _ _ _ _ _ Hrun); vm_compute; reflexivity.
Defined.
