(* ===== verification/Health.v ===== *)
(** What the health checks report: [core/transport/src/linux.rs].

    Client and node learn about handshakes from [wg show .. latest-handshakes],
    one line per peer with the key, a tab and a Unix time, zero before the first
    handshake.  The theorems read such a table back through both parsers and
    through the two health calls. *)

From S2P Require Import Prelude Machine Text Net Env Transport WireGuard KillSwitch Process Nftables Linux LinuxNode.
Open Scope string_scope.
Open Scope Z_scope.

(** ** The table [wg] prints *)

Definition tab : ascii := byte 9.

(** A peer as it is printed, with its time. *)
Definition Handshake : Type := string * Z.

Definition handshake_line (x : Handshake) : string := x.1 +:+ String tab (to_dec x.2).

Definition handshake_text (l : list Handshake) : string := unlines (map handshake_line l).

(** Keys are printed in base64, times have 64 bits. *)
Definition handshake_typed (x : Handshake) : Prop :=
  is_word x.1 ∧ all_bytes (between 0 127) x.1 = true ∧ u64 x.2.

Definition recent_handshake (now : Z) (x : Handshake) : bool :=
  negb (x.2 =? 0) && fresh_handshake now x.2.

(** The newest time in the table, zero for an empty one. *)
Definition newest (l : list Handshake) : Z := foldr (λ x m, Z.max x.2 m) 0 l.

Lemma handshake_fields x : handshake_typed x → split_ascii_whitespace (handshake_line x) = [x.1; to_dec x.2].
Proof.
  intros (Hw & _ & Ht). apply fields_pair; [done..|]. apply to_dec_word, Ht.
Qed.

Lemma handshake_lines l : Forall handshake_typed l → lines (handshake_text l) = map handshake_line l.
Proof.
  intros Hl. apply lines_unlines. induction Hl as [|x l (Hw & _ & Ht) Hl IH]; cbn [map]; constructor; [|done].
  unfold handshake_line. change (String tab (to_dec x.2)) with (String tab "" +:+ to_dec x.2). rewrite !all_bytes_app.
  assert (all_bytes no_break x.1 = true) as -> by (apply (all_bytes_class is_word_char); [by vm_compute|apply Hw]).
  assert (all_bytes no_break (to_dec x.2) = true) as ->
    by (apply (all_bytes_class is_ascii_digit); [by vm_compute|apply to_dec_all_digits, Ht]).
  done.
Qed.

Lemma handshake_utf8 l : Forall handshake_typed l → utf8_valid (handshake_text l) = true.
Proof.
  intros Hl. apply utf8_ascii. induction Hl as [|x l (_ & Ha & Ht) Hl IH]; [done|].
  unfold handshake_text. cbn [map]. rewrite unlines_cons, !all_bytes_app. unfold handshake_line.
  change (String tab (to_dec x.2)) with (String tab "" +:+ to_dec x.2). rewrite !all_bytes_app, Ha.
  assert (all_bytes (between 0 127) (to_dec x.2) = true) as ->
    by (apply (all_bytes_class is_ascii_digit); [by vm_compute|apply to_dec_all_digits, Ht]).
  exact IH.
Qed.

(** ** The parsers *)

Lemma count_handshakes_table now l observed recent :
  Forall handshake_typed l →
  count_handshakes now observed recent (map handshake_line l) =
    Some ((observed + length l)%nat, (recent + length (filter (recent_handshake now) l))%nat).
Proof.
  intros Hl. revert observed recent.
  induction Hl as [|x l Hx Hl IH]; intros observed recent; cbn [map count_handshakes].
  { by rewrite !Nat.add_0_r. }
  rewrite handshake_fields by done. rewrite parse_to_dec by apply Hx. cbn [mbind option_bind]. rewrite IH.
  fold (recent_handshake now x). rewrite filter_cons. cbn [length].
  destruct (recent_handshake now x); [rewrite decide_True by done|rewrite decide_False by (by intros [])];
    cbn [length]; f_equal; f_equal; lia.
Qed.

Lemma node_handshakes_table now l :
  Forall handshake_typed l →
  node_handshakes now (handshake_text l) = Some (length l, length (filter (recent_handshake now) l)).
Proof.
  intros Hl. unfold node_handshakes. rewrite handshake_utf8, handshake_lines by done.
  by rewrite count_handshakes_table.
Qed.

Lemma handshake_stamps l :
  Forall handshake_typed l →
  omap (λ line, split_ascii_whitespace line !! 1%nat ≫= parse_dec 64) (map handshake_line l) = map snd l.
Proof.
  induction 1 as [|x l Hx Hl IH]; [done|]. cbn [map omap list_omap]. rewrite handshake_fields by done. cbn.
  rewrite parse_to_dec by apply Hx. f_equal. exact IH.
Qed.

Lemma newest_foldr l t : 0 ≤ t → Forall (λ x : Handshake, 0 ≤ x.2) l →
  foldr Z.max t (map snd l) = Z.max t (newest l).
Proof.
  intros Ht. induction 1 as [|x l Hx Hl IH]; cbn [map foldr newest]; [lia|].
  rewrite IH. fold (newest l). lia.
Qed.

Lemma latest_handshake_table l :
  Forall handshake_typed l →
  latest_handshake (handshake_text l) = if newest l =? 0 then None else Some (newest l).
Proof.
  intros Hl. unfold latest_handshake. rewrite handshake_utf8, handshake_lines, handshake_stamps by done. cbn [negb].
  destruct Hl as [|x l Hx Hl]; [done|]. cbn [map newest foldr].
  rewrite newest_foldr; [done|apply Hx|]. eapply Forall_impl; [exact Hl|]. by intros y (_ & _ & []).
Qed.

(** ** Theorems *)

(** The time a health call reads. *)
Definition time_at (w : World) : Z := Z.max 0 (env_unix_time (env w) (history w)).

(** The health calls report the table [wg] printed.  On any table of peers
    and 64-bit times, the node counts every peer, counts as recent exactly those
    with a nonzero time of the last 180 seconds, and is healthy exactly when as
    many peers were printed as it configured; the client is healthy exactly when
    the newest time in the table is nonzero, not in the future and at most 180
    seconds old.  Both reset their failure counter. *)
Theorem health_reports_handshakes {R} `{CommandRunner R} (l : list Handshake) i :
  Forall handshake_typed l →
  (∀ (n : LinuxWireGuardNode R) w r w',
     node_active_interface n = Some i →
     runner_output (mkCommand (wg (node_tools n)) ["show"; i; "latest-handshakes"]) (node_runner n, w) =
       (Ok (handshake_text l), (r, w')) →
     node_health (n, w) =
       (Ok (mkNodeHealth (if (length l =? size (peers n))%nat then Healthy else Degraded) (size (peers n))
              (length l) (length (filter (recent_handshake (time_at w')) l)) 0),
        (set_node_failures 0 (set_node_runner r n), log (EvUnixTime (time_at w')) w'))) ∧
  (∀ (b : LinuxWireGuardBackend R) w r w',
     lb_active_interface b = Some i →
     runner_output (mkCommand (wg (lb_tools b)) ["show"; i; "latest-handshakes"]) (lb_runner b, w) =
       (Ok (handshake_text l), (r, w')) →
     lb_health (b, w) =
       (Ok (mkHealth (if recent_handshake (time_at w') ("", newest l) then Healthy else Degraded) None 0),
        (set_lb_failures 0 (set_lb_runner r b), log (EvUnixTime (time_at w')) w'))).
Proof.
  intros Hl. split.
  - intros n w r w' Hi Hrun. unfold node_health, self, on_field, set_self, unix_time, on_world. run.
    rewrite Hi, Hrun. run.
    cbn [log history env]. fold (time_at w'). by rewrite node_handshakes_table.
  - intros b w r w' Hi Hrun. unfold lb_health, self, on_field, set_self, unix_time, on_world. run.
    rewrite Hi, Hrun. run.
    cbn [log history env]. fold (time_at w'). rewrite latest_handshake_table by done. unfold recent_handshake.
    cbn [snd].
    by destruct (newest l =? 0).
Qed.

(** ** Witness *)

Definition sample_table : list Handshake :=
  [("BwcHBwcHBwcHBwcHBwcHBwcHBwcHBwcHBwcHBwcHBwc=", 1000); ("CAgICAgICAgICAgICAgICAgICAgICAgICAgICAgICAg=", 0)].

Lemma sample_table_typed : Forall handshake_typed sample_table.
Proof.
  repeat constructor; cbn; try done; try (unfold fits; lia).
Qed.

(** [wg] prints the sample table, at time 1100. *)
Definition table_world : World :=
  mkWorld (mkEnvironment (λ _, 0) (λ _ _, false) (λ _, 1100)
    (λ _ _ _, Exited true "exit status: 0" (handshake_text sample_table) "") (λ _ _, None)) [].

Definition table_backend : LinuxWireGuardBackend SystemCommandRunner :=
  mkLinuxBackend sample_tools system_command_runner 51820 [] (Some "cyberia0") 3.

Lemma health_reports_handshakes_witness :
  (lb_health (table_backend, table_world)).1 = Ok (mkHealth Healthy None 0).
Proof.
  destruct (health_reports_handshakes sample_table "cyberia0" sample_table_typed) as [_ Hb].
  rewrite (Hb table_backend table_world system_command_runner
    (runner_output (mkCommand (wg sample_tools) ["show"; "cyberia0"; "latest-handshakes"])
       (system_command_runner, table_world)).2.2); vm_compute; reflexivity.
Defined.
