(* ===== verification/Connection.v ===== *)
(** The managed Linux connection: [core/killswitch/src/linux_connection.rs].

    [LinuxWireGuardConnection] composes the controller (over the WireGuard
    adapter with its Linux backend and the nftables firewall) with the DNS
    backend.  The interface promises of the components are discharged here:
    neither the tunnel nor the resolver tools touch the firewall, so the
    controller's fail-secure theorem holds for the whole connection. *)

From S2P Require Import Prelude Machine Text Net Env Transport WireGuard KillSwitch Process Nftables Linux.
Open Scope string_scope.
Open Scope Z_scope.

Record LinuxConnectionSettings := mkSettings {
  set_interface : string;
  set_profile : WireGuardConfig;
  set_dns : DnsConfig;
  set_tools : LinuxTools;
  set_dns_tools : LinuxDnsTools;
  set_routing_mark : Z;
  set_connect_timeout : Z;
  set_always_on : bool;
}.

Inductive LinuxConnectionBuildError :=
| EndpointMustBeIpAddress
| BuildFirewall (e : FirewallError)
| BuildNftables (e : NftablesError)
| BuildTransport (e : TransportError).

Definition display_build_error (e : LinuxConnectionBuildError) : string :=
  match e with
  | EndpointMustBeIpAddress => "Linux WireGuard endpoint must be an IP address"
  | BuildFirewall e => display_firewall_error e
  | BuildNftables e => display_nft_error e
  | BuildTransport e => display_transport_error e
  end.

Abbreviation LinuxController C N :=
  (ConnectionController (WireGuardAdapter (LinuxWireGuardBackend C)) (NftablesBackend N)).

Record LinuxWireGuardConnection (C D N : Type) := mkConnection {
  controller : LinuxController C N;
  conn_dns : LinuxDnsBackend D;
  conn_dns_config : DnsConfig;
  conn_interface : string;
  conn_transport : TransportConfig;
}.
Arguments mkConnection {C D N}.
Arguments controller {C D N}.
Arguments conn_dns {C D N}.
Arguments conn_dns_config {C D N}.
Arguments conn_interface {C D N}.
Arguments conn_transport {C D N}.

(** Calls a constructor on a value the caller gives away. *)
Definition consuming {C D E A} (d : D) (m : Act (D * World) E A) : Act (C * World) E A :=
  λ '(c, w), let '(r, (_, w')) := m (d, w) in (r, (c, w')).

Section connection.
Context {C D N : Type} `{CommandRunner C} `{CommandRunner D} `{NftablesRunner N} `{UnicodeTables}.
Local Abbreviation Self := (LinuxWireGuardConnection C D N).

Definition set_controller (c : LinuxController C N) (s : Self) : Self :=
  mkConnection c (conn_dns s) (conn_dns_config s) (conn_interface s) (conn_transport s).
Definition set_conn_dns (d : LinuxDnsBackend D) (s : Self) : Self :=
  mkConnection (controller s) d (conn_dns_config s) (conn_interface s) (conn_transport s).

Definition with_runners (settings : LinuxConnectionSettings) (command_runner : C) (dns_runner : D)
    (nftables_runner : N) : Act (unit * World) LinuxConnectionBuildError Self :=
  let endpoint := wg_endpoint (set_profile settings) in
  endpoint_address ← lift (ok_or (parse_ip (host endpoint)) EndpointMustBeIpAddress);
  let transport := mkTransportConfig WireGuard endpoint (set_connect_timeout settings) in
  lift (map_err BuildTransport (validate_transport transport));;
  lift (map_err BuildTransport (validate_dns (set_dns settings)));;
  backend ← act_map_err BuildTransport
    (consuming command_runner (linux_backend_new (set_tools settings) (set_routing_mark settings)));
  adapter ← lift (map_err BuildTransport
    (adapter_new (set_interface settings) (set_profile settings) backend));
  dns ← act_map_err BuildTransport (consuming dns_runner (dns_new (set_dns_tools settings)));
  let firewall := mkNftBackend (mkNftables endpoint_address (port endpoint)) nftables_runner in
  let kill_switch := enable (ks_new (set_always_on settings)) in
  controller ← act_map_err BuildFirewall (consuming firewall (controller_new kill_switch adapter));
  mret (mkConnection controller dns (set_dns settings) (set_interface settings) transport).

Definition on_controller {E A} (m : Act (LinuxController C N * World) E A) : Act (Self * World) E A :=
  on_field controller set_controller m.

Definition on_dns (m : Act (LinuxDnsBackend D * World) TransportError unit) :
    Act (Self * World) TransportError unit :=
  on_field conn_dns set_conn_dns m.

(** [return match self.controller.disconnect() { .. }]. *)
Definition teardown_after_dns (dns_error : TransportError) : Act (Self * World) ConnectionError Session :=
  disconnected ← attempt (E := ConnectionError) (on_controller controller_disconnect);
  match disconnected with
  | inr _ => raise (TransportFailed dns_error)
  | inl cleanup_error =>
      raise (TransportFailed (Network ("DNS setup failed: "
        +:+ display_transport_error dns_error +:+ "; tunnel cleanup failed: "
        +:+ display_connection_error cleanup_error)))
  end.

(** The body of [if let Err(dns_error) = self.dns.configure(..)]. *)
Definition recover_dns (dns_error : TransportError) : Act (Self * World) ConnectionError Session :=
  me ← self (λ s, s);
  if needs_revert (conn_dns me) then
    reverted ← attempt (E := TransportError) (on_dns (dns_revert (conn_interface me)));
    match reverted with
    | inl cleanup_error =>
        raise (TransportFailed (Network ("DNS setup failed: "
          +:+ display_transport_error dns_error +:+ "; cleanup retry failed: "
          +:+ display_transport_error cleanup_error)))
    | inr _ => teardown_after_dns dns_error
    end
  else teardown_after_dns dns_error.

Definition connection_connect (cancellation : Token) : Act (Self * World) ConnectionError Session :=
  me ← self (λ s, s);
  now ← instant_now;
  deadline ← lift (instant_add now (connect_timeout (conn_transport me)));
  let context := mkContext deadline cancellation in
  session ← on_controller (controller_connect (conn_transport me) context);
  configured ← attempt (E := TransportError)
    (on_dns (dns_configure (conn_interface me) (conn_dns_config me) context));
  match configured with
  | inl dns_error => recover_dns dns_error
  | inr _ => mret session
  end.

Definition connection_disconnect : Act (Self * World) ConnectionError unit :=
  me ← self (λ s, s);
  act_map_err TransportFailed (on_dns (dns_revert (conn_interface me)));;
  on_controller controller_disconnect.

Definition connection_health : Act (Self * World) Infallible TransportHealth :=
  on_controller (on_field transport set_transport health).

Definition connection_policy (s : Self) : TrafficPolicy := controller_policy (controller s).

Definition connection_disable : Act (Self * World) ConnectionError unit :=
  on_controller controller_disable.
End connection.

(** [LinuxWireGuardConnection::system]. *)
Definition connection_system `{UnicodeTables} (settings : LinuxConnectionSettings) (nft : string) :
    Act (unit * World) LinuxConnectionBuildError
      (LinuxWireGuardConnection SystemCommandRunner SystemCommandRunner SystemNftablesRunner) :=
  nftables ← act_map_err BuildNftables (system_nftables_new nft);
  with_runners settings system_command_runner system_command_runner nftables.

(** ** The components do not disturb the firewall *)

Section independence.
Context {C D N : Type} `{RunnerSpec C} `{RunnerSpec D} `{NftablesSpec N} `{UnicodeTables}.

Lemma no_pipe_lb_command prog args : no_pipe (lb_command (R := C) prog args).
Proof. unfold lb_command. no_pipe. Qed.

Lemma no_pipe_remove_loop rounds : no_pipe (remove_loop (R := C) rounds).
Proof.
  induction rounds as [|rounds IH]; cbn [remove_loop]; [no_pipe|]. unfold local, set_local.
  apply no_pipe_bind; [no_pipe|intros rules]. case_match; [|no_pipe].
  apply no_pipe_bind; [|intros _; apply no_pipe_bind; [no_pipe|done]].
  unfold on_self. apply no_pipe_on_field. unfold remove_policy_rule.
  apply no_pipe_bind; [no_pipe|intros mark; apply no_pipe_lb_command].
Qed.

Lemma no_pipe_rollback i rules e : no_pipe (rollback_setup (R := C) i rules e).
Proof.
  unfold rollback_setup, remove_policy_rules, local, lb_delete_interface.
  pose proof no_pipe_lb_command. pose proof no_pipe_remove_loop. no_pipe.
Qed.

Lemma no_pipe_install i p context : no_pipe (install_routes (R := C) i p context).
Proof.
  unfold install_routes, install_route, on_self, set_local. pose proof no_pipe_lb_command. no_pipe.
Qed.

Lemma no_pipe_bring_up i p context : no_pipe (lb_bring_up (R := C) i p context).
Proof.
  unfold lb_bring_up, lb_configure. pose proof no_pipe_lb_command. pose proof no_pipe_rollback.
  pose proof no_pipe_install. no_pipe.
Qed.

Lemma no_pipe_bring_down i : no_pipe (lb_bring_down (R := C) i).
Proof.
  unfold lb_bring_down, remove_policy_rules, local, lb_delete_interface.
  pose proof no_pipe_lb_command. pose proof no_pipe_remove_loop. no_pipe.
Qed.

Lemma no_pipe_lb_health : no_pipe (lb_health (R := C)).
Proof. unfold lb_health. no_pipe. Qed.

Lemma no_pipe_dns_configure i c context : no_pipe (dns_configure (R := D) i c context).
Proof. unfold dns_configure, dns_setup, dns_command. no_pipe. Qed.

Lemma no_pipe_dns_revert i : no_pipe (dns_revert (R := D) i).
Proof. unfold dns_revert, dns_command. no_pipe. Qed.

Lemma no_pipe_connect config context : no_pipe (connect (T := WireGuardAdapter (LinuxWireGuardBackend C)) config context).
Proof. pose proof no_pipe_bring_up. cbn. unfold adapter_connect. cbn. no_pipe. Qed.

Lemma no_pipe_disconnect : no_pipe (disconnect (T := WireGuardAdapter (LinuxWireGuardBackend C))).
Proof. pose proof no_pipe_bring_down. cbn. unfold adapter_disconnect. cbn. no_pipe. Qed.

Lemma no_pipe_health : no_pipe (health (T := WireGuardAdapter (LinuxWireGuardBackend C))).
Proof. pose proof no_pipe_lb_health. cbn. unfold adapter_health. cbn. no_pipe. Qed.

Lemma in_force_piped (b : NftablesBackend N) w w' p :
  piped w' = piped w → in_force b w p → in_force b w' p.
Proof.
  intros Hp (rules & Hr & Hh). exists rules. by rewrite (accepted_frame _ w' w Hp).
Qed.

#[export] Instance linux_independent :
  Independent (WireGuardAdapter (LinuxWireGuardBackend C)) (NftablesBackend N).
Proof.
  assert (∀ {E A} (m : Act (WireGuardAdapter (LinuxWireGuardBackend C) * World) E A) t w r t' w' f q,
    no_pipe m → m (t, w) = (r, (t', w')) → in_force f w q → in_force f w' q) as Hframe.
  { intros E A m t w r t' w' f q Hm Hrun. apply in_force_piped.
    specialize (Hm (t, w)). by rewrite Hrun in Hm. }
  split; intros *; eapply Hframe; [apply no_pipe_connect|apply no_pipe_disconnect|apply no_pipe_health].
Qed.
End independence.

(** ** Sequences of calls *)

Inductive ConnectionCall :=
| CallConnectionConnect (token : Token)
| CallConnectionDisconnect
| CallConnectionDisable
| CallConnectionHealth.

Section calls.
Context {C D N : Type} `{RunnerSpec C} `{RunnerSpec D} `{NftablesSpec N} `{UnicodeTables}.
Local Abbreviation Self := (LinuxWireGuardConnection C D N).

Definition connection_call (call : ConnectionCall) : Act (Self * World) ConnectionError unit :=
  match call with
  | CallConnectionConnect token => connection_connect token;; mret tt
  | CallConnectionDisconnect => connection_disconnect
  | CallConnectionDisable => connection_disable
  | CallConnectionHealth => act_map_err infallible connection_health;; mret tt
  end.

Inductive connection_steps : Self * World → Self * World → Prop :=
| connection_refl s : connection_steps s s
| connection_step s call s' r s'' :
    connection_steps s s' → connection_call call s' = (r, s'') → r ≠ Panic → connection_steps s s''.

(** An invariant of the controller that its calls keep, and that no call
    without a piped tool can break, is an invariant of the connection. *)
Context (I : LinuxController C N * World → Prop).
Context (I_piped : ∀ c w w', piped w' = piped w → I (c, w) → I (c, w')).
Context (I_connect : ∀ config context, controller_connect config context keeps I).
Context (I_disconnect : controller_disconnect keeps I).
Context (I_disable : controller_disable keeps I).
Context (I_health : on_field transport set_transport health keeps I).

Definition of_controller (s : Self * World) : Prop := I (controller s.1, s.2).

Lemma keeps_on_controller {E A} (m : Act (LinuxController C N * World) E A) :
  m keeps I → on_controller m keeps of_controller.
Proof.
  intros Hm [c w] Hs. unfold on_controller. wp_run. eapply wp_mono; [by apply Hm|]. by intros r [c' w'].
Qed.

(** Calls that feed no tool through a pipe leave the firewall alone. *)
Lemma keeps_no_pipe {E A} (m : Act (Self * World) E A) :
  no_pipe m → (∀ s, controller (m s).2.1 = controller s.1) → m keeps of_controller.
Proof.
  intros Hm Hc [c w] Hs _. specialize (Hm (c, w)). specialize (Hc (c, w)). unfold of_controller.
  rewrite Hc. by eapply I_piped.
Qed.

Lemma keeps_on_dns (m : Act (LinuxDnsBackend D * World) TransportError unit) :
  no_pipe m → on_dns m keeps of_controller.
Proof.
  intros Hm. apply keeps_no_pipe; [by apply no_pipe_on_field|].
  intros [c w]. unfold on_dns, on_field. by destruct (m _) as [? [? ?]].
Qed.

Lemma keeps_instant_now : (instant_now : Act (Self * World) ConnectionError Z) keeps of_controller.
Proof. apply keeps_no_pipe; [apply no_pipe_instant|by intros []]. Qed.

Lemma keeps_disconnect_call : on_controller (C := C) (D := D) (N := N) controller_disconnect keeps of_controller.
Proof. by apply keeps_on_controller. Qed.

Lemma keeps_revert i : on_dns (C := C) (N := N) (dns_revert (R := D) i) keeps of_controller.
Proof. apply keeps_on_dns, no_pipe_dns_revert. Qed.

#[local] Hint Resolve keeps_instant_now keeps_disconnect_call keeps_revert : invariant.

Lemma keeps_recover e : recover_dns (C := C) (D := D) (N := N) e keeps of_controller.
Proof. unfold recover_dns, teardown_after_dns. keep_invariant. Qed.

Lemma keeps_connect token : connection_connect (C := C) (D := D) (N := N) token keeps of_controller.
Proof.
  unfold connection_connect. pose proof keeps_recover.
  pose proof (λ config context, keeps_on_controller _ (I_connect config context)).
  pose proof (λ i c context, keeps_on_dns _ (no_pipe_dns_configure (D := D) i c context)). keep_invariant.
Qed.

Lemma keeps_disconnect : connection_disconnect (C := C) (D := D) (N := N) keeps of_controller.
Proof. unfold connection_disconnect. keep_invariant. Qed.

Lemma keeps_disable : connection_disable (C := C) (D := D) (N := N) keeps of_controller.
Proof. by apply keeps_on_controller. Qed.

Lemma keeps_health : connection_health (C := C) (D := D) (N := N) keeps of_controller.
Proof. by apply keeps_on_controller. Qed.

#[local] Hint Resolve keeps_connect keeps_disconnect keeps_disable keeps_health : invariant.

Lemma keeps_call call : connection_call call keeps of_controller.
Proof. destruct call; cbn [connection_call]; keep_invariant. Qed.

Lemma keeps_steps s s' : of_controller s → connection_steps s s' → of_controller s'.
Proof.
  intros Hs. induction 1 as [|s call s' r s'' Hsteps IH Hcall Hr]; [done|].
  exact (wp_elim _ _ _ _ _ (keeps_call call s' (IH Hs)) Hcall Hr).
Qed.
End calls.

(** ** The connection is fail-secure *)

Section secure.
Context {C D N : Type} `{RunnerSpec C} `{RunnerSpec D} `{NftablesSpec N} `{UnicodeTables}.
Local Abbreviation Self := (LinuxWireGuardConnection C D N).

(** The recorded policy is the newest transaction [nft] accepted, and filtering
    is off only without a possibly active transport and without always-on. *)
Definition connection_secure (s : Self * World) : Prop := fail_secure (controller s.1, s.2).

Lemma fail_secure_piped (c : LinuxController C N) w w' :
  piped w' = piped w → fail_secure (c, w) → fail_secure (c, w').
Proof. intros Hp (He & Hk & Ha). split_and!; cbn in *; [by eapply in_force_piped|apply Hk..|done]. Qed.

Lemma keeps_controller_call call : controller_call (T := WireGuardAdapter (LinuxWireGuardBackend C))
  (F := NftablesBackend N) call keeps fail_secure.
Proof. intros s Hs. apply wp_intro. intros r t Hrun Hr. by eapply fail_secure_call. Qed.

Lemma keeps_controller_connect config context : controller_connect
  (T := WireGuardAdapter (LinuxWireGuardBackend C)) (F := NftablesBackend N) config context keeps fail_secure.
Proof. intros [c w] Hs. eapply wp_mono; [by apply wp_connect|]. by intros r t [_ ?]. Qed.

Lemma keeps_controller_health : on_field transport set_transport health keeps
  (fail_secure (T := WireGuardAdapter (LinuxWireGuardBackend C)) (F := NftablesBackend N)).
Proof.
  intros [c w] (He & Hk & Ha). wp_run. apply wp_intro. intros r [t w'] Hh _.
  split; [exact (health_frame _ _ _ _ _ _ _ Hh He)|by split].
Qed.

Lemma secure_connect token : connection_connect (C := C) (D := D) (N := N) token keeps connection_secure.
Proof.
  apply (keeps_connect fail_secure);
    [apply fail_secure_piped|apply keeps_controller_connect|apply (keeps_controller_call CallDisconnect)].
Qed.

Lemma secure_steps (s s' : Self * World) : connection_secure s → connection_steps s s' → connection_secure s'.
Proof.
  apply (keeps_steps fail_secure).
  - apply fail_secure_piped.
  - apply keeps_controller_connect.
  - apply (keeps_controller_call CallDisconnect).
  - apply (keeps_controller_call CallDisable).
  - apply keeps_controller_health.
Qed.
End secure.

(** ** What a connection is built with *)

Section built.
Context {C D N : Type} `{RunnerSpec C} `{RunnerSpec D} `{NftablesSpec N} `{UnicodeTables}.
(** A property of the nftables runner that applying rules keeps. *)
Context (K : N → Prop).
Context (runner_kept : ∀ rules n w r n' w', nft_apply rules (n, w) = (r, (n', w')) → K n → K n').
Local Abbreviation Self := (LinuxWireGuardConnection C D N).

Lemma wp_consuming {X Y E A} (d : Y) (m : Act (Y * World) E A) Q (c : X) w :
  wp m (λ r t, Q r (c, t.2)) (d, w) → wp (consuming d m) Q (c, w).
Proof. unfold wp, consuming. by destruct (m (d, w)) as [r [d' w']]. Qed.

(** The fields every later call relies on; no call changes them. *)
Definition wired (always : bool) (s : Self) : Prop :=
  wg_valid_interface (conn_interface s) = true ∧
  interface (transport (controller s)) = conn_interface s ∧
  wg_endpoint (profile (transport (controller s))) = tc_endpoint (conn_transport s) ∧
  validate_wireguard (profile (transport (controller s))) = Ok tt ∧
  validate_dns (conn_dns_config s) = Ok tt ∧
  always_on (kill_switch (controller s)) = always.

Lemma wp_linux_backend_new t mark (r : C) w Q :
  (∀ w', Q (Ok (mkLinuxBackend t r mark [] None 0)) (r, w')) →
  (∀ e w', Q (Err e) (r, w')) →
  wp (linux_backend_new t mark) Q (r, w).
Proof.
  intros Hok Herr. unfold linux_backend_new. wp_run.
  apply wp_validate_backend_tools; intros; wp_run; auto.
Qed.

Lemma wp_dns_new t (r : D) w Q :
  (∀ w', Q (Ok (mkDnsBackend t r None)) (r, w')) → (∀ e w', Q (Err e) (r, w')) →
  wp (dns_new t) Q (r, w).
Proof.
  intros Hok Herr. unfold dns_new, validate_dns_tools. wp_run.
  apply wp_validate_executable; intros; wp_run; auto.
Qed.

(** The firewall of a connection: its endpoint is fixed. *)
Definition firewall_for (f f' : NftablesBackend N) : Prop :=
  nft_config f' = nft_config f ∧ (K (nft_runner f) → K (nft_runner f')).

Lemma nft_apply_for f0 p f w r f' w' :
  fw_apply p (f, w) = (r, (f', w')) → firewall_for f0 f → firewall_for f0 f'.
Proof.
  intros Hrun Hf. revert Hrun. cut (wp (fw_apply p) (λ _ s, firewall_for f0 s.1) (f, w)).
  { intros Hwp Hrun. exact (wp_elim _ _ _ _ _ Hwp Hrun). }
  cbn. wp_run. unfold nft_backend_apply. wp_run. destruct (render _ _) as [rules|e|]; wp_run; [|done..].
  apply wp_intro. intros r2 [n w2] Hn. destruct Hf as [Hc HK]. split; [done|]. cbn. eauto.
Qed.

Definition built_outcome (settings : LinuxConnectionSettings) (n : N)
    (r : Result LinuxConnectionBuildError Self) (w : World) : Prop :=
  ∀ s, r = Ok s → connection_secure (s, w) ∧ connection_policy s = BlockNonTunnel ∧
    wired (set_always_on settings) s ∧ conn_interface s = set_interface settings ∧
    connected (transport (controller s)) = false ∧
    transport_may_be_active (controller s) = false ∧ dns_active_interface (conn_dns s) = None ∧
    ∃ address, parse_ip (host (wg_endpoint (set_profile settings))) = Some address ∧
      firewall_for (mkNftBackend (mkNftables address (port (wg_endpoint (set_profile settings)))) n)
        (firewall (controller s)).

Lemma wp_with_runners settings (c : C) (d : D) (n : N) w :
  wp (with_runners settings c d n) (λ r s, built_outcome settings n r s.2) (tt, w).
Proof.
  unfold with_runners. wp_run.
  destruct (parse_ip _) as [address|] eqn:Hip; cbn [ok_or]; wp_run; [|by intros ?].
  destruct (validate_transport _) as [[]|e|]; cbn [map_err]; wp_run; [|by intros ?..].
  destruct (validate_dns (set_dns settings)) as [[]|e|] eqn:Hd; cbn [map_err]; wp_run; [|by intros ?..].
  apply wp_consuming, wp_linux_backend_new; [intros w1|by intros e w1 ?]. cbn [map_err snd]. wp_run.
  unfold adapter_new. destruct (wg_valid_interface (set_interface settings)) eqn:Hi; cbn [negb];
    [|by wp_run; intros ?].
  destruct (validate_wireguard (set_profile settings)) as [[]|e|] eqn:Hv;
    cbn [mbind result_bind map_err]; wp_run; [|by intros ?..].
  apply wp_consuming, wp_dns_new; [intros w2|by intros e w2 ?]. cbn [map_err snd]. wp_run.
  apply wp_consuming, wp_intro. intros [ctl|e|] [f w3] Hctl; cbn [map_err snd]; wp_run; [|by intros ?..].
  intros s [= <-].
  assert (fail_secure (ctl, w3)) as Hsec.
  { eapply (fail_secure_new _ _ _ _ _ (f, w3)), Hctl. apply ks_invariant_enable. }
  revert Hctl. unfold controller_new, self. run.
  destruct (fw_apply _ _) as [[[]|e|] [f' w']] eqn:Happ; intros [= <- <- <-].
  split_and!; try done. exists address. split; [done|]. by eapply nft_apply_for, conj.
Qed.

(** ** The wiring never changes *)

(** The adapter of a connection built for [i] and [p]. *)
Definition adapter_for (i : string) (p : WireGuardConfig)
    (a : WireGuardAdapter (LinuxWireGuardBackend C)) : Prop := interface a = i ∧ profile a = p.

Lemma adapter_connect_for i p config context t w r t' w' :
  adapter_connect config context (t, w) = (r, (t', w')) → adapter_for i p t → adapter_for i p t'.
Proof.
  intros Hrun Ht. revert Hrun.
  cut (wp (adapter_connect config context) (λ _ s, adapter_for i p s.1) (t, w)).
  { intros Hwp Hrun. exact (wp_elim _ _ _ _ _ Hwp Hrun). }
  unfold adapter_connect. wp_run. apply wp_guard; intros _; wp_run; [done|].
  apply wp_guard; intros _; wp_run; [done|]. destruct (validate_transport config) as [[]|e|]; wp_run; [|done..].
  apply wp_intro. intros rc [t1 w1] [-> _]%check_later. destruct rc as [[]|e|]; wp_run; [|done..].
  apply wp_intro. intros [[]|e|] [b w2] _; wp_run; [|done..].
  apply wp_intro. unfold instant_now, on_world. intros r2 s2 Hr2. injection Hr2 as <- <-. by wp_run.
Qed.

Lemma adapter_disconnect_for i p t w r t' w' :
  adapter_disconnect (t, w) = (r, (t', w')) → adapter_for i p t → adapter_for i p t'.
Proof.
  intros Hrun Ht. revert Hrun. cut (wp adapter_disconnect (λ _ s, adapter_for i p s.1) (t, w)).
  { intros Hwp Hrun. exact (wp_elim _ _ _ _ _ Hwp Hrun). }
  unfold adapter_disconnect. wp_run. apply wp_guard; intros _; wp_run; [done|].
  apply wp_intro. intros [[]|e|] [b w2] _; by wp_run.
Qed.

Lemma adapter_health_for i p t w r t' w' :
  adapter_health (t, w) = (r, (t', w')) → adapter_for i p t → adapter_for i p t'.
Proof.
  intros Hrun Ht. revert Hrun. cut (wp adapter_health (λ _ s, adapter_for i p s.1) (t, w)).
  { intros Hwp Hrun. exact (wp_elim _ _ _ _ _ Hwp Hrun). }
  unfold adapter_health. wp_run. destruct (connected t); cbn [negb]; wp_run; [|done].
  apply wp_intro. intros r2 [b w2] _. done.
Qed.

Definition same_wiring (s : Self) (t : Self * World) : Prop :=
  conn_interface t.1 = conn_interface s ∧ conn_transport t.1 = conn_transport s ∧
  conn_dns_config t.1 = conn_dns_config s ∧
  kept (adapter_for (interface (transport (controller s))) (profile (transport (controller s))))
    (firewall_for (firewall (controller s))) (always_on (kill_switch (controller s))) (controller t.1, t.2).

Lemma wp_on_controller_wiring {E A} s t (m : Act (LinuxController C N * World) E A)
    (Q : Result E A → _ → Prop) :
  same_wiring s t →
  (∀ P : WireGuardAdapter (LinuxWireGuardBackend C) → Prop,
    P = adapter_for (interface (transport (controller s))) (profile (transport (controller s))) →
    ∀ f mode c w, kept P (firewall_for f) mode (c, w) →
      wp m (λ _ u, kept P (firewall_for f) mode u) (c, w)) →
  (∀ r t', same_wiring s t' → Q r t') → wp (on_controller m) Q t.
Proof.
  destruct t as [c w]. intros (Hi & Ht & Hd & Hk) Hm HQ. unfold on_controller. wp_run.
  eapply wp_mono; [by eapply Hm|]. intros r [c' w'] Hk'. apply HQ. by split_and!.
Qed.

Lemma wp_on_dns_wiring s t (m : Act (LinuxDnsBackend D * World) TransportError unit)
    (Q : Result TransportError unit → _ → Prop) :
  same_wiring s t → (∀ r t', same_wiring s t' → Q r t') → wp (on_dns m) Q t.
Proof.
  destruct t as [c w]. intros Hs HQ. unfold on_dns. wp_run. apply wp_intro.
  intros r [d w'] _. by apply HQ.
Qed.

Lemma controller_disconnect_wiring s t (Q : Result ConnectionError unit → _ → Prop) :
  same_wiring s t → (∀ r t', same_wiring s t' → Q r t') → wp (on_controller controller_disconnect) Q t.
Proof.
  intros Hs. apply (wp_on_controller_wiring s); [done|]. intros P -> f mode c w Hk.
  apply wp_disconnect_kept; [..|done]; intros *; [apply adapter_disconnect_for|apply nft_apply_for].
Qed.

Lemma wp_recover_wiring s t e (Q : Result ConnectionError Session → _ → Prop) :
  same_wiring s t → (∀ r t', same_wiring s t' → Q r t') → wp (recover_dns e) Q t.
Proof.
  intros Hs HQ.
  assert (∀ t', same_wiring s t' → wp (teardown_after_dns e) Q t') as Htear.
  { intros t' Hs'. unfold teardown_after_dns. wp_run. apply (controller_disconnect_wiring s); [done|].
    intros [[]|e'|] t2 Hs2; wp_run; by apply HQ. }
  destruct t as [c w]. unfold recover_dns. wp_run. destruct (needs_revert _); [|by apply Htear]. wp_run.
  apply (wp_on_dns_wiring s); [done|]. intros [[]|e'|] t2 Hs2; wp_run; [by apply Htear|by apply HQ..].
Qed.

Lemma connection_call_wiring call s t :
  same_wiring s t → wp (connection_call call) (λ _ t', same_wiring s t') t.
Proof.
  destruct t as [c w]. intros Hs. destruct call as [token| | |]; cbn.
  - wp_run. unfold connection_connect. wp_run. apply wp_intro. unfold instant_now, on_world.
    intros r t1 Hr. injection Hr as <- <-. wp_run. destruct (instant_add _ _) as [deadline|e|]; wp_run; [|done..].
    apply (wp_on_controller_wiring s); [done| |].
    { intros P -> f mode ctl w' Hk. apply wp_connect_kept; [..|done].
      - intros *. apply adapter_connect_for.
      - intros *. apply adapter_disconnect_for.
      - intros *. apply nft_apply_for. }
    intros [session|e|] t2 Hs2; wp_run; [|done..].
    apply (wp_on_dns_wiring s); [done|]. intros [[]|e|] t3 Hs3; wp_run; [done| |done].
    apply (wp_recover_wiring s); [done|]. intros [a|e'|] t4 Hs4; by wp_run.
  - unfold connection_disconnect. wp_run. apply (wp_on_dns_wiring s); [done|].
    intros [[]|e|] t2 Hs2; cbn [map_err]; wp_run; [|done..]. by apply (controller_disconnect_wiring s).
  - unfold connection_disable. apply (wp_on_controller_wiring s); [done| |done].
    intros P -> f mode ctl w' Hk. apply wp_disable_kept; [|done]. intros *. apply nft_apply_for.
  - wp_run. unfold connection_health. apply (wp_on_controller_wiring s); [done| |].
    { intros P -> f mode ctl w' (Hm & HP & HG). wp_run. apply wp_intro. intros r [t' w''] Hh.
      split_and!; [done| |done]. cbn. eapply adapter_health_for; [exact Hh|exact HP]. }
    intros [a|[]|] t2 Hs2; cbn [map_err]; by wp_run.
Qed.

Lemma same_wiring_refl s w : same_wiring s (s, w).
Proof. by repeat split. Qed.

Lemma wired_same always s t :
  wired always s → same_wiring s t →
  wired always t.1 ∧ firewall_for (firewall (controller s)) (firewall (controller t.1)).
Proof.
  intros Hw (Hi & Ht & Hd & Hm & [Ha Hp] & Hf). cbn in Hm, Ha, Hp, Hf. split; [|done].
  unfold wired in *. rewrite Hi, Ht, Hd, Hm, Ha, Hp. done.
Qed.

Lemma steps_wiring s w t : connection_steps (s, w) t → same_wiring s t.
Proof.
  intros Hsteps. remember (s, w) as t0 eqn:Ht0.
  induction Hsteps as [t|t0 call t1 r t2 Hsteps IH Hcall Hr]; subst; [apply same_wiring_refl|].
  exact (wp_elim _ _ _ _ _ (connection_call_wiring call s t1 (IH eq_refl)) Hcall).
Qed.

(** ** The tunnel's name is always acceptable *)

Lemma wg_interface_accepted name : wg_valid_interface name = true → ks_valid_interface name = true.
Proof.
  unfold wg_valid_interface, ks_valid_interface.
  intros [[Hne Hl%Z.leb_le]%andb_true_iff Hb]%andb_true_iff.
  rewrite Hne, (proj2 (Z.leb_le _ _)) by lia. cbn [andb]. revert Hb. apply all_bytes_class. by vm_compute.
Qed.

Lemma adapter_connect_session config context (a : WireGuardAdapter (LinuxWireGuardBackend C)) w :
  wp (adapter_connect config context)
    (λ r _, ∀ session, r = Ok session → session_id session = interface a) (a, w).
Proof.
  unfold adapter_connect. wp_run. apply wp_guard; intros _; wp_run; [done|].
  apply wp_guard; intros _; wp_run; [done|]. destruct (validate_transport config) as [[]|e|]; wp_run; [|done..].
  apply wp_intro. intros [[]|e|] [t1 w1] _; wp_run; [|done..].
  apply wp_intro. intros [[]|e|] [b w2] _; wp_run; [|done..].
  apply wp_intro. unfold instant_now, on_world. intros r s Hr. injection Hr as <- <-. wp_run.
  by intros session [= <-].
Qed.

(** The controller of a connection never rejects the interface it is given. *)
Lemma controller_connect_errors config context (c : LinuxController C N) w :
  wg_valid_interface (interface (transport c)) = true →
  wp (controller_connect config context) (λ r _, ∀ e, r ≠ Err (KillSwitchFailed e)) (c, w).
Proof.
  intros Hv. unfold controller_connect. wp_run. unfold apply_policy at 1. wp_run. apply wp_intro.
  intros [[]|e1|] [f w1] _; cbn [map_err]; wp_run; [|done..].
  eapply wp_mono; [apply adapter_connect_session|]. intros [session|e|] [t w2] Hid; cbn [map_err]; wp_run; [|done..].
  rewrite tunnel_established_cases, bool_decide_eq_false_2 by done.
  rewrite (Hid session eq_refl), wg_interface_accepted by done. wp_run.
  unfold apply_policy. wp_run. apply wp_intro. intros [[]|e|] [f' w3] _; cbn [map_err]; wp_run; [done| |done].
  unfold abandon. wp_run. apply wp_intro. by intros [[]|e'|] [c' w4] _; wp_run.
Qed.

Lemma connection_connect_errors token always s w :
  wired always s →
  wp (connection_connect token) (λ r _, ∀ e, r ≠ Err (KillSwitchFailed e)) (s, w).
Proof.
  intros (Hv & Hi & _). unfold connection_connect. wp_run. apply wp_intro. unfold instant_now, on_world.
  intros r t1 Hr. injection Hr as <- <-. wp_run. unfold instant_add.
  destruct (instant_checked_add _ _) as [deadline|]; wp_run; [|done..].
  unfold on_controller. wp_run. eapply wp_mono; [apply controller_connect_errors; by rewrite Hi|].
  intros [session|e|] [c1 w1] He; wp_run; [|done..].
  unfold on_dns at 1. wp_run. apply wp_intro. intros [[]|e|] [d w2] _; wp_run; [done| |done].
  assert (∀ t, wp (teardown_after_dns e) (λ (r : Result ConnectionError Session) (_ : Self * World),
    ∀ e, r ≠ Err (KillSwitchFailed e)) t) as Htear.
  { intros t. unfold teardown_after_dns. wp_run. apply wp_intro.
    by intros [[]|e'|] t' _; wp_run. }
  unfold recover_dns. wp_run. destruct (needs_revert _); [|apply Htear]. wp_run.
  apply wp_intro. intros [[]|e'|] t' _; wp_run; [apply Htear|done..].
Qed.
End built.

(** For statements that ask nothing of the runner. *)
Definition any_runner {N} (_ : N) : Prop := True.

Lemma any_runner_kept {N} `{NftablesRunner N} rules (n : N) w r n' w' :
  nft_apply rules (n, w) = (r, (n', w')) → any_runner n → any_runner n'.
Proof. done. Qed.

(** A built connection enforces what it records, for the endpoint of its settings. *)
Lemma fail_secure_built {C D N} `{RunnerSpec C} `{RunnerSpec D} `{NftablesSpec N}
    `{UnicodeTables} settings (c : C) (d : D) (n : N) w conn t conn' w' :
  with_runners settings c d n (tt, w) = (Ok conn, t) →
  connection_steps (conn, t.2) (conn', w') →
  let endpoint := wg_endpoint (set_profile settings) in
  (∃ address rules, parse_ip (host endpoint) = Some address ∧
     render (mkNftables address (port endpoint)) (connection_policy conn') = Ok rules ∧
     head (accepted (nft_runner (firewall (controller conn'))) w') = Some rules) ∧
  (connection_policy conn' = Disabled →
   transport_may_be_active (controller conn') = false ∧ set_always_on settings = false).
Proof.
  intros Hnew Hsteps endpoint.
  destruct (wp_elim _ _ _ _ _ (wp_with_runners any_runner any_runner_kept settings c d n w) Hnew conn eq_refl)
    as (Hsec & _ & Hwired & _ & _ & _ & _ & address & Hip & Hcfg & _).
  destruct (wired_same _ _ _ _ Hwired (steps_wiring _ any_runner_kept _ _ _ Hsteps))
    as [(_ & _ & _ & _ & _ & Hm) [Hcfg' _]]. cbn in Hm, Hcfg, Hcfg'.
  destruct (secure_steps _ _ Hsec Hsteps) as ((rules & Hr & Hh) & [Hon _] & Hact). cbn in Hr, Hh.
  split; [exists address, rules; by rewrite Hcfg', Hcfg in Hr|]. intros Hd. cbn in Hon, Hact. rewrite Hm in Hon.
  split; apply not_true_iff_false; [by intros ?%Hact|by intros ?%Hon].
Qed.

(** ** Theorems *)

(** C8: the production connection is fail-secure end to end.  Once
    [with_runners] succeeds, after any sequence of [connect], [disconnect],
    [disable] and [health] calls with any results, the newest transaction that
    [nft] accepted is the rendering of the recorded policy for the endpoint of
    the settings; filtering is off only while no tunnel may be active, and never
    for an always-on client. *)
Theorem connection_fail_secure {C D N} `{RunnerSpec C} `{RunnerSpec D} `{NftablesSpec N}
    `{UnicodeTables} settings (c : C) (d : D) (n : N) w conn t conn' w' :
  with_runners settings c d n (tt, w) = (Ok conn, t) →
  connection_steps (conn, t.2) (conn', w') →
  let endpoint := wg_endpoint (set_profile settings) in
  (∃ address rules, parse_ip (host endpoint) = Some address ∧
     render (mkNftables address (port endpoint)) (connection_policy conn') = Ok rules ∧
     head (accepted (nft_runner (firewall (controller conn'))) w') = Some rules) ∧
  (connection_policy conn' = Disabled →
   transport_may_be_active (controller conn') = false ∧ set_always_on settings = false).
Proof. apply fail_secure_built. Qed.

(** [with_runners] returns a connection that already blocks: the recorded
    policy is [BlockNonTunnel], it is in force, the tunnel is down, and the
    profile, the resolvers and the interface name passed their validation. *)
Theorem connection_built_blocking {C D N} `{RunnerSpec C} `{RunnerSpec D} `{NftablesSpec N}
    `{UnicodeTables} settings (c : C) (d : D) (n : N) w conn t :
  with_runners settings c d n (tt, w) = (Ok conn, t) →
  connection_policy conn = BlockNonTunnel ∧
  in_force (firewall (controller conn)) t.2 BlockNonTunnel ∧
  connected (transport (controller conn)) = false ∧
  wg_valid_interface (set_interface settings) = true ∧ wired (set_always_on settings) conn.
Proof.
  intros Hnew.
  destruct (wp_elim _ _ _ _ _ (wp_with_runners any_runner any_runner_kept settings c d n w) Hnew conn eq_refl)
    as ((Henf & _) & Hp & Hw & Hi & Hc & _).
  unfold connection_policy in Hp. cbn in Henf. rewrite Hp in Henf.
  split_and!; try done; [|apply Hw..]. rewrite <-Hi. apply Hw.
Qed.

(** Interface names never make a connection fail late: whatever name
    [with_runners] accepted, the kill switch accepts for the tunnel, so
    [connect] never fails with a kill-switch error. *)
Theorem connect_never_rejected {C D N} `{RunnerSpec C} `{RunnerSpec D} `{NftablesSpec N}
    `{UnicodeTables} settings (c : C) (d : D) (n : N) w conn t conn' w' token r t' :
  with_runners settings c d n (tt, w) = (Ok conn, t) →
  connection_steps (conn, t.2) (conn', w') →
  connection_connect token (conn', w') = (r, t') → ∀ e, r ≠ Err (KillSwitchFailed e).
Proof.
  intros Hnew Hsteps Hrun.
  destruct (wp_elim _ _ _ _ _ (wp_with_runners any_runner any_runner_kept settings c d n w) Hnew conn eq_refl)
    as (_ & _ & Hwired & _).
  destruct (wired_same _ _ _ _ Hwired (steps_wiring _ any_runner_kept _ _ _ Hsteps)) as [Hw _].
  exact (wp_elim _ _ _ _ _ (connection_connect_errors token _ conn' w' Hw) Hrun).
Qed.

(** A timeout that passed validation can still abort the client: when the
    clock reading plus the timeout does not fit an [Instant], [connect] panics
    before anything is armed or changed. *)
Theorem connect_timeout_overflow {C D N} `{CommandRunner C} `{CommandRunner D} `{NftablesRunner N}
    `{UnicodeTables} (conn : LinuxWireGuardConnection C D N) w token :
  2 ^ 63 * nanos_per_sec ≤ connect_timeout (conn_transport conn) →
  last_instant (history w) = None → 0 ≤ env_instant (env w) (history w) →
  validate_transport (conn_transport conn) =
    (if is_empty (trim (host (tc_endpoint (conn_transport conn))))
     then Err (InvalidConfig "endpoint host is empty") else Ok tt) ∧
  ∃ w', connection_connect token (conn, w) = (Panic, (conn, w')).
Proof.
  intros Hbig Hlast Hnow. unfold nanos_per_sec in Hbig. unfold validate_transport. rewrite (proj2 (Z.eqb_neq _ 0)) by lia.
  split; [done|]. unfold connection_connect, self, instant_now, on_world. run.
  rewrite Hlast. unfold instant_add, instant_checked_add.
  rewrite (proj2 (Z.ltb_ge _ _)) by (unfold nanos_per_sec; lia). eauto.
Qed.

(** Teardown that fails after the resolver was reverted cannot be retried:
    every later [disconnect] stops at the resolver with [NotConnected] and never
    reaches the tunnel again, and while the tunnel may be active [disable] is
    refused, so the connection stays blocked. *)
Theorem disconnect_not_retryable {C D N} `{CommandRunner C} `{CommandRunner D} `{NftablesRunner N}
    `{UnicodeTables} (conn : LinuxWireGuardConnection C D N) w d w' e conn1 w1 :
  dns_revert (conn_interface conn) (conn_dns conn, w) = (Ok tt, (d, w')) →
  connection_disconnect (conn, w) = (Err e, (conn1, w1)) →
  ∀ w2, connection_disconnect (conn1, w2) = (Err (TransportFailed NotConnected), (conn1, w2)) ∧
    (transport_may_be_active (controller conn1) = true →
     connection_disable (conn1, w2) = (Err (KillSwitchFailed TransportActive), (conn1, w2))).
Proof.
  intros Hrev Hrun w2.
  assert (dns_active_interface (conn_dns conn1) = None) as Hdns.
  { assert (dns_active_interface d = None) as Hd.
    { refine (wp_elim _ (λ r t, r = Ok tt → dns_active_interface t.1 = None) _ _ _ _ Hrev eq_refl).
      unfold dns_revert. wp_run. apply wp_guard; intros _; wp_run; [done|].
      apply wp_intro. intros [[]|e'|] [d' w''] _; by wp_run. }
    revert Hrun. unfold connection_disconnect, self, on_dns, on_field. run. rewrite Hrev.
    unfold on_controller, on_field. destruct (controller_disconnect _) as [r [c1 w3]].
    intros [= -> <- <-]. exact Hd. }
  split.
  - unfold connection_disconnect, self, on_dns, on_field, dns_revert. run. unfold self.
    rewrite Hdns, bool_decide_eq_false_2 by done. cbn. by destruct conn1.
  - intros Ha. unfold connection_disable, on_controller, on_field, controller_disable, self. run.
    rewrite Ha. cbn. by destruct conn1.
Qed.

(** ** Witnesses: the system runners *)

Definition sample_settings : LinuxConnectionSettings :=
  mkSettings "cyberia0" sample_profile sample_dns_config sample_tools
    (mkDnsTools "/usr/bin/resolvectl") 51820 (from_secs 30) false.

(** Tools exist and every command succeeds, except deleting a link when [busy]. *)
Definition host_env (busy : bool) : Environment :=
  mkEnvironment (λ _, 0) (λ _ _, false) (λ _, 0)
    (λ _ c _, match arguments c with
              | "link" :: "delete" :: _ =>
                  if busy then Exited false "exit status: 2" "" "Device or resource busy"
                  else Exited true "exit status: 0" "" ""
              | _ => Exited true "exit status: 0" "" ""
              end)
    (env_metadata trusted_env).

Definition sample_nft : SystemNftablesRunner := mkSystemNftables "/usr/sbin/nft".

Definition sample_build (busy : bool) :=
  with_runners sample_settings system_command_runner system_command_runner sample_nft
    (tt, mkWorld (host_env busy) []).

Definition sample_connection (busy : bool) :
    LinuxWireGuardConnection SystemCommandRunner SystemCommandRunner SystemNftablesRunner * World :=
  match (sample_build busy).1 with
  | Ok conn => (conn, (sample_build busy).2.2)
  | _ => (mkConnection
            (mkController (ks_new true) (mkAdapter "" sample_profile sample_backend false)
               (mkNftBackend sample_nftables sample_nft) false)
            sample_dns sample_dns_config "" sample_transport_config, quiet_world)
  end.

Definition sample_session (busy : bool) := connection_connect 1 (sample_connection busy).

Lemma sample_build_ok busy :
  with_runners sample_settings system_command_runner system_command_runner sample_nft
    (tt, mkWorld (host_env busy) []) = (Ok (sample_connection busy).1, (sample_build busy).2).
Proof. destruct busy; vm_compute; reflexivity. Qed.

Lemma sample_session_steps :
  connection_steps ((sample_connection false).1, (sample_build false).2.2)
    ((sample_session false).2.1, (sample_session false).2.2).
Proof.
  apply (connection_step _ (CallConnectionConnect 1)
    ((sample_connection false).1, (sample_build false).2.2) (Ok tt));
    [apply connection_refl|vm_compute; reflexivity|discriminate].
Qed.

Lemma connection_fail_secure_witness :
  connection_policy (sample_session false).2.1 = TunnelOnly "cyberia0" ∧
  ∃ rules, render sample_nftables (TunnelOnly "cyberia0") = Ok rules ∧
    head (accepted sample_nft (sample_session false).2.2) = Some rules.
Proof.
  assert (connection_policy (sample_session false).2.1 = TunnelOnly "cyberia0") as Hp
    by (vm_compute; reflexivity).
  split; [exact Hp|].
  destruct (connection_fail_secure sample_settings system_command_runner system_command_runner sample_nft
    (mkWorld (host_env false) []) (sample_connection false).1 (sample_build false).2
    _ _ (sample_build_ok false) sample_session_steps) as [(address & rules & Ha & Hr & Hh) _].
  vm_compute in Ha. injection Ha as <-. exists rules. rewrite <-Hp. split; [exact Hr|].
  replace (nft_runner (firewall (controller (sample_session false).2.1))) with sample_nft in Hh
    by (vm_compute; reflexivity). exact Hh.
Defined.

Lemma connection_built_blocking_witness :
  connection_policy (sample_connection false).1 = BlockNonTunnel ∧
  in_force (firewall (controller (sample_connection false).1)) (sample_build false).2.2 BlockNonTunnel.
Proof.
  destruct (connection_built_blocking sample_settings system_command_runner system_command_runner
    sample_nft (mkWorld (host_env false) []) (sample_connection false).1 (sample_build false).2
    (sample_build_ok false)) as (Hp & Hf & _).
  split; [exact Hp|exact Hf].
Defined.

Definition sample_reconnect := connection_connect 2 (sample_session false).2.

Lemma connect_never_rejected_witness :
  is_ok sample_reconnect.1 = false ∧ ∀ e, sample_reconnect.1 ≠ Err (KillSwitchFailed e).
Proof.
  split; [vm_compute; reflexivity|].
  apply (connect_never_rejected sample_settings system_command_runner system_command_runner
    sample_nft (mkWorld (host_env false) []) (sample_connection false).1 (sample_build false).2
    (sample_session false).2.1 (sample_session false).2.2 2 _ sample_reconnect.2
    (sample_build_ok false) sample_session_steps).
  unfold sample_reconnect. rewrite <-!surjective_pairing. reflexivity.
Defined.

Definition patient_connection :
    LinuxWireGuardConnection SystemCommandRunner SystemCommandRunner SystemNftablesRunner :=
  mkConnection (controller (sample_connection false).1) sample_dns sample_dns_config "cyberia0"
    (mkTransportConfig WireGuard (mkEndpoint "192.0.2.1" 51820) (from_secs (2 ^ 64 - 1))).

Lemma connect_timeout_overflow_witness :
  validate_transport (conn_transport patient_connection) = Ok tt ∧
  ∃ w', connection_connect 1 (patient_connection, quiet_world) = (Panic, (patient_connection, w')).
Proof.
  destruct (connect_timeout_overflow patient_connection quiet_world 1) as [Hv Hp].
  - apply Z.leb_le. vm_compute. reflexivity.
  - reflexivity.
  - apply Z.leb_le. vm_compute. reflexivity.
  - split; [|exact Hp]. rewrite Hv. vm_compute. reflexivity.
Defined.

Definition sample_teardown := connection_disconnect (sample_session true).2.

Lemma disconnect_not_retryable_witness :
  ∃ e, sample_teardown.1 = Err (TransportFailed (Network e)) ∧
  ∀ w, connection_disconnect (sample_teardown.2.1, w) =
    (Err (TransportFailed NotConnected), (sample_teardown.2.1, w)).
Proof.
  exists "platform command exited with exit status: 2: Device or resource busy".
  assert (sample_teardown.1 = Err (TransportFailed
    (Network "platform command exited with exit status: 2: Device or resource busy"))) as Herr
    by (vm_compute; reflexivity).
  split; [exact Herr|]. intros w.
  assert (connection_disconnect ((sample_session true).2.1, (sample_session true).2.2) =
    (Err (TransportFailed
      (Network "platform command exited with exit status: 2: Device or resource busy")),
     (sample_teardown.2.1, sample_teardown.2.2))) as Hrun by (vm_compute; reflexivity).
  set (rev := dns_revert (conn_interface (sample_session true).2.1)
    (conn_dns (sample_session true).2.1, (sample_session true).2.2)).
  assert (dns_revert (conn_interface (sample_session true).2.1)
    (conn_dns (sample_session true).2.1, (sample_session true).2.2) =
    (Ok tt, (rev.2.1, rev.2.2))) as Hrev by (vm_compute; reflexivity).
  apply (disconnect_not_retryable _ _ _ _ _ _ _ Hrev Hrun w).
Defined.
