(* ===== verification/PolicyTrace.v ===== *)
(** The order of traffic policies: [core/killswitch/src/lib.rs] and
    [core/killswitch/src/linux_connection.rs].

    An abstract specification of what a connection may do to the traffic of its
    host: a transition system on traffic policies, without transports,
    firewalls, errors or resolvers.  The controller refines it for any firewall
    that keeps a log of the policies it applied, and the managed Linux
    connection refines it with the transactions [nft] accepted as the log, so
    the order of filters holds between calls and also in the middle of them. *)

From S2P Require Import Prelude Machine Text Net Env Transport WireGuard KillSwitch Process Nftables Linux Connection.
Open Scope string_scope.
Open Scope Z_scope.

(** ** The specification *)

(** Blocking can be armed at any time; the one tunnel is opened only from
    blocking; filtering ends only without always-on mode and never directly
    from an open tunnel. *)
Inductive policy_step (always : bool) (tunnel : string) : TrafficPolicy → TrafficPolicy → Prop :=
| policy_arm p : policy_step always tunnel p BlockNonTunnel
| policy_open : policy_step always tunnel BlockNonTunnel (TunnelOnly tunnel)
| policy_release p : always = false → (∀ name, p ≠ TunnelOnly name) → policy_step always tunnel p Disabled.

(** The policies of a walk from blocking, newest first. *)
Inductive policy_walk (always : bool) (tunnel : string) : list TrafficPolicy → Prop :=
| walk_start : policy_walk always tunnel [BlockNonTunnel]
| walk_next p q h :
    policy_walk always tunnel (p :: h) → policy_step always tunnel p q →
    policy_walk always tunnel (q :: p :: h).

(** An always-on walk filters throughout. *)
Lemma walk_always_filters tunnel h : policy_walk true tunnel h → Disabled ∉ h.
Proof.
  induction 1 as [|p q h Hw IH Hs]; rewrite elem_of_cons; [by intros [?|?%not_elem_of_nil]|].
  intros [Hq|Hq]; [|by apply IH]. subst q. by inversion Hs.
Qed.

(** ** The controller refines it *)

Section trace.
Context {T F : Type} `{Transport T} `{Firewall F}.
(** The policies the firewall applied, newest first, and the tunnel's name. *)
Context (logged : F → World → list TrafficPolicy → Prop) (name : T → string).
Context (apply_logged : ∀ p f w f' w' h,
  fw_apply p (f, w) = (Ok tt, (f', w')) → logged f w h → logged f' w' (p :: h)).
Context (reject_logged : ∀ p f w e f' w' h,
  fw_apply p (f, w) = (Err e, (f', w')) → logged f w h → logged f' w' h).
Context (connect_logged : ∀ config context t w r t' w' f h,
  connect config context (t, w) = (r, (t', w')) → logged f w h → logged f w' h).
Context (disconnect_logged : ∀ t w r t' w' f h,
  disconnect (t, w) = (r, (t', w')) → logged f w h → logged f w' h).
Context (connect_name : ∀ config context t w r t' w',
  connect config context (t, w) = (r, (t', w')) → name t' = name t).
Context (disconnect_name : ∀ t w r t' w', disconnect (t, w) = (r, (t', w')) → name t' = name t).
Context (session_name : ∀ config context t w session s,
  connect config context (t, w) = (Ok session, s) → session_id session = name t).
Implicit Types (c : ConnectionController T F) (w : World).

(** The log is a walk that ends in the recorded policy. *)
Definition traced (always : bool) (tunnel : string) (s : ConnectionController T F * World) : Prop :=
  always_on (kill_switch s.1) = always ∧ name (transport s.1) = tunnel ∧
  (always = true → controller_policy s.1 ≠ Disabled) ∧
  ∃ h, logged (firewall s.1) s.2 (controller_policy s.1 :: h) ∧
    policy_walk always tunnel (controller_policy s.1 :: h).

(** A transaction that is recorded once it was accepted. *)
Lemma wp_apply_traced always tunnel p c w Q :
  traced always tunnel (c, w) → policy_step always tunnel (controller_policy c) p →
  (∀ f w', traced always tunnel (set_kill_switch (set_policy p (kill_switch c)) (set_firewall f c), w') →
    Q (Ok tt) (set_firewall f c, w')) →
  (∀ e f w', traced always tunnel (set_firewall f c, w') → Q (Err (FirewallFailed e)) (set_firewall f c, w')) →
  (∀ s, Q Panic s) →
  wp (apply_policy p) Q (c, w).
Proof.
  intros (Ha & Hn & Hd & h & Hlog & Hwalk) Hstep Hok Herr Hpanic. cbn in *.
  unfold apply_policy. wp_run. apply wp_intro. intros [[]|e|] [f w'] Hm; cbn; [| |done].
  - apply Hok. split_and!; [done..| |].
    + cbn. intros Ht. inversion Hstep; congruence.
    + exists (controller_policy c :: h). cbn. split; [by eapply apply_logged|by apply walk_next].
  - apply Herr. split_and!; [done..|]. exists h. split; [by eapply reject_logged|done].
Qed.

Lemma wp_disconnect_traced always tunnel c w Q :
  traced always tunnel (c, w) →
  (∀ r t w', traced always tunnel (set_transport t c, w') → Q (map_err TransportFailed r) (set_transport t c, w')) →
  wp transport_disconnect Q (c, w).
Proof.
  intros (Ha & Hn & Hd & h & Hlog & Hwalk) HQ. cbn in *. unfold transport_disconnect. wp_run.
  apply wp_intro. intros r [t w'] Hm. apply HQ. split_and!; [done| |done|].
  - cbn. rewrite <-Hn. by eapply disconnect_name.
  - exists h. split; [by eapply disconnect_logged|done].
Qed.

Lemma traced_active always tunnel b c w : traced always tunnel (c, w) → traced always tunnel (set_active b c, w).
Proof. done. Qed.

Lemma wp_abandon_traced {A} always tunnel error c w :
  traced always tunnel (c, w) →
  wp (abandon error) (λ (r : Result ConnectionError A) s, r ≠ Panic → traced always tunnel s) (c, w).
Proof.
  intros Hs. unfold abandon. wp_run. apply (wp_disconnect_traced always tunnel); [done|].
  intros [[]|e|] t w' Ht; cbn; wp_run; done.
Qed.

Lemma connect_traced always tunnel config context :
  controller_connect config context keeps (traced always tunnel).
Proof.
  intros [c w] Hs. unfold controller_connect. wp_run.
  apply (wp_apply_traced always tunnel); [done|apply policy_arm| |by cbn; auto|done].
  intros f1 w1 Hs1. wp_run. destruct Hs1 as (Ha & Hn & _ & h & Hlog & Hwalk). cbn in *.
  apply wp_intro. intros r [t w2] Hconn. cbn in Hconn.
  assert (traced always tunnel (set_transport t (set_active true (set_kill_switch (enable (kill_switch c))
    (set_firewall f1 c))), w2)) as Hs2.
  { split_and!; [done| |done|].
    - cbn. rewrite <-Hn. by eapply connect_name.
    - exists h. split; [by eapply connect_logged|done]. }
  destruct r as [session|e|]; cbn [map_err]; wp_run; [|done..].
  rewrite tunnel_established_cases. case_bool_decide; [by apply wp_abandon_traced|].
  rewrite (session_name _ _ _ _ _ _ Hconn), Hn.
  destruct (ks_valid_interface tunnel); [|by apply wp_abandon_traced]. wp_run.
  apply (wp_apply_traced always tunnel); [done|apply policy_open| | |done].
  - intros f3 w3 Hs3. by wp_run.
  - intros e f3 w3 Hs3. wp_run. by apply wp_abandon_traced.
Qed.

Lemma controller_disconnect_traced always tunnel : controller_disconnect keeps (traced always tunnel).
Proof.
  intros [c w] Hs. unfold controller_disconnect. wp_run.
  assert (policy_step always tunnel (controller_policy c) (policy (tunnel_lost (kill_switch c)))) as Hstep.
  { unfold tunnel_lost. case_bool_decide as Hd; [|apply policy_arm]. rewrite Hd. unfold controller_policy.
    rewrite Hd. apply policy_release; [|done]. destruct Hs as (_ & _ & Hon & _).
    destruct always; [|done]. by destruct (Hon eq_refl). }
  apply (wp_apply_traced always tunnel); [done..| |by cbn; auto|done].
  intros f1 w1 Hs1. wp_run.
  replace (set_policy (policy (tunnel_lost (kill_switch c))) (kill_switch c)) with (tunnel_lost (kill_switch c)) in Hs1.
  2: { unfold tunnel_lost, set_policy. case_bool_decide; [|done]. by destruct (kill_switch c). }
  apply (wp_disconnect_traced always tunnel); [done|]. intros [[]|e|] t w' Ht; cbn; wp_run; done.
Qed.

Lemma controller_disable_traced always tunnel : controller_disable keeps (traced always tunnel).
Proof.
  intros [c w] Hs. unfold controller_disable. wp_run.
  apply wp_guard; intros _; wp_run; [done|]. apply wp_guard; intros Ht; wp_run; [done|].
  rewrite ks_disable_cases. destruct (always_on (kill_switch c)) eqn:Ho; wp_run; [done|].
  apply (wp_apply_traced always tunnel); [done| | |by cbn; auto|done].
  - apply policy_release; [destruct Hs as [Ha _]; cbn in Ha; congruence|]. intros i Hi. by rewrite Hi in Ht.
  - intros f w' Hs'. by wp_run.
Qed.
End trace.

(** ** The connection refines it *)

Section connection_trace.
Context {C D N : Type} `{RunnerSpec C} `{RunnerSpec D} `{NftablesSpec N} `{UnicodeTables}.
Local Abbreviation Self := (LinuxWireGuardConnection C D N).
Local Abbreviation Adapter := (WireGuardAdapter (LinuxWireGuardBackend C)).

(** Since [base], [nft] accepted exactly the renderings of the policies [h]. *)
Definition nft_log (config : NftablesConfig) (base : list string) (b : NftablesBackend N) (w : World)
    (h : list TrafficPolicy) : Prop :=
  nft_config b = config ∧
  ∃ rules, accepted (nft_runner b) w = (rules ++ base)%list ∧
    Forall2 (λ p text, render config p = Ok text) h rules.

Lemma nft_log_piped config base b w w' h :
  piped w' = piped w → nft_log config base b w h → nft_log config base b w' h.
Proof. intros Hp [Hc (rules & Ha & Hr)]. split; [done|]. exists rules. by rewrite (accepted_frame _ w' w Hp). Qed.

Lemma nft_log_apply config base p b w r b' w' h :
  fw_apply p (b, w) = (r, (b', w')) → nft_log config base b w h →
  match r with
  | Ok _ => nft_log config base b' w' (p :: h)
  | Err _ => nft_log config base b' w' h
  | Panic => True
  end.
Proof.
  intros Hrun [Hc (rules & Ha & Hr)]. revert Hrun. cbn.
  apply (wp_elim _ (λ r s, match r with
    | Ok _ => nft_log config base s.1 s.2 (p :: h)
    | Err _ => nft_log config base s.1 s.2 h
    | Panic => True end)).
  wp_run. unfold nft_backend_apply. wp_run.
  destruct (render (nft_config b) p) as [text|e|] eqn:Ht; wp_run; [| |done].
  - apply wp_intro. intros [[]|e|] [n w1] Hn; cbn [map_err]; [| |done]; split; [done| |done|]; cbn.
    + exists (text :: rules). rewrite (nft_apply_ok _ _ _ _ _ Hn), Ha. split; [done|].
      constructor; [by rewrite <-Hc|done].
    + exists rules. by rewrite (nft_apply_err _ _ _ _ _ _ Hn), Ha.
  - split; [done|]. by exists rules.
Qed.

Definition connection_traced (config : NftablesConfig) (base : list string) (always : bool) (tunnel : string) :
    LinuxController C N * World → Prop :=
  traced (nft_log config base) interface always tunnel.

Lemma nft_log_no_pipe {E A} (m : Act (Adapter * World) E A) config base t w r t' w' f h :
  no_pipe m → m (t, w) = (r, (t', w')) → nft_log config base f w h → nft_log config base f w' h.
Proof. intros Hm Hrun. apply nft_log_piped. specialize (Hm (t, w)). by rewrite Hrun in Hm. Qed.

Lemma connect_interface config context (t : Adapter) w r t' w' :
  connect config context (t, w) = (r, (t', w')) → interface t' = interface t.
Proof. intros Hrun. by apply (adapter_connect_for (interface t) (profile t)) in Hrun as [? _]. Qed.

Lemma disconnect_interface (t : Adapter) w r t' w' :
  disconnect (t, w) = (r, (t', w')) → interface t' = interface t.
Proof. intros Hrun. by apply (adapter_disconnect_for (interface t) (profile t)) in Hrun as [? _]. Qed.

Section kept.
Context (config : NftablesConfig) (base : list string) (always : bool) (tunnel : string).
Local Abbreviation I := (connection_traced config base always tunnel).

Lemma traced_piped c w w' : piped w' = piped w → I (c, w) → I (c, w').
Proof.
  intros Hp (Ha & Hn & Hd & h & Hlog & Hwalk). split_and!; [done..|]. exists h.
  split; [by eapply nft_log_piped|done].
Qed.

Lemma traced_connect tc context : controller_connect tc context keeps I.
Proof.
  apply connect_traced; intros *.
  - apply nft_log_apply.
  - apply nft_log_apply.
  - apply nft_log_no_pipe, no_pipe_connect.
  - apply nft_log_no_pipe, no_pipe_disconnect.
  - apply connect_interface.
  - apply disconnect_interface.
  - intros Hrun. exact (wp_elim _ _ _ _ _ (adapter_connect_session _ _ _ _) Hrun _ eq_refl).
Qed.

Lemma traced_disconnect : controller_disconnect keeps I.
Proof.
  apply controller_disconnect_traced; intros *.
  - apply nft_log_apply.
  - apply nft_log_apply.
  - apply nft_log_no_pipe, no_pipe_disconnect.
  - apply disconnect_interface.
Qed.

Lemma traced_disable : controller_disable keeps I.
Proof. apply controller_disable_traced; intros *; apply nft_log_apply. Qed.

Lemma traced_health : on_field transport set_transport health keeps I.
Proof.
  intros [c w] (Ha & Hn & Hd & h & Hlog & Hwalk). wp_run. apply wp_intro. intros r [t w'] Hh _.
  split_and!; [done| |done|].
  - cbn in *. rewrite <-Hn. by apply (adapter_health_for (interface (transport c)) (profile (transport c))) in Hh as [? _].
  - exists h. split; [|done]. eapply nft_log_no_pipe; [apply no_pipe_health|exact Hh|exact Hlog].
Qed.

Lemma traced_steps (s s' : Self * World) :
  of_controller I s → connection_steps s s' → of_controller I s'.
Proof.
  apply keeps_steps; [apply traced_piped|apply traced_connect|apply traced_disconnect|apply traced_disable|apply traced_health].
Qed.
End kept.

(** A connection starts with one transaction: blocking. *)
Lemma with_runners_traced settings (c : C) (d : D) (n : N) w :
  let endpoint := wg_endpoint (set_profile settings) in
  wp (with_runners settings c d n)
    (λ r s, ∀ conn, r = Ok conn → ∃ address, parse_ip (host endpoint) = Some address ∧
      of_controller (connection_traced (mkNftables address (port endpoint)) (accepted n w)
        (set_always_on settings) (set_interface settings)) (conn, s.2)) (tt, w).
Proof.
  cbn zeta. unfold with_runners. wp_run. destruct (parse_ip _) as [address|]; cbn [ok_or]; wp_run; [|done].
  destruct (validate_transport _) as [[]|e|]; cbn [map_err]; wp_run; [|done..].
  destruct (validate_dns (set_dns settings)) as [[]|e|]; cbn [map_err]; wp_run; [|done..].
  apply wp_consuming. unfold linux_backend_new. wp_run.
  apply wp_validate_backend_tools; [intros w1 _ _ Hp1|by intros; wp_run].
  wp_run. cbn [map_err snd]. wp_run. unfold adapter_new.
  destruct (wg_valid_interface (set_interface settings)); cbn [negb]; [|by wp_run].
  destruct (validate_wireguard _) as [[]|e|]; cbn [mbind result_bind map_err]; wp_run; [|done..].
  apply wp_consuming. unfold dns_new, validate_dns_tools. wp_run.
  apply wp_validate_executable; [intros m w2 _ _ _ Hp2|by intros; wp_run].
  wp_run. cbn [map_err snd]. wp_run. apply wp_consuming. unfold controller_new. wp_run. apply wp_intro.
  intros [[]|e|] [f w3] Ha; repeat (cbn [map_err snd]; wp_run); [|done..]. intros conn [= <-].
  exists address. split; [done|]. split_and!; [done..|]. exists []. split; [|apply walk_start].
  refine (nft_log_apply _ _ _ _ _ _ _ _ [] Ha _). split; [done|]. exists []. split; [|constructor]. cbn.
  apply accepted_frame, piped_processes. congruence.
Qed.
End connection_trace.

(** ** Theorem *)

(** C9: the managed connection refines the policy transition system.  From a
    successful [with_runners], along every sequence of calls with any results,
    the transactions [nft] accepted since are, one for one, the renderings of a
    walk from blocking to the recorded policy: the tunnel of the settings is
    opened only while everything is blocked, an open tunnel is always blocked
    again before filtering can end, no other interface is ever let through, and
    an always-on client never had filtering off at any point of the walk. *)
Theorem connection_refines_policy {C D N} `{RunnerSpec C} `{RunnerSpec D} `{NftablesSpec N}
    `{UnicodeTables} settings (c : C) (d : D) (n : N) w conn t conn' w' :
  with_runners settings c d n (tt, w) = (Ok conn, t) →
  connection_steps (conn, t.2) (conn', w') →
  let endpoint := wg_endpoint (set_profile settings) in
  ∃ address policies rules, parse_ip (host endpoint) = Some address ∧
    accepted (nft_runner (firewall (controller conn'))) w' = (rules ++ accepted n w)%list ∧
    Forall2 (λ p text, render (mkNftables address (port endpoint)) p = Ok text)
      (connection_policy conn' :: policies) rules ∧
    policy_walk (set_always_on settings) (set_interface settings) (connection_policy conn' :: policies) ∧
    (set_always_on settings = true → Disabled ∉ policies).
Proof.
  intros Hnew Hsteps endpoint.
  pose proof (with_runners_traced settings c d n w) as Hbuilt. cbn zeta in Hbuilt.
  destruct (wp_elim _ _ _ _ _ Hbuilt Hnew conn eq_refl) as (address & Hip & Hs).
  apply (traced_steps _ _ _ _ _ _ Hs) in Hsteps as (_ & _ & _ & policies & [_ (rules & Ha & Hr)] & Hwalk).
  exists address, policies, rules. split_and!; [done..|]. intros Hon. rewrite Hon in Hwalk.
  apply walk_always_filters in Hwalk. rewrite elem_of_cons in Hwalk. tauto.
Qed.

(** ** Witness: connected, disconnected and released *)

Definition sample_disconnected := connection_disconnect (sample_session false).2.
Definition sample_released := connection_disable sample_disconnected.2.

Lemma sample_released_steps :
  connection_steps ((sample_connection false).1, (sample_build false).2.2)
    (sample_released.2.1, sample_released.2.2).
Proof.
  apply (connection_step _ CallConnectionDisable (sample_disconnected.2.1, sample_disconnected.2.2) (Ok tt));
    [|vm_compute; reflexivity|discriminate].
  apply (connection_step _ CallConnectionDisconnect ((sample_session false).2.1, (sample_session false).2.2) (Ok tt));
    [|vm_compute; reflexivity|discriminate].
  exact sample_session_steps.
Qed.

Lemma connection_refines_policy_witness :
  connection_policy sample_released.2.1 = Disabled ∧
  ∃ policies, length policies = 4%nat ∧ policy_walk false "cyberia0" (Disabled :: policies).
Proof.
  assert (connection_policy sample_released.2.1 = Disabled) as Hp by (vm_compute; reflexivity).
  split; [exact Hp|].
  destruct (connection_refines_policy sample_settings system_command_runner system_command_runner sample_nft
    (mkWorld (host_env false) []) (sample_connection false).1 (sample_build false).2
    sample_released.2.1 sample_released.2.2 (sample_build_ok false) sample_released_steps)
    as (address & policies & rules & _ & Ha & Hr & Hw & _).
  rewrite Hp in Hr, Hw. exists policies. split; [|exact Hw].
  apply (f_equal length) in Ha. rewrite length_app in Ha. apply Forall2_length in Hr. cbn in Hr.
  assert (length (accepted (nft_runner (firewall (controller sample_released.2.1))) sample_released.2.2) = 5%nat) as Hl
    by (vm_compute; reflexivity).
  assert (length (accepted sample_nft (mkWorld (host_env false) [])) = 0%nat) as H0 by (vm_compute; reflexivity).
  lia.
Defined.
