(* ===== verification/Netfilter.v ===== *)
(** What the firewall texts do to packets.

    [core/killswitch/src/linux.rs] and [core/transport/src/linux.rs] end in
    texts for [nft]; the kernel gives them their meaning.  The fragment of the
    nftables language the program writes is read here into commands over tables
    of chains, and the class [Netfilter] states what the documentation promises
    of any kernel: a transaction that was accepted has run its commands in
    order, and a packet passes a hook only if every chain registered there
    accepts it.  The theorems follow a packet through the texts of the kill
    switch and of the node gateway. *)

From S2P Require Import Prelude Machine Text Net Env Transport WireGuard KillSwitch Process Nftables Linux LinuxNode Connection.
Open Scope string_scope.
Open Scope Z_scope.

(** ** Packets, rules and chains *)

Record Packet := mkPacket {
  pk_input : string;
  pk_output : string;
  pk_source : IpAddr;
  pk_destination : IpAddr;
  pk_udp_port : option Z;
  pk_established : bool;
}.

Inductive Match :=
| OutputInterface (name : string)
| InputInterface (name : string)
| DestinationIs (a : IpAddr)
| SourceIn (n : AllowedIp)
| UdpPort (p : Z)
| EstablishedFlow.

Inductive Verdict := Accept | Drop | Masquerade.

Record Rule := mkRule { rule_matches : list Match; rule_verdict : Verdict }.

Record Chain := mkChain {
  chain_type : string;
  chain_hook : string;
  chain_priority : string;
  chain_policy : Verdict;
  chain_rules : list Rule;
}.

#[export] Instance verdict_eq_dec : EqDecision Verdict.
Proof. solve_decision. Defined.

Abbreviation Tables := (gmap string (gmap string Chain)).

Definition matches (p : Packet) (m : Match) : bool :=
  match m with
  | OutputInterface name => bool_decide (pk_output p = name)
  | InputInterface name => bool_decide (pk_input p = name)
  | DestinationIs a => bool_decide (pk_destination p = a)
  | SourceIn n => bool_decide (in_prefix (ai_network n) (ai_prefix_length n) (pk_source p))
  | UdpPort port => bool_decide (pk_udp_port p = Some port)
  | EstablishedFlow => pk_established p
  end.

Definition applies (p : Packet) (r : Rule) : bool := forallb (matches p) (rule_matches r).

(** The verdict of the first rule that applies. *)
Fixpoint first_verdict (rules : list Rule) (p : Packet) : option Verdict :=
  match rules with
  | [] => None
  | r :: rules => if applies p r then Some (rule_verdict r) else first_verdict rules p
  end.

(** A packet goes on unless it is dropped by a rule or, when no rule applies,
    by the policy of the chain. *)
Definition chain_passes (c : Chain) (p : Packet) : bool :=
  bool_decide (default (chain_policy c) (first_verdict (chain_rules c) p) ≠ Drop).

(** ** The language *)

Inductive NftStatement :=
| AddTable (table : string)
| FlushTable (table : string)
| DeleteTable (table : string)
| AddChain (table chain : string) (shape : Chain)
| AddRule (table chain : string) (rule : Rule).

(** A quoted interface name; a star would make it a pattern. *)
Definition read_name (word : string) : option string :=
  match word with
  | String c rest =>
      if negb (Ascii.eqb c (ascii_of_nat 34)) then None else
      '(name, after) ← split_once (ascii_of_nat 34) rest;
      if is_empty after && negb (contains_char "*"%char name) then Some name else None
  | "" => None
  end.

(** An address of the family the keyword names. *)
Definition of_family (family : string) (a : IpAddr) : bool :=
  String.eqb family (if is_ipv4 a then "ip" else "ip6").

Definition read_address (family word : string) : option IpAddr :=
  a ← parse_ip word;
  if of_family family a then Some a else None.

Definition read_network (family word : string) : option AllowedIp :=
  '(address, length) ← split_once "/"%char word;
  a ← read_address family address;
  p ← parse_dec 8 length;
  if p <=? width a then Some (mkAllowedIp a p) else None.

Definition read_verdict (word : string) : option Verdict :=
  if String.eqb word "accept" then Some Accept
  else if String.eqb word "drop" then Some Drop
  else if String.eqb word "masquerade" then Some Masquerade
  else None.

(** A match of two words, or of a keyword, a field and a value. *)
Definition read_pair (keyword value : string) : option Match :=
  if String.eqb keyword "oifname" then OutputInterface <$> read_name value
  else if String.eqb keyword "iifname" then InputInterface <$> read_name value
  else None.

Definition read_triple (keyword field value : string) : option Match :=
  if String.eqb field "daddr" then DestinationIs <$> read_address keyword value
  else if String.eqb field "saddr" then SourceIn <$> read_network keyword value
  else if String.eqb keyword "udp" && String.eqb field "dport" then UdpPort <$> parse_dec 16 value
  else if bool_decide ([keyword; field; value] = ["ct"; "state"; "established,related"])
  then Some EstablishedFlow
  else None.

Definition add_match (m : Match) (r : Rule) : Rule := mkRule (m :: rule_matches r) (rule_verdict r).

Fixpoint read_rule (words : list string) : option Rule :=
  match words with
  | [] => None
  | [word] => mkRule [] <$> read_verdict word
  | keyword :: value :: words' =>
      match read_pair keyword value with
      | Some m => add_match m <$> read_rule words'
      | None =>
          match words' with
          | [] => None
          | value' :: words'' =>
              m ← read_triple keyword value value';
              add_match m <$> read_rule words''
          end
      end
  end.

Definition read_policy (word : string) : option Verdict :=
  if String.eqb word "accept;" then Some Accept
  else if String.eqb word "drop;" then Some Drop
  else None.

Definition read_shape (words : list string) : option Chain :=
  match words with
  | [w1; w2; type; w3; hook; w4; priority; w5; policy; w6] =>
      if bool_decide ([w1; w2; w3; w4; w5; w6] = ["{"; "type"; "hook"; "priority"; "policy"; "}"])
      then policy ← read_policy policy; Some (mkChain type hook priority policy [])
      else None
  | _ => None
  end.

(** One line, already split into words; only the [inet] family is read. *)
Definition read_statement (words : list string) : option NftStatement :=
  match words with
  | verb :: object :: family :: table :: rest =>
      if negb (String.eqb family "inet") then None else
      match rest with
      | [] =>
          if negb (String.eqb object "table") then None
          else if String.eqb verb "add" then Some (AddTable table)
          else if String.eqb verb "flush" then Some (FlushTable table)
          else if String.eqb verb "delete" then Some (DeleteTable table)
          else None
      | chain :: rest =>
          if negb (String.eqb verb "add") then None
          else if String.eqb object "chain" then AddChain table chain <$> read_shape rest
          else if String.eqb object "rule" then AddRule table chain <$> read_rule rest
          else None
      end
  | _ => None
  end.

Definition read_text (text : string) : option (list NftStatement) := mapM read_statement (words_of text).

(** ** Running statements *)

Definition clear_rules (c : Chain) : Chain :=
  mkChain (chain_type c) (chain_hook c) (chain_priority c) (chain_policy c) [].

Definition push_rule (r : Rule) (c : Chain) : Chain :=
  mkChain (chain_type c) (chain_hook c) (chain_priority c) (chain_policy c) (chain_rules c ++ [r]).

(** An existing chain keeps its rules and takes the policy; it cannot change
    its type, hook or priority. *)
Definition reshape (shape : Chain) (old : option Chain) : option Chain :=
  match old with
  | None => Some shape
  | Some c =>
      if bool_decide ((chain_type c, chain_hook c, chain_priority c) =
                      (chain_type shape, chain_hook shape, chain_priority shape))
      then Some (mkChain (chain_type c) (chain_hook c) (chain_priority c) (chain_policy shape) (chain_rules c))
      else None
  end.

Definition execute (s : NftStatement) (ts : Tables) : option Tables :=
  match s with
  | AddTable t => Some (<[t := default ∅ (ts !! t)]> ts)
  | FlushTable t => chains ← ts !! t; Some (<[t := clear_rules <$> chains]> ts)
  | DeleteTable t => chains ← ts !! t; Some (delete t ts)
  | AddChain t c shape =>
      chains ← ts !! t; chain ← reshape shape (chains !! c); Some (<[t := <[c := chain]> chains]> ts)
  | AddRule t c r =>
      chains ← ts !! t; chain ← chains !! c; Some (<[t := <[c := push_rule r chain]> chains]> ts)
  end.

Fixpoint execute_all (ss : list NftStatement) (ts : Tables) : option Tables :=
  match ss with
  | [] => Some ts
  | s :: ss => ts ← execute s ts; execute_all ss ts
  end.

(** ** The kernel *)

(** [nft_file] is one [nft --file -] run, refused as a whole or accepted;
    [passes] says whether the kernel lets a packet through a hook, which is also
    up to other rules and to routing. *)
Class Netfilter := {
  Kernel : Type;
  tables : Kernel → Tables;
  nft_file : Kernel → string → option Kernel;
  passes : Kernel → string → Packet → bool;
  accepted_in_order : ∀ k text k' ss,
    nft_file k text = Some k' → read_text text = Some ss → execute_all ss (tables k) = Some (tables k');
  drop_is_final : ∀ k hook p t chains name c,
    passes k hook p = true → tables k !! t = Some chains → chains !! name = Some c →
    chain_hook c = hook → chain_type c = "filter" → chain_passes c p = true;
}.

(** ** Reading what the program writes *)

Lemma read_quoted name :
  contains_char (ascii_of_nat 34) name = false → contains_char "*"%char name = false →
  read_name (quote +:+ name +:+ quote) = Some name.
Proof.
  intros Hq Hs. change (quote +:+ name +:+ quote) with (String (ascii_of_nat 34) (name +:+ quote)).
  cbn [read_name]. rewrite Ascii.eqb_refl. cbn [negb]. change quote with (String (ascii_of_nat 34) "").
  rewrite split_once_app by done. cbn. by rewrite Hs.
Qed.

Lemma read_display family a :
  ip_typed a → family = (if is_ipv4 a then "ip" else "ip6") → read_address family (display_ip a) = Some a.
Proof. intros Ha ->. unfold read_address, of_family. rewrite parse_display by done. cbn. by rewrite String.eqb_refl. Qed.

Lemma read_cidr family n :
  network_typed n → ai_prefix_length n ≤ width (ai_network n) →
  family = (if is_ipv4 (ai_network n) then "ip" else "ip6") →
  read_network family (cidr (ai_network n) (ai_prefix_length n)) = Some n.
Proof.
  intros [Ha Hp] Hw Hf. unfold read_network, cidr.
  change ("/" +:+ to_dec (ai_prefix_length n)) with (String "/" (to_dec (ai_prefix_length n))).
  rewrite split_once_app; [|apply (all_bytes_excludes is_ip_char); [apply display_ip_chars|done]].
  cbn [mbind option_bind]. rewrite read_display by done. cbn [mbind option_bind].
  rewrite parse_to_dec by done. cbn [mbind option_bind]. rewrite (proj2 (Z.leb_le _ _) Hw). by destruct n.
Qed.

Lemma nft_name_plain name :
  nft_valid_interface name = true → read_name (quote +:+ name +:+ quote) = Some name.
Proof.
  intros [_ Hb]%andb_true_iff. apply read_quoted; (eapply all_bytes_excludes; [exact Hb|by vm_compute]).
Qed.

Lemma linux_name_plain name :
  linux_valid_interface name = true → read_name (quote +:+ name +:+ quote) = Some name.
Proof.
  intros [_ Hb]%andb_true_iff. apply read_quoted; (eapply all_bytes_excludes; [exact Hb|by vm_compute]).
Qed.

Lemma read_pair_family a value : read_pair (if is_ipv4 a then "ip" else "ip6") value = None.
Proof. by destruct (is_ipv4 a). Qed.

(** ** The kill switch *)

Definition output_shape : Chain := mkChain "filter" "output" "-100;" Drop [].

Definition accept_if (ms : list Match) : Rule := mkRule ms Accept.

Definition policy_rules (c : NftablesConfig) (p : TrafficPolicy) : list Rule :=
  ([accept_if [OutputInterface "lo"];
    accept_if [DestinationIs (endpoint_address c); UdpPort (endpoint_port c)]] ++
   match p with TunnelOnly name => [accept_if [OutputInterface name]] | _ => [] end)%list.

Definition policy_statements (c : NftablesConfig) (p : TrafficPolicy) : list NftStatement :=
  ([AddTable TABLE_NAME; FlushTable TABLE_NAME] ++
   match p with
   | Disabled => [DeleteTable TABLE_NAME]
   | _ => AddChain TABLE_NAME "output" output_shape :: map (AddRule TABLE_NAME "output") (policy_rules c p)
   end)%list.

Lemma read_endpoint_rule c :
  nftables_typed c →
  read_rule [(if is_ipv4 (endpoint_address c) then "ip" else "ip6"); "daddr"; display_ip (endpoint_address c);
             "udp"; "dport"; to_dec (endpoint_port c); "accept"] =
    Some (accept_if [DestinationIs (endpoint_address c); UdpPort (endpoint_port c)]).
Proof.
  intros [Ha Hp]. cbn [read_rule]. rewrite read_pair_family.
  assert (∀ family value, read_triple family "daddr" value = DestinationIs <$> read_address family value)
    as -> by done.
  rewrite read_display by done. cbn -[parse_dec to_dec display_ip]. by rewrite parse_to_dec.
Qed.

Lemma read_oifname name :
  read_name (quote +:+ name +:+ quote) = Some name →
  read_rule ["oifname"; quote +:+ name +:+ quote; "accept"] = Some (accept_if [OutputInterface name]).
Proof. intros Hn. cbn [read_rule]. unfold read_pair. cbn [String.eqb Ascii.eqb Bool.eqb]. by rewrite Hn. Qed.

Lemma read_policy_lines c p :
  nftables_typed c → policy_acceptable p = true →
  mapM read_statement (policy_lines c p) = Some (policy_statements c p).
Proof.
  intros Hc Hp. pose proof (read_endpoint_rule c Hc) as He. pose proof (read_oifname "lo" eq_refl) as Hlo.
  unfold policy_lines, policy_statements, policy_rules.
  revert He Hlo. generalize (display_ip (endpoint_address c)) as address.
  generalize (to_dec (endpoint_port c)) as port. generalize (quote +:+ "lo" +:+ quote) as lo.
  generalize (if is_ipv4 (endpoint_address c) then "ip" else "ip6") as family. intros family lo port address He Hlo.
  destruct p as [| |name]; [reflexivity|..].
  - cbn -[read_rule]. rewrite Hlo. cbn -[read_rule]. by rewrite He.
  - pose proof (read_oifname name (nft_name_plain name Hp)) as Hn. revert Hn.
    generalize (quote +:+ name +:+ quote) as quoted. intros quoted Hn.
    cbn -[read_rule]. rewrite Hlo. cbn -[read_rule]. rewrite He. cbn -[read_rule]. by rewrite Hn.
Qed.

(** ** What a sequence of statements leaves *)

Definition statement_table (s : NftStatement) : string :=
  match s with AddTable t | FlushTable t | DeleteTable t | AddChain t _ _ | AddRule t _ _ => t end.

(** Statements leave the tables of others alone. *)
Lemma execute_all_frame t ss ts ts' :
  Forall (λ s, statement_table s = t) ss → execute_all ss ts = Some ts' →
  ∀ t', t' ≠ t → ts' !! t' = ts !! t'.
Proof.
  intros Hss. revert ts. induction Hss as [|s ss Hs Hss IH]; intros ts Hrun t' Hne; [by injection Hrun as ->|].
  cbn in Hrun. apply bind_Some in Hrun as (ts1 & H1 & Hrun). rewrite (IH _ Hrun t' Hne).
  destruct s; cbn in Hs, H1; subst; simplify_option_eq; by rewrite ?lookup_insert_ne, ?lookup_delete_ne by congruence.
Qed.

Lemma execute_all_app ss1 ss2 ts :
  execute_all (ss1 ++ ss2) ts = execute_all ss1 ts ≫= execute_all ss2.
Proof.
  revert ts. induction ss1 as [|s ss1 IH]; intros ts; [done|]. cbn. destruct (execute s ts); [apply IH|done].
Qed.

Definition append_rules (rules : list Rule) (c : Chain) : Chain :=
  mkChain (chain_type c) (chain_hook c) (chain_priority c) (chain_policy c) (chain_rules c ++ rules).

(** The rules a list of additions puts into one chain. *)
Definition rules_for (name : string) (additions : list (string * Rule)) : list Rule :=
  map snd (filter (λ x, x.1 = name) additions).

Lemma execute_rules t additions ts ts' chains :
  ts !! t = Some chains →
  execute_all (map (λ x, AddRule t x.1 x.2) additions) ts = Some ts' →
  ∃ chains', ts' !! t = Some chains' ∧
    ∀ name c, chains !! name = Some c → chains' !! name = Some (append_rules (rules_for name additions) c).
Proof.
  revert ts chains. induction additions as [|[name r] additions IH]; intros ts chains Hts Hrun.
  - injection Hrun as <-. exists chains. split; [done|]. intros name c Hc. rewrite Hc. unfold append_rules. cbn.
    rewrite app_nil_r. by destruct c.
  - cbn in Hrun. apply bind_Some in Hrun as (ts1 & H1 & Hrun). rewrite Hts in H1. cbn in H1.
    apply bind_Some in H1 as (old & Hold & [= <-]).
    destruct (IH _ (<[name := push_rule r old]> chains) ltac:(by rewrite lookup_insert_eq) Hrun) as (chains' & Hc' & Hall).
    exists chains'. split; [done|]. intros name' c Hc. unfold rules_for. rewrite filter_cons.
    destruct (decide (name = name')) as [->|Hne].
    + rewrite decide_True by done. assert (old = c) as -> by congruence.
      rewrite (Hall name' (push_rule r c)) by (by rewrite lookup_insert_eq).
      unfold append_rules, push_rule. cbn. by rewrite <-app_assoc.
    + rewrite decide_False by done. apply Hall. by rewrite lookup_insert_ne.
Qed.

Lemma rules_for_same name rules : rules_for name (map (λ r, (name, r)) rules) = rules.
Proof. unfold rules_for. induction rules as [|r rules IH]; [done|]. cbn [map]. rewrite filter_cons_True by done. cbn. by rewrite IH. Qed.

(** A chain is declared and filled. *)
Lemma execute_chain t name shape rules ts ts' chains :
  ts !! t = Some chains →
  execute_all (AddChain t name shape :: map (AddRule t name) rules) ts = Some ts' →
  ∃ chains' c, reshape shape (chains !! name) = Some c ∧ ts' !! t = Some chains' ∧
    chains' !! name = Some (append_rules rules c).
Proof.
  intros Hts Hrun. cbn [execute_all execute] in Hrun. rewrite Hts in Hrun. cbn [mbind option_bind] in Hrun.
  apply bind_Some in Hrun as (ts1 & (c & Hc & [= <-])%bind_Some & Hrun).
  assert (map (AddRule t name) rules = map (λ x, AddRule t x.1 x.2) (map (λ r, (name, r)) rules)) as Hmap
    by by rewrite map_map.
  rewrite Hmap in Hrun.
  destruct (execute_rules t _ _ ts' (<[name := c]> chains) ltac:(by rewrite lookup_insert_eq) Hrun)
    as (chains' & Hc' & Hrules).
  specialize (Hrules name c ltac:(by rewrite lookup_insert_eq)). rewrite rules_for_same in Hrules. eauto.
Qed.

Lemma reshape_cleared shape old :
  chain_rules shape = [] → ∀ c, reshape shape (clear_rules <$> old) = Some c → c = shape.
Proof.
  intros Hs c. destruct old as [o|]; cbn; [case_bool_decide as Heq; [|done]|congruence].
  injection Heq as Ht Hh Hp. intros [= <-]. rewrite Ht, Hh, Hp. destruct shape; cbn in *. congruence.
Qed.

(** Whatever was there, the text of a policy leaves the output chain with
    exactly its rules, or no table. *)
Definition policy_installed (c : NftablesConfig) (p : TrafficPolicy) (ts : Tables) : Prop :=
  match p with
  | Disabled => ts !! TABLE_NAME = None
  | _ => ∃ chains, ts !! TABLE_NAME = Some chains ∧
      chains !! "output" = Some (append_rules (policy_rules c p) output_shape)
  end.

Lemma execute_policy c p ts ts' :
  execute_all (policy_statements c p) ts = Some ts' → policy_installed c p ts'.
Proof.
  unfold policy_statements. rewrite execute_all_app. intros (ts1 & H1 & Hrun)%bind_Some.
  cbn in H1. rewrite lookup_insert_eq in H1. cbn in H1. injection H1 as <-. rewrite insert_insert_eq in Hrun.
  set (chains := clear_rules <$> default ∅ (ts !! TABLE_NAME)) in Hrun.
  assert (p ≠ Disabled →
    execute_all (AddChain TABLE_NAME "output" output_shape :: map (AddRule TABLE_NAME "output") (policy_rules c p))
      (<[TABLE_NAME:=chains]> ts) = Some ts' → policy_installed c p ts') as Hchain.
  { intros Hp Hall. destruct (execute_chain _ _ _ _ _ _ chains ltac:(by rewrite lookup_insert_eq) Hall)
      as (chains' & ch & Hsh & Hc' & Hout).
    unfold chains in Hsh. rewrite lookup_fmap in Hsh. apply reshape_cleared in Hsh as ->; [|done].
    by destruct p; [|exists chains'..]. }
  destruct p; [|by apply Hchain..]. cbn in Hrun. rewrite lookup_insert_eq in Hrun. cbn in Hrun. injection Hrun as <-.
  cbn. apply lookup_delete_eq.
Qed.

(** The packets a policy lets out: loopback, the tunnel's own datagrams to the
    endpoint and, once the tunnel is up, what is routed into it. *)
Definition allowed (c : NftablesConfig) (p : TrafficPolicy) (pkt : Packet) : bool :=
  bool_decide (pk_output pkt = "lo")
  || bool_decide (pk_destination pkt = endpoint_address c ∧ pk_udp_port pkt = Some (endpoint_port c))
  || match p with TunnelOnly name => bool_decide (pk_output pkt = name) | _ => false end.

Lemma policy_chain_passes c p pkt :
  chain_passes (append_rules (policy_rules c p) output_shape) pkt = allowed c p pkt.
Proof.
  assert (∀ b : bool, bool_decide (default Drop (if b then Some Accept else None) ≠ Drop) = b) as Hif
    by by intros [].
  assert (∀ ms, applies pkt (accept_if ms) = forallb (matches pkt) ms) as Happ by done.
  unfold chain_passes, allowed, append_rules, output_shape, policy_rules.
  cbn [chain_policy chain_rules app first_verdict rule_verdict accept_if]. rewrite !Happ. cbn [forallb matches].
  rewrite bool_decide_and, !andb_true_r. destruct (bool_decide (pk_output pkt = "lo")); [done|].
  cbn [orb]. destruct (bool_decide _ && bool_decide _); [done|].
  destruct p; [done..|]. cbn [first_verdict rule_verdict accept_if orb]. rewrite Happ. cbn [forallb matches].
  rewrite andb_true_r. apply Hif.
Qed.

(** ** The node gateway *)

Definition GATEWAY_TABLE : string := "cyberia_vpn_node".

Definition forward_shape : Chain := mkChain "filter" "forward" "0;" Drop [].
Definition postrouting_shape : Chain := mkChain "nat" "postrouting" "100;" Accept [].

(** The rules of one client network, with their chains. *)
Definition network_additions (wireguard uplink : string) (n : AllowedIp) : list (string * Rule) :=
  [("forward", accept_if [InputInterface wireguard; OutputInterface uplink; SourceIn n]);
   ("postrouting", mkRule [OutputInterface uplink; SourceIn n] Masquerade)].

Definition gateway_additions (wireguard uplink : string) (networks : list AllowedIp) : list (string * Rule) :=
  ("forward", accept_if [EstablishedFlow]) :: concat (map (network_additions wireguard uplink) networks).

Definition gateway_statements (wireguard uplink : string) (networks : list AllowedIp) : list NftStatement :=
  ([AddTable GATEWAY_TABLE; AddChain GATEWAY_TABLE "forward" forward_shape;
    AddChain GATEWAY_TABLE "postrouting" postrouting_shape] ++
   map (λ x, AddRule GATEWAY_TABLE x.1 x.2) (gateway_additions wireguard uplink networks))%list.

Definition readable (n : AllowedIp) : Prop := network_typed n ∧ ai_prefix_length n ≤ width (ai_network n).

Lemma read_source family n ws :
  readable n → family = (if is_ipv4 (ai_network n) then "ip" else "ip6") →
  read_rule (family :: "saddr" :: cidr (ai_network n) (ai_prefix_length n) :: ws) =
    add_match (SourceIn n) <$> read_rule ws.
Proof.
  intros [Ht Hw] Hf. cbn [read_rule]. rewrite Hf, read_pair_family, <-Hf.
  assert (∀ value, read_triple family "saddr" value = SourceIn <$> read_network family value) as -> by done.
  by rewrite read_cidr.
Qed.

Lemma read_interface keyword name m ws :
  read_name (quote +:+ name +:+ quote) = Some name →
  (keyword = "oifname" ∧ m = OutputInterface name ∨ keyword = "iifname" ∧ m = InputInterface name) →
  read_rule (keyword :: (quote +:+ name +:+ quote) :: ws) = add_match m <$> read_rule ws.
Proof.
  intros Hn Hk. assert (read_pair keyword (quote +:+ name +:+ quote) = Some m) as Hp
    by (unfold read_pair; rewrite Hn; by destruct Hk as [[-> ->]|[-> ->]]).
  destruct ws; cbn [read_rule]; by rewrite Hp.
Qed.

Lemma read_add_rule table chain words :
  read_statement ("add" :: "rule" :: "inet" :: table :: chain :: words) = AddRule table chain <$> read_rule words.
Proof. done. Qed.

Lemma read_gateway_lines wireguard uplink p :
  linux_valid_interface wireguard = true → linux_valid_interface uplink = true →
  Forall readable (client_networks p) →
  mapM read_statement (gateway_lines wireguard uplink p) =
    Some (gateway_statements wireguard uplink (client_networks p)).
Proof.
  intros Hw%linux_name_plain Hu%linux_name_plain Hnet. apply mapM_Some.
  change (gateway_statements wireguard uplink (client_networks p)) with
    (gateway_statements wireguard uplink [] ++ map (λ x, AddRule GATEWAY_TABLE x.1 x.2)
      (concat (map (network_additions wireguard uplink) (client_networks p))))%list.
  unfold gateway_lines. apply Forall2_app.
  { repeat (constructor; [by vm_compute|]). constructor. }
  induction Hnet as [|n l Hn Hnet IH]; [constructor|]. cbn [map concat]. rewrite map_app.
  apply Forall2_app; [|exact IH].
  constructor; [|constructor; [|constructor]]; cbn [app map network_additions]; rewrite read_add_rule.
  - rewrite (read_interface _ _ (InputInterface wireguard)) by auto.
    rewrite (read_interface _ _ (OutputInterface uplink)) by auto. by rewrite read_source.
  - rewrite (read_interface _ _ (OutputInterface uplink)) by auto. by rewrite read_source.
Qed.

(** The gateway text only adds: the chains keep the rules they had. *)
Lemma execute_gateway wireguard uplink networks ts ts' :
  execute_all (gateway_statements wireguard uplink networks) ts = Some ts' →
  ∃ chains forward postrouting,
    reshape forward_shape (default ∅ (ts !! GATEWAY_TABLE) !! "forward") = Some forward ∧
    reshape postrouting_shape (default ∅ (ts !! GATEWAY_TABLE) !! "postrouting") = Some postrouting ∧
    ts' !! GATEWAY_TABLE = Some chains ∧
    chains !! "forward" =
      Some (append_rules (rules_for "forward" (gateway_additions wireguard uplink networks)) forward) ∧
    chains !! "postrouting" =
      Some (append_rules (rules_for "postrouting" (gateway_additions wireguard uplink networks)) postrouting).
Proof.
  unfold gateway_statements. rewrite execute_all_app. generalize (gateway_additions wireguard uplink networks).
  intros additions (ts1 & H1 & Hrun)%bind_Some. set (old := default ∅ (ts !! GATEWAY_TABLE)) in *.
  cbn [execute_all execute mbind option_bind] in H1. fold old in H1. rewrite lookup_insert_eq in H1.
  cbn [mbind option_bind] in H1. apply bind_Some in H1 as (ts2 & (forward & Hf & [= <-])%bind_Some & H1).
  rewrite lookup_insert_eq in H1. cbn [mbind option_bind] in H1.
  apply bind_Some in H1 as (ts2 & (postrouting & Hp & [= <-])%bind_Some & [= <-]).
  rewrite lookup_insert_ne in Hp by done.
  destruct (execute_rules _ _ _ _ _ ltac:(by rewrite lookup_insert_eq) Hrun) as (chains & Hc & Hrules).
  exists chains, forward, postrouting. split_and!; [done..| |]; apply Hrules.
  - rewrite lookup_insert_ne by done. apply lookup_insert_eq.
  - apply lookup_insert_eq.
Qed.

(** What the added rules decide. *)
Definition from_client (wireguard uplink : string) (networks : list AllowedIp) (p : Packet) : Prop :=
  pk_input p = wireguard ∧ pk_output p = uplink ∧ Exists (λ n, in_network n (pk_source p)) networks.

Definition leaves_from (uplink : string) (networks : list AllowedIp) (p : Packet) : Prop :=
  pk_output p = uplink ∧ Exists (λ n, in_network n (pk_source p)) networks.

#[export] Instance in_network_dec n a : Decision (in_network n a).
Proof. unfold in_network. apply _. Defined.
#[export] Instance from_client_dec wireguard uplink networks p : Decision (from_client wireguard uplink networks p).
Proof. unfold from_client. apply _. Defined.
#[export] Instance leaves_from_dec uplink networks p : Decision (leaves_from uplink networks p).
Proof. unfold leaves_from. apply _. Defined.

Lemma rules_for_app name l1 l2 : rules_for name (l1 ++ l2) = (rules_for name l1 ++ rules_for name l2)%list.
Proof. unfold rules_for. by rewrite filter_app, map_app. Qed.

Lemma first_verdict_app l1 l2 p :
  first_verdict (l1 ++ l2) p =
    match first_verdict l1 p with Some v => Some v | None => first_verdict l2 p end.
Proof. induction l1 as [|r l1 IH]; [done|]. cbn. by destruct (applies p r). Qed.

Lemma first_single ms v p :
  first_verdict [mkRule ms v] p = if forallb (matches p) ms then Some v else None.
Proof. done. Qed.

Lemma first_accept ms p :
  first_verdict [accept_if ms] p = if forallb (matches p) ms then Some Accept else None.
Proof. apply first_single. Qed.

Lemma forward_verdict wireguard uplink networks p :
  first_verdict (rules_for "forward" (gateway_additions wireguard uplink networks)) p =
    if pk_established p || bool_decide (from_client wireguard uplink networks p) then Some Accept else None.
Proof.
  change (gateway_additions wireguard uplink networks) with
    ([("forward", accept_if [EstablishedFlow])] ++ concat (map (network_additions wireguard uplink) networks))%list.
  rewrite rules_for_app, first_verdict_app.
  change (rules_for "forward" [("forward", accept_if [EstablishedFlow])]) with [accept_if [EstablishedFlow]].
  rewrite first_accept. cbn [forallb matches]. rewrite andb_true_r. destruct (pk_established p); [done|]. cbn [orb].
  induction networks as [|n l IH]; cbn [map concat].
  { rewrite bool_decide_eq_false_2; [done|]. intros (_ & _ & Hex). inversion Hex. }
  rewrite rules_for_app, first_verdict_app, IH. clear IH.
  change (rules_for "forward" (network_additions wireguard uplink n)) with
    [accept_if [InputInterface wireguard; OutputInterface uplink; SourceIn n]].
  rewrite first_accept. cbn [forallb matches]. rewrite andb_true_r, <-!bool_decide_and. unfold from_client.
  repeat case_bool_decide; rewrite ?Exists_cons in *; unfold in_network in *; naive_solver.
Qed.

Lemma postrouting_verdict wireguard uplink networks p :
  first_verdict (rules_for "postrouting" (gateway_additions wireguard uplink networks)) p =
    if bool_decide (leaves_from uplink networks p) then Some Masquerade else None.
Proof.
  change (gateway_additions wireguard uplink networks) with
    ([("forward", accept_if [EstablishedFlow])] ++ concat (map (network_additions wireguard uplink) networks))%list.
  rewrite rules_for_app, first_verdict_app.
  change (rules_for "postrouting" [("forward", accept_if [EstablishedFlow])]) with (@nil Rule).
  cbn [first_verdict]. induction networks as [|n l IH]; cbn [map concat].
  { rewrite bool_decide_eq_false_2; [done|]. intros (_ & Hex). inversion Hex. }
  rewrite rules_for_app, first_verdict_app, IH. clear IH.
  change (rules_for "postrouting" (network_additions wireguard uplink n)) with
    [mkRule [OutputInterface uplink; SourceIn n] Masquerade].
  rewrite first_single. cbn [forallb matches]. rewrite andb_true_r, <-bool_decide_and. unfold leaves_from.
  repeat case_bool_decide; rewrite ?Exists_cons in *; unfold in_network in *; naive_solver.
Qed.

Section kernel.
Context `{Netfilter}.

Lemma policy_accepted c p rules k k' :
  nftables_typed c → render c p = Ok rules → nft_file k rules = Some k' →
  policy_installed c p (tables k') ∧ ∀ t, t ≠ TABLE_NAME → tables k' !! t = tables k !! t.
Proof.
  intros Hc Hr Hk. destruct (render_words c p rules Hc Hr) as [Hp Hw].
  assert (read_text rules = Some (policy_statements c p)) as Hread
    by (unfold read_text; rewrite Hw; by apply read_policy_lines).
  pose proof (accepted_in_order _ _ _ _ Hk Hread) as Hrun. split; [by eapply execute_policy|].
  eapply execute_all_frame; [|exact Hrun]. unfold policy_statements, policy_rules.
  destruct p; repeat constructor.
Qed.

(** An installed policy decides what leaves. *)
Lemma installed_filters c p k pkt :
  policy_installed c p (tables k) → p ≠ Disabled → passes k "output" pkt = true → allowed c p pkt = true.
Proof.
  intros Hi Hp Hpass. rewrite <-policy_chain_passes.
  destruct p; [done|..]; destruct Hi as (chains & Ht & Hc); by eapply drop_is_final.
Qed.

Lemma gateway_accepted wireguard uplink p k k' :
  interfaces_usable wireguard uplink = true → gateway_typed p → validate_gateway p = Ok tt →
  nft_file k (node_gateway_rules wireguard uplink p) = Some k' →
  execute_all (gateway_statements wireguard uplink (client_networks p)) (tables k) = Some (tables k').
Proof.
  intros [[Hw Hu]%andb_true_iff _]%andb_true_iff Ht Hv Hk. eapply accepted_in_order; [exact Hk|].
  unfold read_text. rewrite node_gateway_rules_unlines, words_unlines by by apply gateway_words.
  apply read_gateway_lines; [done..|]. destruct (validate_gateway_spec p Ht) as [_ [Hwf _]].
  destruct (Hwf Hv) as (_ & Hnet & _). apply Forall_forall. intros n Hn. split; [by eapply Forall_forall in Ht|].
  eapply Forall_forall in Hnet; [|exact Hn]. apply Hnet.
Qed.

(** A kernel that ran the accepted transactions, newest first, while everybody
    else kept away from the owned table. *)
Inductive kernel_after : list string → Kernel → Prop :=
| kernel_start k : kernel_after [] k
| kernel_transaction rules l k k' :
    kernel_after l k → nft_file k rules = Some k' → kernel_after (rules :: l) k'
| kernel_other l k k' :
    kernel_after l k → tables k' !! TABLE_NAME = tables k !! TABLE_NAME → kernel_after l k'.

Lemma installed_table c p ts ts' :
  ts' !! TABLE_NAME = ts !! TABLE_NAME → policy_installed c p ts → policy_installed c p ts'.
Proof. unfold policy_installed. by intros ->. Qed.

Lemma kernel_after_installed c p rules l k :
  nftables_typed c → render c p = Ok rules → kernel_after l k → head l = Some rules →
  policy_installed c p (tables k).
Proof.
  intros Hc Hr. induction 1 as [k|rules' l k k' _ _ Hk|l k k' _ IH Ht]; intros Hh; [done|..].
  - injection Hh as ->. by eapply policy_accepted.
  - eapply installed_table; [exact Ht|]. by apply IH.
Qed.
End kernel.

(** ** Theorems *)

(** C13: the text of the kill switch filters.  Whatever the kernel's tables were,
    once [nft] accepted the rendering of a policy for an endpoint, the owned
    chain passes exactly the packets the policy allows: on loopback, UDP to the
    endpoint's address and port, and for an established tunnel those leaving
    through its interface; nothing else leaves the machine.  The rendering of
    [Disabled] leaves no owned table.  Tables of others are untouched. *)
Theorem kill_switch_filters `{Netfilter} c p rules k k' :
  nftables_typed c → render c p = Ok rules → nft_file k rules = Some k' →
  (∀ t, t ≠ TABLE_NAME → tables k' !! t = tables k !! t) ∧
  match p with
  | Disabled => tables k' !! TABLE_NAME = None
  | _ =>
      (∃ chains chain, tables k' !! TABLE_NAME = Some chains ∧ chains !! "output" = Some chain ∧
         ∀ pkt, chain_passes chain pkt = allowed c p pkt) ∧
      ∀ pkt, passes k' "output" pkt = true → allowed c p pkt = true
  end.
Proof.
  intros Hc Hr Hk. destruct (policy_accepted c p rules k k' Hc Hr Hk) as [Hi Hf]. split; [exact Hf|].
  pose proof (λ pkt, installed_filters c p k' pkt Hi) as Hpass.
  destruct p; [exact Hi|..]; (split; [|intros pkt; by apply Hpass]); destruct Hi as (chains & Ht & Hch);
    exists chains; eexists; (split; [exact Ht|]); (split; [exact Hch|]); apply policy_chain_passes.
Qed.

(** C2: a connection does not leak.  After [with_runners] and any sequence of
    [connect], [disconnect], [disable] and [health] calls with any results, on
    any kernel that ran the accepted transactions and whose owned table nobody
    else touched: unless filtering is off, which needs a tunnel that is down and
    a client that is not always-on, every packet that leaves is on loopback,
    goes to the configured endpoint, or goes into the recorded tunnel. *)
Theorem connection_no_leak {C D N} `{RunnerSpec C} `{RunnerSpec D} `{NftablesSpec N}
    `{UnicodeTables} `{Netfilter} settings (c : C) (d : D) (n : N) w conn t conn' w' k pkt :
  u16 (port (wg_endpoint (set_profile settings))) →
  with_runners settings c d n (tt, w) = (Ok conn, t) →
  connection_steps (conn, t.2) (conn', w') →
  kernel_after (accepted (nft_runner (firewall (controller conn'))) w') k →
  passes k "output" pkt = true →
  (connection_policy conn' = Disabled ∧ transport_may_be_active (controller conn') = false ∧
   set_always_on settings = false) ∨
  ∃ address, parse_ip (host (wg_endpoint (set_profile settings))) = Some address ∧
    allowed (mkNftables address (port (wg_endpoint (set_profile settings)))) (connection_policy conn') pkt = true.
Proof.
  intros Hport Hnew Hsteps Hk Hpass.
  destruct (fail_secure_built settings c d n w conn t conn' w' Hnew Hsteps) as [(address & rules & Ha & Hr & Hh) Hoff].
  destruct (decide (connection_policy conn' = Disabled)) as [Hd|Hd]; [left; by auto|right]. exists address.
  split; [exact Ha|]. eapply installed_filters; [|exact Hd|exact Hpass].
  eapply kernel_after_installed; [|exact Hr|exact Hk|exact Hh]. split; [by eapply parse_ip_typed|exact Hport].
Qed.

(** C30: the text of the gateway restricts forwarding.  On a kernel without the
    gateway's table, once [nft] accepted the text for a validated policy, a
    packet is forwarded only if it belongs to an established flow, or came
    through the tunnel, goes to the uplink and has its source in a client
    network; the owned chain passes all of those; and exactly the packets that
    leave through the uplink from a client network are masqueraded. *)
Theorem gateway_filters `{Netfilter} wireguard uplink p k k' :
  interfaces_usable wireguard uplink = true → gateway_typed p → validate_gateway p = Ok tt →
  tables k !! GATEWAY_TABLE = None →
  nft_file k (node_gateway_rules wireguard uplink p) = Some k' →
  (∀ pkt, passes k' "forward" pkt = true →
     pk_established pkt = true ∨ from_client wireguard uplink (client_networks p) pkt) ∧
  ∃ chains forward postrouting,
    tables k' !! GATEWAY_TABLE = Some chains ∧
    chains !! "forward" = Some forward ∧ chains !! "postrouting" = Some postrouting ∧
    ∀ pkt,
      (chain_passes forward pkt = true ↔
         pk_established pkt = true ∨ from_client wireguard uplink (client_networks p) pkt) ∧
      (first_verdict (chain_rules postrouting) pkt = Some Masquerade ↔
         leaves_from uplink (client_networks p) pkt).
Proof.
  intros Hi Ht Hv Hnone Hk.
  destruct (execute_gateway _ _ _ _ _ (gateway_accepted _ _ _ _ _ Hi Ht Hv Hk))
    as (chains & forward & postrouting & Hf & Hp & Hc & Hcf & Hcp).
  rewrite Hnone in Hf, Hp. cbn [default from_option id] in Hf, Hp. rewrite lookup_empty in Hf, Hp.
  injection Hf as <-. injection Hp as <-.
  match type of Hcf with _ = Some ?x => set (fwd := x) in Hcf end.
  assert (∀ pkt, chain_passes fwd pkt = true ↔
    pk_established pkt = true ∨ from_client wireguard uplink (client_networks p) pkt) as Hpass.
  { intros pkt. unfold chain_passes, fwd, append_rules, forward_shape. cbn [chain_rules chain_policy app].
    rewrite forward_verdict. destruct (pk_established pkt); [by intuition|]. cbn [orb].
    destruct (bool_decide_reflect (from_client wireguard uplink (client_networks p) pkt)); naive_solver. }
  split; [intros pkt Hpkt; apply Hpass; by eapply drop_is_final|].
  exists chains, fwd. eexists. split_and!; [exact Hc|exact Hcf|exact Hcp|]. intros pkt. split; [apply Hpass|].
  unfold append_rules, postrouting_shape. cbn [chain_rules app]. rewrite postrouting_verdict. by case_bool_decide.
Qed.

(** Enabling the gateway does not replace what an earlier process left: the
    text adds to an existing table without flushing it, so a packet that a rule
    of the old forward chain accepted is still accepted by the owned chain,
    whatever client networks the new policy lists. *)
Theorem gateway_keeps_stale_rules `{Netfilter} wireguard uplink p k k' chains old pkt :
  interfaces_usable wireguard uplink = true → gateway_typed p → validate_gateway p = Ok tt →
  tables k !! GATEWAY_TABLE = Some chains → chains !! "forward" = Some old →
  first_verdict (chain_rules old) pkt = Some Accept →
  nft_file k (node_gateway_rules wireguard uplink p) = Some k' →
  ∃ chains' forward, tables k' !! GATEWAY_TABLE = Some chains' ∧ chains' !! "forward" = Some forward ∧
    chain_passes forward pkt = true.
Proof.
  intros Hi Ht Hv Htab Hold Hacc Hk.
  destruct (execute_gateway _ _ _ _ _ (gateway_accepted _ _ _ _ _ Hi Ht Hv Hk))
    as (chains' & forward & postrouting & Hf & _ & Hc & Hcf & _).
  rewrite Htab in Hf. cbn in Hf. rewrite Hold in Hf. cbn in Hf. case_bool_decide; [|done]. injection Hf as <-.
  exists chains'. eexists. split; [exact Hc|]. split; [exact Hcf|].
  unfold chain_passes, append_rules. cbn [chain_rules]. by rewrite first_verdict_app, Hacc.
Qed.

(** ** Witnesses *)

(** A kernel that is nothing but its tables. *)
Definition chain_admits (hook : string) (p : Packet) (c : Chain) : bool :=
  implb (String.eqb (chain_hook c) hook && String.eqb (chain_type c) "filter") (chain_passes c p).

Definition tables_pass (ts : Tables) (hook : string) (p : Packet) : bool :=
  forallb (λ x, forallb (λ y, chain_admits hook p y.2) (map_to_list x.2)) (map_to_list ts).

Definition run_text (ts : Tables) (text : string) : option Tables :=
  ss ← read_text text; execute_all ss ts.

#[export] Instance reference_netfilter : Netfilter.
Proof.
  refine {|
    Kernel := Tables;
    tables ts := ts;
    nft_file := run_text;
    passes := tables_pass;
  |}.
  - intros k text k' ss Hrun Hread. unfold run_text in Hrun. by rewrite Hread in Hrun.
  - intros k hook p t chains name c Hpass Ht Hc Hhook Htype. unfold tables_pass in Hpass.
    rewrite forallb_forall in Hpass.
    specialize (Hpass (t, chains) (proj1 (list_elem_of_In _ _) (proj2 (elem_of_map_to_list _ _ _) Ht))).
    cbn in Hpass. rewrite forallb_forall in Hpass.
    specialize (Hpass (name, c) (proj1 (list_elem_of_In _ _) (proj2 (elem_of_map_to_list _ _ _) Hc))).
    unfold chain_admits in Hpass. cbn in Hpass. by rewrite Hhook, Htype, !String.eqb_refl in Hpass.
Defined.

Definition to_resolver : Packet := mkPacket "" "eth0" (V4 3232235777) (V4 134744072) (Some 53) false.
Definition into_tunnel : Packet := mkPacket "" "cyberia0" (V4 168427522) (V4 134744072) (Some 53) false.

Definition sample_rules : string :=
  match render sample_nftables (TunnelOnly "cyberia0") with Ok rules => rules | _ => "" end.

Definition is_some {A} (o : option A) : bool := match o with Some _ => true | None => false end.

Lemma some_default {A} (d : A) (o : option A) : is_some o = true → o = Some (default d o).
Proof. by destruct o. Qed.

Definition sample_tables : Tables := default ∅ (run_text ∅ sample_rules).

Lemma sample_tables_run : run_text ∅ sample_rules = Some sample_tables.
Proof. apply some_default. by vm_compute. Qed.

Lemma kill_switch_filters_witness :
  tables_pass sample_tables "output" to_resolver = false ∧ tables_pass sample_tables "output" into_tunnel = true.
Proof.
  destruct (@kill_switch_filters reference_netfilter sample_nftables (TunnelOnly "cyberia0") sample_rules ∅ sample_tables)
    as [_ [_ Hout]]; [split; cbn; unfold fits; lia|vm_compute; reflexivity|exact sample_tables_run|].
  split; [|vm_compute; reflexivity]. destruct (tables_pass sample_tables "output" to_resolver) eqn:Hp; [|reflexivity].
  apply Hout in Hp. vm_compute in Hp. discriminate Hp.
Defined.

(** The tables after a list of transactions, newest first. *)
Definition tables_after (l : list string) : option Tables :=
  foldr (λ rules k, ts ← k; run_text ts rules) (Some ∅) l.

Lemma tables_after_kernel l ts : tables_after l = Some ts → @kernel_after reference_netfilter l ts.
Proof.
  revert ts. induction l as [|rules l IH]; intros ts Hts; [apply kernel_start|].
  cbn [tables_after foldr] in Hts. apply bind_Some in Hts as (ts0 & H0 & Hts).
  eapply kernel_transaction; [by apply IH|exact Hts].
Qed.

Definition session_transactions : list string :=
  accepted (nft_runner (firewall (controller (sample_session false).2.1))) (sample_session false).2.2.

Definition session_tables : Tables := default ∅ (tables_after session_transactions).

Lemma session_tables_run : tables_after session_transactions = Some session_tables.
Proof. apply some_default. by vm_compute. Qed.

Lemma connection_no_leak_witness :
  length session_transactions = 3%nat ∧ tables_pass session_tables "output" to_resolver = false.
Proof.
  split; [vm_compute; reflexivity|].
  destruct (tables_pass session_tables "output" to_resolver) eqn:Hp; [|reflexivity].
  destruct (connection_no_leak sample_settings system_command_runner system_command_runner sample_nft
    (mkWorld (host_env false) []) (sample_connection false).1 (sample_build false).2
    (sample_session false).2.1 (sample_session false).2.2 (session_tables : @Kernel reference_netfilter) to_resolver)
    as [[Hd _]|(address & Ha & Hall)].
  - cbn. unfold fits. lia.
  - apply sample_build_ok.
  - apply sample_session_steps.
  - apply tables_after_kernel, session_tables_run.
  - exact Hp.
  - vm_compute in Hd. discriminate Hd.
  - vm_compute in Ha. injection Ha as <-. vm_compute in Hall. discriminate Hall.
Defined.

Definition gateway_text : string := node_gateway_rules "cyberia0" "eth0" sample_gateway.
Definition gateway_tables : Tables := default ∅ (run_text ∅ gateway_text).

Lemma gateway_tables_run : run_text ∅ gateway_text = Some gateway_tables.
Proof. apply some_default. by vm_compute. Qed.

Definition from_outside : Packet := mkPacket "cyberia0" "eth0" (V4 3232235777) (V4 134744072) (Some 53) false.

Lemma from_outside_foreign : ¬ from_client "cyberia0" "eth0" (client_networks sample_gateway) from_outside.
Proof. apply (bool_decide_eq_false_1 _). by vm_compute. Qed.

Lemma gateway_filters_witness : tables_pass gateway_tables "forward" from_outside = false.
Proof.
  destruct (tables_pass gateway_tables "forward" from_outside) eqn:Hp; [|reflexivity].
  destruct (@gateway_filters reference_netfilter "cyberia0" "eth0" sample_gateway ∅ gateway_tables) as [Hf _];
    [vm_compute; reflexivity|apply sample_gateway_typed|vm_compute; reflexivity|reflexivity|exact gateway_tables_run|].
  apply Hf in Hp as [Hp|Hp]; [discriminate Hp|]. destruct (from_outside_foreign Hp).
Defined.

(** An earlier process served another network. *)
Definition old_gateway : WireGuardNodeGatewayPolicy := mkGatewayPolicy [mkAllowedIp (V4 3232235776) 24].

Definition stale_tables : Tables := default ∅ (run_text ∅ (node_gateway_rules "cyberia0" "eth0" old_gateway)).
Definition stale_chains : gmap string Chain := default ∅ (stale_tables !! GATEWAY_TABLE).
Definition stale_forward : Chain := default forward_shape (stale_chains !! "forward").
Definition reused_tables : Tables := default ∅ (run_text stale_tables gateway_text).

Lemma gateway_keeps_stale_rules_witness :
  (¬ from_client "cyberia0" "eth0" (client_networks sample_gateway) from_outside) ∧
  (∃ chains forward, reused_tables !! GATEWAY_TABLE = Some chains ∧ chains !! "forward" = Some forward ∧
    chain_passes forward from_outside = true) ∧
  tables_pass reused_tables "forward" from_outside = true.
Proof.
  split; [exact from_outside_foreign|]. split; [|vm_compute; reflexivity].
  apply (@gateway_keeps_stale_rules reference_netfilter "cyberia0" "eth0" sample_gateway stale_tables reused_tables
    stale_chains stale_forward from_outside).
  - vm_compute. reflexivity.
  - apply sample_gateway_typed.
  - vm_compute. reflexivity.
  - apply some_default. vm_compute. reflexivity.
  - apply some_default. vm_compute. reflexivity.
  - vm_compute. reflexivity.
  - apply some_default. vm_compute. reflexivity.
Defined.
