(* ===== verification/ClientConfig.v ===== *)
(** The configuration of the Linux client: [apps/linux-client/src/lib.rs].

    Loading a private bounded file, and converting its texts into the settings
    of a managed connection.  Files, locks, the JSON decoder and the signal
    handler are code outside the repository: they are the operations of the
    class [Host]. *)

From S2P Require Import Prelude Machine Text Net Env Transport WireGuard KillSwitch Process Nftables Linux Connection.
Open Scope string_scope.
Open Scope Z_scope.

Definition MAXIMUM_CONFIG_SIZE : Z := 1024 * 1024.

(** ** Configuration data *)

Record ClientTools := mkClientTools {
  ct_ip : string;
  ct_wg : string;
  ct_nft : string;
  ct_resolvectl : string;
  ct_private_key : string;
}.

Record ClientConfig := mkClientConfig {
  cc_interface : string;
  runtime_directory : string;
  cc_endpoint_address : IpAddr;
  cc_endpoint_port : Z;
  peer_public_key_hex : string;
  cc_tunnel_addresses : list string;
  cc_allowed_ips : list string;
  dns_resolvers : list IpAddr;
  cc_mtu : Z;
  cc_keepalive_seconds : option Z;
  cc_routing_mark : Z;
  connect_timeout_seconds : Z;
  cc_always_on : bool;
  cc_tools : ClientTools;
}.

Inductive ConfigError :=
| UnsafeFile
| Oversized
| ConfigIo (error : string)
| Json (error : string)
| InvalidField (reason : string)
| UnsafeRuntimeDirectory.

Definition display_config_error (e : ConfigError) : string :=
  match e with
  | UnsafeFile => "client configuration must be an absolute private regular file"
  | Oversized => "client configuration exceeds 1 MiB"
  | ConfigIo error => "client configuration I/O failed: " +:+ error
  | Json error => "client configuration JSON is invalid: " +:+ error
  | InvalidField reason => "client configuration is invalid: " +:+ reason
  | UnsafeRuntimeDirectory => "client runtime directory must be an absolute private directory"
  end.

(** ** The host *)

Inductive LockResult := Locked | WouldBlock | LockFailed (error : string).

(** An opened file: its metadata and the bytes it yields. *)
Record OpenFile := mkOpenFile {
  of_metadata : string + Metadata;
  of_read : string + string;
}.

Inductive OpenResult :=
| OpenLoop
| OpenFailed (error : string)
| Opened (file : OpenFile).

(** Answers depend on the whole history, so successive calls may differ;
    [host_prints] tells whether a write to standard output or, for [true],
    standard error succeeds. *)
Class Host := {
  host_stat : list Event → string → string + Metadata;
  host_open : list Event → string → OpenResult;
  host_lock : list Event → string → LockResult;
  decode_config : string → string + ClientConfig;
  set_handler : list Event → option string;
  host_prints : list Event → bool → bool;
}.

Section files.
Context `{Host} {C : Type}.

(** [symlink_metadata], keeping the error. *)
Definition stat (path : string) : Act (C * World) string Metadata :=
  λ '(c, w),
    match host_stat (history w) path with
    | inr m => (Ok m, (c, log (EvMetadata path (Some m)) w))
    | inl error => (Err error, (c, log (EvMetadata path None) w))
    end.

Definition open (path : string) : Act (C * World) Infallible OpenResult :=
  λ '(c, w), (Ok (host_open (history w) path), (c, log (EvOpen path) w)).

(** [try_lock_exclusive] on the file opened at [path]. *)
Definition try_lock (path : string) : Act (C * World) Infallible LockResult :=
  λ '(c, w), let answer := host_lock (history w) path in
    (Ok answer, (c, log (EvLock path (match answer with Locked => true | _ => false end)) w)).

(** [println!] and [eprintln!], which panic when the stream cannot be written. *)
Definition print_line {E} (stderr : bool) (line : string) : Act (C * World) E unit :=
  λ '(c, w),
    if host_prints (history w) stderr then (Ok tt, (c, log (EvPrint stderr line) w)) else (Panic, (c, w)).

Definition private_directory_ok (m : Metadata) : bool :=
  negb (negb (md_is_dir m) || md_is_symlink m || unsafe_mode (md_mode m) 63).

Definition private_open_ok (m : Metadata) : bool :=
  negb (negb (md_is_file m) || unsafe_mode (md_mode m) 63).

(** ** Loading *)

Definition validate_private_directory (path : string) : Act (C * World) ConfigError unit :=
  guard_err (negb (is_absolute path)) UnsafeRuntimeDirectory;;
  m ← act_map_err ConfigIo (stat path);
  guard_err (negb (private_directory_ok m)) UnsafeRuntimeDirectory.

Definition take_bytes (n : Z) (s : string) : string := of_chars (take (Z.to_nat n) (chars s)).

(** [usize::try_from(metadata.len())] cannot fail after the size check, and the
    capacity it yields is only an allocation hint. *)
Definition load_config (path : string) : Act (C * World) ConfigError ClientConfig :=
  guard_err (negb (is_absolute path)) UnsafeFile;;
  opened ← act_map_err infallible (open path);
  file ← lift (match opened with
               | OpenLoop => Err UnsafeFile
               | OpenFailed error => Err (ConfigIo error)
               | Opened file => Ok file
               end);
  m ← lift (match of_metadata file with inl error => Err (ConfigIo error) | inr m => Ok m end);
  guard_err (negb (private_open_ok m)) UnsafeFile;;
  guard_err (MAXIMUM_CONFIG_SIZE <? md_len m) Oversized;;
  bytes ← lift (match of_read file with
                | inl error => Err (ConfigIo error)
                | inr bytes => Ok (take_bytes (MAXIMUM_CONFIG_SIZE + 1) bytes)
                end);
  guard_err (MAXIMUM_CONFIG_SIZE <? len bytes) Oversized;;
  config ← lift (match decode_config bytes with
                 | inl error => Err (Json error)
                 | inr config => Ok config
                 end);
  validate_private_directory (runtime_directory config);;
  mret config.
End files.

(** ** Conversion *)

(** [s.is_char_boundary(k)], which [str] slicing demands of both ends: the byte
    at [k] does not continue a character, or [k] is the length. *)
Definition is_char_boundary (s : string) (k : nat) : bool :=
  match chars s !! k with
  | Some c => negb (between 128 191 c)
  | None => (k =? String.length s)%nat
  end.

Definition key_error : ConfigError :=
  InvalidField "peer_public_key_hex must contain 64 hexadecimal characters".

(** [u8::from_str_radix(&value[index * 2..index * 2 + 2], 16)]; the slice panics
    inside a character. *)
Definition decode_byte (value : string) (index : nat) : Result ConfigError Z :=
  if is_char_boundary value (index * 2) && is_char_boundary value (index * 2 + 2)
  then ok_or (from_str_radix 8 16 (of_chars (take 2 (drop (index * 2) (chars value))))) key_error
  else Panic.

Fixpoint decode_bytes (value : string) (index count : nat) : Result ConfigError (list Z) :=
  match count with
  | O => Ok []
  | S count =>
      b ← decode_byte value index;
      rest ← decode_bytes value (S index) count;
      Ok (b :: rest)
  end.

Definition decode_key (value : string) : Result ConfigError Key :=
  if negb (len value =? 64) then Err key_error else decode_bytes value 0 32.

Definition parse_cidr (value : string) : Result ConfigError (IpAddr * Z) :=
  '(address, prefix_length) ← ok_or (split_once "/"%char value) (InvalidField "invalid CIDR prefix");
  address ← ok_or (parse_ip address) (InvalidField "invalid CIDR address");
  prefix_length ← ok_or (parse_dec 8 prefix_length) (InvalidField "invalid CIDR prefix length");
  let maximum := if is_ipv4 address then 32 else 128 in
  if maximum <? prefix_length then Err (InvalidField "CIDR prefix length exceeds address family")
  else Ok (address, prefix_length).

(** [iter().map(f).collect::<Result<Vec<_>, _>>()]. *)
Fixpoint collect {A B} (f : A → Result ConfigError B) (l : list A) : Result ConfigError (list B) :=
  match l with
  | [] => Ok []
  | x :: l => y ← f x; ys ← collect f l; Ok (y :: ys)
  end.

Definition into_connection_settings (c : ClientConfig) : Result ConfigError LinuxConnectionSettings :=
  reject_if (cc_endpoint_port c =? 0) (InvalidField "endpoint_port must be nonzero");;
  reject_if (cc_routing_mark c =? 0) (InvalidField "routing_mark must be nonzero");;
  key ← decode_key (peer_public_key_hex c);
  tunnel_addresses ← collect (λ v, '(a, p) ← parse_cidr v; Ok (mkTunnelAddress a p)) (cc_tunnel_addresses c);
  allowed_ips ← collect (λ v, '(a, p) ← parse_cidr v; Ok (mkAllowedIp a p)) (cc_allowed_ips c);
  let tools := cc_tools c in
  Ok (mkSettings (cc_interface c)
        (mkWireGuardConfig key
           (mkEndpoint (display_ip (cc_endpoint_address c)) (cc_endpoint_port c))
           tunnel_addresses allowed_ips (cc_keepalive_seconds c) (cc_mtu c))
        (mkDns (dns_resolvers c))
        (mkTools (ct_ip tools) (ct_wg tools) (ct_private_key tools))
        (mkDnsTools (ct_resolvectl tools))
        (cc_routing_mark c) (from_secs (connect_timeout_seconds c)) (cc_always_on c)).

(** ** Reading the host changes nothing *)

Section quiet_host.
Context `{Host} {C : Type}.

Lemma quiet_stat path : quiet (C := C) (stat path).
Proof. intros [c w]. unfold stat. destruct (host_stat _ _); by apply only_reads_log. Qed.

Lemma quiet_open path : quiet (C := C) (open path).
Proof. intros []. by apply only_reads_log. Qed.

Lemma wp_print_line {E} stderr line (c : C) w (Q : Result E unit → C * World → Prop) :
  Q (Ok tt) (c, log (EvPrint stderr line) w) → Q Panic (c, w) → wp (print_line stderr line) Q (c, w).
Proof. unfold wp, print_line. by destruct (host_prints _ _). Qed.

Lemma quiet_lock path : quiet (C := C) (try_lock path).
Proof. intros []. by apply only_reads_log. Qed.
End quiet_host.

#[export] Hint Resolve quiet_stat quiet_open quiet_lock : quiet.

(** ** Keys *)

Definition is_ascii (s : string) : bool := all_bytes (λ c, code c <? 128) s.

Definition hex_pair (b : Z) : list ascii := [digit_char (b / 16); digit_char (b mod 16)].

(** The configuration text of a key: two lowercase digits per byte. *)
Definition hex_key (key : Key) : string := of_chars (concat (map hex_pair key)).

Lemma parse_digits_fits bits radix l n : 0 ≤ bits → parse_digits bits radix l = Some n → fits bits n.
Proof.
  intros Hb. unfold parse_digits.
  assert (∀ a, (∀ m, a = Some m → fits bits m) →
    foldl (parse_step bits radix) a l = Some n → fits bits n) as Hstep.
  { induction l as [|c l IH]; intros a Ha; [apply Ha|]. apply IH. intros m. unfold parse_step.
    destruct a as [a|]; [cbn|done]. destruct (to_digit radix c) as [d|]; [cbn|done].
    destruct (fitsb bits _) eqn:Hf; [|done]. intros [= <-]. by apply fitsb_spec. }
  apply Hstep. intros m [= <-]. unfold fits. lia.
Qed.

Lemma from_str_radix_fits bits radix s n : 0 ≤ bits → from_str_radix bits radix s = Some n → fits bits n.
Proof.
  intros Hb. unfold from_str_radix. destruct (chars s) as [|c l]; [done|].
  destruct (_ && _); [done|]. by apply parse_digits_fits.
Qed.

Lemma ascii_boundary s k : is_ascii s = true → (k ≤ String.length s)%nat → is_char_boundary s k = true.
Proof.
  unfold is_ascii, all_bytes, is_char_boundary. rewrite forallb_forall. intros Ha Hk.
  destruct (chars s !! k) as [c|] eqn:Hc.
  - apply list_elem_of_lookup_2, list_elem_of_In, Ha, Z.ltb_lt in Hc. unfold between.
    by rewrite (proj2 (Z.leb_gt _ _)).
  - apply lookup_ge_None in Hc. rewrite length_chars in Hc. apply Nat.eqb_eq. lia.
Qed.

Lemma decode_bytes_ascii value index count :
  is_ascii value = true → ((index + count) * 2 ≤ String.length value)%nat →
  match decode_bytes value index count with
  | Ok l => length l = count ∧ Forall u8 l
  | Err e => e = key_error
  | Panic => False
  end.
Proof.
  intros Ha. revert index. induction count as [|count IH]; intros index Hl; [by split|].
  cbn [decode_bytes]. unfold decode_byte. rewrite !ascii_boundary by (done || lia). cbn [andb].
  destruct (from_str_radix 8 16 _) as [b|] eqn:Hb; cbn; [|done].
  specialize (IH (S index) ltac:(lia)). destruct (decode_bytes _ _ _) as [l|e|]; cbn; [|done..].
  destruct IH as [<- HF]. split; [done|]. constructor; [|done]. by apply (from_str_radix_fits 8) in Hb.
Qed.

Definition hex_pair_ok (b : Z) : bool :=
  bool_decide (from_str_radix 8 16 (of_chars (hex_pair b)) = Some b)
  && forallb (λ c, code c <? 128) (hex_pair b).

Lemma hex_pairs_ok b : u8 b → hex_pair_ok b = true.
Proof.
  intros Hb. assert (forallb hex_pair_ok (map Z.of_nat (seq 0 256)) = true) as Hall by (vm_compute; done).
  rewrite forallb_forall in Hall. apply Hall. apply in_map_iff. exists (Z.to_nat b).
  unfold u8, fits in Hb. split; [lia|]. apply in_seq. lia.
Qed.

Lemma decode_bytes_hex value index key :
  is_ascii value = true → Forall u8 key →
  drop (index * 2) (chars value) = concat (map hex_pair key) →
  (String.length value = (index + length key) * 2)%nat →
  decode_bytes value index (length key) = Ok key.
Proof.
  intros Ha. revert index. induction key as [|b key IH]; intros index HF Hd Hl; [done|].
  apply Forall_cons in HF as [Hb HF]. cbn [length decode_bytes map concat] in *. unfold decode_byte.
  rewrite !ascii_boundary by (done || lia). cbn [andb]. rewrite Hd.
  pose proof (hex_pairs_ok b Hb) as [Hp%bool_decide_eq_true _]%andb_true_iff.
  replace (take 2 (hex_pair b ++ concat (map hex_pair key))%list) with (hex_pair b) by done.
  rewrite Hp. cbn [ok_or mbind result_bind]. rewrite IH; [done|done| |lia].
  replace (S index * 2)%nat with (index * 2 + 2)%nat by lia. by rewrite <-drop_drop, Hd.
Qed.

Lemma hex_key_shape key :
  Forall u8 key → is_ascii (hex_key key) = true ∧ String.length (hex_key key) = (length key * 2)%nat.
Proof.
  intros HF. unfold is_ascii, all_bytes, hex_key.
  rewrite <-length_chars, String.list_ascii_of_string_of_list_ascii.
  induction HF as [|b key Hb HF [IH1 IH2]]; [done|]. cbn [map concat].
  rewrite forallb_app, length_app, IH1, IH2.
  pose proof (hex_pairs_ok b Hb) as [_ Hp]%andb_true_iff. rewrite Hp. by split; cbn; [|lia].
Qed.

Lemma decode_hex_key key : length key = 32%nat → Forall u8 key → decode_key (hex_key key) = Ok key.
Proof.
  intros Hl HF. destruct (hex_key_shape key HF) as [Ha Hlen]. unfold decode_key, len.
  rewrite Hlen, Hl. cbn [negb Z.eqb]. change (negb (Z.of_nat (32 * 2) =? 64)) with false. cbn iota.
  rewrite <-Hl at 1. apply decode_bytes_hex; [done..| |lia].
  cbn. unfold hex_key. by rewrite String.list_ascii_of_string_of_list_ascii.
Qed.

Lemma decode_key_ascii value :
  is_ascii value = true →
  match decode_key value with
  | Ok key => length key = 32%nat ∧ Forall u8 key ∧ len value = 64
  | Err e => e = key_error
  | Panic => False
  end.
Proof.
  intros Ha. unfold decode_key. destruct (Z.eqb_spec (len value) 64) as [Hl|Hl]; cbn [negb]; [|done].
  pose proof (decode_bytes_ascii value 0 32 Ha ltac:(unfold len in Hl; lia)) as Hd.
  by destruct (decode_bytes _ _ _); [destruct Hd|..].
Qed.

(** ** Prefixes *)

Definition prefix_fits (a : IpAddr) (p : Z) : Prop := 0 ≤ p ≤ (if is_ipv4 a then 32 else 128).

Lemma parse_cidr_display a p : ip_typed a → prefix_fits a p → parse_cidr (cidr a p) = Ok (a, p).
Proof.
  intros Ha Hp. unfold parse_cidr, cidr.
  change ("/" +:+ to_dec p) with (String "/" (to_dec p)). rewrite split_once_app.
  - run. rewrite parse_display, parse_to_dec; [| |done].
    + unfold prefix_fits in Hp. by rewrite (proj2 (Z.ltb_ge _ _)) by lia.
    + unfold prefix_fits in Hp. unfold fits. destruct (is_ipv4 a); lia.
  - apply (all_bytes_excludes is_ip_char); [apply display_ip_chars|done].
Qed.

Lemma parse_cidr_sound s a p : parse_cidr s = Ok (a, p) → ip_typed a ∧ prefix_fits a p.
Proof.
  unfold parse_cidr. run. destruct (split_once _ s) as [[l r]|]; [|done].
  destruct (parse_ip l) as [a'|] eqn:Ha; [|done]. destruct (parse_dec 8 r) as [p'|] eqn:Hp; [|done].
  apply parse_ip_typed in Ha. apply from_str_radix_fits in Hp; [|done].
  destruct (Z.ltb_spec (if is_ipv4 a' then 32 else 128) p'); [done|]. intros [= <- <-].
  split; [done|]. unfold prefix_fits, fits in *. lia.
Qed.

(** ** Settings *)

Lemma collect_map {A B} (f : A → Result ConfigError B) (g : B → A) l :
  Forall (λ y, f (g y) = Ok y) l → collect f (map g l) = Ok l.
Proof.
  induction 1 as [|y l Hy HF IH]; [done|]. cbn [map collect]. rewrite Hy, IH. done.
Qed.

Lemma collect_ok {A B} (f : A → Result ConfigError B) (P : B → Prop) l l' :
  (∀ x y, f x = Ok y → P y) → collect f l = Ok l' → Forall P l'.
Proof.
  intros HP. revert l'. induction l as [|x l IH]; intros l'; cbn [collect].
  - intros [= <-]. constructor.
  - destruct (f x) as [y|e|] eqn:Hx; [cbn|done..].
    destruct (collect f l) as [ys|e|]; [cbn|done..]. intros [= <-]. constructor; eauto.
Qed.

(** Conversions refuse a field and never panic. *)
Definition field_total {A} (r : Result ConfigError A) : Prop :=
  match r with
  | Ok _ => True
  | Err e => ∃ reason, e = InvalidField reason
  | Panic => False
  end.

Lemma field_total_bind {A B} (m : Result ConfigError A) (f : A → Result ConfigError B) :
  field_total m → (∀ a, field_total (f a)) → field_total (m ≫= f).
Proof. destruct m; cbn; auto. Qed.

Lemma field_total_ok_or {A} (o : option A) reason : field_total (ok_or o (InvalidField reason)).
Proof. destruct o; cbn; eauto. Qed.

Lemma field_total_reject b reason : field_total (reject_if b (InvalidField reason)).
Proof. destruct b; cbn; eauto. Qed.

Lemma parse_cidr_total s : field_total (parse_cidr s).
Proof.
  unfold parse_cidr. apply field_total_bind; [apply field_total_ok_or|intros [a p]].
  apply field_total_bind; [apply field_total_ok_or|intros addr].
  apply field_total_bind; [apply field_total_ok_or|intros len]. case_match; cbn; eauto.
Qed.

Lemma collect_total {A B} (f : A → Result ConfigError B) l :
  (∀ x, field_total (f x)) → field_total (collect f l).
Proof.
  intros Hf. induction l as [|x l IH]; [done|].
  apply field_total_bind; [done|intros y]. by apply field_total_bind.
Qed.

Lemma into_settings_total c :
  is_ascii (peer_public_key_hex c) = true → field_total (into_connection_settings c).
Proof.
  intros Ha. unfold into_connection_settings.
  apply field_total_bind; [apply field_total_reject|intros _].
  apply field_total_bind; [apply field_total_reject|intros _].
  apply field_total_bind.
  { pose proof (decode_key_ascii _ Ha) as Hd. destruct (decode_key _); cbn; [done| |done]. subst. by eexists. }
  intros key. apply field_total_bind.
  { apply collect_total. intros x. apply field_total_bind; [apply parse_cidr_total|by intros []]. }
  intros ta. apply field_total_bind; [|done].
  apply collect_total. intros x. apply field_total_bind; [apply parse_cidr_total|by intros []].
Qed.

(** The configuration that spells out given settings. *)
Definition config_of (s : LinuxConnectionSettings) (endpoint : IpAddr) (seconds : Z)
    (directory nft : string) : ClientConfig :=
  let p := set_profile s in
  mkClientConfig (set_interface s) directory endpoint (port (wg_endpoint p))
    (hex_key (peer_public_key p))
    (map (λ t, cidr (ta_address t) (ta_prefix_length t)) (tunnel_addresses p))
    (map (λ a, cidr (ai_network a) (ai_prefix_length a)) (allowed_ips p))
    (resolvers (set_dns s)) (mtu p) (persistent_keepalive_seconds p) (set_routing_mark s) seconds
    (set_always_on s)
    (mkClientTools (ip (set_tools s)) (wg (set_tools s)) nft (resolvectl (set_dns_tools s))
       (private_key (set_tools s))).

(** Settings whose numbers are nonzero where they must be and whose prefixes
    belong to their address family. *)
Definition settings_typed (s : LinuxConnectionSettings) : Prop :=
  let p := set_profile s in
  port (wg_endpoint p) ≠ 0 ∧ set_routing_mark s ≠ 0 ∧
  length (peer_public_key p) = 32%nat ∧ Forall u8 (peer_public_key p) ∧
  Forall (λ t, ip_typed (ta_address t) ∧ prefix_fits (ta_address t) (ta_prefix_length t))
    (tunnel_addresses p) ∧
  Forall (λ a, ip_typed (ai_network a) ∧ prefix_fits (ai_network a) (ai_prefix_length a))
    (allowed_ips p).

Lemma settings_of_config s endpoint seconds directory nft :
  settings_typed s → host (wg_endpoint (set_profile s)) = display_ip endpoint →
  set_connect_timeout s = from_secs seconds →
  into_connection_settings (config_of s endpoint seconds directory nft) = Ok s.
Proof.
  destruct s as [i [k [h pt] ta al ka m] [rs] [tip twg tk] [tr] mark timeout always].
  intros (Hp & Hm & Hl & Hk & Hta & Hal) Hh Ht. cbn in Hp, Hm, Hl, Hk, Hta, Hal, Hh, Ht. subst h timeout.
  unfold into_connection_settings, config_of.
  cbn -[decode_key hex_key collect parse_cidr cidr Z.eqb from_secs display_ip].
  rewrite (proj2 (Z.eqb_neq _ _) Hp), (proj2 (Z.eqb_neq _ _) Hm), decode_hex_key by done. run.
  rewrite !collect_map; [done|..].
  - eapply Forall_impl; [exact Hal|]. intros [a p] [Ha Hf]. cbn in *. by rewrite parse_cidr_display.
  - eapply Forall_impl; [exact Hta|]. intros [a p] [Ha Hf]. cbn in *. by rewrite parse_cidr_display.
Qed.

(** The fields that conversion copies. *)
Lemma into_settings_fields c s :
  into_connection_settings c = Ok s →
  wg_endpoint (set_profile s) = mkEndpoint (display_ip (cc_endpoint_address c)) (cc_endpoint_port c) ∧
  set_interface s = cc_interface c ∧ private_key (set_tools s) = ct_private_key (cc_tools c) ∧
  set_always_on s = cc_always_on c.
Proof. unfold into_connection_settings. run. repeat case_match; try done; by intros [= <-]. Qed.

(** What converted settings are known to satisfy. *)
Lemma into_settings_typed c s :
  is_ascii (peer_public_key_hex c) = true → into_connection_settings c = Ok s → settings_typed s.
Proof.
  unfold into_connection_settings. intros Ha. run.
  destruct (Z.eqb_spec (cc_endpoint_port c) 0); [done|].
  destruct (Z.eqb_spec (cc_routing_mark c) 0); [done|].
  destruct (decode_key _) as [k|e|] eqn:Hk; [|done..].
  destruct (collect _ (cc_tunnel_addresses c)) as [ta|e|] eqn:Hta; [|done..].
  destruct (collect _ (cc_allowed_ips c)) as [al|e|] eqn:Hal; [|done..].
  intros [= <-]. unfold settings_typed. cbn.
  pose proof (decode_key_ascii _ Ha) as Hd. rewrite Hk in Hd. destruct Hd as (Hl & HF & _).
  split_and!; try done.
  - eapply collect_ok, Hta. intros x y. cbn. destruct (parse_cidr x) as [[a p]|e|] eqn:Hx; [|done..].
    intros [= <-]. by apply (parse_cidr_sound x).
  - eapply collect_ok, Hal. intros x y. cbn. destruct (parse_cidr x) as [[a p]|e|] eqn:Hx; [|done..].
    intros [= <-]. by apply (parse_cidr_sound x).
Qed.

(** ** Loading reads one private bounded file *)

Section loading.
Context `{Host} {C : Type}.
Implicit Types c : C.

Definition private_mode (m : Metadata) : Prop := Z.land (md_mode m) 63 = 0.

Definition private_directory (m : Metadata) : Prop :=
  md_is_dir m = true ∧ md_is_symlink m = false ∧ private_mode m.

Lemma private_mode_spec m : unsafe_mode (md_mode m) 63 = false ↔ private_mode m.
Proof. unfold unsafe_mode, private_mode. by rewrite negb_false_iff, Z.eqb_eq. Qed.

Lemma private_directory_spec m : private_directory_ok m = true ↔ private_directory m.
Proof.
  unfold private_directory_ok, private_directory.
  by rewrite negb_true_iff, !orb_false_iff, negb_false_iff, private_mode_spec, <-(assoc and).
Qed.

Lemma private_open_spec m : private_open_ok m = true ↔ md_is_file m = true ∧ private_mode m.
Proof.
  unfold private_open_ok. by rewrite negb_true_iff, orb_false_iff, negb_false_iff, private_mode_spec.
Qed.

Lemma len_take_bytes n s :
  0 ≤ n → len (take_bytes (n + 1) s) ≤ n ↔ len s ≤ n.
Proof.
  intros Hn. unfold len, take_bytes. rewrite <-!length_chars, String.list_ascii_of_string_of_list_ascii.
  rewrite length_take. lia.
Qed.

Lemma take_bytes_all n s : len s ≤ n → take_bytes n s = s.
Proof.
  intros Hl. unfold take_bytes. rewrite take_ge; [apply String.string_of_list_ascii_of_string|].
  rewrite length_chars. unfold len in Hl. lia.
Qed.

Lemma wp_validate_private_directory path c w Q :
  (∀ m, is_absolute path = true → host_stat (history w) path = inr m → private_directory m →
    Q (Ok tt) (c, log (EvMetadata path (Some m)) w)) →
  (∀ e w', env w' = env w → processes w' = processes w →
    ¬ (is_absolute path = true ∧ ∃ m, host_stat (history w) path = inr m ∧ private_directory m) →
    Q (Err e) (c, w')) →
  wp (validate_private_directory path) Q (c, w).
Proof.
  intros Hok Herr. unfold validate_private_directory. wp_run.
  apply wp_guard; intros Ha; wp_run; [apply Herr; try done; by destruct (is_absolute path); intros []|].
  apply negb_false_iff in Ha. apply wp_intro. unfold stat.
  destruct (host_stat (history w) path) as [error|m] eqn:Hs; intros r s [= <- <-]; cbn [map_err]; wp_run.
  { apply Herr; [done..|]. intros (_ & m & ? & _). congruence. }
  apply wp_guard; intros Hg.
  - apply Herr; [done..|]. intros (_ & m' & [= <-] & Hm%private_directory_spec). by rewrite Hm in Hg.
  - apply negb_false_iff, private_directory_spec in Hg. auto.
Qed.

(** What one successful load has seen. *)
Definition loaded (path : string) (w : World) (config : ClientConfig) : Prop :=
  is_absolute path = true ∧
  (∃ file m bytes, host_open (history w) path = Opened file ∧
    of_metadata file = inr m ∧ md_is_file m = true ∧ private_mode m ∧ md_len m ≤ MAXIMUM_CONFIG_SIZE ∧
    of_read file = inr bytes ∧ len bytes ≤ MAXIMUM_CONFIG_SIZE ∧ decode_config bytes = inr config) ∧
  is_absolute (runtime_directory config) = true ∧
  ∃ m, host_stat (EvOpen path :: history w) (runtime_directory config) = inr m ∧ private_directory m.

Ltac not_loaded :=
  intros (config' & Habs & (file' & m' & bytes' & Hfile & Hmeta & Hisf & Hmode & Hsize & Hread & Hlen & Hdec)
    & Hdir & m'' & Hstat & Hpriv);
  repeat match goal with H1 : ?x = _, H2 : ?x = _ |- _ => rewrite H1 in H2; simplify_eq end;
  first [congruence | lia | naive_solver].

Lemma wp_load_config path c w :
  wp (load_config path) (λ r s, s.1 = c ∧ env s.2 = env w ∧ processes s.2 = processes w ∧
    match r with
    | Ok config => loaded path w config
    | Err e => ¬ ∃ config, loaded path w config
    | Panic => False
    end) (c, w).
Proof.
  unfold load_config. wp_run.
  apply wp_guard; intros Ha; wp_run; [apply negb_true_iff in Ha; split_and!; [done..|not_loaded]|].
  apply negb_false_iff in Ha. apply wp_intro. unfold open. intros r s [= <- <-]. cbn [map_err]. wp_run.
  destruct (host_open (history w) path) as [|error|file] eqn:Ho; wp_run;
    [split_and!; [done..|not_loaded]|split_and!; [done..|not_loaded]|].
  destruct (of_metadata file) as [error|m] eqn:Hm; wp_run; [split_and!; [done..|not_loaded]|].
  apply wp_guard; intros Hp; wp_run.
  { split_and!; [done..|]. rewrite negb_true_iff, <-not_true_iff_false, private_open_spec in Hp. not_loaded. }
  apply negb_false_iff, private_open_spec in Hp as [Hf Hmo].
  apply wp_guard; intros Hl; wp_run; [apply Z.ltb_lt in Hl; split_and!; [done..|not_loaded]|].
  apply Z.ltb_ge in Hl.
  destruct (of_read file) as [error|bytes] eqn:Hr; wp_run; [split_and!; [done..|not_loaded]|].
  apply wp_guard; intros Hs; wp_run.
  { apply Z.ltb_lt, Z.lt_nge in Hs. rewrite len_take_bytes in Hs by done. split_and!; [done..|not_loaded]. }
  apply Z.ltb_ge in Hs. rewrite len_take_bytes in Hs by done. rewrite take_bytes_all by lia.
  destruct (decode_config bytes) as [error|config] eqn:Hd; wp_run; [split_and!; [done..|not_loaded]|].
  apply wp_validate_private_directory.
  - intros md Had Hst Hpd. wp_run. split_and!; [done..|]. split; [done|]. by split; [eauto 15|eauto].
  - intros e w' He Hpr Hn. wp_run. split_and!; [done..|]. not_loaded.
Qed.
End loading.

Lemma quiet_load_config `{Host} {C} path : quiet (C := C) (load_config path).
Proof. unfold load_config, validate_private_directory. quiet. Qed.

(** ** Theorems *)

(** [into_connection_settings] reads back what a configuration spells out:
    for every well-typed settings value, the configuration with its key in
    hexadecimal and its prefixes in CIDR notation converts to that value. *)
Theorem settings_roundtrip s endpoint seconds directory nft :
  settings_typed s → host (wg_endpoint (set_profile s)) = display_ip endpoint →
  set_connect_timeout s = from_secs seconds →
  into_connection_settings (config_of s endpoint seconds directory nft) = Ok s.
Proof. apply settings_of_config. Qed.

(** Whatever an ASCII configuration says, conversion does not panic, a
    refusal names an invalid field, and converted settings are well typed: a
    32-byte key, nonzero port and mark, prefixes inside their address family. *)
Theorem settings_total c :
  is_ascii (peer_public_key_hex c) = true →
  match into_connection_settings c with
  | Ok s => settings_typed s
  | Err e => ∃ reason, e = InvalidField reason
  | Panic => False
  end.
Proof.
  intros Ha. pose proof (into_settings_total c Ha) as Ht.
  destruct (into_connection_settings c) as [s|e|] eqn:Hs; [by eapply into_settings_typed|done..].
Qed.

(** [load_config] accepts exactly an absolute path that opens to a private
    regular file of at most 1 MiB, by metadata and by content, that decodes to
    a configuration whose runtime directory is absolute, private and not a
    symbolic link; every refusal means that no configuration qualifies. *)
Theorem load_config_exact `{Host} {C} path (c : C) w :
  match (load_config path (c, w)).1 with
  | Ok config => loaded path w config
  | Err _ => ¬ ∃ config, loaded path w config
  | Panic => False
  end.
Proof. apply (wp_load_config path c w). Qed.

(** ** Inputs the configuration accepts or aborts on *)

Definition zeros (n : nat) : string := of_chars (replicate n "0"%char).

(** A valid UTF-8 string of 64 bytes whose second character straddles a pair
    aborts the client instead of being refused. *)
Lemma decode_key_panics :
  let value := "0" +:+ of_chars [byte 195; byte 169] +:+ zeros 61 in
  utf8_valid value = true ∧ len value = 64 ∧ decode_key value = Panic.
Proof. vm_compute. auto. Qed.

(** A pair with a sign counts as a byte, although it is no hexadecimal digit. *)
Lemma decode_key_accepts_sign :
  decode_key ("+f" +:+ zeros 62) = Ok (15 :: replicate 31 0) ∧
  all_bytes (λ c, is_hex_lower c) ("+f" +:+ zeros 62) = false.
Proof. vm_compute. auto. Qed.

(** ** Witnesses *)

Definition sample_client_config : ClientConfig :=
  config_of sample_settings (V4 3221225985) 30 "/run/cyberia" "/usr/sbin/nft".

#[export] Instance sample_host : Host := {|
  host_stat _ _ := inr (mkMetadata false true false 16832 4096);
  host_open _ _ := Opened (mkOpenFile (inr (mkMetadata true false false 33152 512)) (inr "{}"));
  host_lock _ _ := Locked;
  decode_config _ := inr sample_client_config;
  set_handler _ := None;
  host_prints _ _ := true;
|}.

Lemma sample_settings_typed : settings_typed sample_settings.
Proof.
  unfold settings_typed, prefix_fits. cbn. split_and!; try lia.
  - repeat constructor; lia.
  - repeat constructor; cbn; lia.
  - repeat constructor; cbn; lia.
Qed.

Lemma settings_roundtrip_witness :
  into_connection_settings sample_client_config = Ok sample_settings.
Proof.
  apply (settings_roundtrip sample_settings (V4 3221225985) 30 "/run/cyberia" "/usr/sbin/nft");
    [apply sample_settings_typed|vm_compute; reflexivity|reflexivity].
Defined.

Lemma settings_total_witness :
  match into_connection_settings sample_client_config with
  | Ok s => settings_typed s
  | _ => False
  end.
Proof.
  pose proof (settings_total sample_client_config ltac:(vm_compute; reflexivity)) as Ht.
  assert (∃ s, into_connection_settings sample_client_config = Ok s) as [s Hs]
    by (eexists; vm_compute; reflexivity).
  rewrite Hs in *. exact Ht.
Defined.
