(* ===== verification/Lease.v ===== *)
(** The interface lease of the Linux client: [apps/linux-client/src/lib.rs].

    A client owns the lifecycle of an interface while it holds the exclusive
    lock of a file named after it. *)

From S2P Require Import Prelude Machine Text Net Env Transport WireGuard KillSwitch Process Nftables Linux Connection ClientConfig.
Open Scope string_scope.
Open Scope Z_scope.

Inductive LeaseError :=
| UnsafeInterface
| UnsafeState
| InUse
| LeaseIo (error : string).

Definition display_lease_error (e : LeaseError) : string :=
  match e with
  | UnsafeInterface => "client interface name is unsafe"
  | UnsafeState => "client interface lock state is unsafe"
  | InUse => "another client already manages this interface"
  | LeaseIo error => "client interface lease failed: " +:+ error
  end.

(** The handle of the locked file; dropping it releases the lock. *)
Record InterfaceLease := mkLease { lease_lock : string }.

Definition lease_file (interface : string) : string := "interface-" +:+ interface +:+ ".lock".

Section lease.
Context `{Host} {C : Type}.

Definition validate_lease_directory (path : string) : Act (C * World) LeaseError unit :=
  guard_err (negb (is_absolute path)) UnsafeState;;
  m ← act_map_err LeaseIo (stat path);
  guard_err (negb (private_directory_ok m)) UnsafeState.

Definition valid_interface_name (name : string) : bool :=
  negb (is_empty name) && (len name <=? 15)
  && all_bytes (λ c, is_ascii_alphanumeric c || Ascii.eqb c "-"%char
                     || Ascii.eqb c "_"%char || Ascii.eqb c "."%char) name.

(** [runtime_directory.join(..)] of a relative component. *)
Definition lease_path (directory interface : string) : string :=
  (if Ascii.eqb (default "/"%char (last (chars directory))) "/"%char
   then directory else directory +:+ "/") +:+ lease_file interface.

Definition acquire_interface_lease (directory interface : string) : Act (C * World) LeaseError InterfaceLease :=
  validate_lease_directory directory;;
  guard_err (negb (valid_interface_name interface)) UnsafeInterface;;
  opened ← act_map_err infallible (open (lease_path directory interface));
  match opened with
  | OpenLoop => raise (LeaseIo "Too many levels of symbolic links (os error 40)")
  | OpenFailed error => raise (LeaseIo error)
  | Opened file =>
      match of_metadata file with
      | inl error => raise (LeaseIo error)
      | inr m =>
          guard_err (negb (private_open_ok m)) UnsafeState;;
          locked ← act_map_err infallible (try_lock (lease_path directory interface));
          match locked with
          | Locked => mret (mkLease (lease_path directory interface))
          | WouldBlock => raise InUse
          | LockFailed error => raise (LeaseIo error)
          end
      end
  end.

Lemma quiet_lease directory interface : quiet (C := C) (acquire_interface_lease directory interface).
Proof. unfold acquire_interface_lease, validate_lease_directory. quiet. Qed.
End lease.

(** ** One file per interface *)

Lemma string_app_inj_l (s t t' : string) : s +:+ t = s +:+ t' → t = t'.
Proof.
  intros Heq. apply (f_equal chars) in Heq. rewrite !chars_app in Heq. by apply app_inv_head, chars_inj in Heq.
Qed.

Lemma string_app_inj_r (s s' t : string) : s +:+ t = s' +:+ t → s = s'.
Proof.
  intros Heq. apply (f_equal chars) in Heq. rewrite !chars_app in Heq. by apply app_inv_tail, chars_inj in Heq.
Qed.

Lemma lease_path_inj directory i j : lease_path directory i = lease_path directory j → i = j.
Proof.
  unfold lease_path, lease_file. intros Heq%string_app_inj_l%(string_app_inj_l "interface-").
  by eapply string_app_inj_r.
Qed.

(** An accepted name adds one component to the directory. *)
Lemma lease_file_component interface :
  valid_interface_name interface = true → contains_char "/"%char (lease_file interface) = false.
Proof.
  unfold valid_interface_name, lease_file. intros [_ Hb]%andb_true_iff.
  rewrite !contains_char_app. apply orb_false_iff. split; [done|]. apply orb_false_iff. split; [|done].
  eapply all_bytes_excludes; [exact Hb|]. by vm_compute.
Qed.

(** ** What an acquired lease has seen *)

Section acquire.
Context `{Host} {C : Type}.
Implicit Types c : C.

Definition lease_outcome (directory interface : string) (r : Result LeaseError InterfaceLease) : Prop :=
  let answered := ∃ h, host_lock h (lease_path directory interface) =
    match r with Ok _ => Locked | _ => WouldBlock end in
  match r with
  | Ok lease => lease_lock lease = lease_path directory interface ∧ is_absolute directory = true ∧ valid_interface_name interface = true ∧ answered ∧
      (∃ h m, host_stat h directory = inr m ∧ private_directory m) ∧
      (∃ h file m, host_open h (lease_path directory interface) = Opened file ∧
        of_metadata file = inr m ∧ md_is_file m = true ∧ private_mode m)
  | Err InUse => answered
  | Err _ => True
  | Panic => False
  end.

Lemma wp_acquire directory interface c w :
  wp (acquire_interface_lease directory interface) (λ r _, lease_outcome directory interface r) (c, w).
Proof.
  unfold acquire_interface_lease, validate_lease_directory. wp_run.
  apply wp_guard; intros Ha; wp_run; [done|]. apply negb_false_iff in Ha.
  apply wp_intro. unfold stat at 1. destruct (host_stat (history w) directory) as [error|m] eqn:Hs;
    intros r s [= <- <-]; cbn [map_err]; wp_run; [done|].
  apply wp_guard; intros Hd; wp_run; [done|]. apply negb_false_iff, private_directory_spec in Hd.
  apply wp_guard; intros Hv; wp_run; [done|]. apply negb_false_iff in Hv.
  generalize (log (EvMetadata directory (Some m)) w). intros w1. apply wp_intro. unfold open at 1.
  intros r s [= <- <-]. cbn [map_err]. wp_run.
  destruct (host_open (history w1) (lease_path directory interface)) as [|error|file] eqn:Ho; wp_run; [done..|].
  destruct (of_metadata file) as [error|fm] eqn:Hm; wp_run; [done|].
  apply wp_guard; intros Hp; wp_run; [done|]. apply negb_false_iff, private_open_spec in Hp as [Hf Hmode].
  generalize (log (EvOpen (lease_path directory interface)) w1). intros w2. apply wp_intro. unfold try_lock.
  intros r s [= <- <-]. cbn [map_err]. wp_run.
  destruct (host_lock (history w2) (lease_path directory interface)) as [| |error] eqn:Hl; wp_run; cbn; [|by eauto|done].
  split_and!; eauto. exists (history w1), file, fm. done.
Qed.
End acquire.

(** ** Several clients

    What the kernel promises of exclusive locks: one is granted only while nobody
    holds the file, and refused for being held only while somebody does.  A
    process gives up its locks when it ends. *)

Record Held := mkHeld { holder : nat; held_directory : string; held_interface : string }.

Definition held_path (h : Held) : string := lease_path (held_directory h) (held_interface h).

Definition flock_answers (held : list Held) (path : string) (answer : LockResult) : Prop :=
  match answer with
  | Locked => path ∉ held_path <$> held
  | WouldBlock => path ∈ held_path <$> held
  | LockFailed _ => True
  end.

(** One client tries to acquire a lease in its own world, or ends. *)
Inductive lease_step : list Held → list Held → Prop :=
| step_acquire (host : Host) held p directory interface w r s :
    (∀ h, flock_answers held (lease_path directory interface)
            (host_lock h (lease_path directory interface))) →
    acquire_interface_lease directory interface (tt, w) = (r, s) →
    lease_step held (if is_ok r then mkHeld p directory interface :: held else held)
| step_exit held p : lease_step held (filter (λ h, holder h ≠ p) held).

Definition leases_ok (held : list Held) : Prop :=
  NoDup (held_path <$> held) ∧ Forall (λ h, valid_interface_name (held_interface h) = true) held.

Lemma lease_step_ok held held' : leases_ok held → lease_step held held' → leases_ok held'.
Proof.
  intros [Hn Hv]. destruct 1 as [host held p directory interface w r s Hlock Hrun|held p].
  - pose proof (wp_elim _ _ _ _ _ (wp_acquire directory interface tt w) Hrun) as Hout.
    destruct r as [lease|e|]; cbn; [|by split..]. destruct Hout as (_ & _ & Hname & [h Hl] & _).
    specialize (Hlock h). rewrite Hl in Hlock. split; [by constructor|by constructor].
  - split; [|by apply Forall_forall; intros h [_ Hin]%list_elem_of_filter; revert h Hin; apply Forall_forall].
    revert Hn. clear Hv. induction held as [|h held IH]; [done|].
    rewrite fmap_cons, NoDup_cons, filter_cons. intros [Hni Hn]. case_decide; [|by apply IH].
    rewrite fmap_cons, NoDup_cons. split; [|by apply IH]. contradict Hni.
    apply list_elem_of_fmap in Hni as (h' & -> & [_ Hin]%list_elem_of_filter). by apply list_elem_of_fmap_2.
Qed.

(** ** Theorems *)

(** C39: a lease is exclusive and only its interface contends for it.  Whatever
    clients start, fail and end, at any moment no two of them hold the lock of
    the same file, every held name is one accepted path component, and a client
    is told [InUse] only while a holder has the same path; within one runtime
    directory that is a holder of the same interface. *)
Theorem lease_exclusive held :
  rtc lease_step [] held →
  NoDup (held_path <$> held) ∧
  Forall (λ h, contains_char "/"%char (lease_file (held_interface h)) = false) held ∧
  ∀ (host : Host) directory interface w s,
    (∀ h, flock_answers held (lease_path directory interface)
            (host_lock h (lease_path directory interface))) →
    acquire_interface_lease directory interface (tt, w) = (Err InUse, s) →
    ∃ h, h ∈ held ∧ held_path h = lease_path directory interface ∧
      (held_directory h = directory → held_interface h = interface).
Proof.
  intros Hsteps. assert (leases_ok held) as [Hn Hv].
  { assert (leases_ok []) as Hinit by by split; constructor. revert Hinit.
    induction Hsteps as [|l1 l2 l3 Hs Hsteps IH]; [done|]. eauto using lease_step_ok. }
  split; [done|]. split; [eapply Forall_impl; [exact Hv|]; intros h; apply lease_file_component|].
  intros host directory interface w s Hlock Hrun.
  destruct (wp_elim _ _ _ _ _ (wp_acquire directory interface tt w) Hrun) as [h Hl].
  specialize (Hlock h). rewrite Hl in Hlock. apply list_elem_of_fmap in Hlock as (held1 & Hp & Hin).
  exists held1. split_and!; [done..|]. intros <-. symmetry in Hp. by apply lease_path_inj in Hp.
Qed.

(** A host whose lock answers are those of the given holders. *)
Definition shared_host (held : list Held) : Host := {|
  host_stat := @host_stat sample_host;
  host_open := @host_open sample_host;
  host_lock _ path := if decide (path ∈ held_path <$> held) then WouldBlock else Locked;
  decode_config := @decode_config sample_host;
  set_handler := @set_handler sample_host;
  host_prints := @host_prints sample_host;
|}.

Definition first_held : list Held := [mkHeld 1 "/run/cyberia" "cyberia0"].

Lemma shared_host_answers held path h :
  flock_answers held path (@host_lock (shared_host held) h path).
Proof. unfold flock_answers. cbn. by case_decide. Qed.

Lemma lease_exclusive_witness :
  (@acquire_interface_lease (shared_host first_held) unit "/run/cyberia" "cyberia0" (tt, quiet_world)).1 =
    Err InUse ∧
  ∃ h, h ∈ first_held ∧ held_interface h = "cyberia0".
Proof.
  split; [vm_compute; reflexivity|].
  destruct (lease_exclusive first_held) as (_ & _ & Hin).
  - eapply rtc_l; [|apply rtc_refl].
    apply (step_acquire (shared_host []) [] 1 "/run/cyberia" "cyberia0" quiet_world
      (Ok (mkLease "/run/cyberia/interface-cyberia0.lock"))
      (@acquire_interface_lease (shared_host []) unit "/run/cyberia" "cyberia0" (tt, quiet_world)).2).
    + intros h. apply shared_host_answers.
    + vm_compute. reflexivity.
  - destruct (Hin (shared_host first_held) "/run/cyberia" "cyberia0" quiet_world
      (@acquire_interface_lease (shared_host first_held) unit "/run/cyberia" "cyberia0" (tt, quiet_world)).2)
      as (h & Hh & _ & Hi).
    + intros h. apply shared_host_answers.
    + vm_compute. reflexivity.
    + exists h. split; [exact Hh|]. apply Hi.
      apply list_elem_of_singleton in Hh as ->. reflexivity.
Defined.
