(* ===== verification/Client.v ===== *)
(** The Linux client: [apps/linux-client/src/lib.rs] and [main.rs].

    The offline validation behind [--check], the lifecycle of one connection
    until shutdown, and the executable. *)

From S2P Require Import Prelude Machine Text Net Env Transport WireGuard KillSwitch Process Nftables Linux Connection ClientConfig Lease.
Open Scope string_scope.
Open Scope Z_scope.

Inductive ClientValidationError :=
| ValidationConfig (e : ConfigError)
| ValidationTransport (e : TransportError)
| ValidationNftables (e : NftablesError).

Definition display_validation_error (e : ClientValidationError) : string :=
  match e with
  | ValidationConfig e => display_config_error e
  | ValidationTransport e => display_transport_error e
  | ValidationNftables e => display_nft_error e
  end.

Definition validate_client_configuration `{Host} {C} (c : ClientConfig) :
    Act (C * World) ClientValidationError unit :=
  act_map_err ValidationConfig (validate_private_directory (runtime_directory c));;
  settings ← lift (map_err ValidationConfig (into_connection_settings c));
  lift (map_err ValidationTransport (validate_wireguard (set_profile settings)));;
  lift (map_err ValidationTransport (validate_dns (set_dns settings)));;
  lift (map_err ValidationTransport (validate_transport
    (mkTransportConfig WireGuard (wg_endpoint (set_profile settings)) (set_connect_timeout settings))));;
  act_map_err ValidationTransport (validate_tools (set_tools settings));;
  act_map_err ValidationTransport (validate_dns_tools (set_dns_tools settings));;
  act_map_err ValidationNftables (system_nftables_new (ct_nft (cc_tools c)));;
  mret tt.

(** ** Lifecycle *)

Class ManagedClientConnection (M : Type) := {
  client_connect : Token → Act (M * World) ConnectionError Session;
  client_disconnect : Act (M * World) ConnectionError unit;
  client_disable : Act (M * World) ConnectionError unit;
}.

#[export] Instance managed_linux_connection {C D N} `{CommandRunner C} `{CommandRunner D}
    `{NftablesRunner N} `{UnicodeTables} : ManagedClientConnection (LinuxWireGuardConnection C D N) := {|
  client_connect := connection_connect;
  client_disconnect := connection_disconnect;
  client_disable := connection_disable;
|}.

(** Runs a closure that only touches the outside world. *)
Definition outside {M E} (f : World → World) : Act (M * World) E unit := λ '(m, w), (Ok tt, (m, f w)).

Definition run_until_shutdown {M} `{ManagedClientConnection M} (always_on : bool) (token : Token)
    (wait_for_shutdown : World → World) : Act (M * World) ConnectionError unit :=
  connected ← attempt (E := ConnectionError) (client_connect token);
  match connected with
  | inl error =>
      (if (always_on : bool) then mret tt
       else _ ← attempt (E := ConnectionError) client_disable; mret tt);;
      raise error
  | inr _ =>
      outside wait_for_shutdown;;
      client_disconnect;;
      if always_on then mret tt else client_disable
  end.

(** ** The executable *)

Definition usage : string := "usage: cyberia-linux-client /absolute/path/to/client.json".
Definition usage_check : string := "usage: cyberia-linux-client --check /absolute/path/to/client.json".
Definition usage_both : string := "usage: cyberia-linux-client [--check] /absolute/path/to/client.json".

(** The arguments after the program name, as (check only, path). *)
Definition parse_arguments (arguments : list string) : Result string (bool * string) :=
  match arguments with
  | [] => Err usage
  | first :: rest =>
      '(check_only, path, rest) ←
        (if String.eqb first "--check" then
           match rest with
           | [] => Err usage_check
           | path :: rest => Ok (true, path, rest)
           end
         else Ok (false, first, rest));
      match rest with [] => Ok (check_only, path) | _ => Err usage_both end
  end.

(** [shutdown_receiver.recv()]: the only sender is the signal handler, which
    cancels the token before it sends. *)
Definition wait_for_signal (token : Token) (w : World) : World := log (EvCancel token) w.

(** [run] after the check-only return: the handler is installed before
    connecting, and the cancellation token is fresh. *)
Definition client_start `{Host} `{UnicodeTables} (config : ClientConfig) (token : Token) :
    Act (unit * World) string unit :=
  settings ← lift (map_err display_config_error (into_connection_settings config));
  connection ← act_map_err display_build_error
    (connection_system settings (ct_nft (cc_tools config)));
  handler ← (λ '(u, w), (Ok (set_handler (history w)), (u, w)));
  match (handler : option string) with
  | Some error => raise error
  | None =>
      act_map_err display_connection_error
        (consuming connection (run_until_shutdown (cc_always_on config) token (wait_for_signal token)))
  end.

Definition check_passed : string := "cyberia-linux-client: configuration is valid".

(** [run] of the executable. *)
Definition client_run `{Host} `{UnicodeTables} (arguments : list string) (token : Token) :
    Act (unit * World) string unit :=
  '(check_only, path) ← lift (parse_arguments arguments);
  config ← act_map_err display_config_error (load_config path);
  act_map_err display_lease_error
    (acquire_interface_lease (runtime_directory config) (cc_interface config));;
  if (check_only : bool) then
    act_map_err display_validation_error (validate_client_configuration config);;
    print_line false check_passed
  else client_start config token.

Definition failure_line (error : string) : string := "cyberia-linux-client: " +:+ error.

(** [main], returning the exit status. *)
Definition main `{Host} `{UnicodeTables} (arguments : list string) (token : Token) :
    Act (unit * World) Infallible Z :=
  result ← attempt (client_run arguments token);
  match (result : string + unit) with
  | inl error => print_line true (failure_line error);; mret 1
  | inr _ => mret 0
  end.

Section quiet_calls.
Context `{Host} {C : Type}.

Lemma quiet_validate_executable path : quiet (C := C) (validate_executable path).
Proof. unfold validate_executable. quiet. Qed.

Lemma quiet_validate_tools t : quiet (C := C) (validate_tools t).
Proof. unfold validate_tools. pose proof quiet_validate_executable. quiet. Qed.

Lemma quiet_nftables_new path : quiet (C := C) (system_nftables_new path).
Proof. unfold system_nftables_new, nft_validate_executable. quiet. Qed.

Lemma quiet_validate_client c : quiet (C := C) (validate_client_configuration c).
Proof.
  unfold validate_client_configuration, validate_private_directory, validate_dns_tools.
  pose proof quiet_validate_executable. pose proof quiet_validate_tools.
  pose proof quiet_nftables_new. quiet.
Qed.
End quiet_calls.

(** ** Checks repeat

    When the answers about files do not change, a check gives the same result
    every time it runs. *)

Definition stable (e : Environment) : Prop :=
  ∀ h h' path, env_metadata e h path = env_metadata e h' path.

Definition repeats {C D E A} (e : Environment) (m : Act (C * World) E A) (m' : Act (D * World) E A) : Prop :=
  ∀ c d w w', env w = e → env w' = e → (m (c, w)).1 = (m' (d, w')).1.

Section repeats.
Context {C D : Type} (e : Environment) (Hstable : stable e).

Lemma repeats_bind {E A B} (m : Act (C * World) E A) (m' : Act (D * World) E A)
    (f : A → Act (C * World) E B) (f' : A → Act (D * World) E B) :
  quiet m → quiet m' → repeats e m m' → (∀ a, repeats e (f a) (f' a)) → repeats e (m ≫= f) (m' ≫= f').
Proof.
  intros Hq Hq' Hr Hf c d w w' Hw Hw'. specialize (Hr c d w w' Hw Hw').
  pose proof (quiet_env _ (c, w) Hq) as He. pose proof (quiet_env _ (d, w') Hq') as He'. unfold mbind, act_bind.
  destruct (m (c, w)) as [r [c1 w1]], (m' (d, w')) as [r' [d1 w1']]. cbn in *. subst r'.
  destruct r as [a|x|]; cbn; [|done..]. apply Hf; congruence.
Qed.

Lemma repeats_metadata {E} path : repeats e (C := C) (D := D) (E := E) (metadata path) (metadata path).
Proof. intros c d w w' Hw Hw'. cbn. rewrite Hw, Hw'. f_equal. apply Hstable. Qed.

Lemma repeats_lift {E A} (r : Result E A) : repeats e (C := C) (D := D) (lift r) (lift r).
Proof. done. Qed.

Lemma repeats_guard {E} b (x : E) : repeats e (C := C) (D := D) (guard_err b x) (guard_err b x).
Proof. by destruct b. Qed.

Lemma repeats_executable path :
  repeats e (C := C) (D := D) (validate_executable path) (validate_executable path).
Proof.
  unfold validate_executable. apply repeats_bind; auto with quiet. { apply repeats_metadata. }
  intros a. apply repeats_bind; auto with quiet. { apply repeats_lift. } intros m. apply repeats_guard.
Qed.

Lemma repeats_tools t : repeats e (C := C) (D := D) (validate_tools t) (validate_tools t).
Proof.
  pose proof repeats_executable. pose proof (@quiet_validate_executable C).
  pose proof (@quiet_validate_executable D). unfold validate_tools.
  apply repeats_bind; [done..|intros _]. apply repeats_bind; [done..|intros _].
  apply repeats_bind; auto with quiet. { apply repeats_metadata. }
  intros a. apply repeats_bind; auto with quiet. { apply repeats_lift. } intros m. apply repeats_guard.
Qed.

Lemma repeats_nftables path :
  repeats e (C := C) (D := D) (system_nftables_new path) (system_nftables_new path).
Proof.
  unfold system_nftables_new, nft_validate_executable.
  apply repeats_bind; [quiet..| |intros _; done].
  apply repeats_bind; auto with quiet. { apply repeats_metadata. }
  intros a. apply repeats_bind; auto with quiet. { apply repeats_lift. } intros m. apply repeats_guard.
Qed.
End repeats.

(** ** What a passed check promises *)

(** [m] succeeds whenever it runs in [e]. *)
Definition passes {C E A} (e : Environment) (m : Act (C * World) E A) : Prop :=
  quiet m ∧ ∀ c w, env w = e → is_ok (m (c, w)).1 = true.

Lemma wp_passes {C E A} e (m : Act (C * World) E A) Q c w :
  passes e m → env w = e → (∀ a c' w', only_reads w w' → Q (Ok a) (c', w')) → wp m Q (c, w).
Proof.
  intros [Hq Hok] He HQ. apply wp_intro. intros r [c' w'] Hm. specialize (Hok c w He).
  specialize (Hq (c, w)). rewrite Hm in Hok, Hq. cbn in *. destruct r; [|done..]. by apply HQ.
Qed.

Lemma passes_repeat {C D E A} e (m : Act (C * World) E A) (m' : Act (D * World) E A) c w :
  quiet m' → repeats e m m' → env w = e → is_ok (m (c, w)).1 = true → passes e m'.
Proof.
  intros Hq Hr He Hok. split; [done|]. intros d w' He'. by rewrite <-(Hr c d w w').
Qed.

(** The inputs [--check] has accepted. *)
Definition accepted_inputs (e : Environment) (c : ClientConfig) (s : LinuxConnectionSettings) : Prop :=
  into_connection_settings c = Ok s ∧
  validate_wireguard (set_profile s) = Ok tt ∧ validate_dns (set_dns s) = Ok tt ∧
  validate_transport
    (mkTransportConfig WireGuard (wg_endpoint (set_profile s)) (set_connect_timeout s)) = Ok tt ∧
  passes e (validate_tools (C := SystemCommandRunner) (set_tools s)) ∧
  passes e (validate_executable (C := SystemCommandRunner) (resolvectl (set_dns_tools s))) ∧
  passes e (system_nftables_new (C := unit) (ct_nft (cc_tools c))).

Lemma wp_validate_client `{Host} {C} (config : ClientConfig) (c : C) w :
  stable (env w) →
  wp (validate_client_configuration config)
    (λ r _, r = Ok tt → ∃ s, accepted_inputs (env w) config s) (c, w).
Proof.
  intros Hst. unfold validate_client_configuration. wp_run.
  apply wp_validate_private_directory; [intros m _ _ _|done]. cbn [map_err]. wp_run.
  set (w1 := log _ w). assert (env w1 = env w) as H1 by done. clearbody w1.
  destruct (into_connection_settings config) as [s|e|] eqn:Hs; cbn [map_err]; wp_run; [|done..].
  destruct (validate_wireguard _) as [[]|e|] eqn:Hwg; cbn [map_err]; wp_run; [|done..].
  destruct (validate_dns _) as [[]|e|] eqn:Hdns; cbn [map_err]; wp_run; [|done..].
  destruct (validate_transport _) as [[]|e|] eqn:Htr; cbn [map_err]; wp_run; [|done..].
  apply wp_intro. intros rt [c2 w2] Ht. pose proof (proj1 (quiet_validate_tools (set_tools s) (c, w1))) as H2.
  rewrite Ht in H2. cbn in H2. destruct rt as [[]|e|]; cbn [map_err]; wp_run; [|done..].
  apply wp_intro. intros rd [c3 w3] Hd.
  pose proof (proj1 (quiet_validate_executable (resolvectl (set_dns_tools s)) (c2, w2))) as H3.
  unfold validate_dns_tools in Hd. rewrite Hd in H3. cbn in H3.
  destruct rd as [[]|e|]; cbn [map_err]; wp_run; [|done..].
  apply wp_intro. intros rn [c4 w4] Hn. destruct rn as [n|e|]; cbn [map_err]; wp_run; [|done..].
  intros _. exists s. split_and!; try done.
  - eapply (passes_repeat _ _ _ c w1); [apply quiet_validate_tools|by apply repeats_tools|done|by rewrite Ht].
  - eapply (passes_repeat _ _ _ c2 w2); [apply quiet_validate_executable|by apply repeats_executable|congruence|by rewrite Hd].
  - eapply (passes_repeat _ _ _ c3 w3); [apply quiet_nftables_new|by apply repeats_nftables|congruence|by rewrite Hn].
Qed.

(** Only the firewall can still refuse inputs that passed the check, given an
    interface name of the adapter's alphabet. *)
Lemma wp_system_checked `{UnicodeTables} e config s w :
  accepted_inputs e config s → env w = e → ip_typed (cc_endpoint_address config) →
  wg_valid_interface (cc_interface config) = true → utf8_valid (ct_private_key (cc_tools config)) = true →
  wp (connection_system s (ct_nft (cc_tools config)))
    (λ r _, match r with Err x => ∃ f, x = BuildFirewall f | _ => True end) (tt, w).
Proof.
  intros (Hs & Hwg & Hdns & Htr & Ht & Hd & Hn) He Hip Hi Hutf.
  destruct (into_settings_fields _ _ Hs) as (Hhost & Hsi & Hsk & _).
  unfold connection_system. wp_run. apply (wp_passes e); [done..|]. intros n [] w1 [H1 _]. cbn [map_err]. wp_run.
  unfold with_runners. wp_run. rewrite Hhost in *. cbn [host]. rewrite parse_display by done. cbn [ok_or]. wp_run.
  rewrite Htr, Hdns. cbn [map_err]. wp_run. unfold linux_backend_new, validate_backend_tools.
  apply wp_consuming. wp_run. apply (wp_passes e); [done|congruence|]. intros [] r2 w2 [H2 _]. wp_run.
  rewrite Hsk, Hutf. cbn. wp_run. unfold adapter_new. rewrite Hsi, Hi, Hwg. cbn. wp_run.
  unfold dns_new, validate_dns_tools. apply wp_consuming. wp_run. apply (wp_passes e); [done|congruence|].
  intros [] r3 w3 _. wp_run. cbn [map_err]. wp_run. apply wp_consuming, wp_intro.
  intros [ctl|x|] [f w4] _; cbn; eauto.
Qed.

(** ** The lifecycle of one connection *)

Section lifecycle.
Context {C D N : Type} `{RunnerSpec C} `{RunnerSpec D} `{NftablesSpec N} `{UnicodeTables}.
Context (K : N → Prop).
Context (runner_kept : ∀ rules n w r n' w', nft_apply rules (n, w) = (r, (n', w')) → K n → K n').
Local Abbreviation Self := (LinuxWireGuardConnection C D N).
Implicit Types (s : Self * World).

Lemma on_dns_keeps (m : Act (LinuxDnsBackend D * World) TransportError unit) (Q : Result TransportError unit → _ → Prop) s :
  no_pipe m → connection_secure s →
  (∀ r s', connection_secure s' → controller s'.1 = controller s.1 → Q r s') → wp (on_dns m) Q s.
Proof.
  destruct s as [c w]. intros Hm Hs HQ. unfold on_dns. wp_run. apply wp_intro.
  intros r [d w'] Hrun. apply HQ; [|done]. specialize (Hm (conn_dns c, w)). rewrite Hrun in Hm. cbn in Hm.
  by eapply fail_secure_piped.
Qed.

(** A connection that came up permits only its tunnel. *)
Lemma wp_connect_tunnel token s :
  connection_secure s →
  wp (connection_connect token) (λ r s', r ≠ Panic → connection_secure s' ∧
    ∀ session, r = Ok session → connection_policy s'.1 = TunnelOnly (session_id session)) s.
Proof.
  intros Hs. apply wp_intro. intros r s' Hrun Hr. split.
  { exact (wp_elim _ _ _ _ _ (secure_connect token s Hs) Hrun Hr). }
  intros session ->. clear Hr. revert Hrun.
  cut (wp (connection_connect token)
    (λ r s', r = Ok session → connection_policy s'.1 = TunnelOnly (session_id session)) s).
  { intros Hwp Hrun. exact (wp_elim _ _ _ _ _ Hwp Hrun eq_refl). }
  destruct s as [c w]. unfold connection_connect. wp_run. apply wp_intro. unfold instant_now, on_world.
  intros r s1 Hr. injection Hr as <- <-. wp_run. destruct (instant_add _ _) as [deadline|e|]; wp_run; [|done..].
  unfold on_controller at 1. wp_run. eapply wp_mono; [apply wp_connect; by eapply fail_secure_piped, Hs|].
  intros [session'|e|] [c1 w1] [Hout Hsec]; wp_run; [|done..].
  destruct Hout as (_ & Hpol & _). specialize (Hsec ltac:(done)).
  apply on_dns_keeps; [apply no_pipe_dns_configure|exact Hsec|].
  intros [[]|dns_error|] [c2 w2] Hs2 Hc2; wp_run; [| |done].
  { intros [= ->]. unfold connection_policy. cbn [fst] in *. by rewrite Hc2. }
  assert (∀ t, wp (teardown_after_dns (C := C) (D := D) (N := N) dns_error)
    (λ r s', r = Ok session → connection_policy s'.1 = TunnelOnly (session_id session)) t) as Htear.
  { intros t. unfold teardown_after_dns. wp_run. apply wp_intro. by intros [[]|e|] t' _; wp_run. }
  unfold recover_dns. wp_run. destruct (needs_revert _); [|apply Htear]. wp_run.
  apply wp_intro. intros [[]|e|] t' _; wp_run; [apply Htear|done..].
Qed.

Lemma wp_disconnect_blocks s :
  connection_secure s → connection_policy s.1 ≠ Disabled →
  wp connection_disconnect (λ r s', r ≠ Panic → connection_secure s' ∧
    (r = Ok tt → connection_policy s'.1 = BlockNonTunnel ∧
       transport_may_be_active (controller s'.1) = false)) s.
Proof.
  destruct s as [c w]. intros Hs Hpol. unfold connection_disconnect. wp_run.
  apply on_dns_keeps; [apply no_pipe_dns_revert|done|].
  intros [[]|e|] [c1 w1] Hs1 Hc1; cbn [map_err]; wp_run; [|done..].
  unfold on_controller. wp_run. eapply wp_mono; [apply wp_disconnect, Hs1|].
  intros r [c2 w2] [Hout Hsec] Hr. split; [by apply Hsec|]. intros ->. destruct Hout as [Hp Ha].
  split; [|done]. unfold connection_policy. cbn in *. rewrite Hp, Hc1. unfold tunnel_lost.
  by rewrite bool_decide_eq_false_2.
Qed.

Lemma wp_disable_releases s :
  connection_secure s →
  wp connection_disable (λ r s', r ≠ Panic → connection_secure s' ∧
    (r = Ok tt → connection_policy s'.1 = Disabled)) s.
Proof.
  destruct s as [c w]. intros Hs. unfold connection_disable, on_controller. wp_run.
  eapply wp_mono; [apply wp_disable, Hs|]. intros r [c2 w2] [Hout Hsec] Hr. split; [by apply Hsec|].
  intros ->. by destruct Hout.
Qed.

Lemma wp_lifecycle always token wait s :
  (∀ w, piped (wait w) = piped w) → connection_secure s →
  wp (run_until_shutdown always token wait) (λ r s', r ≠ Panic → connection_secure s' ∧
    (r = Ok tt → connection_policy s'.1 = if (always : bool) then BlockNonTunnel else Disabled)) s.
Proof.
  intros Hwait Hs. unfold run_until_shutdown. wp_run. cbn.
  eapply wp_mono; [by apply wp_connect_tunnel|].
  intros [session|e|] [c1 w1] Hc1; wp_run; [| |done]; specialize (Hc1 ltac:(done)) as [Hs1 Hp1].
  - unfold outside at 1. apply wp_intro. intros r s2 Hr. injection Hr as <- <-. wp_run.
    assert (connection_secure (c1, wait w1)) as Hs2 by (eapply fail_secure_piped, Hs1; apply Hwait).
    specialize (Hp1 _ eq_refl). cbn [fst] in Hp1.
    eapply wp_mono; [apply wp_disconnect_blocks; [done|cbn [fst]; by rewrite Hp1]|].
    intros [[]|e|] [c3 w3] Hc3; wp_run; [| |done]; specialize (Hc3 ltac:(done)) as [Hs3 Hp3].
    + specialize (Hp3 eq_refl) as [Hp3 _]. destruct always; wp_run; [done|]. by apply wp_disable_releases.
    + done.
  - destruct always; wp_run; [done|]. eapply wp_mono; [by apply wp_disable_releases|].
    intros [[]|e'|] [c2 w2] Hc2; wp_run; [| |done]; by specialize (Hc2 ltac:(done)) as [Hs2 _].
Qed.

Lemma connect_wiring (s0 : Self) token s :
  same_wiring K s0 s → wp (connection_connect token) (λ _ s', same_wiring K s0 s') s.
Proof.
  intros Hs. pose proof (connection_call_wiring K runner_kept (CallConnectionConnect token) s0 s Hs) as Hw.
  revert Hw. unfold wp, connection_call, mbind, act_bind.
  by destruct (connection_connect token s) as [[a|e|] s'].
Qed.

Lemma wp_lifecycle_wiring (s0 : Self) always token wait s :
  same_wiring K s0 s → wp (run_until_shutdown always token wait) (λ _ s', same_wiring K s0 s') s.
Proof.
  intros Hs. unfold run_until_shutdown. wp_run. cbn.
  pose proof (λ t, connection_call_wiring K runner_kept CallConnectionDisable s0 t) as Hdisable.
  pose proof (λ t, connection_call_wiring K runner_kept CallConnectionDisconnect s0 t) as Hdisconnect.
  cbn in Hdisable, Hdisconnect.
  eapply wp_mono; [by apply connect_wiring|]. intros [session|e|] [c1 w1] Hs1; wp_run; [| |done].
  - unfold outside at 1. apply wp_intro. intros r s2 Hr. injection Hr as <- <-. wp_run.
    eapply wp_mono; [by apply Hdisconnect|]. intros [[]|e|] s3 Hs3; wp_run; [|done..].
    destruct always; wp_run; [done|]. by apply Hdisable.
  - destruct always; wp_run; [done|]. eapply wp_mono; [by apply Hdisable|].
    by intros [[]|e'|] s2 Hs2; wp_run.
Qed.
End lifecycle.

(** ** The executable *)

Section executable.
Context `{Host} `{UnicodeTables}.

Lemma quiet_accepted exe w w' :
  processes w' = processes w → accepted_by exe (history w') = accepted_by exe (history w).
Proof.
  intros Hp%piped_processes. rewrite (accepted_by_piped exe (history w')), (accepted_by_piped exe (history w)).
  unfold piped in Hp. by rewrite Hp.
Qed.

Lemma system_nft_rejected rules n w e s :
  system_nft_apply rules (n, w) = (Err e, s) →
  ∀ exe, accepted_by exe (history s.2) = accepted_by exe (history w).
Proof.
  unfold system_nft_apply, self, spawn, on_world. run. cbn [log history].
  destruct (env_process _ _ _ _) as [?|?|?|[] status out err]; by intros; simplify_eq.
Qed.

(** A refused connection leaves what [nft] accepted. *)
Lemma wp_with_runners_refused settings c d n w :
  wp (with_runners (C := SystemCommandRunner) (D := SystemCommandRunner) settings c d n)
    (λ r s, ∀ e, r = Err e → ∀ exe, accepted_by exe (history s.2) = accepted_by exe (history w)) (tt, w).
Proof.
  unfold with_runners. wp_run. destruct (parse_ip _) as [address|]; cbn [ok_or]; wp_run; [|done].
  destruct (validate_transport _) as [[]|e|]; cbn [map_err]; wp_run; [|done..].
  destruct (validate_dns (set_dns settings)) as [[]|e|]; cbn [map_err]; wp_run; [|done..].
  apply wp_consuming. unfold linux_backend_new. wp_run.
  apply wp_validate_backend_tools; [intros w1 _ _ Hp1|intros; wp_run; cbn [map_err snd]; intros; by apply quiet_accepted].
  wp_run. cbn [map_err snd]. wp_run.
  destruct (adapter_new _ _ _) as [a|e|]; cbn [map_err]; wp_run; [|intros; by apply quiet_accepted|done].
  apply wp_consuming. unfold dns_new, validate_dns_tools. wp_run.
  apply wp_validate_executable; [intros m w2 _ _ _ Hp2|intros; wp_run; cbn [map_err snd]; intros; apply quiet_accepted; congruence].
  wp_run. cbn [map_err snd]. wp_run. apply wp_consuming. unfold controller_new. wp_run. cbn. wp_run.
  unfold nft_backend_apply. wp_run.
  destruct (render _ _) as [rules|e|]; repeat (cbn [map_err snd]; wp_run);
    [|intros; apply quiet_accepted; congruence|done].
  apply wp_intro. intros r [n' w3] Hn. destruct r as [[]|e|]; repeat (cbn [map_err snd]; wp_run); [done| |done].
  intros e' _ exe. cbn [snd history] in *. rewrite (system_nft_rejected _ _ _ _ _ Hn). apply quiet_accepted.
  congruence.
Qed.
(** The newest transaction [nft] accepted renders [p] for the configured
    endpoint. *)
Definition enforced (config : ClientConfig) (w : World) (p : TrafficPolicy) : Prop :=
  ∃ rules, render (mkNftables (cc_endpoint_address config) (cc_endpoint_port config)) p = Ok rules ∧
    head (accepted_by (ct_nft (cc_tools config)) (history w)) = Some rules.

Definition client_outcome (path : string) (w : World) (r : Result string unit) (w' : World) : Prop :=
  match r with
  | Ok _ => ∃ config, loaded path w config ∧
      enforced config w' (if cc_always_on config then BlockNonTunnel else Disabled)
  | Err _ =>
      (∀ exe, accepted_by exe (history w') = accepted_by exe (history w)) ∨
      ∃ config p, loaded path w config ∧ enforced config w' p ∧
        (cc_always_on config = true → p ≠ Disabled)
  | Panic => True
  end.

Lemma system_runner_kept exe rules (n : SystemNftablesRunner) w r n' w' :
  nft_apply rules (n, w) = (r, (n', w')) → executable n = exe → executable n' = exe.
Proof.
  cbn. unfold system_nft_apply, self, spawn, on_world. run. repeat case_match; intros; by simplify_eq.
Qed.

(** A connection built from [config], and kept wired since, enforces its
    recorded policy. *)
Lemma enforced_connection config settings conn
    (s : LinuxWireGuardConnection SystemCommandRunner SystemCommandRunner SystemNftablesRunner * World)
    n w :
  ip_typed (cc_endpoint_address config) → into_connection_settings config = Ok settings →
  executable n = ct_nft (cc_tools config) →
  built_outcome (λ n, executable n = ct_nft (cc_tools config)) settings n (Ok conn) w →
  same_wiring (λ n, executable n = ct_nft (cc_tools config)) conn s → connection_secure s →
  enforced config s.2 (connection_policy s.1) ∧
  (cc_always_on config = true → connection_policy s.1 ≠ Disabled).
Proof.
  intros Hip Hset Hexe Hbuilt Hsame Hsec.
  destruct (into_settings_fields _ _ Hset) as (Hend & _ & _ & Halways).
  destruct (Hbuilt conn eq_refl) as (_ & _ & Hwired & _ & _ & _ & _ & address & Ha & Hcfg & Hrun).
  destruct (wired_same _ _ _ _ Hwired Hsame) as [(_ & _ & _ & _ & _ & Hmode) [Hcfg' Hrun']].
  destruct Hsec as ((rules & Hr & Hh) & [Hon _] & _). cbn in Hr, Hh, Hcfg, Hrun, Hon.
  rewrite Hend in Ha, Hcfg. cbn [host port nft_config] in Ha, Hcfg. rewrite parse_display in Ha by done.
  injection Ha as <-.
  rewrite Hcfg', Hcfg in Hr. rewrite (Hrun' (Hrun Hexe)) in Hh. split; [by exists rules|].
  intros Hc. apply Hon. by rewrite Hmode, Halways.
Qed.

Lemma wp_client_start config path token w0 w :
  ip_typed (cc_endpoint_address config) → loaded path w0 config → processes w = processes w0 →
  wp (client_start config token) (λ r s, client_outcome path w0 r s.2) (tt, w).
Proof.
  intros Hip Hload Hp. unfold client_start. wp_run.
  destruct (into_connection_settings config) as [settings|e|] eqn:Hset; cbn [map_err]; wp_run;
    [|left; intros exe; by apply quiet_accepted|done].
  unfold connection_system. wp_run. apply wp_intro. intros r [[] w3] Hnew.
  pose proof (quiet_processes _ (tt, w) (quiet_nftables_new (ct_nft (cc_tools config)))) as Hp3.
  rewrite Hnew in Hp3. cbn [fst snd] in Hp3. destruct r as [n|e|]; repeat (cbn [map_err]; wp_run);
    [|left; intros exe; apply quiet_accepted; cbn [snd]; congruence|done].
  assert (executable n = ct_nft (cc_tools config)) as Hexe.
  { revert Hnew. unfold system_nftables_new. run.
    destruct (nft_validate_executable _ _) as [[] ?]; by intros [= <-]. }
  pose proof (system_runner_kept (ct_nft (cc_tools config))) as HK.
  eapply wp_mono; [apply wp_and; [apply (wp_with_runners _ HK)|apply wp_with_runners_refused]|].
  intros r [[] w4] [Hbuilt Hrefused]. cbn [snd] in *.
  destruct r as [conn|e|]; repeat (cbn [map_err]; wp_run); [| |done].
  2: { left. intros exe. rewrite (Hrefused e eq_refl). apply quiet_accepted. congruence. }
  pose proof (λ s, enforced_connection config settings conn s n w4 Hip Hset Hexe Hbuilt) as Henforced.
  destruct (Hbuilt conn eq_refl) as [Hsec _].
  apply wp_intro. intros r s [= <- <-]. wp_run. destruct (set_handler (history w4)) as [error|]; wp_run.
  { right. destruct (Henforced (conn, w4)) as [He Ho]; [apply same_wiring_refl|done|]. eauto. }
  apply wp_consuming. eapply wp_mono.
  { apply wp_and; [apply wp_lifecycle; [|exact Hsec]|apply (wp_lifecycle_wiring _ HK), same_wiring_refl].
    intros w'. done. }
  intros r [conn' w5] [Hlife Hwiring]. cbn [snd]. destruct r as [[]|e|]; cbn [map_err]; [| |done].
  - destruct Hlife as [Hs Hpol]; [done|]. destruct (Henforced _ Hwiring Hs) as [He _].
    exists config. split; [done|]. specialize (Hpol eq_refl). cbn [fst snd] in *. by rewrite Hpol in He.
  - right. destruct Hlife as [Hs _]; [done|]. destruct (Henforced _ Hwiring Hs) as [He Ho]. eauto.
Qed.

Lemma wp_client_run arguments path token w :
  (∀ bytes config, decode_config bytes = inr config → ip_typed (cc_endpoint_address config)) →
  parse_arguments arguments = Ok (false, path) →
  wp (client_run arguments token) (λ r s, client_outcome path w r s.2) (tt, w).
Proof.
  intros Htyped Hargs. unfold client_run. wp_run. rewrite Hargs. wp_run.
  eapply wp_mono; [apply wp_load_config|]. intros r [[] w1] (_ & _ & Hp1 & Hload). cbn [fst snd] in Hp1.
  destruct r as [config|e|]; cbn [map_err]; wp_run; [| |done].
  2: { left. intros exe. by apply quiet_accepted. }
  apply wp_intro. intros r [[] w2] Hlease.
  pose proof (quiet_processes _ (tt, w1) (quiet_lease (runtime_directory config) (cc_interface config))) as Hp2.
  rewrite Hlease in Hp2. cbn [fst snd] in Hp2. destruct r as [[]|e|]; cbn [map_err]; wp_run; [| |done].
  2: { left. intros exe. apply quiet_accepted. cbn [snd]. congruence. }
  apply wp_client_start; [|done|congruence].
  destruct Hload as (_ & (file & m & bytes & _ & _ & _ & _ & _ & _ & _ & Hd) & _). by eapply Htyped.
Qed.

(** With [--check], everything before the success line is quiet. *)
Lemma wp_client_check arguments token w :
  head arguments = Some "--check" →
  wp (client_run arguments token)
    (λ r s, processes s.2 = processes w ∧
       printed s.2 = (match r with Ok _ => [(false, check_passed)] | _ => [] end ++ printed w)%list) (tt, w).
Proof.
  intros Hargs. unfold client_run. apply wp_bind, wp_lift.
  assert (∀ path, parse_arguments arguments ≠ Ok (false, path)) as Hcheck.
  { destruct arguments as [|first rest]; [done|]. injection Hargs as ->. cbn.
    by destruct rest as [|? [|]]. }
  destruct (parse_arguments arguments) as [[[] path]|e|]; cbn [after]; [|by destruct (Hcheck path)|done..].
  assert (∀ w', only_reads w w' → processes w' = processes w ∧ printed w' = printed w) as Hkeep
    by (intros w' Hw; split; [by apply only_reads_processes|by apply only_reads_printed]).
  wp_run. apply wp_quiet; [apply quiet_load_config|].
  intros [config|e|] [] w1 H1; cbn [map_err]; wp_run; [|by apply Hkeep..].
  apply wp_quiet; [apply quiet_lease|].
  intros [lease|e|] [] w2 H2%(only_reads_trans _ _ _ H1); cbn [map_err]; wp_run; [|by apply Hkeep..].
  apply wp_quiet; [apply quiet_validate_client|].
  intros [[]|e|] [] w3 H3%(only_reads_trans _ _ _ H2); cbn [map_err]; wp_run; [|by apply Hkeep..].
  destruct (Hkeep w3 H3) as [Hp Ho]. apply wp_print_line; (split; [exact Hp|]); cbn; by rewrite <-Ho.
Qed.
End executable.

(** ** Theorems *)

(** C1: a run of the client ends protected.  When it ends without an error, the
    newest ruleset [nft] accepted renders [BlockNonTunnel] for an always-on
    client and [Disabled] otherwise, for the endpoint of the configuration that
    was loaded; when it ends with an error, either no ruleset was accepted
    during the run or the newest one belongs to the configured endpoint and, for
    an always-on client, filters.  The JSON decoder yields typed addresses. *)
Theorem client_run_secure `{Host} `{UnicodeTables} arguments path token w r s :
  (∀ bytes config, decode_config bytes = inr config → ip_typed (cc_endpoint_address config)) →
  parse_arguments arguments = Ok (false, path) →
  client_run arguments token (tt, w) = (r, s) →
  client_outcome path w r s.2.
Proof.
  intros Htyped Hargs. by_wp. by apply wp_client_run.
Qed.

(** [--check] starts no process and reports once.  Whatever the arguments
    after it, the files and the configuration, the executable runs nothing and
    ends in one of three ways: status 0 after the success line on standard
    output, status 1 after one line with the error on standard error, or a panic
    that printed nothing. *)
Theorem check_mode_inert `{Host} `{UnicodeTables} arguments token w r s :
  head arguments = Some "--check" →
  main arguments token (tt, w) = (r, s) →
  processes s.2 = processes w ∧
  match r with
  | Ok status =>
      (status = 0 ∧ printed s.2 = (false, check_passed) :: printed w) ∨
      (status = 1 ∧ ∃ error, printed s.2 = (true, failure_line error) :: printed w)
  | Err _ => False
  | Panic => printed s.2 = printed w
  end.
Proof.
  intros Hargs. by_wp. unfold main. wp_run. eapply wp_mono; [by apply wp_client_check|].
  intros r' [[] w1] [Hp Ho]. cbn [snd] in *. destruct r' as [[]|error|]; wp_run; [by auto| |done].
  apply wp_print_line; wp_run; [|done]. split; [exact Hp|]. right. split; [done|]. exists error. cbn in Ho.
  by rewrite <-Ho.
Qed.


(** A client that is not always-on stays blocked when its transport cannot
    connect: [run_until_shutdown] asks to release filtering, the controller
    refuses because the teardown it waits for is never confirmed, the refusal
    is dropped, and [BlockNonTunnel] is what remains recorded. *)
Theorem failed_start_stays_blocked {C D N} `{CommandRunner C} `{CommandRunner D} `{NftablesRunner N}
    `{UnicodeTables} (conn : LinuxWireGuardConnection C D N) w token wait now w1 deadline e c w2 :
  connected (transport (controller conn)) = false →
  instant_now (E := ConnectionError) (conn, w) = (Ok now, (conn, w1)) →
  instant_checked_add now (connect_timeout (conn_transport conn)) = Some deadline →
  controller_connect (conn_transport conn) (mkContext deadline token) (controller conn, w1) =
    (Err (TransportFailed e), (c, w2)) →
  run_until_shutdown false token wait (conn, w) =
    (Err (TransportFailed e), (set_controller c conn, w2)) ∧
  connection_policy (set_controller c conn) = BlockNonTunnel.
Proof.
  intros Hconn Hnow Hadd Hrun.
  destruct (connect_unreleased _ _ _ _ _ _ Hconn Hrun) as (Hact & _ & Hpol). cbn in Hact, Hpol.
  split; [|done]. unfold run_until_shutdown. cbn. unfold connection_connect, self. run.
  rewrite Hnow. unfold instant_add. rewrite Hadd. unfold on_controller, on_field. rewrite Hrun. cbn.
  unfold connection_disable, on_controller, on_field, controller_disable, self. run. cbn. rewrite Hact.
  by destruct conn.
Qed.

(** ** Witnesses *)

Definition sample_run (arguments : list string) :=
  client_run arguments 1 (tt, mkWorld (host_env false) []).

Definition sample_main (arguments : list string) :=
  main arguments 1 (tt, mkWorld (host_env false) []).

Lemma sample_decode_typed (bytes : string) (config : ClientConfig) :
  decode_config bytes = inr config → ip_typed (cc_endpoint_address config).
Proof. intros Hd. injection Hd as <-. split; cbn; lia. Qed.

Lemma client_run_secure_witness :
  (sample_run ["/etc/cyberia/client.json"]).1 = Ok tt ∧
  ∃ rules, render sample_nftables Disabled = Ok rules ∧
    head (accepted_by "/usr/sbin/nft" (history (sample_run ["/etc/cyberia/client.json"]).2.2)) = Some rules.
Proof.
  assert ((sample_run ["/etc/cyberia/client.json"]).1 = Ok tt) as Hr by (vm_compute; reflexivity).
  split; [exact Hr|].
  assert (client_run ["/etc/cyberia/client.json"] 1 (tt, mkWorld (host_env false) []) =
    (Ok tt, (sample_run ["/etc/cyberia/client.json"]).2)) as Hrun
    by (rewrite <-Hr; apply surjective_pairing).
  destruct (client_run_secure ["/etc/cyberia/client.json"] "/etc/cyberia/client.json" 1
    (mkWorld (host_env false) []) (Ok tt) _ sample_decode_typed eq_refl Hrun)
    as (config & (_ & (? & ? & ? & _ & _ & _ & _ & _ & _ & _ & Hd) & _) & rules & Hrules & Hhead).
  injection Hd as <-. exists rules. split; [exact Hrules|exact Hhead].
Defined.

Lemma check_mode_inert_witness :
  (sample_main ["--check"; "/etc/cyberia/client.json"]).1 = Ok 0 ∧
  processes (sample_main ["--check"; "/etc/cyberia/client.json"]).2.2 = [].
Proof.
  split; [vm_compute; reflexivity|].
  exact (proj1 (check_mode_inert ["--check"; "/etc/cyberia/client.json"] 1 (mkWorld (host_env false) []) _ _
    eq_refl (surjective_pairing _))).
Defined.

Definition sample_check :=
  validate_client_configuration sample_client_config (tt, mkWorld (host_env false) []).

Definition sample_system :=
  connection_system sample_settings "/usr/sbin/nft" (tt, mkWorld (host_env false) []).


(** Only [nft], the tool with piped input, works. *)
Definition dead_env : Environment :=
  mkEnvironment (λ _, 0) (λ _ _, false) (λ _, 0)
    (λ _ c stdin, match stdin with
                  | Some _ => Exited true "exit status: 0" "" ""
                  | None => Exited false "exit status: 2" "" "Operation not supported"
                  end)
    (env_metadata trusted_env).

Definition dead_build :=
  with_runners sample_settings system_command_runner system_command_runner sample_nft
    (tt, mkWorld dead_env []).

Definition dead_connection :
    LinuxWireGuardConnection SystemCommandRunner SystemCommandRunner SystemNftablesRunner :=
  match dead_build.1 with Ok conn => conn | _ => patient_connection end.

Definition dead_connect :=
  controller_connect (conn_transport dead_connection) (mkContext (from_secs 30) 1)
    (controller dead_connection, log (EvInstant 0) dead_build.2.2).

Lemma failed_start_stays_blocked_witness :
  is_ok dead_build.1 = true ∧
  connection_policy (run_until_shutdown false 1 (wait_for_signal 1) (dead_connection, dead_build.2.2)).2.1 =
    BlockNonTunnel.
Proof.
  split; [vm_compute; reflexivity|].
  destruct (failed_start_stays_blocked dead_connection dead_build.2.2 1 (wait_for_signal 1) 0
    (log (EvInstant 0) dead_build.2.2) (from_secs 30)
    (Network "platform command exited with exit status: 2: Operation not supported")
    dead_connect.2.1 dead_connect.2.2) as [Hrun Hpol].
  - vm_compute. reflexivity.
  - vm_compute. reflexivity.
  - vm_compute. reflexivity.
  - assert (dead_connect.1 = Err (TransportFailed
      (Network "platform command exited with exit status: 2: Operation not supported"))) as Hr
      by (vm_compute; reflexivity).
    rewrite <-Hr, <-surjective_pairing. apply surjective_pairing.
  - rewrite Hrun. exact Hpol.
Defined.

(** A dotted interface name passes the lease and the check, and is refused only
    when the client starts. *)
Definition dotted_config : ClientConfig :=
  config_of (mkSettings "cyberia.0" sample_profile sample_dns_config sample_tools
    (mkDnsTools "/usr/bin/resolvectl") 51820 (from_secs 30) false)
    (V4 3221225985) 30 "/run/cyberia" "/usr/sbin/nft".

Lemma dotted_interface_late :
  valid_interface_name (cc_interface dotted_config) = true ∧
  (validate_client_configuration dotted_config (tt, mkWorld (host_env false) [])).1 = Ok tt ∧
  (client_start dotted_config 1 (tt, mkWorld (host_env false) [])).1 =
    Err "invalid configuration: invalid WireGuard interface name".
Proof. vm_compute. auto. Qed.
