(* ===== verification/Liveness.v ===== *)
(** Liveness of the Linux client.

    The safety theorems hold in every environment, also in one where every
    command fails.  Here the commands succeed, the files are as the offline
    check found them and the clock leaves the connect timeout time enough: then
    the client builds its connection, connects, waits for the signal, tears
    everything down and exits with status 0.  [connecting] and [disconnecting]
    are the commands it runs before and after the signal, all of them and in
    order. *)

From S2P Require Import Prelude Machine Text Net Env Transport WireGuard KillSwitch Process Nftables Linux Connection ClientConfig Lease Client.
Open Scope string_scope.
Open Scope Z_scope.

(** Every child process starts, exits successfully and prints little. *)
Definition responsive (e : Environment) : Prop :=
  ∀ h command stdin, ∃ status stdout stderr,
    env_process e h command stdin = Exited true status stdout stderr ∧ len stdout ≤ command_bound.

(** Until [token] is cancelled, nobody reports it so and all clock readings lie
    within [span] from [start]. *)
Definition unhurried (token : Token) (start span : Z) (e : Environment) : Prop :=
  ∀ h, existsb (cancel_seen token) h = false →
    env_cancelled e h token = false ∧ start ≤ env_instant e h < start + span.

Definition calm (token : Token) (start span : Z) (w : World) : Prop :=
  responsive (env w) ∧ unhurried token start span (env w) ∧
  existsb (cancel_seen token) (history w) = false ∧
  ∀ t, last_instant (history w) = Some t → t < start + span.

(** ** What the client does to the machine

    The commands of a run in their order, each with what is piped into it. *)

Definition command_of (e : Event) : option Invocation :=
  match e with EvProcess c i _ => Some (c, i) | _ => None end.

(** The commands among events that are listed newest first. *)
Definition issued (h : list Event) : list Invocation := omap command_of (rev h).

Section script.
Context (s : LinuxConnectionSettings) (nft : string) (address : IpAddr).
Local Abbreviation i := (set_interface s).
Local Abbreviation mark := (set_routing_mark s).
Local Abbreviation profile := (set_profile s).

Definition by_ip (arguments : list string) : Invocation := (mkCommand (ip (set_tools s)) arguments, None).
Definition by_wg (arguments : list string) : Invocation := (mkCommand (wg (set_tools s)) arguments, None).
Definition by_resolvectl (arguments : list string) : Invocation := (mkCommand (resolvectl (set_dns_tools s)) arguments, None).

(** Replaces the owned table by the ruleset of a policy for the endpoint. *)
Definition filtering (p : TrafficPolicy) : Invocation :=
  (mkCommand nft ["--file"; "-"],
   Some (match render (mkNftables address (port (wg_endpoint profile))) p with Ok rules => rules | _ => "" end)).

Definition route_commands (a : AllowedIp) : list Invocation :=
  let family := family_argument (family_of (ai_network a)) in
  if ai_prefix_length a =? 0 then
    by_ip [family; "route"; "replace"; "default"; "dev"; i; "table"; to_dec mark] ::
    map (λ rule, by_ip ([family; "rule"; "add"] ++ rule_selector mark rule)%list) (prefix_rules a)
  else [by_ip [family; "route"; "replace"; cidr (ai_network a) (ai_prefix_length a); "dev"; i]].

Definition configuration_commands : list Invocation :=
  ([by_wg (["set"; i; "private-key"; to_string_lossy (private_key (set_tools s)); "fwmark"; to_dec mark;
            "peer"; encode_key (peer_public_key profile); "endpoint"; endpoint_text (wg_endpoint profile);
            "allowed-ips"; allowed_ips_text (allowed_ips profile)]
           ++ keepalive_arguments (persistent_keepalive_seconds profile))]
   ++ map (λ a, by_ip ["address"; "add"; cidr (ta_address a) (ta_prefix_length a); "dev"; i]) (tunnel_addresses profile)
   ++ [by_ip ["link"; "set"; "dev"; i; "mtu"; to_dec (mtu profile); "up"]])%list.

Definition interface_commands : list Invocation :=
  (by_ip ["link"; "add"; "dev"; i; "type"; "wireguard"] :: configuration_commands
   ++ concat (map route_commands (allowed_ips profile)))%list.

Definition resolver_commands : list Invocation :=
  [by_resolvectl (["dns"; i] ++ map display_ip (resolvers (set_dns s)))%list;
   by_resolvectl ["domain"; i; "~."]; by_resolvectl ["default-route"; i; "yes"]].

(** Blocking, when the connection is built and again when it connects; the
    interface and its routes; then the tunnel is let through and the resolver set. *)
Definition connecting : list Invocation :=
  ([filtering BlockNonTunnel; filtering BlockNonTunnel] ++ interface_commands
   ++ [filtering (TunnelOnly i)] ++ resolver_commands)%list.

(** The resolver first, then blocking, the rules in reverse order, the interface,
    and the end of filtering unless the client is always-on. *)
Definition disconnecting : list Invocation :=
  ([by_resolvectl ["revert"; i]; filtering BlockNonTunnel]
   ++ map (λ rule, by_ip ([family_argument (rule_family rule); "rule"; "delete"] ++ rule_selector mark rule))
        (rev (profile_rules (allowed_ips profile)))
   ++ [by_ip ["link"; "delete"; "dev"; i]] ++ (if set_always_on s then [] else [filtering Disabled]))%list.
End script.

(** ** Steps that keep a promise about the commands so far *)

(** Since [w0] exactly these commands were run. *)
Definition since (w0 w : World) (l : list Invocation) : Prop :=
  ∃ h, history w = (h ++ history w0)%list ∧ issued h = l.

Lemma since_refl w : since w w [].
Proof. by exists []. Qed.

Lemma since_log w0 w l e : since w0 w l → since w0 (log e w) (l ++ option_list (command_of e))%list.
Proof.
  intros (h & Hh & <-). exists (e :: h). cbn. rewrite Hh. split; [done|]. unfold issued. cbn [rev].
  rewrite omap_app. cbn. by destruct (command_of e).
Qed.

Lemma since_log_other w0 w l e : command_of e = None → since w0 w l → since w0 (log e w) l.
Proof. intros He Hs%(since_log _ _ _ e). rewrite He in Hs. cbn in Hs. by rewrite app_nil_r in Hs. Qed.

Lemma since_reads w0 w w' l : only_reads w w' → since w0 w l → since w0 w' l.
Proof.
  intros [_ (r & Hr & Hall)] (h & Hh & <-). exists (r ++ h)%list. rewrite Hr, Hh, app_assoc. split; [done|].
  unfold issued. rewrite rev_app_distr, omap_app. clear Hr. rewrite <-(app_nil_r (omap _ (rev h))) at 2. f_equal.
  apply Forall_rev in Hall. induction Hall as [|e l He Hall IH]; [done|]. cbn. by destruct e.
Qed.

(** A promise about worlds and the commands so far: commands succeed in them, and
    running one leads to such a world again. *)
Record steady (I : list Invocation → World → Prop) : Prop := {
  steady_responsive : ∀ l w, I l w → responsive (env w);
  steady_process : ∀ l w command stdin outcome, I l w →
    I (l ++ [(command, stdin)])%list (log (EvProcess command stdin outcome) w);
}.

Definition calm_since (token : Token) (start span : Z) (w0 : World) (l : list Invocation) (w : World) : Prop :=
  calm token start span w ∧ since w0 w l.
Definition responsive_since (w0 : World) (l : list Invocation) (w : World) : Prop := responsive (env w) ∧ since w0 w l.

Lemma steady_calm token start span w0 : steady (calm_since token start span w0).
Proof. split; [by intros l w [[] _]|]. intros l w command stdin outcome [Hc Hs]. split; [done|]. by apply since_log. Qed.

Lemma steady_responsive_env w0 : steady (responsive_since w0).
Proof. split; [by intros l w []|]. intros l w command stdin outcome [Hr Hs]. split; [done|]. by apply since_log. Qed.

Lemma calm_reads token start span w w' : only_reads w w' → calm token start span w → calm token start span w'.
Proof.
  intros [He (l & Hl & Hr)] (Hres & Hun & Hc & Ht). unfold calm. rewrite He, Hl. split_and!; [done..| |];
    clear Hl; induction Hr as [|x l Hx Hr IH]; try done; by destruct x.
Qed.

Lemma calm_since_reads token start span w0 l w w' :
  only_reads w w' → calm_since token start span w0 l w → calm_since token start span w0 l w'.
Proof. intros Hr [Hc Hs]. split; [by eapply calm_reads|by eapply since_reads]. Qed.

(** A guard that does not fire. *)
Lemma wp_pass {S E} (b : bool) (e : E) (Q : Result E unit → S → Prop) s :
  b = false → Q (Ok tt) s → wp (guard_err b e) Q s.
Proof. by intros ->. Qed.

(** ** Commands succeed *)

Section commands.
Context `{UnicodeTables} (I : list Invocation → World → Prop) (HI : steady I).
Local Abbreviation Backend := (LinuxWireGuardBackend SystemCommandRunner).
Local Abbreviation Dns := (LinuxDnsBackend SystemCommandRunner).
Implicit Types l : list Invocation.

Lemma wp_run_succeeds l command (c : SystemCommandRunner) w (Q : Result TransportError unit → _ → Prop) :
  I l w → (∀ w', I (l ++ [(command, None)])%list w' → Q (Ok tt) (c, w')) → wp (runner_run command) Q (c, w).
Proof.
  intros Hw HQ. destruct (steady_responsive _ HI l w Hw (history w) command None) as (status & out & err & Hp & Hlen).
  cbn [runner_run system_runner_ops]. unfold system_run, system_output, spawn, on_world, wp. run.
  rewrite Hp, (proj2 (Z.ltb_ge _ _) Hlen). cbn. by apply HQ, (steady_process _ HI).
Qed.

Lemma wp_nft_succeeds l rules (n : SystemNftablesRunner) w (Q : Result NftablesError unit → _ → Prop) :
  I l w → (∀ w', I (l ++ [(nft_command n, Some rules)])%list w' → Q (Ok tt) (n, w')) → wp (nft_apply rules) Q (n, w).
Proof.
  intros Hw HQ. destruct (steady_responsive _ HI l w Hw (history w) (nft_command n) (Some rules)) as (status & out & err & Hp & _).
  cbn [nft_apply system_nftables_ops]. unfold system_nft_apply, self, spawn, on_world, wp. run.
  rewrite Hp. cbn. by apply HQ, (steady_process _ HI).
Qed.

Lemma wp_lb_succeeds l prog arguments (b : Backend) w (Q : Result TransportError unit → _ → Prop) :
  I l w → (∀ w', I (l ++ [(mkCommand (prog (lb_tools b)) arguments, None)])%list w' → Q (Ok tt) (b, w')) →
  wp (lb_command prog arguments) Q (b, w).
Proof.
  intros Hw HQ. unfold lb_command. wp_run. eapply wp_run_succeeds; [done|]. intros w' Hw'.
  destruct b; cbn. by apply HQ.
Qed.

Lemma wp_dns_succeeds l arguments (d : Dns) w (Q : Result TransportError unit → _ → Prop) :
  I l w → (∀ w', I (l ++ [(mkCommand (resolvectl (dns_tools d)) arguments, None)])%list w' → Q (Ok tt) (d, w')) →
  wp (dns_command arguments) Q (d, w).
Proof.
  intros Hw HQ. unfold dns_command. wp_run. eapply wp_run_succeeds; [done|]. intros w' Hw'.
  destruct d; cbn. by apply HQ.
Qed.

(** The command that submits [p] through this firewall. *)
Definition submits (b : NftablesBackend SystemNftablesRunner) (p : TrafficPolicy) : Invocation :=
  (nft_command (nft_runner b), Some (match render (nft_config b) p with Ok rules => rules | _ => "" end)).

Lemma wp_submit_succeeds l p (b : NftablesBackend SystemNftablesRunner) w (Q : Result FirewallError unit → _ → Prop) :
  policy_acceptable p = true → I l w → (∀ w', I (l ++ [submits b p])%list w' → Q (Ok tt) (b, w')) → wp (fw_apply p) Q (b, w).
Proof.
  intros Hp Hw HQ. cbn [fw_apply nft_firewall]. unfold nft_backend_apply, submits in *. wp_run.
  rewrite render_eval, Hp in *. wp_run. eapply wp_nft_succeeds; [done|]. intros w' Hw'. cbn [map_err].
  destruct b as [cfg n]. by apply HQ.
Qed.

Lemma wp_apply_succeeds l p (c : LinuxController SystemCommandRunner SystemNftablesRunner) w
    (Q : Result ConnectionError unit → _ → Prop) :
  policy_acceptable p = true → I l w → (∀ w', I (l ++ [submits (firewall c) p])%list w' → Q (Ok tt) (c, w')) →
  wp (apply_policy p) Q (c, w).
Proof.
  intros Hp Hw HQ. unfold apply_policy. wp_run. eapply wp_submit_succeeds; [done..|]. intros w' Hw'. cbn [map_err].
  destruct c as [k t f a]. by apply HQ.
Qed.

(** ** Teardown succeeds *)

(** The command that removes a rule through this backend. *)
Definition deletes (b : Backend) (rule : PolicyRule) : Invocation :=
  (mkCommand (ip (lb_tools b)) ([family_argument (rule_family rule); "rule"; "delete"] ++ rule_selector (routing_mark b) rule)%list, None).

Lemma wp_remove_succeeds l rules (b : Backend) w (Q : Result TransportError unit → _ → Prop) :
  I l w → (∀ w', I (l ++ map (deletes b) (rev rules))%list w' → Q (Ok tt) ((b, []), w')) →
  wp (remove_loop (S (length rules))) Q ((b, rules), w).
Proof.
  revert l w. induction rules as [|rule rules IH] using rev_ind; intros l w Hw HQ; cbn [remove_loop]; wp_run.
  { cbn. wp_run. apply HQ. by rewrite app_nil_r. }
  cbn [snd]. rewrite last_snoc. wp_run. unfold on_self, remove_policy_rule. wp_run.
  eapply wp_lb_succeeds; [done|]. intros w' Hw'. cbn [fst snd]. wp_run. cbn [fst snd].
  rewrite length_app, Nat.add_comm. cbn [length plus Nat.pred]. rewrite take_app_length. eapply IH; [done|].
  intros w2 H2. apply HQ. rewrite rev_app_distr. cbn. by rewrite <-app_assoc in H2.
Qed.

Lemma wp_bring_down_succeeds l i (b : Backend) w (Q : Result TransportError unit → _ → Prop) :
  lb_active_interface b = Some i → I l w →
  (∀ w', I (l ++ map (deletes b) (rev (active_rules b)) ++ [(mkCommand (ip (lb_tools b)) ["link"; "delete"; "dev"; i], None)])%list w' →
    Q (Ok tt) (set_lb_interface None (set_active_rules [] b), w')) →
  wp (lb_bring_down i) Q (b, w).
Proof.
  intros Hi Hw HQ. unfold lb_bring_down. wp_run. apply wp_pass; [by rewrite Hi, bool_decide_eq_true_2|].
  wp_run. unfold remove_policy_rules. wp_run. cbn [snd]. eapply wp_remove_succeeds; [done|]. intros w' Hw'. cbn.
  unfold lb_delete_interface. wp_run. eapply wp_lb_succeeds; [done|]. intros w'' Hw''. wp_run. apply HQ.
  by rewrite app_assoc.
Qed.

Lemma wp_revert_succeeds l i (d : Dns) w (Q : Result TransportError unit → _ → Prop) :
  dns_active_interface d = Some i → I l w →
  (∀ w', I (l ++ [(mkCommand (resolvectl (dns_tools d)) ["revert"; i], None)])%list w' → Q (Ok tt) (set_dns_interface None d, w')) →
  wp (dns_revert i) Q (d, w).
Proof.
  intros Hi Hw HQ. unfold dns_revert. wp_run. apply wp_pass; [by rewrite Hi, bool_decide_eq_true_2|]. wp_run.
  eapply wp_dns_succeeds; [done|]. intros w' Hw'. wp_run. by apply HQ.
Qed.
End commands.

(** ** Setup succeeds *)

Section setup.
Context `{UnicodeTables} (token : Token) (start span : Z) (w0 : World).
Context (s : LinuxConnectionSettings) (nft : string) (address : IpAddr).
Local Abbreviation Calm := (calm_since token start span w0).
Local Abbreviation Backend := (LinuxWireGuardBackend SystemCommandRunner).
Local Abbreviation Dns := (LinuxDnsBackend SystemCommandRunner).
Local Abbreviation Controller := (LinuxController SystemCommandRunner SystemNftablesRunner).
Local Abbreviation i := (set_interface s).
Implicit Types (w : World) (l : list Invocation).

Lemma wp_now_calm {C E} l (c : C) w (Q : Result E Z → _ → Prop) :
  Calm l w → (∀ t w', start ≤ t < start + span → Calm l w' → Q (Ok t) (c, w')) → wp instant_now Q (c, w).
Proof.
  intros [(Hr & Hu & Hc & Ht) Hs] HQ. destruct (Hu _ Hc) as [_ [Hlo Hhi]]. unfold wp, instant_now, on_world. cbn.
  destruct (last_instant (history w)) as [t|] eqn:Hl; [specialize (Ht _ eq_refl)|];
    (apply HQ; [lia|]); (split; [|by apply since_log_other]); (split_and!; [done..|]); cbn; intros ? [= <-]; lia.
Qed.

Context (context : ConnectContext) (Hdeadline : start + span ≤ deadline context) (Htoken : cancellation context = token).

Lemma wp_check_calm {C} l (c : C) w (Q : Result TransportError unit → _ → Prop) :
  Calm l w → (∀ w', Calm l w' → Q (Ok tt) (c, w')) → wp (check context) Q (c, w).
Proof.
  intros Hw HQ. destruct (Hw) as [(Hr & Hu & Hc & Ht) Hs]. unfold check. wp_run. rewrite Htoken.
  unfold is_cancelled, on_world, wp at 1. cbn [fst snd after]. rewrite Hc, (proj1 (Hu _ Hc)). cbn [orb]. wp_run.
  apply (wp_now_calm l); [by split; [split_and!; cbn; rewrite ?Hc|apply since_log_other]|]. intros t w' Hlt Hw'. wp_run.
  rewrite (proj2 (Z.leb_gt _ _)) by lia. wp_run. by apply HQ.
Qed.

(** A backend with the tools and the mark of the settings. *)
Definition of_settings (b : Backend) : Prop := lb_tools b = set_tools s ∧ routing_mark b = set_routing_mark s.

(** Runs a command of the backend and moves it to the script. *)
Ltac lb_step := eapply wp_lb_succeeds; [apply steady_calm|done|].

Lemma wp_configure_succeeds l (b : Backend) w (Q : Result TransportError unit → _ → Prop) :
  of_settings b → Calm l w → (∀ w', Calm (l ++ configuration_commands s)%list w' → Q (Ok tt) (b, w')) →
  wp (lb_configure i (set_profile s) context) Q (b, w).
Proof.
  intros [Ht Hm] Hw HQ. unfold lb_configure. wp_run.
  eapply wp_check_calm; [done|]. intros w1 H1. wp_run. lb_step. intros w2 H2. wp_run.
  unfold wg_set_arguments in H2. rewrite Ht, Hm in H2.
  set (l2 := (l ++ _)%list) in H2.
  apply (wp_for_each (λ visited st, st.1 = b ∧ Calm (l2 ++ map (λ a, by_ip s ["address"; "add";
    cidr (ta_address a) (ta_prefix_length a); "dev"; i]) visited)%list st.2)); [by rewrite app_nil_r| |].
  - intros visited a [b' w3] [Hb H3]. cbn [fst snd] in Hb, H3. subst b'. wp_run. eapply wp_check_calm; [done|].
    intros w4 H4. wp_run. lb_step. intros w5 H5. split; [done|]. rewrite map_app, app_assoc. by rewrite Ht in H5.
  - intros [b' w3] [Hb H3]. cbn [fst snd] in Hb, H3. subst b'. wp_run. eapply wp_check_calm; [done|].
    intros w4 H4. wp_run. lb_step. intros w5 H5. apply HQ. rewrite Ht in H5. subst l2. by rewrite <-!app_assoc in H5.
Qed.

Lemma prefix_rules_default a : (ai_prefix_length a =? 0) = true →
  prefix_rules a = [NotFirewallMark (family_of (ai_network a)); SuppressDefault (family_of (ai_network a))].
Proof. unfold prefix_rules. by intros ->. Qed.
Lemma prefix_rules_plain a : (ai_prefix_length a =? 0) = false → prefix_rules a = [].
Proof. unfold prefix_rules. by intros ->. Qed.
Lemma route_commands_default a : (ai_prefix_length a =? 0) = true →
  let family := family_argument (family_of (ai_network a)) in
  route_commands s a =
    by_ip s [family; "route"; "replace"; "default"; "dev"; i; "table"; to_dec (set_routing_mark s)] ::
    map (λ rule, by_ip s ([family; "rule"; "add"] ++ rule_selector (set_routing_mark s) rule)%list) (prefix_rules a).
Proof. unfold route_commands. by intros ->. Qed.
Lemma route_commands_plain a : (ai_prefix_length a =? 0) = false →
  route_commands s a = [by_ip s [family_argument (family_of (ai_network a)); "route"; "replace";
    cidr (ai_network a) (ai_prefix_length a); "dev"; i]].
Proof. unfold route_commands. by intros ->. Qed.

Lemma wp_routes_succeeds l (b : Backend) w (Q : Result TransportError unit → _ → Prop) :
  of_settings b → Calm l w →
  (∀ w', Calm (l ++ concat (map (route_commands s) (allowed_ips (set_profile s))))%list w' →
     Q (Ok tt) ((b, profile_rules (allowed_ips (set_profile s))), w')) →
  wp (install_routes i (set_profile s) context) Q ((b, []), w).
Proof.
  intros [Ht Hm] Hw HQ. unfold install_routes.
  apply (wp_for_each (λ visited st, st.1 = (b, profile_rules visited) ∧
    Calm (l ++ concat (map (route_commands s) visited))%list st.2)).
  { by rewrite app_nil_r. }
  2: { intros [bl w'] [Hbl H']. cbn [fst snd] in *. subst bl. by apply HQ. }
  intros visited a [bl w1] [Hbl H1]. cbn [fst snd] in *. subst bl. unfold install_route, on_self. wp_run.
  unfold profile_rules. rewrite !map_app, !concat_app, !app_assoc. cbn [map concat]. rewrite !app_nil_r.
  eapply wp_check_calm; [done|]. intros w2 H2. wp_run.
  destruct (ai_prefix_length a =? 0) eqn:Hz; cbn [negb]; wp_run.
  - rewrite (route_commands_default a Hz), (prefix_rules_default a Hz).
    cbn [fst]. lb_step. intros w3 H3. cbn [fst snd]. wp_run. lb_step. intros w4 H4. cbn [fst snd]. wp_run.
    lb_step. intros w5 H5. cbn [fst snd] in *. wp_run. cbn [fst snd]. rewrite !Ht, !Hm, <-!app_assoc in H5. by rewrite <-!app_assoc.
  - rewrite (route_commands_plain a Hz), (prefix_rules_plain a Hz), app_nil_r.
    lb_step. intros w3 H3. cbn [fst] in H3. by rewrite Ht in H3.
Qed.

Lemma wp_bring_up_succeeds l (b : Backend) w (Q : Result TransportError unit → _ → Prop) :
  of_settings b → lb_active_interface b = None → Calm l w →
  (∀ w', Calm (l ++ interface_commands s)%list w' →
     Q (Ok tt) (set_lb_interface (Some i) (set_active_rules (profile_rules (allowed_ips (set_profile s))) b), w')) →
  wp (lb_bring_up i (set_profile s) context) Q (b, w).
Proof.
  intros Hof Hb Hw HQ. unfold lb_bring_up. wp_run. apply wp_pass; [by rewrite Hb|]. wp_run.
  eapply wp_check_calm; [done|]. intros w1 H1. wp_run. lb_step. intros w2 H2. wp_run.
  eapply wp_configure_succeeds; [done..|]. intros w3 H3. wp_run.
  eapply wp_routes_succeeds; [done..|]. intros w4 H4. cbn. wp_run. apply HQ.
  unfold interface_commands, by_ip. destruct Hof as [<- _]. by rewrite <-!app_assoc in H4.
Qed.

Lemma wp_dns_configure_succeeds l (d : Dns) w (Q : Result TransportError unit → _ → Prop) :
  dns_tools d = set_dns_tools s → dns_active_interface d = None → linux_valid_interface i = true →
  validate_dns (set_dns s) = Ok tt → Calm l w →
  (∀ w', Calm (l ++ resolver_commands s)%list w' → Q (Ok tt) (set_dns_interface (Some i) d, w')) →
  wp (dns_configure i (set_dns s) context) Q (d, w).
Proof.
  intros Ht Hd Hi Hv Hw HQ. pose proof (steady_calm token start span w0) as Hst. unfold dns_configure. wp_run.
  apply wp_pass; [by rewrite Hd|]. wp_run. apply wp_pass; [by rewrite Hi|]. wp_run. rewrite Hv. wp_run.
  eapply wp_check_calm; [done|]. intros w1 H1. wp_run. unfold dns_setup. wp_run.
  eapply wp_dns_succeeds; [done..|]. intros w2 H2. wp_run. eapply wp_check_calm; [done|]. intros w3 H3. wp_run.
  eapply wp_dns_succeeds; [done..|]. intros w4 H4. wp_run. eapply wp_check_calm; [done|]. intros w5 H5. wp_run.
  eapply wp_dns_succeeds; [done..|]. intros w6 H6. wp_run. apply HQ. rewrite Ht in H6. by rewrite <-!app_assoc in H6.
Qed.

(** ** The controller *)

Lemma interface_acceptable name :
  wg_valid_interface name = true → policy_acceptable (TunnelOnly name) = true ∧ linux_valid_interface name = true.
Proof.
  intros Hn. split; [|exact Hn]. revert Hn. unfold wg_valid_interface. cbn. unfold nft_valid_interface.
  intros [[-> Hl]%andb_true_iff Hb]%andb_true_iff. apply Z.leb_le in Hl.
  rewrite (proj2 (Z.leb_le _ _)) by lia. apply (all_bytes_class _ _ name) with (2 := Hb). by vm_compute.
Qed.

(** The parts of a controller that its calls leave alone. *)
Definition equipped (c : Controller) : Prop :=
  of_settings (backend (transport c)) ∧ interface (transport c) = i ∧ profile (transport c) = set_profile s ∧
  always_on (kill_switch c) = set_always_on s ∧
  firewall c = mkNftBackend (mkNftables address (port (wg_endpoint (set_profile s)))) (mkSystemNftables nft).

(** A controller at rest, and one with an established tunnel. *)
Definition at_rest (c : Controller) : Prop :=
  equipped c ∧ connected (transport c) = false ∧ lb_active_interface (backend (transport c)) = None.
Definition established (c : Controller) : Prop :=
  equipped c ∧ connected (transport c) = true ∧ lb_active_interface (backend (transport c)) = Some i ∧
  active_rules (backend (transport c)) = profile_rules (allowed_ips (set_profile s)) ∧ controller_policy c = TunnelOnly i.

Lemma wp_connect_succeeds l config (c : Controller) w (Q : Result ConnectionError Session → _ → Prop) :
  at_rest c → wg_valid_interface i = true → tc_kind config = WireGuard → tc_endpoint config = wg_endpoint (set_profile s) →
  validate_transport config = Ok tt → Calm l w →
  (∀ session c' w', established c' →
     Calm (l ++ [filtering s nft address BlockNonTunnel] ++ interface_commands s ++ [filtering s nft address (TunnelOnly i)])%list w' →
     Q (Ok session) (c', w')) →
  wp (controller_connect config context) Q (c, w).
Proof.
  intros (Heq & Hc & Hb) Hi Hk He Hv Hw HQ. pose proof (steady_calm token start span w0) as Hs.
  destruct (Heq) as (Hof & Hint & Hprof & Hon & Hfw). destruct (interface_acceptable _ Hi) as [Hp _].
  unfold controller_connect. wp_run. eapply wp_apply_succeeds; [done..|]. intros w1 H1. wp_run.
  cbn [connect adapter_transport]. unfold adapter_connect. wp_run. cbn [transport set_kill_switch set_active].
  apply wp_pass; [exact Hc|]. wp_run. rewrite Hprof.
  apply wp_pass; [by rewrite Hk, He, !bool_decide_eq_true_2 by done|]. wp_run. rewrite Hv. wp_run.
  eapply wp_check_calm; [done|]. intros w2 H2. wp_run. cbn [bring_up linux_wireguard_backend]. rewrite Hint.
  eapply wp_bring_up_succeeds; [done..|]. intros w3 H3. wp_run. eapply wp_now_calm; [done|]. intros t w4 _ H4.
  wp_run. cbn [map_err]. wp_run. cbn [session_id kill_switch set_transport set_active set_kill_switch].
  rewrite tunnel_established_cases. cbn [policy enable set_policy]. rewrite bool_decide_eq_false_2 by done.
  rewrite (wg_interface_accepted _ Hi). wp_run. eapply wp_apply_succeeds; [done..|]. intros w5 H5. wp_run.
  cbn [firewall set_kill_switch set_transport set_active] in H5. rewrite Hfw, <-!app_assoc in H5. apply HQ; [|exact H5].
  split; [|done]. unfold equipped. cbn. destruct Hof. by split_and!.
Qed.
End setup.

Section shutdown.
Context `{UnicodeTables} (I : list Invocation → World → Prop) (HI : steady I).
Context (s : LinuxConnectionSettings) (nft : string) (address : IpAddr).
Local Abbreviation Controller := (LinuxController SystemCommandRunner SystemNftablesRunner).
Local Abbreviation i := (set_interface s).

(** A controller that has taken its tunnel down. *)
Definition torn_down (c : Controller) : Prop :=
  equipped s nft address c ∧ transport_may_be_active c = false ∧ controller_policy c = BlockNonTunnel.

Lemma wp_disconnect_succeeds l (c : Controller) w (Q : Result ConnectionError unit → _ → Prop) :
  established s nft address c → I l w →
  (∀ c' w', torn_down c' →
     I (l ++ [filtering s nft address BlockNonTunnel]
        ++ map (λ rule, by_ip s ([family_argument (rule_family rule); "rule"; "delete"] ++ rule_selector (set_routing_mark s) rule))
             (rev (profile_rules (allowed_ips (set_profile s))))
        ++ [by_ip s ["link"; "delete"; "dev"; i]])%list w' → Q (Ok tt) (c', w')) →
  wp controller_disconnect Q (c, w).
Proof.
  intros (Heq & Hc & Hb & Hr & Hp) Hw HQ. unfold controller_policy in Hp.
  destruct (Heq) as ((Ht & Hm) & Hint & Hprof & Hon & Hfw).
  assert (tunnel_lost (kill_switch c) = set_policy BlockNonTunnel (kill_switch c)) as Hlost
    by (unfold tunnel_lost; rewrite Hp; by rewrite bool_decide_eq_false_2).
  unfold controller_disconnect. wp_run. rewrite Hlost. eapply wp_apply_succeeds; [done..|]. intros w1 H1. wp_run.
  unfold transport_disconnect. wp_run. cbn [disconnect adapter_transport]. unfold adapter_disconnect. wp_run.
  apply wp_pass; [cbn; by rewrite Hc|]. wp_run. cbn [bring_down linux_wireguard_backend]. cbn. rewrite Hint.
  eapply wp_bring_down_succeeds; [done|done|done|]. intros w2 H2. wp_run. cbn [map_err].
  wp_run. unfold submits, deletes in H2. rewrite Hfw, Hr, Ht, Hm, <-app_assoc in H2. apply HQ; [|exact H2].
  split; [|done]. unfold equipped, of_settings. cbn. by split_and!.
Qed.

Lemma wp_disable_succeeds l (c : Controller) w (Q : Result ConnectionError unit → _ → Prop) :
  torn_down c → set_always_on s = false → I l w →
  (∀ c' w', I (l ++ [filtering s nft address Disabled])%list w' → Q (Ok tt) (c', w')) → wp controller_disable Q (c, w).
Proof.
  intros ((_ & _ & _ & Hon & Hfw) & Ha & Hp) Hm Hw HQ. unfold controller_disable. wp_run. apply wp_pass; [done|]. wp_run.
  apply wp_pass; [by rewrite Hp|]. wp_run. rewrite ks_disable_cases, Hon, Hm. wp_run.
  eapply wp_apply_succeeds; [done..|]. intros w1 H1. wp_run. unfold submits in H1. rewrite Hfw in H1. by apply HQ.
Qed.
End shutdown.

(** ** The connection *)

Section connection.
Context `{UnicodeTables} (token : Token) (start : Z) (w0 : World).
Context (s : LinuxConnectionSettings) (nft : string) (address : IpAddr).
Local Abbreviation Connection :=
  (LinuxWireGuardConnection SystemCommandRunner SystemCommandRunner SystemNftablesRunner).
Local Abbreviation i := (set_interface s).
Local Abbreviation span := (set_connect_timeout s).

(** What the calls of a connection leave alone. *)
Definition assembled (conn : Connection) : Prop :=
  conn_interface conn = i ∧ conn_dns_config conn = set_dns s ∧ dns_tools (conn_dns conn) = set_dns_tools s ∧
  conn_transport conn = mkTransportConfig WireGuard (wg_endpoint (set_profile s)) span.

(** A connection before its first call, and one whose tunnel and resolver are set up. *)
Definition fresh_connection (conn : Connection) : Prop :=
  assembled conn ∧ at_rest s nft address (controller conn) ∧ dns_active_interface (conn_dns conn) = None.
Definition running_connection (conn : Connection) : Prop :=
  assembled conn ∧ established s nft address (controller conn) ∧ dns_active_interface (conn_dns conn) = Some i.

(** Settings a connection can be made with. *)
Definition usable : Prop :=
  wg_valid_interface i = true ∧ validate_dns (set_dns s) = Ok tt ∧
  validate_transport (mkTransportConfig WireGuard (wg_endpoint (set_profile s)) span) = Ok tt ∧
  start + 2 * span < 2 ^ 63 * nanos_per_sec.

Lemma wp_connection_connect_succeeds l (conn : Connection) w (Q : Result ConnectionError Session → _ → Prop) :
  usable → fresh_connection conn → calm_since token start span w0 l w →
  (∀ session conn' w', running_connection conn' →
     calm_since token start span w0 (l ++ [filtering s nft address BlockNonTunnel] ++ interface_commands s
       ++ [filtering s nft address (TunnelOnly i)] ++ resolver_commands s)%list w' → Q (Ok session) (conn', w')) →
  wp (connection_connect token) Q (conn, w).
Proof.
  intros (Hi & Hv & Htr & Hmax) (Has & Hrest & Hd) Hw HQ. destruct (Has) as (Hci & Hcd & Hdt & Hct).
  unfold connection_connect. wp_run. rewrite Hct.
  eapply (wp_now_calm token start span); [done|]. intros t w1 Ht H1. wp_run. unfold instant_add, instant_checked_add.
  cbn [connect_timeout]. rewrite (proj2 (Z.ltb_lt _ _)) by lia. wp_run. unfold on_controller. wp_run.
  eapply (wp_connect_succeeds token start span w0 s nft address); [cbn; lia|done..|]. intros session c w2 Hest H2.
  wp_run. unfold on_dns. wp_run. cbn [conn_dns set_controller]. rewrite Hci, Hcd.
  eapply (wp_dns_configure_succeeds token start span w0 s); [cbn; lia|done..| |done|exact H2|].
  { by apply interface_acceptable. }
  intros w3 H3. wp_run. apply HQ; [done|]. by rewrite <-!app_assoc in H3.
Qed.

Lemma wp_connection_disconnect_succeeds (I : list Invocation → World → Prop) l (conn : Connection) w
    (Q : Result ConnectionError unit → _ → Prop) :
  steady I → running_connection conn → I l w →
  (∀ conn' w', torn_down s nft address (controller conn') →
     I (l ++ [by_resolvectl s ["revert"; i]] ++ [filtering s nft address BlockNonTunnel]
        ++ map (λ rule, by_ip s ([family_argument (rule_family rule); "rule"; "delete"] ++ rule_selector (set_routing_mark s) rule))
             (rev (profile_rules (allowed_ips (set_profile s))))
        ++ [by_ip s ["link"; "delete"; "dev"; i]])%list w' → Q (Ok tt) (conn', w')) →
  wp connection_disconnect Q (conn, w).
Proof.
  intros HI ((Hci & _ & Hdt & _) & Hest & Hd) Hw HQ. unfold connection_disconnect, on_dns, on_controller. wp_run. rewrite Hci.
  eapply wp_revert_succeeds; [done..|]. intros w1 H1. cbn [map_err]. wp_run.
  eapply (wp_disconnect_succeeds I HI s nft address); [done..|]. intros c w2 Htd H2. apply HQ; [done|].
  rewrite Hdt in H2. by rewrite <-!app_assoc in H2.
Qed.

(** From a fresh connection to the end of the run. *)
Lemma wp_run_succeeds_fresh l (conn : Connection) w (Q : Result ConnectionError unit → _ → Prop) :
  usable → fresh_connection conn → calm_since token start span w0 l w →
  (∀ conn' w1 w',
     since w0 w1 (l ++ [filtering s nft address BlockNonTunnel] ++ interface_commands s
       ++ [filtering s nft address (TunnelOnly i)] ++ resolver_commands s)%list →
     since (wait_for_signal token w1) w' (disconnecting s nft address) → Q (Ok tt) (conn', w')) →
  wp (run_until_shutdown (set_always_on s) token (wait_for_signal token)) Q (conn, w).
Proof.
  intros Huse Hfresh Hw HQ. unfold run_until_shutdown.
  cbn [client_connect client_disconnect client_disable managed_linux_connection].
  wp_run. eapply wp_connection_connect_succeeds; [done..|]. intros session conn1 w1 Hrun [H1 Hs1]. wp_run.
  unfold outside, wp at 1. cbn [fst snd after]. specialize (λ conn' w', HQ conn' w1 w' Hs1).
  assert (responsive_since (wait_for_signal token w1) [] (wait_for_signal token w1)) as H2
    by (split; [apply H1|apply since_refl]). revert H2 HQ. generalize (wait_for_signal token w1) as w2. intros w2 H2 HQ.
  wp_run. pose proof (steady_responsive_env w2) as HI. eapply wp_connection_disconnect_succeeds; [done..|].
  intros conn3 w3 Htd H3. wp_run. unfold disconnecting in HQ. destruct (set_always_on s) eqn:Hm; wp_run.
  { apply HQ. by destruct H3. }
  unfold connection_disable, on_controller. wp_run.
  eapply (wp_disable_succeeds _ HI s nft address); [done..|]. intros c' w' [_ H4]. apply HQ.
  rewrite <-!app_assoc in H4. done.
Qed.
End connection.

Section build.
Context `{Host} `{UnicodeTables} (token : Token) (start : Z) (w0 : World).

Lemma wp_nftables_new {C} path (c : C) w :
  wp (system_nftables_new path) (λ r _, ∀ n, r = Ok n → n = mkSystemNftables path) (c, w).
Proof.
  unfold system_nftables_new. wp_run. apply wp_intro. intros [[]|e|] st _; wp_run; [|done..]. by intros n [= <-].
Qed.

Lemma wp_system_succeeds l config s w (Q : Result LinuxConnectionBuildError _ → _ → Prop)
    (span := set_connect_timeout s) (nft := ct_nft (cc_tools config)) (address := cc_endpoint_address config) :
  accepted_inputs (env w) config s → ip_typed address →
  wg_valid_interface (cc_interface config) = true → utf8_valid (ct_private_key (cc_tools config)) = true →
  calm_since token start span w0 l w →
  (∀ conn w', fresh_connection s nft address conn →
     calm_since token start span w0 (l ++ [filtering s nft address BlockNonTunnel])%list w' → Q (Ok conn) (tt, w')) →
  wp (connection_system s nft) Q (tt, w).
Proof.
  intros (Hs & Hwg & Hdns & Htr & Ht & Hd & Hn) Hip Hi Hutf Hw HQ. pose proof (steady_calm token start span w0) as Hst.
  destruct (into_settings_fields _ _ Hs) as (Hhost & Hsi & Hsk & Hon).
  unfold connection_system. wp_run. eapply wp_mono.
  { apply wp_and; [apply wp_nftables_new|].
    apply (wp_passes (env w) _ (λ r st, is_ok r = true ∧ only_reads w st.2)); [done..|]. by intros. }
  intros [n|e|] [[] w1] [Hnew [Hok H1]]; [|done..]. rewrite (Hnew n eq_refl). clear n Hnew Hok. cbn [map_err]. wp_run.
  unfold with_runners. wp_run. rewrite Hhost. cbn [host]. rewrite parse_display by done. cbn [ok_or]. wp_run.
  rewrite <-Hhost, Htr, Hdns. cbn [map_err]. wp_run. unfold linux_backend_new, validate_backend_tools.
  apply wp_consuming. wp_run. apply (wp_passes (env w)); [done|apply H1|].
  intros [] [] w2 H2%(only_reads_trans _ _ _ H1). wp_run.
  rewrite Hsk. apply wp_pass; [by rewrite Hutf|]. wp_run. cbn [map_err]. wp_run.
  unfold adapter_new. rewrite Hsi, Hi, Hwg. cbn [negb mbind result_bind map_err]. wp_run.
  unfold dns_new, validate_dns_tools. apply wp_consuming. wp_run.
  apply (wp_passes (env w)); [done|apply H2|]. intros [] [] w3 H3%(only_reads_trans _ _ _ H2). wp_run.
  cbn [map_err]. wp_run.
  apply (calm_since_reads _ _ _ _ _ _ _ H3) in Hw. apply wp_consuming. unfold controller_new. wp_run.
  eapply wp_submit_succeeds; [done..|]. intros w4 H4. cbn [map_err]. wp_run. cbn [map_err snd]. wp_run.
  apply HQ; [|done]. by split_and!.
Qed.

Lemma wp_start_succeeds config s w (Q : Result string unit → _ → Prop)
    (span := set_connect_timeout s) (nft := ct_nft (cc_tools config)) (address := cc_endpoint_address config) :
  accepted_inputs (env w) config s → ip_typed address →
  wg_valid_interface (cc_interface config) = true → utf8_valid (ct_private_key (cc_tools config)) = true →
  (∀ h, set_handler h = None) → start + 2 * span < 2 ^ 63 * nanos_per_sec → calm_since token start span w0 [] w →
  (∀ w1 w', since w0 w1 (connecting s nft address) → since (wait_for_signal token w1) w' (disconnecting s nft address) →
     Q (Ok tt) (tt, w')) → wp (client_start config token) Q (tt, w).
Proof.
  intros Hacc Hip Hi Hutf Hh Hmax Hw HQ. pose proof (Hacc) as (Hs & _ & Hdns & Htr & _).
  destruct (into_settings_fields _ _ Hs) as (_ & Hsi & _ & Hon). unfold client_start. wp_run.
  rewrite Hs. cbn [map_err]. wp_run. eapply (wp_system_succeeds [] config s); [done..|].
  intros conn w1 Hfresh H1. cbn [map_err]. wp_run. apply wp_intro. intros r t [= <- <-]. wp_run.
  rewrite Hh. wp_run. rewrite <-Hon.
  apply wp_consuming. eapply (wp_run_succeeds_fresh token start w0 s nft address);
    [by split_and!; [rewrite Hsi|..]|done..|].
  intros conn' w2 w' H2 H3. by apply (HQ w2).
Qed.
End build.

(** ** Theorems *)

(** C14: a checked client completes.  The configuration was loaded, its lease
    acquired, and the offline check accepted it while answers about files do not
    change; the interface name is of the adapter's alphabet and the key path is
    UTF-8; commands succeed, the signal handler can be installed, and until the
    signal the token is not cancelled and the clock stays within one connect
    timeout.  Then the executable exits with status 0, and the commands it ran are
    exactly these: up to the signal, those that block, create and configure the
    interface with its routes, admit the tunnel and set the resolver; after it,
    those that revert the resolver, block, remove the rules and the interface and,
    unless always-on, end the filtering. *)
Theorem client_completes `{Host} `{UnicodeTables} arguments path token start w config w1 lease w2 settings c t
    (nft := ct_nft (cc_tools config)) (address := cc_endpoint_address config) :
  parse_arguments arguments = Ok (false, path) →
  load_config path (tt, w) = (Ok config, (tt, w1)) →
  acquire_interface_lease (runtime_directory config) (cc_interface config) (tt, w1) = (Ok lease, (tt, w2)) →
  stable (env w) → validate_client_configuration config (c : unit, w) = (Ok tt, t) →
  into_connection_settings config = Ok settings →
  ip_typed (cc_endpoint_address config) → wg_valid_interface (cc_interface config) = true →
  utf8_valid (ct_private_key (cc_tools config)) = true →
  (∀ h, set_handler h = None) →
  start + 2 * set_connect_timeout settings < 2 ^ 63 * nanos_per_sec →
  calm token start (set_connect_timeout settings) w →
  ∃ up down w', main arguments token (tt, w) = (Ok 0, (tt, w')) ∧
    history w' = (down ++ EvCancel token :: up ++ history w)%list ∧
    issued up = connecting settings nft address ∧ issued down = disconnecting settings nft address.
Proof.
  intros Hargs Hload Hlease Hst Hcheck Hs Hip Hi Hutf Hh Hmax Hw.
  destruct (wp_elim _ _ _ _ _ (wp_validate_client config c w Hst) Hcheck eq_refl) as [s Hacc].
  assert (s = settings) as -> by (pose proof (proj1 Hacc); congruence).
  pose proof (quiet_load_config (C := unit) path (tt, w)) as H1. rewrite Hload in H1. cbn in H1.
  pose proof (quiet_lease (C := unit) (runtime_directory config) (cc_interface config) (tt, w1)) as H2.
  rewrite Hlease in H2. cbn in H2. apply (only_reads_trans _ _ _ H1) in H2.
  assert (wp (main arguments token) (λ r st, r = Ok 0 ∧ ∃ w3, since w w3 (connecting settings nft address) ∧
    since (wait_for_signal token w3) st.2 (disconnecting settings nft address)) (tt, w)) as Hwp.
  { unfold main, client_run. wp_run. rewrite Hargs. wp_run.
    apply wp_intro. intros r s Hr. rewrite Hload in Hr. injection Hr as <- <-. cbn [map_err]. wp_run.
    apply wp_intro. intros r s Hr. rewrite Hlease in Hr. injection Hr as <- <-. cbn [map_err]. wp_run.
    apply (wp_start_succeeds token start w config settings); [by rewrite (proj1 H2)|done..| |].
    { eapply calm_since_reads; [exact H2|]. split; [done|apply since_refl]. }
    intros w3 w' Hup Hdown. wp_run. split; [done|]. by exists w3. }
  unfold wp in Hwp. destruct (main arguments token (tt, w)) as [r [[] w']].
  cbn [fst snd] in Hwp. destruct Hwp as (-> & w3 & (up & Hup & Hiup) & (down & Hdown & Hidown)). exists up, down, w'.
  cbn in Hdown. by rewrite Hdown, Hup.
Qed.

(** ** Witness *)

Definition answering_env : Environment :=
  mkEnvironment (λ _, 0) (λ _ _, false) (λ _, 0) (λ _ _ _, Exited true "exit status: 0" "" "")
    (env_metadata trusted_env).

Definition answering_world : World := mkWorld answering_env [].

Lemma answering_calm : calm 1 0 (from_secs 30) answering_world.
Proof.
  split_and!; [|done|done|done]. intros h command stdin. exists "exit status: 0", "", "". split; [done|].
  by vm_compute.
Qed.

Definition answering_load := load_config (C := unit) "/etc/cyberia/client.json" (tt, answering_world).
Definition answering_lease := acquire_interface_lease (C := unit) "/run/cyberia" "cyberia0" answering_load.2.

Lemma client_completes_witness :
  length (connecting sample_settings "/usr/sbin/nft" (cc_endpoint_address sample_client_config)) = 16%nat ∧
  ∃ up down w', main ["/etc/cyberia/client.json"] 1 (tt, answering_world) = (Ok 0, (tt, w')) ∧
    history w' = (down ++ EvCancel 1 :: up ++ history answering_world)%list ∧
    issued up = connecting sample_settings "/usr/sbin/nft" (cc_endpoint_address sample_client_config) ∧
    issued down = disconnecting sample_settings "/usr/sbin/nft" (cc_endpoint_address sample_client_config).
Proof.
  split; [vm_compute; reflexivity|].
  apply (client_completes ["/etc/cyberia/client.json"] "/etc/cyberia/client.json" 1 0 answering_world
    sample_client_config answering_load.2.2 (mkLease "/run/cyberia/interface-cyberia0.lock") answering_lease.2.2
    sample_settings tt
    (validate_client_configuration sample_client_config (tt, answering_world)).2);
    [vm_compute; reflexivity|vm_compute; reflexivity|vm_compute; reflexivity|intros h h' p; reflexivity
    |vm_compute; reflexivity|vm_compute; reflexivity|split; cbn; lia|vm_compute; reflexivity
    |vm_compute; reflexivity|intros h; reflexivity|vm_compute; reflexivity|exact answering_calm].
Defined.
