(* ===== verification/Tests.v ===== *)
(** The repository's tests of transport, kill switch and client, run on the model.

    The unit tests of [core/transport/src/lib.rs] and the integration tests of
    [core/transport/tests], [core/killswitch/tests] and
    [apps/linux-client/tests] that observe results and recorded commands: each
    test function is a boolean that holds when all its assertions do, with the
    test doubles of the repository as runners.  They check the definitions
    against the expectations the authors wrote down, without reference to any
    theorem. *)

From S2P Require Import Prelude Machine Text Net Env Transport WireGuard KillSwitch Process Nftables Linux LinuxNode Connection ClientConfig Lease Client.
Open Scope string_scope.
Open Scope Z_scope.

(** ** Assertions *)

(** The call returns a value and the rest of the test holds of it. *)
Definition unwrap {S E A} (m : Act S E A) (s : S) (rest : A → S → bool) : bool :=
  match m s with (Ok a, s') => rest a s' | _ => false end.

(** The call returns an error and the rest of the test holds of it. *)
Definition unwrap_err {S E A} (m : Act S E A) (s : S) (rest : E → S → bool) : bool :=
  match m s with (Err e, s') => rest e s' | _ => false end.

Definition is_err {E A} (r : Result E A) : bool := match r with Err _ => true | _ => false end.

Definition contains (text needle : string) : bool :=
  match String.index 0 needle text with Some _ => true | None => false end.

Fixpoint has_pair (a b : string) (l : list string) : bool :=
  match l with
  | x :: (y :: _) as l' => (String.eqb x a && String.eqb y b) || has_pair a b l'
  | _ => false
  end.

Definition addr (s : string) : IpAddr := default (V4 0) (parse_ip s).

(** ** The doubles *)

(** Records commands and inputs; calls fail at the given positions, counted from
    one, and a query without an answer fails. *)
Record Recorder := mkRecorder {
  recorded : list CommandSpec;
  fed : list string;
  fail_at : list nat;
  fail_input_at : list nat;
  answer : option string;
}.

Definition push_command (c : CommandSpec) (r : Recorder) : Recorder :=
  mkRecorder (recorded r ++ [c]) (fed r) (fail_at r) (fail_input_at r) (answer r).

Definition push_input (i : string) (r : Recorder) : Recorder :=
  mkRecorder (recorded r) (fed r ++ [i]) (fail_at r) (fail_input_at r) (answer r).

Definition injected : TransportError := Network "injected".

Definition record_run (c : CommandSpec) : Act (Recorder * World) TransportError unit :=
  set_self (push_command c);;
  r ← self (λ r, r);
  guard_err (bool_decide (length (recorded r) ∈ fail_at r)) injected.

Definition record_output (c : CommandSpec) : Act (Recorder * World) TransportError string :=
  set_self (push_command c);;
  r ← self (λ r, r);
  lift (ok_or (answer r) (Network "health query failed")).

Definition record_input (c : CommandSpec) (input : string) : Act (Recorder * World) TransportError unit :=
  set_self (push_command c);;
  set_self (push_input input);;
  r ← self (λ r, r);
  guard_err (bool_decide (length (fed r) ∈ fail_input_at r)) injected.

#[export] Instance recorder_ops : CommandRunner Recorder := {|
  runner_run := record_run;
  runner_output := record_output;
  runner_input := record_input;
|}.

Definition recorder (fail_at : list nat) : Recorder := mkRecorder [] [] fail_at [] (Some "").
Definition answering (answer : option string) : Recorder := mkRecorder [] [] [] [] answer.

Definition arguments_at (i : nat) (r : Recorder) : list string :=
  match recorded r !! i with Some c => arguments c | None => [] end.
Definition last_arguments (r : Recorder) : list string := arguments_at (pred (length (recorded r))) r.
Definition ran (args : list string) (r : Recorder) : bool :=
  existsb (λ c, bool_decide (arguments c = args)) (recorded r).

(** A recording firewall runner. *)
Record NftRecorder := mkNftRecorder { rules_seen : list string; nft_failure : option NftablesError }.

#[export] Instance nft_recorder_ops : NftablesRunner NftRecorder := {|
  nft_apply rules :=
    set_self (λ n, mkNftRecorder (rules_seen n ++ [rules]) (nft_failure n));;
    n ← self (λ n, n);
    match nft_failure n with Some e => raise e | None => mret tt end;
|}.

(** Tools are trusted, the key is private, nothing is cancelled. *)
Definition test_world : World :=
  mkWorld (mkEnvironment (λ _, from_secs 1000) (λ _ _, false) (λ _, 1700000000)
    (λ _ _ _, SpawnFailed "unused")
    (λ _ path, if bool_decide (path = "/tmp/cyberia/missing") then None else
       Some (mkMetadata true false false (if bool_decide (path = "/tmp/cyberia/key") then 33152 else 33216) 7))) [].

Definition test_tools : LinuxTools := mkTools "/tmp/cyberia/ip" "/tmp/cyberia/wg" "/tmp/cyberia/key".

Definition test_context : ConnectContext := mkContext (from_secs 1001) 1.

Definition test_profile (host : string) (routes : list AllowedIp) : WireGuardConfig :=
  mkWireGuardConfig (replicate 32 1) (mkEndpoint host 51820) [mkTunnelAddress (addr "10.0.0.2") 24]
    routes (Some 25) 1420.

(** ** [core/transport/src/lib.rs] *)

Module transport_lib.

Definition rejects_an_empty_endpoint : bool :=
  bool_decide (validate_transport (mkTransportConfig WireGuard (mkEndpoint "  " 51820) (from_secs 5)) =
    Err (InvalidConfig "endpoint host is empty")).

Definition cancellation_is_visible_to_connection_attempt : bool :=
  unwrap (cancel (E := TransportError) 1) (tt, test_world) (λ _ s,
  unwrap (instant_now (E := TransportError)) s (λ now s,
  unwrap_err (check (mkContext (now + from_secs 5) 1)) s (λ e _, bool_decide (e = Cancelled)))).

Definition expired_deadline_is_rejected : bool :=
  unwrap (instant_now (E := TransportError)) (tt, test_world) (λ now s,
  unwrap_err (check (mkContext now 1)) s (λ e _, bool_decide (e = TimedOut))).

Lemma transport_tests_pass :
  rejects_an_empty_endpoint = true ∧ cancellation_is_visible_to_connection_attempt = true ∧
  expired_deadline_is_rejected = true.
Proof. by vm_compute. Qed.
End transport_lib.

(** ** [core/transport/tests/linux_wireguard.rs] *)

Module linux_wireguard.

Definition profile : WireGuardConfig :=
  test_profile "2001:db8::1" [mkAllowedIp (addr "0.0.0.0") 0; mkAllowedIp (addr "::") 0].

Definition with_backend (r : Recorder) (rest : LinuxWireGuardBackend Recorder * World → bool) : bool :=
  unwrap (linux_backend_new test_tools 51820) (r, test_world) (λ b s, rest (b, s.2)).

Definition configures_and_removes_linux_wireguard_interface : bool :=
  with_backend (recorder []) (λ s,
  unwrap (lb_bring_up "wg0" profile test_context) s (λ _ s,
  unwrap (lb_bring_down "wg0") s (λ _ s,
    let r := lb_runner s.1 in
    has_pair "allowed-ips" "0.0.0.0/0,::/0" (arguments_at 1 r) &&
    has_pair "fwmark" "51820" (arguments_at 1 r) &&
    ran ["-4"; "route"; "replace"; "default"; "dev"; "wg0"; "table"; "51820"] r &&
    ran ["-6"; "rule"; "add"; "not"; "fwmark"; "51820"; "table"; "51820"] r &&
    ran ["-4"; "rule"; "delete"; "table"; "main"; "suppress_prefixlength"; "0"] r))).

Definition setup_failure_attempts_interface_cleanup : bool :=
  with_backend (recorder [2%nat]) (λ s,
  unwrap_err (lb_bring_up "wg0" profile test_context) s (λ _ s,
  unwrap_err (lb_bring_down "wg0") s (λ e s,
    let r := lb_runner s.1 in
    bool_decide (e = NotConnected) && (length (recorded r) =? 3)%nat &&
    bool_decide (arguments_at 0 r = ["link"; "add"; "dev"; "wg0"; "type"; "wireguard"]) &&
    bool_decide (arguments_at 2 r = ["link"; "delete"; "dev"; "wg0"])))).

Definition interface_creation_failure_does_not_delete_an_existing_interface : bool :=
  with_backend (recorder [1%nat]) (λ s,
  unwrap_err (lb_bring_up "wg0" profile test_context) s (λ _ s,
    (length (recorded (lb_runner s.1)) =? 1)%nat)).

Definition installs_non_default_prefixes_in_the_main_table : bool :=
  with_backend (recorder []) (λ s,
  unwrap (lb_bring_up "wg0" (test_profile "2001:db8::1" [mkAllowedIp (addr "10.10.0.0") 16]) test_context) s (λ _ s,
    ran ["-4"; "route"; "replace"; "10.10.0.0/16"; "dev"; "wg0"] (lb_runner s.1))).

Definition route_failure_removes_installed_rules_before_interface_cleanup : bool :=
  with_backend (recorder [8%nat]) (λ s,
  unwrap_err (lb_bring_up "wg0" profile test_context) s (λ _ s,
    ran ["-4"; "rule"; "delete"; "not"; "fwmark"; "51820"; "table"; "51820"] (lb_runner s.1) &&
    bool_decide (last_arguments (lb_runner s.1) = ["link"; "delete"; "dev"; "wg0"]))).

(** [peer-key] and a time, as [wg] prints them. *)
Definition table (time : string) : string := "peer-key" +:+ String (byte 9) time +:+ newline.

Definition reports_health_from_the_latest_wireguard_handshake : bool :=
  with_backend (answering (Some (table "1700000000"))) (λ s,
  unwrap (lb_bring_up "wg0" profile test_context) s (λ _ s,
  unwrap lb_health s (λ h s,
    bool_decide (status h = Healthy) &&
    bool_decide (last_arguments (lb_runner s.1) = ["show"; "wg0"; "latest-handshakes"])))).

Definition degrades_missing_or_stale_wireguard_handshakes : bool :=
  forallb (λ time,
    with_backend (answering (Some (table time))) (λ s,
    unwrap (lb_bring_up "wg0" profile test_context) s (λ _ s,
    unwrap lb_health s (λ h _, bool_decide (status h = Degraded))))) ["0"; "1"].

Definition counts_consecutive_handshake_query_failures : bool :=
  with_backend (answering None) (λ s,
  unwrap (lb_bring_up "wg0" profile test_context) s (λ _ s,
  unwrap lb_health s (λ first s,
  unwrap lb_health s (λ h _,
    (health_consecutive_failures first =? 1) && bool_decide (status h = Unavailable) &&
    (health_consecutive_failures h =? 2))))).

Lemma linux_wireguard_tests_pass :
  configures_and_removes_linux_wireguard_interface = true ∧
  setup_failure_attempts_interface_cleanup = true ∧
  interface_creation_failure_does_not_delete_an_existing_interface = true ∧
  installs_non_default_prefixes_in_the_main_table = true ∧
  route_failure_removes_installed_rules_before_interface_cleanup = true ∧
  reports_health_from_the_latest_wireguard_handshake = true ∧
  degrades_missing_or_stale_wireguard_handshakes = true ∧
  counts_consecutive_handshake_query_failures = true.
Proof. by vm_compute. Qed.
End linux_wireguard.

(** ** [core/transport/tests/linux_dns.rs] *)

Module linux_dns.

Definition config : DnsConfig := mkDns [addr "192.0.2.53"; addr "2001:db8::53"].

Definition with_dns (r : Recorder) (rest : LinuxDnsBackend Recorder * World → bool) : bool :=
  unwrap (dns_new (mkDnsTools "/tmp/cyberia/resolvectl")) (r, test_world) (λ d s, rest (d, s.2)).

Definition configures_and_reverts_per_interface_dns : bool :=
  with_dns (recorder []) (λ s,
  unwrap (dns_configure "wg0" config test_context) s (λ _ s,
  unwrap (dns_revert "wg0") s (λ _ s,
    bool_decide (map arguments (recorded (dns_runner s.1)) =
      [["dns"; "wg0"; "192.0.2.53"; "2001:db8::53"]; ["domain"; "wg0"; "~."];
       ["default-route"; "wg0"; "yes"]; ["revert"; "wg0"]])))).

Definition partial_dns_setup_is_reverted : bool :=
  with_dns (recorder [2%nat]) (λ s,
  unwrap_err (dns_configure "wg0" config test_context) s (λ _ s,
    (length (recorded (dns_runner s.1)) =? 3)%nat &&
    bool_decide (arguments_at 2 (dns_runner s.1) = ["revert"; "wg0"]))).

Definition initial_dns_command_failure_is_reverted : bool :=
  with_dns (recorder [1%nat]) (λ s,
  unwrap_err (dns_configure "wg0" config test_context) s (λ _ s,
    (length (recorded (dns_runner s.1)) =? 2)%nat &&
    bool_decide (head (arguments_at 0 (dns_runner s.1)) = Some "dns") &&
    bool_decide (arguments_at 1 (dns_runner s.1) = ["revert"; "wg0"]))).

Definition failed_dns_cleanup_remains_retryable : bool :=
  forallb (λ failures,
    with_dns (recorder failures) (λ s,
    unwrap_err (dns_configure "wg0" config test_context) s (λ _ s,
      needs_revert s.1 &&
      unwrap_err (dns_configure "wg0" config test_context) s (λ e s,
      bool_decide (e = AlreadyConnected) &&
      unwrap (dns_revert "wg0") s (λ _ s,
        negb (needs_revert s.1) && bool_decide (last_arguments (dns_runner s.1) = ["revert"; "wg0"]))))))
    [[1%nat; 2%nat]; [2%nat; 3%nat]].

Definition rejects_invalid_policy_before_platform_work : bool :=
  with_dns (recorder []) (λ s,
  unwrap_err (dns_configure "bad/name" config test_context) s (λ _ s,
    (length (recorded (dns_runner s.1)) =? 0)%nat)).

Lemma linux_dns_tests_pass :
  configures_and_reverts_per_interface_dns = true ∧ partial_dns_setup_is_reverted = true ∧
  initial_dns_command_failure_is_reverted = true ∧ failed_dns_cleanup_remains_retryable = true ∧
  rejects_invalid_policy_before_platform_work = true.
Proof. by vm_compute. Qed.
End linux_dns.

(** ** [core/transport/tests/linux_wireguard_node.rs] *)

Module linux_wireguard_node.

Definition node_config : WireGuardNodeConfig := mkNodeConfig 51820 [mkTunnelAddress (addr "10.0.0.1") 24] 1420.
Definition peer (key : Z) (address : string) : WireGuardNodePeer :=
  mkPeer (replicate 32 key) [mkAllowedIp (addr address) 32] None.

Definition with_node (r : Recorder) (rest : LinuxWireGuardNode Recorder * World → bool) : bool :=
  unwrap (node_new test_tools) (r, test_world) (λ n s, rest (n, s.2)).

Definition manages_node_interface_and_peer_lifecycle : bool :=
  with_node (recorder []) (λ s,
  unwrap (node_start "cynode0" node_config test_context) s (λ _ s,
  unwrap (add_peer (peer 7 "10.0.0.2")) s (λ _ s,
  unwrap (remove_peer (replicate 32 7)) s (λ _ s,
  unwrap node_stop s (λ _ s,
    let r := node_runner s.1 in
    bool_decide (arguments_at 0 r = ["link"; "add"; "dev"; "cynode0"; "type"; "wireguard"]) &&
    existsb (λ c, has_pair "listen-port" "51820" (arguments c)) (recorded r) &&
    existsb (λ c, has_pair "allowed-ips" "10.0.0.2/32" (arguments c)) (recorded r) &&
    existsb (λ c, bool_decide (last (arguments c) = Some "remove")) (recorded r) &&
    bool_decide (last_arguments r = ["link"; "delete"; "dev"; "cynode0"])))))).

Definition rejects_cross_peer_route_collisions_before_platform_work : bool :=
  with_node (recorder []) (λ s,
  unwrap (node_start "cynode0" node_config test_context) s (λ _ s,
  unwrap (add_peer (peer 7 "10.0.0.2")) s (λ _ s,
    let count := length (recorded (node_runner s.1)) in
  unwrap_err (add_peer (peer 8 "10.0.0.2")) s (λ _ s,
    (length (recorded (node_runner s.1)) =? count)%nat)))).

Definition partial_node_setup_deletes_the_created_interface : bool :=
  with_node (recorder [2%nat]) (λ s,
  unwrap_err (node_start "cynode0" node_config test_context) s (λ _ s,
    (length (recorded (node_runner s.1)) =? 3)%nat &&
    bool_decide (arguments_at 2 (node_runner s.1) = ["link"; "delete"; "dev"; "cynode0"]))).

Definition observed_health (output : string) (rest : WireGuardNodeHealth → bool) : bool :=
  with_node (answering (Some output)) (λ s,
  unwrap (node_start "cynode0" node_config test_context) s (λ _ s,
  unwrap (add_peer (peer 7 "10.0.0.2")) s (λ _ s,
  unwrap node_health s (λ h _, rest h)))).

Definition reports_managed_peer_drift_and_recent_handshakes : bool :=
  observed_health (linux_wireguard.table "1700000000") (λ h,
    bool_decide (node_status h = Healthy) && (configured_peers h =? 1)%nat &&
    (observed_peers h =? 1)%nat && (recent_handshakes h =? 1)%nat).

Definition degrades_when_kernel_peer_state_differs_from_managed_state : bool :=
  observed_health "" (λ h,
    bool_decide (node_status h = Degraded) && (configured_peers h =? 1)%nat && (observed_peers h =? 0)%nat).

Lemma linux_node_tests_pass :
  manages_node_interface_and_peer_lifecycle = true ∧
  rejects_cross_peer_route_collisions_before_platform_work = true ∧
  partial_node_setup_deletes_the_created_interface = true ∧
  reports_managed_peer_drift_and_recent_handshakes = true ∧
  degrades_when_kernel_peer_state_differs_from_managed_state = true.
Proof. by vm_compute. Qed.
End linux_wireguard_node.

(** ** [core/transport/tests/linux_node_gateway.rs] and [linux_managed_node.rs] *)

Module linux_node_gateway.

Definition policy : WireGuardNodeGatewayPolicy :=
  mkGatewayPolicy [mkAllowedIp (addr "10.20.0.0") 24; mkAllowedIp (addr "fd00:20::") 64].

Definition gateway_recorder (forwarding : string) (fail_input_at : list nat) : Recorder :=
  mkRecorder [] [] [] fail_input_at (Some forwarding).

Definition one : string := "1" +:+ newline.

Definition with_gateway (r : Recorder) (rest : LinuxWireGuardNodeGateway Recorder * World → bool) : bool :=
  unwrap (gateway_new (mkGatewayTools "/tmp/cyberia/nft" "/tmp/cyberia/sysctl")) (r, test_world)
    (λ g s, rest (g, s.2)).

Definition fed_at (i : nat) (r : Recorder) : string := default "" (fed r !! i).

Definition installs_and_removes_restricted_gateway_transactionally : bool :=
  with_gateway (gateway_recorder one []) (λ s,
  unwrap (gateway_enable "cynode0" "eth0" policy test_context) s (λ _ s,
  unwrap gateway_disable s (λ _ s,
    let r := gateway_runner s.1 in
    bool_decide (arguments_at 0 r = ["-n"; "net.ipv4.ip_forward"]) &&
    bool_decide (arguments_at 1 r = ["-n"; "net.ipv6.conf.all.forwarding"]) &&
    contains (fed_at 0 r) "policy drop" &&
    contains (fed_at 0 r) ("iifname " +:+ quote +:+ "cynode0" +:+ quote +:+ " oifname " +:+ quote +:+ "eth0"
      +:+ quote +:+ " ip saddr 10.20.0.0/24 accept") &&
    contains (fed_at 0 r) "ip6 saddr fd00:20::/64 masquerade" &&
    String.eqb (fed_at 1 r) ("delete table inet cyberia_vpn_node" +:+ newline)))).

Definition refuses_to_open_forwarding_when_kernel_forwarding_is_disabled : bool :=
  with_gateway (gateway_recorder ("0" +:+ newline) []) (λ s,
  unwrap_err (gateway_enable "cynode0" "eth0" policy test_context) s (λ e s,
    bool_decide (e = InvalidConfig "kernel IP forwarding is disabled") &&
    (length (recorded (gateway_runner s.1)) =? 1)%nat)).

Definition failed_nft_transaction_does_not_claim_gateway_ownership : bool :=
  with_gateway (gateway_recorder one [1%nat]) (λ s,
  unwrap_err (gateway_enable "cynode0" "eth0" policy test_context) s (λ _ s,
  unwrap_err gateway_disable s (λ e _, bool_decide (e = NotConnected)))).

Definition managed_config : WireGuardNodeConfig := mkNodeConfig 51820 [mkTunnelAddress (addr "10.20.0.1") 24] 1420.
Definition managed_policy : WireGuardNodeGatewayPolicy := mkGatewayPolicy [mkAllowedIp (addr "10.20.0.0") 24].

(** [managed_node]: a managed node whose gateway fails at the given inputs. *)
Definition with_managed (fail_input_at : list nat)
    (rest : LinuxManagedWireGuardNode Recorder Recorder * World → bool) : bool :=
  linux_wireguard_node.with_node (recorder []) (λ n,
  with_gateway (gateway_recorder one fail_input_at) (λ g,
    match managed_new "cynode0" "eth0" n.1 g.1 with Ok m => rest (m, g.2) | _ => false end)).

Definition composes_node_gateway_and_peer_lifecycle : bool :=
  with_managed [] (λ s,
  unwrap (managed_start managed_config managed_policy test_context) s (λ _ s,
  unwrap (managed_add_peer (linux_wireguard_node.peer 7 "10.20.0.2")) s (λ _ s,
  unwrap (managed_remove_peer (replicate 32 7)) s (λ _ s,
  unwrap managed_stop s (λ _ s,
    (length (fed (gateway_runner (managed_gateway s.1))) =? 2)%nat &&
    bool_decide (last_arguments (node_runner (managed_node s.1)) = ["link"; "delete"; "dev"; "cynode0"])))))).

Definition gateway_setup_failure_removes_the_node_interface : bool :=
  with_managed [1%nat] (λ s,
  unwrap_err (managed_start managed_config managed_policy test_context) s (λ _ s,
    bool_decide (last_arguments (node_runner (managed_node s.1)) = ["link"; "delete"; "dev"; "cynode0"]))).

Definition gateway_teardown_failure_retains_the_node_interface : bool :=
  with_managed [2%nat] (λ s,
  unwrap (managed_start managed_config managed_policy test_context) s (λ _ s,
    let count := length (recorded (node_runner (managed_node s.1))) in
  unwrap_err managed_stop s (λ _ s,
    (length (recorded (node_runner (managed_node s.1))) =? count)%nat))).

Lemma gateway_tests_pass :
  installs_and_removes_restricted_gateway_transactionally = true ∧
  refuses_to_open_forwarding_when_kernel_forwarding_is_disabled = true ∧
  failed_nft_transaction_does_not_claim_gateway_ownership = true ∧
  composes_node_gateway_and_peer_lifecycle = true ∧
  gateway_setup_failure_removes_the_node_interface = true ∧
  gateway_teardown_failure_retains_the_node_interface = true.
Proof. by vm_compute. Qed.
End linux_node_gateway.

(** ** [core/transport/tests/wireguard_config.rs], [wireguard_node.rs],
    [wireguard_node_gateway.rs], [dns_config.rs] *)

Module profiles.

Definition invalid {A} (r : Result TransportError A) (reason : string) : bool :=
  match r with Err (InvalidConfig e) => String.eqb e reason | _ => false end.

Definition config (key : Key) (addresses : list TunnelAddress) (routes : list AllowedIp) (mtu : Z) :
    Result TransportError unit :=
  validate_wireguard (mkWireGuardConfig key (mkEndpoint "192.0.2.10" 51820) addresses routes (Some 25) mtu).

Definition key : Key := replicate 32 7.
Definition home : TunnelAddress := mkTunnelAddress (addr "10.42.0.2") 32.
Definition route (a : string) (p : Z) : AllowedIp := mkAllowedIp (addr a) p.

Definition wireguard_config : bool :=
  is_ok (config key [home] [route "0.0.0.0" 0] 1420) &&
  invalid (config (replicate 32 0) [home] [route "0.0.0.0" 0] 1420) "WireGuard peer public key is zero" &&
  invalid (config key [mkTunnelAddress (addr "::1") 129] [route "0.0.0.0" 0] 1420) "invalid tunnel address prefix" &&
  invalid (config key [home] [route "0.0.0.0" 0] 9001) "WireGuard MTU is outside safe bounds" &&
  invalid (config key [home; mkTunnelAddress (addr "10.42.0.2") 24] [route "0.0.0.0" 0] 1420)
    "duplicate WireGuard tunnel address" &&
  is_ok (config key [home; mkTunnelAddress (addr "fd00::2") 128] [route "0.0.0.0" 0] 1420) &&
  is_err (config key [home] [] 1420) && is_err (config key [home] [route "10.0.0.1" 24] 1420) &&
  is_err (config key [home] [route "0.0.0.0" 0; route "0.0.0.0" 0] 1420) &&
  is_ok (config key [home] [route "0.0.0.0" 0; route "::" 0] 1420).

Definition node_profile (addresses : list TunnelAddress) (mtu : Z) : Result TransportError unit :=
  validate_node_config (mkNodeConfig 51820 addresses mtu).
Definition peer_profile (key : Key) (routes : list AllowedIp) (keepalive : option Z) : Result TransportError unit :=
  validate_peer (mkPeer key routes keepalive).

Definition wireguard_node : bool :=
  is_ok (node_profile [mkTunnelAddress (addr "10.0.0.1") 24] 1420) &&
  is_ok (peer_profile key [route "10.0.0.2" 32] None) &&
  is_err (node_profile [] 1420) && is_err (node_profile [mkTunnelAddress (addr "10.0.0.1") 24] 9001) &&
  invalid (peer_profile (replicate 32 0) [route "10.0.0.2" 32] None) "WireGuard node peer public key is zero" &&
  is_err (peer_profile key [route "0.0.0.0" 0] None) && is_err (peer_profile key [route "10.0.0.0" 24] None) &&
  is_err (peer_profile key [route "10.0.0.2" 32; route "10.0.0.2" 32] None) &&
  is_err (peer_profile key [route "10.0.0.2" 32] (Some 301)).

Definition networks (l : list AllowedIp) : Result TransportError unit := validate_gateway (mkGatewayPolicy l).

Definition wireguard_node_gateway : bool :=
  is_ok (networks [route "10.20.0.0" 24; route "fd00:20::" 64]) &&
  forallb (λ n, is_err (networks [n]))
    [route "0.0.0.0" 0; route "10.20.0.2" 32; route "10.20.0.1" 24; route "::" 0; route "fd00:20::1" 64;
     route "fd00:20::1" 128] &&
  forallb (λ l, is_err (networks l))
    [[route "10.20.0.0" 24; route "10.20.0.0" 24]; [route "10.20.0.0" 24; route "10.20.0.0" 25];
     [route "fd00:20::" 64; route "fd00:20::" 80]] &&
  is_ok (validate_for_node (mkGatewayPolicy [route "10.20.0.0" 24])
    (mkNodeConfig 51820 [mkTunnelAddress (addr "10.20.0.1") 24] 1420)) &&
  is_err (validate_for_node (mkGatewayPolicy [route "10.20.0.0" 24])
    (mkNodeConfig 51820 [mkTunnelAddress (addr "10.21.0.1") 24] 1420)).

Definition dns_config : bool :=
  is_ok (validate_dns (mkDns [addr "192.0.2.53"; addr "2001:db8::53"])) &&
  is_err (validate_dns (mkDns [])) &&
  is_err (validate_dns (mkDns (map (λ i, V4 (3221225984 + Z.of_nat i)) (seq 1 9)))) &&
  forallb (λ l, invalid (validate_dns (mkDns l)) "invalid or duplicate DNS resolver")
    [[addr "0.0.0.0"]; [addr "ff02::1"]; [addr "192.0.2.53"; addr "::ffff:192.0.2.53"]].

Lemma profile_tests_pass :
  wireguard_config = true ∧ wireguard_node = true ∧ wireguard_node_gateway = true ∧ dns_config = true.
Proof. by vm_compute. Qed.
End profiles.

(** ** [core/killswitch/tests/state_machine.rs] *)

Module state_machine.

(** The result of a transition together with the policy it leaves. *)
Definition ends {A} (x : Result KillSwitchError A * KillSwitch) (error : KillSwitchError) (p : TrafficPolicy) : bool :=
  match x with (Err e, k) => bool_decide (e = error ∧ policy k = p) | _ => false end.

Definition enabling_blocks_traffic_until_tunnel_is_ready : bool :=
  bool_decide (policy (enable (ks_new false)) = BlockNonTunnel).

Definition losing_tunnel_restores_blocking_policy : bool :=
  match tunnel_established "cyberia0" (enable (ks_new false)) with
  | (Ok _, k) => bool_decide (policy (tunnel_lost k) = BlockNonTunnel)
  | _ => false
  end.

Definition always_on_mode_cannot_be_disabled : bool := ends (ks_disable (ks_new true)) AlwaysOn BlockNonTunnel.

Definition tunnel_cannot_bypass_a_disabled_kill_switch : bool :=
  ends (tunnel_established "cyberia0" (ks_new false)) NotEnabled Disabled.

Definition rejects_unsafe_interface_name : bool :=
  ends (tunnel_established "cyberia0; flush rules" (enable (ks_new false))) InvalidInterface BlockNonTunnel.

Lemma state_machine_tests_pass :
  enabling_blocks_traffic_until_tunnel_is_ready = true ∧ losing_tunnel_restores_blocking_policy = true ∧
  always_on_mode_cannot_be_disabled = true ∧ tunnel_cannot_bypass_a_disabled_kill_switch = true ∧
  rejects_unsafe_interface_name = true.
Proof. by vm_compute. Qed.
End state_machine.

(** ** [core/killswitch/tests/controller.rs] *)

Module controller.

Record Fake := mkFake { fake_connected : bool; fail_connect : bool; fail_disconnect : bool }.

#[export] Instance fake_transport : Transport Fake := {|
  kind _ := WireGuard;
  connect _ _ :=
    me ← self (λ f, f);
    guard_err (fail_connect me) (Network "unreachable");;
    set_self (λ f, mkFake true (fail_connect f) (fail_disconnect f));;
    now ← instant_now;
    mret (mkSession "wg0" WireGuard now);
  disconnect :=
    me ← self (λ f, f);
    guard_err (fail_disconnect me) (Network "teardown");;
    set_self (λ f, mkFake false (fail_connect f) (fail_disconnect f));
  health :=
    me ← self (λ f, f);
    mret (mkHealth (if fake_connected me then Healthy else Unavailable) None 0);
|}.

Record RecordingFirewall := mkRecording { policies : list TrafficPolicy; fail_policy_at : option nat }.

#[export] Instance recording_firewall : Firewall RecordingFirewall := {|
  fw_apply p :=
    me ← self (λ f, f);
    guard_err (bool_decide (fail_policy_at me = Some (S (length (policies me))))) (FirewallErr "injected");;
    set_self (λ f, mkRecording (policies f ++ [p]) (fail_policy_at f));
|}.

Definition config : TransportConfig := mkTransportConfig WireGuard (mkEndpoint "node" 51820) (from_secs 1).

Definition with_controller (always : bool) (t : Fake) (fail_policy_at : option nat)
    (rest : ConnectionController Fake RecordingFirewall * World → bool) : bool :=
  unwrap (controller_new (ks_new always) t) (mkRecording [] fail_policy_at, test_world) (λ c s, rest (c, s.2)).

Definition working : Fake := mkFake false false false.

Definition has_policy (p : TrafficPolicy) (s : ConnectionController Fake RecordingFirewall * World) : bool :=
  bool_decide (controller_policy s.1 = p).

Definition controller_allows_only_tunnel_after_connect : bool :=
  with_controller false working None (λ s,
  unwrap (controller_connect config test_context) s (λ _ s, has_policy (TunnelOnly "wg0") s &&
  unwrap controller_disconnect s (λ _ s, has_policy BlockNonTunnel s &&
  unwrap controller_disable s (λ _ s, has_policy Disabled s)))).

Definition controller_stays_blocking_after_connect_or_teardown_failure : bool :=
  with_controller false (mkFake false true false) None (λ s,
  unwrap_err (controller_connect config test_context) s (λ _ s, has_policy BlockNonTunnel s &&
  unwrap_err controller_disable s (λ _ _, true))) &&
  with_controller false (mkFake false false true) None (λ s,
  unwrap (controller_connect config test_context) s (λ _ s,
  unwrap_err controller_disconnect s (λ _ s, has_policy BlockNonTunnel s &&
  unwrap_err controller_disable s (λ _ s, fake_connected (transport s.1))))).

Definition controller_applies_firewall_transitions_around_transport_lifecycle : bool :=
  with_controller false working None (λ s,
  unwrap (controller_connect config test_context) s (λ _ s,
  unwrap controller_disconnect s (λ _ s,
  unwrap controller_disable s (λ _ s,
    bool_decide (policies (firewall s.1) =
      [Disabled; BlockNonTunnel; TunnelOnly "wg0"; BlockNonTunnel; Disabled]))))).

Definition controller_does_not_start_transport_when_blocking_cannot_be_armed : bool :=
  with_controller false working (Some 2%nat) (λ s,
  unwrap_err (controller_connect config test_context) s (λ _ s,
    negb (fake_connected (transport s.1)) && has_policy Disabled s)).

Definition controller_tears_down_transport_when_tunnel_policy_cannot_be_applied : bool :=
  with_controller false working (Some 3%nat) (λ s,
  unwrap_err (controller_connect config test_context) s (λ _ s,
    negb (fake_connected (transport s.1)) && has_policy BlockNonTunnel s)).

Definition controller_keeps_tunnel_when_blocking_cannot_precede_teardown : bool :=
  with_controller false working (Some 4%nat) (λ s,
  unwrap (controller_connect config test_context) s (λ _ s,
  unwrap_err controller_disconnect s (λ _ s,
    fake_connected (transport s.1) && has_policy (TunnelOnly "wg0") s))).

Definition controller_creation_fails_when_initial_policy_cannot_be_applied : bool :=
  unwrap_err (controller_new (ks_new true) working) (mkRecording [] (Some 1%nat), test_world) (λ _ _, true).

Lemma controller_tests_pass :
  controller_allows_only_tunnel_after_connect = true ∧
  controller_stays_blocking_after_connect_or_teardown_failure = true ∧
  controller_applies_firewall_transitions_around_transport_lifecycle = true ∧
  controller_does_not_start_transport_when_blocking_cannot_be_armed = true ∧
  controller_tears_down_transport_when_tunnel_policy_cannot_be_applied = true ∧
  controller_keeps_tunnel_when_blocking_cannot_precede_teardown = true ∧
  controller_creation_fails_when_initial_policy_cannot_be_applied = true.
Proof. by vm_compute. Qed.
End controller.

(** ** [core/killswitch/tests/linux_nftables.rs] *)

Module linux_nftables.

Definition rendered (address : string) (p : TrafficPolicy) (rest : string → bool) : bool :=
  match render (mkNftables (addr address) 51820) p with Ok rules => rest rules | _ => false end.

Definition oifname (name : string) : string := "oifname " +:+ quote +:+ name +:+ quote.

Definition blocking_policy_allows_only_loopback_and_peer : bool :=
  rendered "198.51.100.7" BlockNonTunnel (λ rules,
    contains rules "policy drop" && contains rules (oifname "lo" +:+ " accept") &&
    negb (contains rules "ct state established,related accept") &&
    contains rules "ip daddr 198.51.100.7 udp dport 51820 accept" && negb (contains rules (oifname "wg0"))).

Definition tunnel_policy_allows_the_validated_tunnel_interface : bool :=
  rendered "::1" (TunnelOnly "wg0") (λ rules,
    contains rules "ip6 daddr ::1 udp dport 51820 accept" && contains rules (oifname "wg0" +:+ " accept")).

Definition disabled_policy_removes_the_owned_table : bool :=
  rendered "127.0.0.1" Disabled (String.eqb
    ("add table inet cyberia_vpn" +:+ newline +:+ "flush table inet cyberia_vpn" +:+ newline
     +:+ "delete table inet cyberia_vpn" +:+ newline)).

Definition rejects_an_unvalidated_interface_before_rendering : bool :=
  is_err (render (mkNftables (addr "127.0.0.1") 51820) (TunnelOnly ("wg0" +:+ quote +:+ "; flush ruleset"))).

Definition nft_backend (address : string) (failure : option NftablesError) : NftablesBackend NftRecorder :=
  mkNftBackend (mkNftables (addr address) 51820) (mkNftRecorder [] failure).

Definition backend_applies_one_complete_policy_transaction : bool :=
  unwrap (nft_backend_apply BlockNonTunnel) (nft_backend "198.51.100.7" None, test_world) (λ _ s,
    match rules_seen (nft_runner s.1) with [rules] => contains rules "policy drop" | _ => false end).

Definition backend_propagates_a_failed_transaction : bool :=
  match nft_backend_apply BlockNonTunnel (nft_backend "127.0.0.1" (Some (NftCommand "denied")), test_world) with
  | (Err (NftCommand reason), _) => String.eqb reason "denied"
  | _ => false
  end.

Definition system_runner_requires_an_absolute_regular_executable : bool :=
  match (system_nftables_new (C := unit) "nft" (tt, test_world)).1 with Err NftInvalidExecutable => true | _ => false end &&
  is_ok (system_nftables_new (C := unit) "/tmp/cyberia/nft" (tt, test_world)).1.

Lemma nftables_tests_pass :
  blocking_policy_allows_only_loopback_and_peer = true ∧
  tunnel_policy_allows_the_validated_tunnel_interface = true ∧
  disabled_policy_removes_the_owned_table = true ∧
  rejects_an_unvalidated_interface_before_rendering = true ∧
  backend_applies_one_complete_policy_transaction = true ∧
  backend_propagates_a_failed_transaction = true ∧
  system_runner_requires_an_absolute_regular_executable = true.
Proof. by vm_compute. Qed.
End linux_nftables.

(** ** [core/killswitch/tests/linux_connection.rs] *)

Module linux_connection.

Local Abbreviation Managed := (LinuxWireGuardConnection Recorder Recorder NftRecorder).

Definition settings (host : string) (timeout : Z) (always : bool) : LinuxConnectionSettings :=
  mkSettings "wg0" (test_profile host [mkAllowedIp (addr "0.0.0.0") 0]) (mkDns [addr "192.0.2.53"])
    test_tools (mkDnsTools "/tmp/cyberia/resolvectl") 51820 timeout always.

Definition build (s : LinuxConnectionSettings) (dns_failures : list nat) (failure : option NftablesError) :=
  with_runners s (answering (Some (linux_wireguard.table "1700000000"))) (recorder dns_failures)
    (mkNftRecorder [] failure) (tt, test_world).

Definition with_connection (always : bool) (dns_failures : list nat) (rest : Managed * World → bool) : bool :=
  match build (settings "198.51.100.7" (from_secs 1) always) dns_failures None with
  | (Ok c, (_, w)) => rest (c, w)
  | _ => false
  end.

Definition commands (s : Managed * World) : Recorder := lb_runner (backend (transport (controller s.1))).
Definition dns_commands (s : Managed * World) : Recorder := dns_runner (conn_dns s.1).
Definition rules (s : Managed * World) : list string := rules_seen (nft_runner (firewall (controller s.1))).
Definition last_rules (s : Managed * World) : string := default "" (last (rules s)).
Definition at_policy (p : TrafficPolicy) (s : Managed * World) : bool := bool_decide (connection_policy s.1 = p).
Definition delete_link : list string := ["link"; "delete"; "dev"; "wg0"].
Definition tunnel_accept : string := linux_nftables.oifname "wg0" +:+ " accept".

Definition composes_firewall_transport_routes_health_and_teardown : bool :=
  with_connection false [] (λ s, at_policy BlockNonTunnel s &&
  unwrap (connection_connect 1) s (λ _ s, at_policy (TunnelOnly "wg0") s &&
  unwrap connection_health s (λ h s, bool_decide (status h = Healthy) &&
  unwrap connection_disconnect s (λ _ s,
  unwrap connection_disable s (λ _ s,
    match rules s with
    | [r0; r1; r2; r3; r4] =>
        contains r0 "policy drop" && contains r1 "policy drop" && contains r2 tunnel_accept &&
        contains r3 "policy drop" && negb (contains r4 "policy drop")
    | _ => false
    end &&
    bool_decide (take 3 (arguments_at 0 (commands s)) = ["link"; "add"; "dev"]) &&
    ran ["show"; "wg0"; "latest-handshakes"] (commands s) &&
    ran ["dns"; "wg0"; "192.0.2.53"] (dns_commands s) && ran ["revert"; "wg0"] (dns_commands s) &&
    bool_decide (last_arguments (commands s) = delete_link)))))).

(** The runners are consumed with the refused call, so the error is what is left to observe. *)
Definition rejects_a_hostname_before_applying_any_platform_state : bool :=
  match build (settings "node.example" (from_secs 1) false) [] None with
  | (Err EndpointMustBeIpAddress, _) => true
  | _ => false
  end.

Definition rejects_a_zero_timeout_before_applying_any_platform_state : bool :=
  match build (settings "198.51.100.7" 0 false) [] None with
  | (Err (BuildTransport e), _) => bool_decide (e = InvalidConfig "connect timeout is zero")
  | _ => false
  end.

Definition refuses_to_build_when_initial_firewall_policy_cannot_be_applied : bool :=
  match build (settings "198.51.100.7" (from_secs 1) false) [] (Some (NftCommand "injected firewall failure")) with
  | (Err (BuildFirewall _), _) => true
  | _ => false
  end.

Definition dns_failure_restores_blocking_and_tears_down_the_tunnel : bool :=
  with_connection false [2%nat] (λ s,
  unwrap_err (connection_connect 1) s (λ _ s,
    at_policy BlockNonTunnel s && bool_decide (last_arguments (dns_commands s) = ["revert"; "wg0"]) &&
    bool_decide (last_arguments (commands s) = delete_link) && contains (last_rules s) "policy drop")).

Definition dns_cleanup_retry_succeeds_before_tunnel_teardown : bool :=
  with_connection false [2%nat; 3%nat] (λ s,
  unwrap_err (connection_connect 1) s (λ _ s,
    at_policy BlockNonTunnel s && bool_decide (arguments_at 2 (dns_commands s) = ["revert"; "wg0"]) &&
    bool_decide (arguments_at 3 (dns_commands s) = ["revert"; "wg0"]) &&
    bool_decide (last_arguments (commands s) = delete_link))).

Definition repeated_dns_cleanup_failure_retains_protected_tunnel : bool :=
  with_connection false [2%nat; 3%nat; 4%nat] (λ s,
  unwrap_err (connection_connect 1) s (λ _ s, at_policy (TunnelOnly "wg0") s &&
  unwrap_err connection_disable s (λ _ s,
    bool_decide (arguments_at 3 (dns_commands s) = ["revert"; "wg0"]) &&
    negb (ran delete_link (commands s)) && contains (last_rules s) tunnel_accept &&
  unwrap connection_disconnect s (λ _ s,
  unwrap connection_disable s (λ _ _, true))))).

Definition dns_revert_failure_keeps_the_tunnel_and_tunnel_only_policy : bool :=
  with_connection false [4%nat] (λ s,
  unwrap (connection_connect 1) s (λ _ s,
  unwrap_err connection_disconnect s (λ _ s,
    at_policy (TunnelOnly "wg0") s && negb (ran delete_link (commands s)) &&
    bool_decide (last_arguments (dns_commands s) = ["revert"; "wg0"]) && contains (last_rules s) tunnel_accept))).

Definition always_on_firewall_stays_blocking_before_and_after_connection : bool :=
  with_connection true [] (λ s, at_policy BlockNonTunnel s &&
  unwrap (connection_connect 1) s (λ _ s,
  unwrap connection_disconnect s (λ _ s,
  unwrap_err connection_disable s (λ _ s,
    at_policy BlockNonTunnel s && contains (default "" (head (rules s))) "policy drop" &&
    contains (last_rules s) "policy drop")))).

Lemma linux_connection_tests_pass :
  composes_firewall_transport_routes_health_and_teardown = true ∧
  rejects_a_hostname_before_applying_any_platform_state = true ∧
  rejects_a_zero_timeout_before_applying_any_platform_state = true ∧
  refuses_to_build_when_initial_firewall_policy_cannot_be_applied = true ∧
  dns_failure_restores_blocking_and_tears_down_the_tunnel = true ∧
  dns_cleanup_retry_succeeds_before_tunnel_teardown = true ∧
  repeated_dns_cleanup_failure_retains_protected_tunnel = true ∧
  dns_revert_failure_keeps_the_tunnel_and_tunnel_only_policy = true ∧
  always_on_firewall_stays_blocking_before_and_after_connection = true.
Proof. by vm_compute. Qed.
End linux_connection.

(** ** [core/transport/tests/wireguard_adapter.rs] *)

Module wireguard_adapter.

Record FakeBackend := mkFakeBackend { up : nat; down : nat; fail_down : bool }.

#[export] Instance fake_backend : WireGuardBackend FakeBackend := {|
  bring_up _ _ context := check context;; set_self (λ b, mkFakeBackend (S (up b)) (down b) (fail_down b));
  bring_down _ :=
    set_self (λ b, mkFakeBackend (up b) (S (down b)) (fail_down b));;
    me ← self (λ b, b);
    guard_err (fail_down me) (Network "teardown failed");
  backend_health := mret (mkHealth Healthy (Some 3000000) 0);
|}.

Definition profile : WireGuardConfig := test_profile "198.51.100.1" [mkAllowedIp (addr "0.0.0.0") 0].
Definition config (k : TransportKind) : TransportConfig := mkTransportConfig k (wg_endpoint profile) (from_secs 1).

Definition with_adapter (fail_down : bool) (rest : WireGuardAdapter FakeBackend * World → bool) : bool :=
  match adapter_new "wg0" profile (mkFakeBackend 0 0 fail_down) with Ok a => rest (a, test_world) | _ => false end.

Definition adapter_owns_wireguard_lifecycle : bool :=
  with_adapter false (λ s,
  unwrap adapter_health s (λ h s, bool_decide (status h = Unavailable) &&
  unwrap (adapter_connect (config WireGuard) test_context) s (λ session s, String.eqb (session_id session) "wg0" &&
  unwrap adapter_health s (λ h s, bool_decide (status h = Healthy) &&
  unwrap_err (adapter_connect (config WireGuard) test_context) s (λ e s, bool_decide (e = AlreadyConnected) &&
  unwrap adapter_disconnect s (λ _ s,
  unwrap_err adapter_disconnect s (λ e _, bool_decide (e = NotConnected)))))))).

Definition adapter_checks_bounds_before_platform_work : bool :=
  is_err (adapter_new "bad/name" profile (mkFakeBackend 0 0 false)) &&
  with_adapter false (λ s,
  unwrap_err (adapter_connect (config OpenVpn) test_context) s (λ e s,
    match e with InvalidConfig _ => true | _ => false end &&
  unwrap (cancel (E := TransportError) 1) s (λ _ s,
  unwrap_err (adapter_connect (config WireGuard) test_context) s (λ e _, bool_decide (e = Cancelled))))).

Definition failed_teardown_keeps_adapter_connected : bool :=
  with_adapter true (λ s,
  unwrap (adapter_connect (config WireGuard) test_context) s (λ _ s,
  unwrap_err adapter_disconnect s (λ e s, match e with Network _ => true | _ => false end &&
  unwrap_err (adapter_connect (config WireGuard) test_context) s (λ e _, bool_decide (e = AlreadyConnected))))).

Lemma adapter_tests_pass :
  adapter_owns_wireguard_lifecycle = true ∧ adapter_checks_bounds_before_platform_work = true ∧
  failed_teardown_keeps_adapter_connected = true.
Proof. by vm_compute. Qed.
End wireguard_adapter.

(** ** [apps/linux-client/tests/settings.rs] and [lifecycle.rs] *)

Module client.

Definition config (key : string) (routes : list string) (mark : Z) : ClientConfig :=
  mkClientConfig "wg0" "/run/cyberia" (addr "198.51.100.7") 51820 key ["10.20.0.2/24"; "fd00:20::2/64"]
    routes [addr "192.0.2.53"] 1420 (Some 25) mark 10 true
    (mkClientTools "/usr/sbin/ip" "/usr/bin/wg" "/usr/sbin/nft" "/usr/bin/resolvectl" "/run/cyberia/key").

Definition ones : string := String.concat "" (replicate 32 "01").

Definition maps_runtime_configuration_to_managed_connection_settings : bool :=
  match into_connection_settings (config ones ["0.0.0.0/0"; "::/0"] 51820) with
  | Ok s =>
      String.eqb (set_interface s) "wg0" &&
      bool_decide (peer_public_key (set_profile s) = replicate 32 1) &&
      String.eqb (host (wg_endpoint (set_profile s))) "198.51.100.7" &&
      bool_decide (ta_address <$> (tunnel_addresses (set_profile s) !! 1%nat) = Some (addr "fd00:20::2")) &&
      bool_decide (ai_prefix_length <$> (allowed_ips (set_profile s) !! 0%nat) = Some 0) &&
      bool_decide (resolvers (set_dns s) = [addr "192.0.2.53"]) && set_always_on s
  | _ => false
  end.

Definition refused_field (c : ClientConfig) : bool :=
  match into_connection_settings c with Err (InvalidField _) => true | _ => false end.

Definition rejects_malformed_keys_cidrs_and_zero_kernel_values : bool :=
  refused_field (config "not-a-key" ["0.0.0.0/0"; "::/0"] 51820) &&
  refused_field (config ones ["10.0.0.0/33"] 51820) &&
  refused_field (config ones ["0.0.0.0/0"; "::/0"] 0).

(** The double of the lifecycle tests notes every call; the signal is noted as a
    printed line. *)
Record Noted := mkNoted { connect_fails : bool }.

Definition note {E} (event : string) : Act (Noted * World) E unit := λ '(c, w), (Ok tt, (c, log (EvPrint false event) w)).

#[export] Instance noted_connection : ManagedClientConnection Noted := {|
  client_connect _ :=
    note "connect";;
    me ← self (λ c, c);
    guard_err (connect_fails me) (FirewallFailed (FirewallErr "injected"));;
    now ← instant_now;
    mret (mkSession "wg0" WireGuard now);
  client_disconnect := note "disconnect";
  client_disable := note "disable";
|}.

Definition noted (s : Noted * World) : list string := rev (map snd (printed s.2)).

Definition waits_between_connect_and_fail_secure_teardown : bool :=
  unwrap (run_until_shutdown false 1 (log (EvPrint false "signal"))) (mkNoted false, test_world) (λ _ s,
    bool_decide (noted s = ["connect"; "signal"; "disconnect"; "disable"])).

Definition connection_failure_only_releases_non_always_on_filtering : bool :=
  forallb (λ x, unwrap_err (run_until_shutdown x.1 1 (λ w, w)) (mkNoted true, test_world) (λ _ s,
      bool_decide (noted s = x.2)))
    [(false, ["connect"; "disable"]); (true, ["connect"])].

Lemma client_tests_pass :
  maps_runtime_configuration_to_managed_connection_settings = true ∧
  rejects_malformed_keys_cidrs_and_zero_kernel_values = true ∧
  waits_between_connect_and_fail_secure_teardown = true ∧
  connection_failure_only_releases_non_always_on_filtering = true.
Proof. by vm_compute. Qed.
End client.
