(* ===== verification/Routing.v ===== *)
(** Deterministic node scoring and selection: [core/routing/src/lib.rs].

    The score of a node is a weighted integer average of four normalised
    qualities.  The theorems show that it is total and panic-free on every
    valid policy, stays in [0..=10_000], improves when a measurement improves,
    and that [select] returns the unique best-ranked available node whatever
    the order in which the candidates are listed. *)

From S2P Require Import Prelude Machine.

Open Scope string_scope.
Open Scope Z_scope.

Definition QUALITY_MAX : Z := 10000.

(** ** Data *)

Record Measurements := mkMeasurements {
  available : bool;
  latency_ms : Z;
  jitter_ms : Z;
  packet_loss_basis_points : Z;
  available_bandwidth_mbps : Z;
}.

Record NodeCandidate := mkNode {
  node_id : string;
  measurements : Measurements;
}.

Record ScoreWeights := mkWeights {
  w_latency : Z;
  w_jitter : Z;
  w_packet_loss : Z;
  w_bandwidth : Z;
}.

Definition default_weights : ScoreWeights := mkWeights 40 15 30 15.

Record ScoreLimits := mkLimits {
  maximum_latency_ms : Z;
  maximum_jitter_ms : Z;
  target_bandwidth_mbps : Z;
}.

Definition default_limits : ScoreLimits := mkLimits 1000 500 100.

Record RoutingPolicy := mkRoutingPolicy {
  weights : ScoreWeights;
  limits : ScoreLimits;
}.

Definition default_routing_policy : RoutingPolicy :=
  mkRoutingPolicy default_weights default_limits.

Inductive RoutingError :=
| InvalidPolicy (reason : string)
| InvalidMeasurements (reason : string)
| NoAvailableNodes.

Definition display_routing_error (e : RoutingError) : string :=
  match e with
  | InvalidPolicy reason => "invalid routing policy: " +:+ reason
  | InvalidMeasurements reason => "invalid node measurements: " +:+ reason
  | NoAvailableNodes => "no available nodes"
  end.

#[export] Instance measurements_eq_dec : EqDecision Measurements.
Proof. solve_decision. Defined.
#[export] Instance node_eq_dec : EqDecision NodeCandidate.
Proof. solve_decision. Defined.
#[export] Instance routing_error_eq_dec : EqDecision RoutingError.
Proof. solve_decision. Defined.

(** The field widths of the Rust structs. *)
Definition measurements_typed (m : Measurements) : Prop :=
  u32 (latency_ms m) ∧ u32 (jitter_ms m) ∧ u16 (packet_loss_basis_points m) ∧
  u32 (available_bandwidth_mbps m).

Definition weights_typed (w : ScoreWeights) : Prop :=
  u16 (w_latency w) ∧ u16 (w_jitter w) ∧ u16 (w_packet_loss w) ∧ u16 (w_bandwidth w).

Definition limits_typed (l : ScoreLimits) : Prop :=
  u32 (maximum_latency_ms l) ∧ u32 (maximum_jitter_ms l) ∧ u32 (target_bandwidth_mbps l).

Definition policy_typed (p : RoutingPolicy) : Prop :=
  weights_typed (weights p) ∧ limits_typed (limits p).

(** ** Scoring *)

Definition inverse_quality {E} (value maximum : Z) : Result E Z :=
  product ← u_mul 64 value QUALITY_MAX;
  normalized ← u_div product maximum;
  Ok (saturating_sub QUALITY_MAX (default (umax 32) (try_from 32 normalized))).

Definition direct_quality {E} (value target : Z) : Result E Z :=
  product ← u_mul 64 value QUALITY_MAX;
  normalized ← u_div product target;
  Ok (Z.min (default (umax 32) (try_from 32 normalized)) QUALITY_MAX).

Definition total_weight {E} (p : RoutingPolicy) : Result E Z :=
  s1 ← u_add 32 (w_latency (weights p)) (w_jitter (weights p));
  s2 ← u_add 32 s1 (w_packet_loss (weights p));
  u_add 32 s2 (w_bandwidth (weights p)).

Definition validate_routing (p : RoutingPolicy) : Result RoutingError unit :=
  total ← total_weight p;
  if total =? 0 then Err (InvalidPolicy "all weights are zero") else
  reject_if ((maximum_latency_ms (limits p) =? 0) || (maximum_jitter_ms (limits p) =? 0)
             || (target_bandwidth_mbps (limits p) =? 0))
    (InvalidPolicy "normalization limits must be non-zero").

Definition score (p : RoutingPolicy) (m : Measurements) : Result RoutingError Z :=
  validate_routing p;;
  if negb (available m) then Ok 0 else
  if 10000 <? packet_loss_basis_points m then
    Err (InvalidMeasurements "packet loss exceeds 100 percent") else
  latency ← inverse_quality (latency_ms m) (maximum_latency_ms (limits p));
  jitter ← inverse_quality (jitter_ms m) (maximum_jitter_ms (limits p));
  loss ← u_sub 32 QUALITY_MAX (packet_loss_basis_points m);
  bandwidth ← direct_quality (available_bandwidth_mbps m) (target_bandwidth_mbps (limits p));
  total ← total_weight p;
  p1 ← u_mul 64 latency (w_latency (weights p));
  p2 ← u_mul 64 jitter (w_jitter (weights p));
  s2 ← u_add 64 p1 p2;
  p3 ← u_mul 64 loss (w_packet_loss (weights p));
  s3 ← u_add 64 s2 p3;
  p4 ← u_mul 64 bandwidth (w_bandwidth (weights p));
  weighted_sum ← u_add 64 s3 p4;
  quotient ← u_div weighted_sum total;
  Ok (default QUALITY_MAX (try_from 32 quotient)).

(** ** Selection *)

Definition compare_rank (left right : NodeCandidate * Z) : comparison :=
  match left.2 ?= right.2 with
  | Eq => String.compare (node_id right.1) (node_id left.1)
  | c => c
  end.

Definition rank (p : RoutingPolicy) (node : NodeCandidate) :
    Result RoutingError (NodeCandidate * Z) :=
  s ← score p (measurements node); Ok (node, s).

Fixpoint select_loop (p : RoutingPolicy) (best : NodeCandidate * Z)
    (ranked : list NodeCandidate) : Result RoutingError (NodeCandidate * Z) :=
  match ranked with
  | [] => Ok best
  | node :: rest =>
      candidate ← rank p node;
      select_loop p
        (match compare_rank candidate best with Gt => candidate | _ => best end) rest
  end.

Definition is_available (node : NodeCandidate) : bool := available (measurements node).

Definition select (p : RoutingPolicy) (candidates : list NodeCandidate) :
    Result RoutingError NodeCandidate :=
  match List.filter is_available candidates with
  | [] => Err NoAvailableNodes
  | first :: rest =>
      best ← rank p first;
      winner ← select_loop p best rest;
      Ok winner.1
  end.

(** ** Specification vocabulary *)

(** The policies [validate_routing] accepts, on the exact integers. *)
Definition weight_sum (w : ScoreWeights) : Z :=
  w_latency w + w_jitter w + w_packet_loss w + w_bandwidth w.

Definition policy_valid (p : RoutingPolicy) : Prop :=
  weight_sum (weights p) ≠ 0 ∧ maximum_latency_ms (limits p) ≠ 0 ∧
  maximum_jitter_ms (limits p) ≠ 0 ∧ target_bandwidth_mbps (limits p) ≠ 0.

(** The score on unbounded integers, with no machine-word step. *)
Definition inverse_ideal (value maximum : Z) : Z :=
  Z.max 0 (QUALITY_MAX - value * QUALITY_MAX / maximum).

Definition direct_ideal (value target : Z) : Z :=
  Z.min QUALITY_MAX (value * QUALITY_MAX / target).

Definition weighted (w : ScoreWeights) (a b c d : Z) : Z :=
  a * w_latency w + b * w_jitter w + c * w_packet_loss w + d * w_bandwidth w.

Definition ideal_score (p : RoutingPolicy) (m : Measurements) : Z :=
  weighted (weights p)
    (inverse_ideal (latency_ms m) (maximum_latency_ms (limits p)))
    (inverse_ideal (jitter_ms m) (maximum_jitter_ms (limits p)))
    (QUALITY_MAX - packet_loss_basis_points m)
    (direct_ideal (available_bandwidth_mbps m) (target_bandwidth_mbps (limits p)))
  / weight_sum (weights p).

(** [m] is at least as good as [m'] on every measured axis. *)
Definition no_worse (m m' : Measurements) : Prop :=
  latency_ms m ≤ latency_ms m' ∧ jitter_ms m ≤ jitter_ms m' ∧
  packet_loss_basis_points m ≤ packet_loss_basis_points m' ∧
  available_bandwidth_mbps m' ≤ available_bandwidth_mbps m.

(** [a] ranks at least as high as [b]: a higher score, or the same score and
    an identifier that is not larger. *)
Definition outranks (a b : NodeCandidate * Z) : Prop :=
  b.2 < a.2 ∨ (a.2 = b.2 ∧ String.leb (node_id a.1) (node_id b.1) = true).

Definition usable (n : NodeCandidate) : Prop :=
  available (measurements n) = true ∧ measurements_typed (measurements n) ∧
  packet_loss_basis_points (measurements n) ≤ 10000.

(** ** The machine computation is the ideal one *)

Lemma quotient_nonneg v q : 0 ≤ v → 0 ≤ q → 0 ≤ v * QUALITY_MAX / q.
Proof.
  intros. destruct (decide (q = 0)) as [->|]; [by rewrite Z.div_0_r|].
  apply Z.div_pos; unfold QUALITY_MAX; lia.
Qed.

Lemma inverse_ideal_range v mx : 0 ≤ v → 0 ≤ mx → 0 ≤ inverse_ideal v mx ≤ QUALITY_MAX.
Proof. intros. pose proof (quotient_nonneg v mx). unfold inverse_ideal, QUALITY_MAX in *. lia. Qed.

Lemma direct_ideal_range v t : 0 ≤ v → 0 ≤ t → 0 ≤ direct_ideal v t ≤ QUALITY_MAX.
Proof. intros. pose proof (quotient_nonneg v t). unfold direct_ideal, QUALITY_MAX in *. lia. Qed.

Lemma inverse_quality_exact {E} v mx :
  u32 v → u32 mx → mx ≠ 0 → @inverse_quality E v mx = Ok (inverse_ideal v mx).
Proof.
  intros Hv Hm Hnz. pose proof (quotient_nonneg v mx (proj1 Hv) (proj1 Hm)) as Hq.
  unfold inverse_quality, inverse_ideal, u_mul.
  rewrite checked_ok by (unfold fits, QUALITY_MAX in *; lia). cbn.
  rewrite u_div_ok by done. cbn. f_equal. unfold saturating_sub, try_from, umax.
  destruct (fitsb 32 _) eqn:Hf; cbn; [done|].
  apply not_true_iff_false in Hf. rewrite fitsb_spec in Hf. unfold fits, QUALITY_MAX in *. lia.
Qed.

Lemma direct_quality_exact {E} v t :
  u32 v → u32 t → t ≠ 0 → @direct_quality E v t = Ok (direct_ideal v t).
Proof.
  intros Hv Ht Hnz. pose proof (quotient_nonneg v t (proj1 Hv) (proj1 Ht)) as Hq.
  unfold direct_quality, direct_ideal, u_mul.
  rewrite checked_ok by (unfold fits, QUALITY_MAX in *; lia). cbn.
  rewrite u_div_ok by done. cbn. f_equal. unfold try_from, umax.
  destruct (fitsb 32 _) eqn:Hf; cbn; [apply Z.min_comm|].
  apply not_true_iff_false in Hf. rewrite fitsb_spec in Hf. unfold fits, QUALITY_MAX in *. lia.
Qed.

Lemma total_weight_exact {E} p :
  weights_typed (weights p) → @total_weight E p = Ok (weight_sum (weights p)).
Proof.
  unfold weights_typed, fits, total_weight, u_add, weight_sum. intros H.
  repeat (rewrite checked_ok by (unfold fits; lia); cbn). done.
Qed.

Lemma validate_routing_ok p :
  policy_typed p → policy_valid p → validate_routing p = Ok tt.
Proof.
  intros [Hw _] (Hs & Hl & Hj & Hb). unfold validate_routing.
  rewrite total_weight_exact by done. cbn.
  rewrite !(proj2 (Z.eqb_neq _ _)) by done. done.
Qed.

Lemma validate_routing_invalid p :
  policy_typed p → ¬ policy_valid p → ∃ reason, validate_routing p = Err (InvalidPolicy reason).
Proof.
  intros [Hw _] Hv. unfold validate_routing. rewrite total_weight_exact by done. cbn.
  destruct (weight_sum (weights p) =? 0) eqn:E0; [by eauto|].
  unfold reject_if. case_match eqn:E1; [by eauto|]. destruct Hv. unfold policy_valid.
  rewrite !orb_false_iff, !Z.eqb_neq in E1. rewrite Z.eqb_neq in E0. tauto.
Qed.

(** One product of a quality and a [u16] weight; four of them fit a [u64]. *)
Lemma product_bound x w : 0 ≤ x ≤ QUALITY_MAX → u16 w → 0 ≤ x * w ≤ 655350000.
Proof. unfold QUALITY_MAX, fits. nia. Qed.

Lemma weighted_mean_range w a b c d :
  weights_typed w → weight_sum w ≠ 0 →
  0 ≤ a ≤ QUALITY_MAX → 0 ≤ b ≤ QUALITY_MAX → 0 ≤ c ≤ QUALITY_MAX → 0 ≤ d ≤ QUALITY_MAX →
  0 ≤ weighted w a b c d / weight_sum w ≤ QUALITY_MAX.
Proof.
  intros (W1 & W2 & W3 & W4) Hs Ha Hb Hc Hd.
  pose proof (product_bound a _ Ha W1). pose proof (product_bound b _ Hb W2).
  pose proof (product_bound c _ Hc W3). pose proof (product_bound d _ Hd W4).
  assert (weighted w a b c d ≤ weight_sum w * QUALITY_MAX) as Hle.
  { unfold weighted, weight_sum, fits in *. clear -Ha Hb Hc Hd W1 W2 W3 W4. nia. }
  unfold weighted, weight_sum, fits in *.
  split; [apply Z.div_pos; lia|]. apply Z.div_le_upper_bound; [lia|]. done.
Qed.

Lemma weighted_sum_exact w a b c d :
  weights_typed w →
  0 ≤ a ≤ QUALITY_MAX → 0 ≤ b ≤ QUALITY_MAX → 0 ≤ c ≤ QUALITY_MAX → 0 ≤ d ≤ QUALITY_MAX →
  (p1 ← u_mul 64 a (w_latency w);
   p2 ← u_mul 64 b (w_jitter w);
   s2 ← u_add 64 p1 p2;
   p3 ← u_mul 64 c (w_packet_loss w);
   s3 ← u_add 64 s2 p3;
   p4 ← u_mul 64 d (w_bandwidth w);
   u_add 64 s3 p4) = (Ok (weighted w a b c d) : Result RoutingError Z).
Proof.
  intros (W1 & W2 & W3 & W4) Ha Hb Hc Hd.
  pose proof (product_bound a _ Ha W1). pose proof (product_bound b _ Hb W2).
  pose proof (product_bound c _ Hc W3). pose proof (product_bound d _ Hd W4).
  clear -H H0 H1 H2. unfold u_mul, u_add.
  repeat (rewrite checked_ok by (unfold fits; lia); cbn). done.
Qed.

Lemma score_exact p m :
  policy_typed p → policy_valid p → measurements_typed m →
  available m = true → packet_loss_basis_points m ≤ 10000 →
  score p m = Ok (ideal_score p m) ∧ 0 ≤ ideal_score p m ≤ QUALITY_MAX.
Proof.
  intros Hp Hv Hm Ha Hl. pose proof Hv as (Hs & HL & HJ & HB).
  unfold score. rewrite validate_routing_ok by done. cbn. rewrite Ha. cbn.
  rewrite (proj2 (Z.ltb_ge _ _)) by done.
  destruct Hp as [Hw (Hml & Hmj & Hmb)]. destruct Hm as (Hm1 & Hm2 & Hm3 & Hm4).
  rewrite !inverse_quality_exact by done. cbn.
  assert (0 ≤ QUALITY_MAX - packet_loss_basis_points m ≤ QUALITY_MAX) as Hloss
    by (unfold fits, QUALITY_MAX in *; lia).
  unfold u_sub. rewrite checked_ok by (unfold fits, QUALITY_MAX in *; lia). cbn.
  rewrite direct_quality_exact by done. cbn. rewrite total_weight_exact by done. cbn.
  unfold ideal_score.
  pose proof (inverse_ideal_range _ _ (proj1 Hm1) (proj1 Hml)) as R1.
  pose proof (inverse_ideal_range _ _ (proj1 Hm2) (proj1 Hmj)) as R2.
  pose proof (direct_ideal_range _ _ (proj1 Hm4) (proj1 Hmb)) as R4.
  pose proof (weighted_mean_range _ _ _ _ _ Hw Hs R1 R2 Hloss R4) as R.
  pose proof (weighted_sum_exact _ _ _ _ _ Hw R1 R2 Hloss R4) as Hsum.
  split; [|done].
  transitivity (weighted_sum ← Ok (weighted (weights p)
      (inverse_ideal (latency_ms m) (maximum_latency_ms (limits p)))
      (inverse_ideal (jitter_ms m) (maximum_jitter_ms (limits p)))
      (QUALITY_MAX - packet_loss_basis_points m)
      (direct_ideal (available_bandwidth_mbps m) (target_bandwidth_mbps (limits p))));
    quotient ← u_div weighted_sum (weight_sum (weights p));
    Ok (default QUALITY_MAX (try_from 32 quotient)) : Result RoutingError Z).
  { rewrite <-Hsum. unfold mbind, result_bind. by repeat case_match. }
  cbn. rewrite u_div_ok by done. cbn.
  rewrite try_from_fits by (unfold fits, QUALITY_MAX in *; lia). done.
Qed.

Lemma score_unavailable p m :
  policy_typed p → policy_valid p → available m = false → score p m = Ok 0.
Proof. intros Hp Hv Ha. unfold score. rewrite validate_routing_ok by done. cbn. by rewrite Ha. Qed.

Lemma score_invalid_policy p m :
  policy_typed p → ¬ policy_valid p → ∃ reason, score p m = Err (InvalidPolicy reason).
Proof.
  intros Hp Hv. destruct (validate_routing_invalid p Hp Hv) as [reason Hr].
  exists reason. unfold score. by rewrite Hr.
Qed.

Definition excessive_loss : RoutingError :=
  InvalidMeasurements "packet loss exceeds 100 percent".

Lemma score_excessive_loss p m :
  policy_typed p → policy_valid p → available m = true →
  10000 < packet_loss_basis_points m → score p m = Err excessive_loss.
Proof.
  intros Hp Hv Ha Hl. unfold score. rewrite validate_routing_ok by done. cbn. rewrite Ha. cbn.
  by rewrite (proj2 (Z.ltb_lt _ _)).
Qed.

#[export] Instance policy_valid_dec p : Decision (policy_valid p).
Proof. unfold policy_valid. apply _. Defined.

Lemma inverse_ideal_antitone v v' mx :
  0 ≤ v ≤ v' → 0 < mx → inverse_ideal v' mx ≤ inverse_ideal v mx.
Proof.
  intros Hv Hm. unfold inverse_ideal, QUALITY_MAX.
  pose proof (Z.div_le_mono (v * 10000) (v' * 10000) mx). lia.
Qed.

Lemma direct_ideal_monotone v v' t :
  0 ≤ v' ≤ v → 0 < t → direct_ideal v' t ≤ direct_ideal v t.
Proof.
  intros Hv Ht. unfold direct_ideal, QUALITY_MAX.
  pose proof (Z.div_le_mono (v' * 10000) (v * 10000) t). lia.
Qed.

Lemma weighted_monotone w a b c d a' b' c' d' :
  weights_typed w → a' ≤ a → b' ≤ b → c' ≤ c → d' ≤ d →
  weighted w a' b' c' d' ≤ weighted w a b c d.
Proof. unfold weights_typed, fits, weighted. nia. Qed.

Lemma ideal_score_monotone p m m' :
  policy_typed p → policy_valid p → measurements_typed m → measurements_typed m' →
  no_worse m m' → ideal_score p m' ≤ ideal_score p m.
Proof.
  intros [Hw (T1 & T2 & T3)] (Hs & Hl & Hj & Hb) (M1 & M2 & M3 & M4) (N1 & N2 & N3 & N4)
    (L1 & L2 & L3 & L4).
  unfold ideal_score, fits in *. apply Z.div_le_mono.
  { unfold weights_typed, weight_sum, fits in *. lia. }
  apply weighted_monotone; [done| | |lia|].
  - apply inverse_ideal_antitone; lia.
  - apply inverse_ideal_antitone; lia.
  - apply direct_ideal_monotone; lia.
Qed.

(** ** The rank order and the selection loop *)

Lemma outranks_refl a : outranks a a.
Proof. right. split; [done|]. apply string_leb_refl. Qed.

Lemma outranks_trans a b c : outranks a b → outranks b c → outranks a c.
Proof.
  unfold outranks. intros [?|[? ?]] [?|[? ?]]; [left; lia..|].
  right. split; [lia|]. by eapply string_leb_trans.
Qed.

Lemma outranks_antisym a b : outranks a b → outranks b a → a.2 = b.2 ∧ node_id a.1 = node_id b.1.
Proof.
  unfold outranks. intros [?|[? ?]] [?|[? ?]]; try lia.
  split; [done|]. by apply String.leb_antisym.
Qed.

Lemma compare_rank_outranks c b :
  match compare_rank c b with Gt => outranks c b | _ => outranks b c end.
Proof.
  unfold compare_rank, outranks.
  destruct (Z.compare_spec c.2 b.2) as [Heq|Hlt|Hgt]; [|by left|by left].
  destruct (String.compare (node_id b.1) (node_id c.1)) eqn:Hc.
  - right. split; [done|]. unfold String.leb. by rewrite Hc.
  - right. split; [done|]. unfold String.leb. by rewrite Hc.
  - right. split; [done|]. by apply string_compare_gt_leb.
Qed.

Lemma select_loop_best p best ranked (sc : NodeCandidate → Z) :
  (∀ n, n ∈ ranked → score p (measurements n) = Ok (sc n)) →
  ∃ w, select_loop p best ranked = Ok w ∧
    (w = best ∨ ∃ n, n ∈ ranked ∧ w = (n, sc n)) ∧
    outranks w best ∧ ∀ n, n ∈ ranked → outranks w (n, sc n).
Proof.
  revert best. induction ranked as [|n ranked IH]; intros best Hs; cbn.
  { exists best. split_and!; [done|by left|apply outranks_refl|]. intros n Hn. by apply not_elem_of_nil in Hn. }
  unfold rank. rewrite (Hs n) by set_solver. cbn.
  set (best' := match compare_rank (n, sc n) best with Gt => (n, sc n) | _ => best end).
  destruct (IH best') as (w & Hw & Hin & Hb & Hall); [set_solver|].
  pose proof (compare_rank_outranks (n, sc n) best) as Hcmp.
  assert (outranks best' best ∧ outranks best' (n, sc n) ∧ (best' = best ∨ best' = (n, sc n)))
    as (Ho1 & Ho2 & Hb').
  { subst best'. destruct (compare_rank _ _); auto using outranks_refl. }
  clearbody best'. exists w. split_and!; [done| | |].
  - destruct Hin as [->|(n' & Hn' & ->)]; [|right; set_solver].
    destruct Hb' as [-> | ->]; [by left|right; set_solver].
  - by eapply outranks_trans.
  - intros n' [->|Hn']%elem_of_cons; [by eapply outranks_trans|auto].
Qed.

Lemma select_loop_error p best ranked e :
  (∀ n, n ∈ ranked → (∃ s, score p (measurements n) = Ok s) ∨ score p (measurements n) = Err e) →
  (∃ n, n ∈ ranked ∧ score p (measurements n) = Err e) →
  select_loop p best ranked = Err e.
Proof.
  revert best. induction ranked as [|n ranked IH]; intros best Hs Hex; cbn; [set_solver|].
  unfold rank. destruct (Hs n) as [[s Hn]|Hn]; [set_solver| |]; rewrite Hn; cbn; [|done].
  apply IH; [set_solver|]. destruct Hex as (n' & [->|Hn']%elem_of_cons & He); [congruence|eauto].
Qed.

Lemma select_nonempty p candidates first rest :
  List.filter is_available candidates = first :: rest →
  select p candidates =
    (best ← rank p first; winner ← select_loop p best rest; Ok winner.1).
Proof. intros H. unfold select. by rewrite H. Qed.

Lemma elem_of_available n candidates :
  n ∈ List.filter is_available candidates ↔ n ∈ candidates ∧ is_available n = true.
Proof. by rewrite !list_elem_of_In, filter_In. Qed.

(** A candidate list scores without error: the winner outranks everyone. *)
Lemma select_scored p candidates first rest :
  List.filter is_available candidates = first :: rest →
  policy_typed p → policy_valid p →
  (∀ n, n ∈ candidates → is_available n = true → usable n) →
  ∃ n, select p candidates = Ok n ∧ n ∈ first :: rest ∧
    ∀ n', n' ∈ first :: rest →
      outranks (n, ideal_score p (measurements n)) (n', ideal_score p (measurements n')).
Proof.
  intros Hf Hp Hv Hu.
  assert (∀ n, n ∈ first :: rest →
    score p (measurements n) = Ok (ideal_score p (measurements n))) as Hsc.
  { intros n Hn. rewrite <-Hf in Hn. apply elem_of_available in Hn as [Hn Ha].
    destruct (Hu n Hn Ha) as (Hav & Ht & Hl). by apply score_exact. }
  rewrite (select_nonempty _ _ _ _ Hf). unfold rank at 1. rewrite (Hsc first) by set_solver. cbn.
  destruct (select_loop_best p (first, ideal_score p (measurements first)) rest
    (λ n, ideal_score p (measurements n))) as (w & Hw & Hin & Hb & Hall).
  { intros n Hn. apply Hsc. set_solver. }
  rewrite Hw. cbn. exists w.1. split; [done|].
  destruct Hin as [->|(n & Hn & ->)]; cbn in *.
  - split; [set_solver|]. intros n' [->|Hn']%elem_of_cons; [apply outranks_refl|auto].
  - split; [set_solver|]. intros n' [->|Hn']%elem_of_cons; [done|auto].
Qed.

(** Some available candidate reports an impossible loss: selection fails with
    that error, wherever the candidate stands. *)
Lemma select_excessive p candidates :
  policy_typed p → policy_valid p →
  (∀ n, n ∈ candidates → measurements_typed (measurements n)) →
  (∃ n, n ∈ candidates ∧ is_available n = true ∧
        10000 < packet_loss_basis_points (measurements n)) →
  select p candidates = Err excessive_loss.
Proof.
  intros Hp Hv Ht (bad & Hbad & Hba & Hbl).
  assert (∀ n, n ∈ List.filter is_available candidates →
    (∃ s, score p (measurements n) = Ok s) ∨ score p (measurements n) = Err excessive_loss) as Hsc.
  { intros n [Hn Ha]%elem_of_available. unfold is_available in Ha.
    destruct (decide (10000 < packet_loss_basis_points (measurements n))).
    - right. by apply score_excessive_loss.
    - left. exists (ideal_score p (measurements n)). apply score_exact; auto with lia. }
  assert (bad ∈ List.filter is_available candidates) as Hin by (by apply elem_of_available).
  assert (score p (measurements bad) = Err excessive_loss) as Hbs by (by apply score_excessive_loss).
  destruct (List.filter is_available candidates) as [|first rest] eqn:Hf; [set_solver|].
  rewrite (select_nonempty _ _ _ _ Hf). unfold rank.
  destruct (Hsc first) as [[s Hs]|Hs]; [set_solver| |]; rewrite Hs; cbn; [|done].
  rewrite (select_loop_error p (first, s) rest excessive_loss); [done|set_solver|].
  apply elem_of_cons in Hin as [->|Hin]; [congruence|eauto].
Qed.

Lemma available_exists candidates :
  existsb is_available candidates =
  match List.filter is_available candidates with [] => false | _ => true end.
Proof.
  induction candidates as [|n l IH]; cbn; [done|].
  destruct (is_available n); cbn; [done|]. apply IH.
Qed.

Lemma select_invalid_policy p :
  policy_typed p → ¬ policy_valid p →
  ∃ r, ∀ candidates, select p candidates =
    Err (if existsb is_available candidates then InvalidPolicy r else NoAvailableNodes).
Proof.
  intros Hp Hv. destruct (validate_routing_invalid p Hp Hv) as [r Hr]. exists r. intros candidates.
  rewrite available_exists. unfold select, rank, score. rewrite Hr.
  by destruct (List.filter is_available candidates).
Qed.

Lemma select_none_available p candidates :
  existsb is_available candidates = false → select p candidates = Err NoAvailableNodes.
Proof. rewrite available_exists. unfold select. by destruct (List.filter _ _). Qed.

Lemma available_permutation c1 c2 :
  c1 ≡ₚ c2 → existsb is_available c1 = existsb is_available c2.
Proof. induction 1; cbn; [done|by f_equal|by rewrite !orb_assoc, (orb_comm (is_available y))|congruence]. Qed.

(** The defaults of the crate are a valid, typed policy. *)
Lemma default_policy_typed : policy_typed default_routing_policy.
Proof. unfold policy_typed, weights_typed, limits_typed, fits; cbn; lia. Qed.

Lemma default_policy_valid : policy_valid default_routing_policy.
Proof. repeat split; discriminate. Qed.

(** ** Theorems *)

(** C35: [score] never panics: on every policy and measurement of the declared
    widths it returns the ideal score in [0..=10_000], [Ok 0] for an
    unavailable node, [InvalidPolicy] exactly for a policy with no weight or a
    zero limit, and [InvalidMeasurements] exactly for a loss above 100 percent. *)
Theorem score_total p m :
  policy_typed p → measurements_typed m →
  match score p m with
  | Ok s => policy_valid p ∧ 0 ≤ s ≤ QUALITY_MAX ∧
            s = (if available m then ideal_score p m else 0)
  | Err (InvalidPolicy _) => ¬ policy_valid p
  | Err (InvalidMeasurements _) =>
      policy_valid p ∧ available m = true ∧ 10000 < packet_loss_basis_points m
  | Err NoAvailableNodes => False
  | Panic => False
  end.
Proof.
  intros Hp Hm. destruct (decide (policy_valid p)) as [Hv|Hv].
  2: { destruct (score_invalid_policy p m Hp Hv) as [r ->]. done. }
  destruct (available m) eqn:Ha.
  2: { rewrite score_unavailable by done. unfold QUALITY_MAX. split_and!; [done|lia..]. }
  destruct (decide (10000 < packet_loss_basis_points m)).
  - by rewrite score_excessive_loss.
  - destruct (score_exact p m) as [-> ?]; [done..|lia|]. done.
Qed.

Lemma score_total_witness :
  match score default_routing_policy (mkMeasurements true 40 5 0 100) with
  | Ok s => policy_valid default_routing_policy ∧ 0 ≤ s ≤ QUALITY_MAX ∧
            s = ideal_score default_routing_policy (mkMeasurements true 40 5 0 100)
  | _ => False
  end.
Proof.
  apply (score_total default_routing_policy (mkMeasurements true 40 5 0 100)).
  - apply default_policy_typed.
  - unfold measurements_typed, fits; cbn; lia.
Defined.

(** A node that is at least as good on every axis never scores lower. *)
Theorem score_monotone p m m' s s' :
  policy_typed p → measurements_typed m → measurements_typed m' →
  available m = true → no_worse m m' →
  score p m = Ok s → score p m' = Ok s' → s' ≤ s.
Proof.
  intros Hp Hm Hm' Ha (Hl & Hj & Hk & Hb) Hs Hs'.
  destruct (decide (policy_valid p)) as [Hv|Hv].
  2: { destruct (score_invalid_policy p m Hp Hv) as [r Hr]. congruence. }
  pose proof Hp as [Hw (T1 & T2 & T3)].
  destruct (available m') eqn:Ha'.
  2: { rewrite score_unavailable in Hs' by done. injection Hs' as <-.
       destruct (decide (10000 < packet_loss_basis_points m)) as [Hx|Hx].
       { rewrite score_excessive_loss in Hs by done. done. }
       destruct (score_exact p m) as [He ?]; [done..|lia|]. rewrite He in Hs. injection Hs as <-. lia. }
  destruct (decide (10000 < packet_loss_basis_points m')) as [Hx|Hx].
  { rewrite score_excessive_loss in Hs' by done. done. }
  destruct (score_exact p m') as [He' _]; [done..|lia|].
  destruct (score_exact p m) as [He _]; [done..|lia|].
  rewrite He in Hs. rewrite He' in Hs'. simplify_eq.
  by apply ideal_score_monotone.
Qed.

Lemma score_monotone_witness :
  let p := default_routing_policy in
  let near := mkMeasurements true 40 5 0 100 in
  let far := mkMeasurements true 90 5 100 80 in
  score p near = Ok 9825 ∧ score p far = Ok 9295 ∧ 9295 ≤ 9825.
Proof.
  split; [reflexivity|]. split; [reflexivity|].
  apply (score_monotone default_routing_policy (mkMeasurements true 40 5 0 100)
    (mkMeasurements true 90 5 100 80)); try reflexivity; [apply default_policy_typed|..];
    unfold measurements_typed, no_worse, fits; cbn; lia.
Defined.

(** C34: when every available candidate has plausible measurements, [select]
    returns an available candidate of the list that outranks every other
    available one: the highest score, and among equal scores the smallest
    identifier. *)
Theorem select_optimal p candidates :
  policy_typed p → policy_valid p →
  (∀ n, n ∈ candidates → is_available n = true → usable n) →
  existsb is_available candidates = true →
  ∃ n s, select p candidates = Ok n ∧ n ∈ candidates ∧ is_available n = true ∧
    score p (measurements n) = Ok s ∧
    ∀ n' s', n' ∈ candidates → is_available n' = true →
      score p (measurements n') = Ok s' → outranks (n, s) (n', s').
Proof.
  intros Hp Hv Hu He. rewrite available_exists in He.
  assert (∀ n, n ∈ candidates → is_available n = true →
    score p (measurements n) = Ok (ideal_score p (measurements n))) as Hsc.
  { intros n Hn Ha. destruct (Hu n Hn Ha) as (Hav & Ht & Hl). by apply score_exact. }
  destruct (List.filter is_available candidates) as [|first rest] eqn:Hf; [done|].
  destruct (select_scored p candidates first rest Hf Hp Hv Hu) as (n & Hn & Hin & Hbest).
  rewrite <-Hf in *. apply elem_of_available in Hin as [Hin Ha].
  exists n, (ideal_score p (measurements n)). split_and!; [done..|auto|].
  intros n' s' Hn' Ha' Hs'. rewrite Hsc in Hs' by done. simplify_eq.
  apply Hbest. by apply elem_of_available.
Qed.

Lemma select_optimal_witness :
  ∃ n s, select default_routing_policy
      [mkNode "node-b" (mkMeasurements true 50 5 0 100);
       mkNode "node-a" (mkMeasurements true 50 5 0 100);
       mkNode "down" (mkMeasurements false 1 0 0 900)] = Ok n ∧
    score default_routing_policy (measurements n) = Ok s.
Proof.
  destruct (select_optimal default_routing_policy
    [mkNode "node-b" (mkMeasurements true 50 5 0 100);
     mkNode "node-a" (mkMeasurements true 50 5 0 100);
     mkNode "down" (mkMeasurements false 1 0 0 900)]) as (n & s & Hn & _ & _ & Hs & _).
  - apply default_policy_typed.
  - apply default_policy_valid.
  - intros n Hn Ha. unfold usable, measurements_typed, fits.
    repeat (apply elem_of_cons in Hn as [-> | Hn]; [cbn in *; repeat split; (done || lia)|]).
    by apply not_elem_of_nil in Hn.
  - reflexivity.
  - exists n, s. done.
Defined.

(** Selection is deterministic: listing the same candidates in another
    order gives the same answer, errors included, as long as no two available
    candidates share an identifier. *)
Theorem select_permutation p c1 c2 :
  policy_typed p → c1 ≡ₚ c2 →
  (∀ n, n ∈ c1 → measurements_typed (measurements n)) →
  (∀ n n', n ∈ c1 → n' ∈ c1 → is_available n = true → is_available n' = true →
     node_id n = node_id n' → n = n') →
  select p c1 = select p c2.
Proof.
  intros Hp Hperm Ht Hid. destruct (decide (policy_valid p)) as [Hv|Hv].
  2: { destruct (select_invalid_policy p Hp Hv) as [r Hr].
       by rewrite !Hr, (available_permutation c1 c2). }
  destruct (existsb is_available c1) eqn:He1.
  2: { pose proof He1 as He2. rewrite (available_permutation c1 c2) in He2 by done.
       by rewrite !select_none_available. }
  pose proof He1 as He2. rewrite (available_permutation c1 c2) in He2 by done.
  assert (∀ n, n ∈ c2 → n ∈ c1) as Hsub by (intros n; by rewrite Hperm).
  destruct (existsb (λ n, is_available n && (10000 <? packet_loss_basis_points (measurements n))) c1)
    eqn:Hex.
  - apply existsb_exists in Hex as (bad & Hin & [Ha Hl%Z.ltb_lt]%andb_true_iff).
    apply list_elem_of_In in Hin.
    rewrite (select_excessive p c1), (select_excessive p c2); [done|..]; eauto.
    exists bad. by rewrite <-Hperm.
  - assert (∀ n, n ∈ c1 → is_available n = true → usable n) as Hu.
    { intros n Hn Ha. split_and!; [done|auto|]. apply Z.nlt_ge. intros Hl%Z.ltb_lt.
      apply not_true_iff_false in Hex. apply Hex, existsb_exists. exists n.
      rewrite <-list_elem_of_In, Ha, Hl. done. }
    rewrite available_exists in He1, He2.
    destruct (List.filter is_available c1) as [|f1 r1] eqn:Hf1; [done|].
    destruct (List.filter is_available c2) as [|f2 r2] eqn:Hf2; [done|].
    destruct (select_scored p c1 f1 r1 Hf1 Hp Hv Hu) as (n1 & -> & Hin1 & Hb1).
    destruct (select_scored p c2 f2 r2 Hf2 Hp Hv) as (n2 & -> & Hin2 & Hb2); [by auto|].
    rewrite <-Hf1 in Hin1, Hb1. rewrite <-Hf2 in Hin2, Hb2.
    pose proof Hin1 as [H1 A1]%elem_of_available. pose proof Hin2 as [H2 A2]%elem_of_available.
    destruct (outranks_antisym _ _ (Hb1 n2 (proj2 (elem_of_available _ _) (conj (Hsub _ H2) A2)))
      (Hb2 n1 ltac:(apply elem_of_available; by rewrite <-Hperm))) as [_ Hids].
    f_equal. apply Hid; auto.
Qed.

Lemma select_permutation_witness :
  select default_routing_policy
    [mkNode "b" (mkMeasurements true 50 5 0 100); mkNode "a" (mkMeasurements true 50 5 0 100)] =
  select default_routing_policy
    [mkNode "a" (mkMeasurements true 50 5 0 100); mkNode "b" (mkMeasurements true 50 5 0 100)].
Proof.
  apply select_permutation.
  - apply default_policy_typed.
  - apply Permutation_swap.
  - intros n Hn. unfold measurements_typed, fits.
    repeat (apply elem_of_cons in Hn as [-> | Hn]; [cbn; lia|]). by apply not_elem_of_nil in Hn.
  - intros n n' Hn Hn' _ _.
    repeat (apply elem_of_cons in Hn as [-> | Hn]); repeat (apply elem_of_cons in Hn' as [-> | Hn']);
      (done || by apply not_elem_of_nil in Hn || by apply not_elem_of_nil in Hn').
Defined.
