(* ===== verification/Backoff.v ===== *)
(** Reconnect backoff: [core/routing/src/backoff.rs].

    [delay] doubles an initial delay per attempt, clamps it to a maximum and
    spreads it over a symmetric jitter interval.  The theorems give the exact
    delay, its bounds, the absence of overflow panics and its monotonicity. *)

From S2P Require Import Prelude Machine.
Open Scope string_scope.
Open Scope Z_scope.

Definition BASIS_POINTS : Z := 10000.
Definition MAXIMUM_POLICY_DELAY : Z := from_secs 3600.

Record BackoffPolicy := mkBackoff {
  initial_delay : Z;
  maximum_delay : Z;
  maximum_attempts : Z;
  jitter_basis_points : Z;
}.

Inductive BackoffError := InvalidBackoffPolicy | InvalidEntropySample.

Definition display_backoff_error (e : BackoffError) : string :=
  match e with
  | InvalidBackoffPolicy => "invalid reconnect backoff policy"
  | InvalidEntropySample => "entropy sample must be between 0 and 10000"
  end.

Definition validate_backoff (p : BackoffPolicy) : Result BackoffError unit :=
  reject_if ((initial_delay p =? 0) || (maximum_delay p <? initial_delay p)
             || (MAXIMUM_POLICY_DELAY <? maximum_delay p)
             || (maximum_attempts p =? 0) || (32 <? maximum_attempts p)
             || (5000 <? jitter_basis_points p))
    InvalidBackoffPolicy.

Definition delay (p : BackoffPolicy) (attempt entropy_sample : Z) :
    Result BackoffError (option Z) :=
  validate_backoff p;;
  if 10000 <? entropy_sample then Err InvalidEntropySample else
  if maximum_attempts p <=? attempt then Ok None else
  let multiplier := default (umax 32) (checked_shl 32 1 attempt) in
  let base :=
    Z.min (default (maximum_delay p) (duration_checked_mul (initial_delay p) multiplier))
      (maximum_delay p) in
  low ← u_sub 128 BASIS_POINTS (jitter_basis_points p);
  twice ← u_mul 128 2 (jitter_basis_points p);
  scaled ← u_mul 128 twice entropy_sample;
  spread ← u_div scaled BASIS_POINTS;
  factor ← u_add 128 low spread;
  product ← u_mul 128 base factor;
  jittered_nanos ← u_div product BASIS_POINTS;
  let bounded_nanos := Z.min jittered_nanos (maximum_delay p) in
  Ok (Some (default (umax 64) (try_from 64 bounded_nanos))).

(** ** Specification vocabulary *)

Definition backoff_typed (p : BackoffPolicy) : Prop :=
  duration (initial_delay p) ∧ duration (maximum_delay p) ∧
  u32 (maximum_attempts p) ∧ u16 (jitter_basis_points p).

Definition backoff_valid (p : BackoffPolicy) : Prop :=
  0 < initial_delay p ≤ maximum_delay p ∧ maximum_delay p ≤ MAXIMUM_POLICY_DELAY ∧
  0 < maximum_attempts p ≤ 32 ∧ jitter_basis_points p ≤ 5000.

(** The exponential delay without jitter. *)
Definition ideal_base (p : BackoffPolicy) (attempt : Z) : Z :=
  Z.min (initial_delay p * 2 ^ attempt) (maximum_delay p).

(** The jitter factor in basis points, [10000 - j] to [10000 + j]. *)
Definition ideal_factor (p : BackoffPolicy) (sample : Z) : Z :=
  BASIS_POINTS - jitter_basis_points p + 2 * jitter_basis_points p * sample / BASIS_POINTS.

Definition ideal_delay (p : BackoffPolicy) (attempt sample : Z) : Z :=
  Z.min (ideal_base p attempt * ideal_factor p sample / BASIS_POINTS) (maximum_delay p).

#[export] Instance backoff_valid_dec p : Decision (backoff_valid p).
Proof. unfold backoff_valid. apply _. Defined.

(** ** Lemmas *)

Lemma validate_backoff_spec p :
  backoff_typed p →
  validate_backoff p = if decide (backoff_valid p) then Ok tt else Err InvalidBackoffPolicy.
Proof.
  intros (Hi & Hm & Ha & Hj). unfold validate_backoff, reject_if.
  case_match eqn:Hb; case_decide as Hv; try done; exfalso;
    unfold backoff_valid, duration, fits in *; lia.
Qed.

Lemma shl_one_pow s : 0 ≤ s < 32 → checked_shl 32 1 s = Some (2 ^ s).
Proof.
  intros Hs. unfold checked_shl. rewrite (proj2 (Z.ltb_lt _ _)) by lia.
  f_equal. rewrite Z.shiftl_1_l. unfold umax.
  replace (2 ^ 32 - 1) with (Z.ones 32) by reflexivity.
  rewrite Z.land_ones by lia. apply Z.mod_small. split; [lia|].
  apply Z.pow_lt_mono_r; lia.
Qed.

Lemma base_exact p attempt :
  backoff_typed p → backoff_valid p → 0 ≤ attempt < maximum_attempts p →
  Z.min (default (maximum_delay p) (duration_checked_mul (initial_delay p)
    (default (umax 32) (checked_shl 32 1 attempt)))) (maximum_delay p) = ideal_base p attempt.
Proof.
  intros (Hi & Hm & _) Hv Ha. pose proof Hv as (? & ? & ? & ?).
  rewrite shl_one_pow by lia. cbn [default from_option].
  assert (0 < 2 ^ attempt ≤ 2 ^ 31) as Hp.
  { split; [lia|]. apply Z.pow_le_mono_r; lia. }
  unfold duration_checked_mul, ideal_base.
  rewrite (proj2 (Z.ltb_lt _ _)); [done|].
  apply Z.le_lt_trans with (MAXIMUM_POLICY_DELAY * 2 ^ 31); [|reflexivity].
  destruct Hp as [Hp1 Hp2]. apply Z.mul_le_mono_nonneg; [lia|lia|by apply Z.lt_le_incl|done].
Qed.

Lemma factor_range p sample :
  backoff_typed p → backoff_valid p → 0 ≤ sample ≤ 10000 →
  0 ≤ 2 * jitter_basis_points p * sample / BASIS_POINTS ≤ 2 * jitter_basis_points p.
Proof.
  intros (_ & _ & _ & Hj) Hv Hs. unfold BASIS_POINTS, fits in *.
  split; [apply Z.div_pos; nia|]. apply Z.div_le_upper_bound; nia.
Qed.

Lemma ideal_base_range p attempt :
  backoff_typed p → backoff_valid p → 0 ≤ attempt →
  0 < ideal_base p attempt ≤ maximum_delay p.
Proof.
  intros _ (? & ? & ? & ?) Ha. unfold ideal_base.
  assert (0 < 2 ^ attempt) by lia. split; [|lia]. apply Z.min_glb_lt; nia.
Qed.

Lemma delay_exact p attempt sample :
  backoff_typed p → backoff_valid p → 0 ≤ attempt < maximum_attempts p →
  0 ≤ sample ≤ 10000 →
  delay p attempt sample = Ok (Some (ideal_delay p attempt sample)) ∧
  0 ≤ ideal_delay p attempt sample ≤ maximum_delay p.
Proof.
  intros Ht Hv Ha Hs. pose proof (factor_range p sample Ht Hv Hs) as Hf.
  pose proof (ideal_base_range p attempt Ht Hv (proj1 Ha)) as Hb.
  unfold delay. rewrite validate_backoff_spec, decide_True by done. run.
  rewrite (proj2 (Z.ltb_ge _ _)), (proj2 (Z.leb_gt _ _)) by lia.
  rewrite base_exact by done. unfold ideal_delay, ideal_factor.
  destruct Ht as (_ & _ & _ & Hj). destruct Hv as (Hi & Hm & Hn & Hj').
  unfold u_sub, u_mul, u_add, BASIS_POINTS, MAXIMUM_POLICY_DELAY, from_secs, nanos_per_sec in *.
  rewrite checked_ok by in_range. run.
  rewrite checked_ok by in_range. run.
  rewrite checked_ok by in_range. run. rewrite u_div_ok by lia. run.
  rewrite checked_ok by in_range. run.
  set (f := 10000 - _ + _) in *. assert (0 ≤ f ≤ 15000) by in_range. clearbody f.
  rewrite checked_ok by in_range. run. rewrite u_div_ok by lia. run.
  assert (0 ≤ ideal_base p attempt * f / 10000) by (apply Z.div_pos; nia).
  rewrite try_from_fits by (unfold fits; lia). run. split; [done|lia].
Qed.

Lemma ideal_base_monotone p a a' :
  backoff_valid p → 0 ≤ a ≤ a' → ideal_base p a ≤ ideal_base p a'.
Proof.
  intros (? & _) Ha. unfold ideal_base. apply Z.min_le_compat_r.
  apply Z.mul_le_mono_nonneg_l; [lia|]. apply Z.pow_le_mono_r; lia.
Qed.

Lemma ideal_factor_monotone p s s' :
  backoff_typed p → 0 ≤ s ≤ s' → ideal_factor p s ≤ ideal_factor p s'.
Proof.
  intros (_ & _ & _ & Hj) Hs. unfold ideal_factor, BASIS_POINTS, fits in *.
  apply Z.add_le_mono_l, Z.div_le_mono; nia.
Qed.

Lemma delay_some_inv p a s d :
  backoff_typed p → delay p a s = Ok (Some d) →
  backoff_valid p ∧ a < maximum_attempts p ∧ s ≤ 10000.
Proof.
  intros Ht. unfold delay. rewrite validate_backoff_spec by done.
  case_decide as Hv; cbn; [|done]. case_match eqn:He; [done|]. case_match eqn:Hn; [done|].
  intros _. apply Z.ltb_ge in He. by apply Z.leb_gt in Hn.
Qed.

(** A valid policy used by the witnesses: 1 s doubling up to 60 s, 20 % jitter. *)
Definition sample_backoff : BackoffPolicy :=
  mkBackoff (from_secs 1) (from_secs 60) 10 2000.

Lemma sample_backoff_typed : backoff_typed sample_backoff.
Proof. repeat split; (discriminate || reflexivity). Qed.

(** ** Theorems *)

(** C36: [delay] never panics and its outcome is decided by the inputs alone: an
    invalid policy and an entropy sample above 10,000 are errors, an exhausted
    attempt count is [None], and otherwise the delay is exactly the jittered
    exponential, between [base * (1 - j)] and [base * (1 + j)] and never above
    the configured maximum. *)
Theorem delay_total p attempt sample :
  backoff_typed p → u32 attempt → u16 sample →
  match delay p attempt sample with
  | Ok (Some d) =>
      backoff_valid p ∧ sample ≤ 10000 ∧ attempt < maximum_attempts p ∧
      d = ideal_delay p attempt sample ∧ 0 ≤ d ≤ maximum_delay p ∧
      Z.min (maximum_delay p)
        (ideal_base p attempt * (BASIS_POINTS - jitter_basis_points p) / BASIS_POINTS) ≤ d ∧
      d ≤ ideal_base p attempt * (BASIS_POINTS + jitter_basis_points p) / BASIS_POINTS
  | Ok None => backoff_valid p ∧ sample ≤ 10000 ∧ maximum_attempts p ≤ attempt
  | Err InvalidBackoffPolicy => ¬ backoff_valid p
  | Err InvalidEntropySample => backoff_valid p ∧ 10000 < sample
  | Panic => False
  end.
Proof.
  intros Ht Ha Hs. destruct (decide (backoff_valid p)) as [Hv|Hv].
  2: { unfold delay. rewrite validate_backoff_spec, decide_False by done. done. }
  destruct (decide (10000 < sample)) as [Hx|Hx].
  { unfold delay. rewrite validate_backoff_spec, decide_True by done. cbn.
    by rewrite (proj2 (Z.ltb_lt _ _)). }
  destruct (decide (maximum_attempts p ≤ attempt)) as [Hm|Hm].
  { unfold delay. rewrite validate_backoff_spec, decide_True by done. cbn.
    rewrite (proj2 (Z.ltb_ge _ _)), (proj2 (Z.leb_le _ _)) by lia. split_and!; [done|lia..]. }
  unfold fits in Ha, Hs.
  destruct (delay_exact p attempt sample) as [-> Hr]; [done|done|lia|lia|].
  pose proof (factor_range p sample Ht Hv ltac:(lia)) as Hf.
  pose proof (ideal_base_range p attempt Ht Hv ltac:(lia)) as Hb.
  destruct Ht as (_ & _ & _ & Hj). unfold ideal_delay, ideal_factor, BASIS_POINTS, fits in *.
  split_and!; try done; try lia.
  - rewrite Z.min_comm. apply Z.min_le_compat_r, Z.div_le_mono; nia.
  - etransitivity; [apply Z.le_min_l|]. apply Z.div_le_mono; nia.
Qed.

Lemma delay_total_witness :
  match delay sample_backoff 3 5000 with
  | Ok (Some d) => d = ideal_delay sample_backoff 3 5000 ∧ d = from_secs 8
  | _ => False
  end.
Proof.
  pose proof (delay_total sample_backoff 3 5000 sample_backoff_typed) as H.
  specialize (H ltac:(unfold fits; lia) ltac:(unfold fits; lia)).
  change (delay sample_backoff 3 5000) with (Ok (E:=BackoffError) (Some (from_secs 8))) in *.
  destruct H as (_ & _ & _ & H & _). split; [exact H|reflexivity].
Defined.

(** The midpoint entropy sample yields the pure exponential schedule
    [min (initial * 2^attempt) maximum]. *)
Theorem delay_midpoint p attempt :
  backoff_typed p → backoff_valid p → 0 ≤ attempt < maximum_attempts p →
  delay p attempt 5000 =
    Ok (Some (Z.min (initial_delay p * 2 ^ attempt) (maximum_delay p))).
Proof.
  intros Ht Hv Ha. destruct (delay_exact p attempt 5000) as [-> _]; [done..|lia|].
  pose proof (ideal_base_range p attempt Ht Hv (proj1 Ha)) as Hb.
  unfold ideal_delay, ideal_factor, BASIS_POINTS.
  replace (2 * jitter_basis_points p * 5000) with (jitter_basis_points p * 10000) by lia.
  rewrite Z.div_mul by lia.
  replace (10000 - jitter_basis_points p + jitter_basis_points p) with 10000 by lia.
  rewrite Z.div_mul by lia. unfold ideal_base in *. do 2 f_equal. lia.
Qed.

Lemma delay_midpoint_witness : delay sample_backoff 9 5000 = Ok (Some (from_secs 60)).
Proof.
  rewrite (delay_midpoint sample_backoff 9 sample_backoff_typed); [reflexivity| |cbn; lia].
  apply (bool_decide_unpack _). reflexivity.
Defined.

(** Later attempts and larger samples never shorten the delay. *)
Theorem delay_monotone p a a' s s' d d' :
  backoff_typed p → 0 ≤ a ≤ a' → 0 ≤ s ≤ s' →
  delay p a s = Ok (Some d) → delay p a' s' = Ok (Some d') → d ≤ d'.
Proof.
  intros Ht Ha Hs Hd Hd'.
  pose proof (delay_some_inv p a s d Ht Hd) as (Hv & ? & ?).
  pose proof (delay_some_inv p a' s' d' Ht Hd') as (_ & ? & ?).
  destruct (delay_exact p a s) as [He Hr]; [done|done|lia|lia|].
  destruct (delay_exact p a' s') as [He' _]; [done|done|lia|lia|].
  rewrite He in Hd. rewrite He' in Hd'. simplify_eq.
  pose proof (ideal_base_monotone p a a' Hv ltac:(lia)).
  pose proof (ideal_factor_monotone p s s' Ht ltac:(lia)).
  pose proof (ideal_base_range p a Ht Hv ltac:(lia)).
  pose proof (factor_range p s' Ht Hv ltac:(lia)).
  unfold ideal_delay. apply Z.min_le_compat_r, Z.div_le_mono; [unfold BASIS_POINTS; lia|].
  apply Z.mul_le_mono_nonneg; [lia|done| |done].
  destruct Ht as (_ & _ & _ & Hj), Hv as (_ & _ & _ & Hj').
  pose proof (Z.div_pos (2 * jitter_basis_points p * s) BASIS_POINTS).
  unfold ideal_factor, BASIS_POINTS, fits in *. nia.
Qed.

Lemma delay_monotone_witness :
  delay sample_backoff 0 0 = Ok (Some 800000000) ∧
  delay sample_backoff 1 10000 = Ok (Some 2400000000) ∧ 800000000 ≤ 2400000000.
Proof.
  split; [reflexivity|]. split; [reflexivity|].
  apply (delay_monotone sample_backoff 0 1 0 10000 _ _ sample_backoff_typed);
    [lia|lia|reflexivity|reflexivity].
Defined.
