(* ===== verification/Selector.v ===== *)
(** The stateful route selector: [core/routing/src/selector.rs].

    [RouteSelector] adds two stability controls to stateless scoring: a
    per-node circuit breaker and hysteresis (dwell time and improvement
    margin).  The circuit map is refined by the sequence of reported outcomes;
    the selection theorems state what a returned route guarantees and when a
    healthy current route may be replaced. *)

From S2P Require Import Prelude Machine Routing.
Open Scope string_scope.
Open Scope Z_scope.

Record SelectionPolicy := mkSelection {
  minimum_dwell_time : Z;
  switch_margin : Z;
  failure_threshold : Z;
  circuit_cooldown : Z;
}.

Definition default_selection_policy : SelectionPolicy :=
  mkSelection (from_secs 30) 500 3 (from_secs 60).

Record CircuitState := mkCircuit {
  consecutive_failures : Z;
  open_until : option Z;
}.

Record RouteSelector := mkSelector {
  scoring : RoutingPolicy;
  stability : SelectionPolicy;
  current : option (string * Z);
  circuits : gmap string CircuitState;
}.

Definition selector_new (scoring : RoutingPolicy) (stability : SelectionPolicy) : RouteSelector :=
  mkSelector scoring stability None ∅.

Definition set_current (c : option (string * Z)) (s : RouteSelector) : RouteSelector :=
  mkSelector (scoring s) (stability s) c (circuits s).

Definition set_circuits (m : gmap string CircuitState) (s : RouteSelector) : RouteSelector :=
  mkSelector (scoring s) (stability s) (current s) m.

Definition circuit_is_open (s : RouteSelector) (id : string) (now : Z) : bool :=
  match circuits s !! id ≫= open_until with
  | Some until => now <? until
  | None => false
  end.

Definition find_candidate (candidates : list NodeCandidate) (id : string) :
    option NodeCandidate :=
  List.find (λ c, String.eqb (node_id c) id) candidates.

(** The hysteresis block: the current route is kept when it is eligible and
    either still dwelling or not beaten by the margin. *)
Definition keep_current (s : RouteSelector) (candidates : list NodeCandidate) (now : Z)
    (best : NodeCandidate) : Result RoutingError (option NodeCandidate) :=
  match current s with
  | None => Ok None
  | Some (current_id, selected_at) =>
      match find_candidate candidates current_id with
      | None => Ok None
      | Some cur =>
          if available (measurements cur) && negb (circuit_is_open s current_id now) then
            let dwell_elapsed :=
              minimum_dwell_time (stability s) <=? saturating_duration_since now selected_at in
            current_score ← score (scoring s) (measurements cur);
            best_score ← score (scoring s) (measurements best);
            let enough_improvement :=
              saturating_add 32 current_score (switch_margin (stability s)) <=? best_score in
            Ok (if negb dwell_elapsed || negb enough_improvement then Some cur else None)
          else Ok None
      end
  end.

Definition selector_select (candidates : list NodeCandidate) (now : Z) :
    Act RouteSelector RoutingError NodeCandidate :=
  s ← read (λ s, s);
  let eligible := List.filter (λ c, negb (circuit_is_open s (node_id c) now)) candidates in
  chosen ← lift (select (scoring s) eligible);
  best ← lift (ok_or (find_candidate candidates (node_id chosen)) NoAvailableNodes);
  kept ← lift (keep_current s candidates now best);
  match kept with
  | Some cur => mret cur
  | None =>
      (if decide (fst <$> current s = Some (node_id best)) then mret tt
       else update (set_current (Some (node_id best, now))));;
      mret best
  end.

Definition record_failure (id : string) (now : Z) (s : RouteSelector) : RouteSelector :=
  let state := default (mkCircuit 0 None) (circuits s !! id) in
  let failures := saturating_add 32 (consecutive_failures state) 1 in
  let until :=
    if failure_threshold (stability s) <=? failures
    then instant_checked_add now (circuit_cooldown (stability s))
    else open_until state in
  set_circuits (<[id := mkCircuit failures until]> (circuits s)) s.

Definition record_success (id : string) (s : RouteSelector) : RouteSelector :=
  set_circuits (delete id (circuits s)) s.

(** ** Specification of the circuit breaker *)

(** One reported outcome, and the state after a sequence of them (newest
    first). *)
Inductive Outcome := Failure (id : string) (at_ : Z) | Success (id : string).

Definition apply_outcome (o : Outcome) (s : RouteSelector) : RouteSelector :=
  match o with
  | Failure id t => record_failure id t s
  | Success id => record_success id s
  end.

Definition apply_outcomes (os : list Outcome) (s : RouteSelector) : RouteSelector :=
  foldr apply_outcome s os.

(** The failures of [id] since its last success, newest first. *)
Fixpoint failure_streak (id : string) (os : list Outcome) : list Z :=
  match os with
  | [] => []
  | Failure id' t :: os => if decide (id' = id) then t :: failure_streak id os else failure_streak id os
  | Success id' :: os => if decide (id' = id) then [] else failure_streak id os
  end.

(** What the breaker promises: a node is excluded while its failure streak has
    reached the threshold and the cooldown of the newest failure is running. *)
Definition spec_open (st : SelectionPolicy) (id : string) (os : list Outcome) (now : Z) : bool :=
  match failure_streak id os with
  | [] => false
  | newest :: _ =>
      (failure_threshold st <=? Z.min (umax 32) (Z.of_nat (length (failure_streak id os))))
      && (now <? newest + circuit_cooldown st)
  end.

(** The end of the cooldown of the newest failure is an [Instant]. *)
Definition cooldown_ends (st : SelectionPolicy) (id : string) (os : list Outcome) : bool :=
  match failure_streak id os with
  | [] => true
  | newest :: _ => newest + circuit_cooldown st <? 2 ^ 63 * nanos_per_sec
  end.

Definition streak_state (st : SelectionPolicy) (streak : list Z) : option CircuitState :=
  match streak with
  | [] => None
  | newest :: _ =>
      let n := Z.min (umax 32) (Z.of_nat (length streak)) in
      Some (mkCircuit n
        (if failure_threshold st <=? n then instant_checked_add newest (circuit_cooldown st) else None))
  end.

(** ** Lemmas *)

Lemma find_candidate_some candidates id n :
  find_candidate candidates id = Some n → n ∈ candidates ∧ node_id n = id.
Proof.
  unfold find_candidate. intros H. apply find_some in H as [H1 H2%String.eqb_eq].
  by rewrite list_elem_of_In.
Qed.

Lemma find_candidate_unique candidates n :
  (∀ n1 n2, n1 ∈ candidates → n2 ∈ candidates → node_id n1 = node_id n2 → n1 = n2) →
  n ∈ candidates → find_candidate candidates (node_id n) = Some n.
Proof.
  intros Hu Hn. destruct (find_candidate candidates (node_id n)) as [n'|] eqn:Hf.
  - apply find_candidate_some in Hf as [Hn' Hid]. f_equal. by apply Hu.
  - unfold find_candidate in Hf. rewrite list_elem_of_In in Hn.
    pose proof (find_none _ _ Hf _ Hn) as Hx. cbn in Hx. by rewrite String.eqb_refl in Hx.
Qed.

Lemma find_candidate_exists candidates n :
  n ∈ candidates → ∃ x, find_candidate candidates (node_id n) = Some x.
Proof.
  intros Hn. destruct (find_candidate candidates (node_id n)) as [x|] eqn:Hf; [by eauto|].
  unfold find_candidate in Hf. rewrite list_elem_of_In in Hn.
  pose proof (find_none _ _ Hf _ Hn) as Hx. cbn in Hx. by rewrite String.eqb_refl in Hx.
Qed.

Lemma record_failure_other id id' t s :
  id ≠ id' → circuits (record_failure id t s) !! id' = circuits s !! id'.
Proof. intros. unfold record_failure. cbn. by rewrite lookup_insert_ne. Qed.

Lemma apply_outcomes_stability os s : stability (apply_outcomes os s) = stability s.
Proof. induction os as [|[|] os IH]; cbn; done. Qed.

Lemma streak_state_failure st t streak :
  let old := default (mkCircuit 0 None) (streak_state st streak) in
  let failures := saturating_add 32 (consecutive_failures old) 1 in
  Some (mkCircuit failures
    (if failure_threshold st <=? failures
     then instant_checked_add t (circuit_cooldown st) else open_until old)) =
  streak_state st (t :: streak).
Proof.
  cbn zeta. unfold saturating_add.
  replace (Z.min (umax 32) (consecutive_failures (default (mkCircuit 0 None)
      (streak_state st streak)) + 1))
    with (Z.min (umax 32) (Z.of_nat (length (t :: streak)))).
  2: { destruct streak; simpl; unfold umax; lia. }
  unfold streak_state.
  destruct (failure_threshold st <=? _) eqn:Hth; [done|].
  destruct streak as [|t0 streak]; [done|].
  simpl in *. unfold umax.
  rewrite (proj2 (Z.leb_gt _ _)); [done|]. apply Z.leb_gt in Hth. unfold umax in Hth. lia.
Qed.

Lemma circuits_refine sc st os id :
  circuits (apply_outcomes os (selector_new sc st)) !! id = streak_state st (failure_streak id os).
Proof.
  induction os as [|[id' t|id'] os IH]; cbn [apply_outcomes foldr apply_outcome failure_streak].
  { apply lookup_empty. }
  - change (foldr apply_outcome _ os) with (apply_outcomes os (selector_new sc st)).
    case_decide as Hid; [subst id'|by rewrite record_failure_other].
    unfold record_failure. rewrite apply_outcomes_stability. cbn [circuits set_circuits].
    rewrite lookup_insert_eq, IH. apply streak_state_failure.
  - change (foldr apply_outcome _ os) with (apply_outcomes os (selector_new sc st)).
    cbn. case_decide as Hid; [subst id'; by rewrite lookup_delete_eq|by rewrite lookup_delete_ne].
Qed.

Definition eligible_candidates (s : RouteSelector) (candidates : list NodeCandidate) (now : Z) :
    list NodeCandidate :=
  List.filter (λ c, negb (circuit_is_open s (node_id c) now)) candidates.

Lemma selector_select_cases candidates now s r s' :
  selector_select candidates now s = (r, s') →
  (s' = s ∧ ∀ n, r ≠ Ok n) ∨
  ∃ chosen best,
    select (scoring s) (eligible_candidates s candidates now) = Ok chosen ∧
    find_candidate candidates (node_id chosen) = Some best ∧
    ((∃ cur, keep_current s candidates now best = Ok (Some cur) ∧ r = Ok cur ∧ s' = s) ∨
     (keep_current s candidates now best = Ok None ∧ r = Ok best ∧
      s' = if decide (fst <$> current s = Some (node_id best)) then s
           else set_current (Some (node_id best, now)) s)).
Proof.
  unfold selector_select. run. fold (eligible_candidates s candidates now).
  destruct (select _ _) as [chosen|e|]; [|intros [= <- <-]; by left..]. run.
  destruct (find_candidate _ _) as [best|] eqn:Hf; [|intros [= <- <-]; by left]. run.
  destruct (keep_current s candidates now best) as [[cur|]|e|] eqn:Hk;
    [| |intros [= <- <-]; by left..].
  - intros [= <- <-]. right. exists chosen, best. split_and!; eauto.
  - run. case_decide as Hd; run; intros [= <- <-]; right; exists chosen, best;
      (split_and!; [done|done|right]); by rewrite ?decide_True, ?decide_False by done.
Qed.

Lemma keep_current_inv s candidates now best cur :
  keep_current s candidates now best = Ok (Some cur) →
  ∃ id t, current s = Some (id, t) ∧ find_candidate candidates id = Some cur ∧
    available (measurements cur) = true ∧ circuit_is_open s id now = false.
Proof.
  unfold keep_current. destruct (current s) as [[id t]|]; [|done].
  destruct (find_candidate candidates id) as [c|] eqn:Hf; [|done].
  destruct (available (measurements c)) eqn:Ha; [|done].
  destruct (circuit_is_open s id now) eqn:Ho; [done|]. cbn [andb negb]. run.
  destruct (score (scoring s) (measurements c)); [|done..].
  destruct (score (scoring s) (measurements best)); [|done..].
  case_match; intros; simplify_eq. eauto 10.
Qed.

Lemma select_result p candidates n :
  select p candidates = Ok n → n ∈ candidates ∧ is_available n = true.
Proof.
  intros H. cut (n ∈ List.filter is_available candidates); [by rewrite elem_of_available|].
  revert H. unfold select. destruct (List.filter is_available candidates) as [|f rest]; [done|].
  unfold rank at 1. destruct (score p (measurements f)) as [sf| |]; run; [|done..].
  assert (∀ best l w, select_loop p best l = Ok w → w.1 ∈ best.1 :: l) as Hloop.
  { intros best l. revert best. induction l as [|x l IH]; cbn; intros best w.
    - intros [= ->]. set_solver.
    - unfold rank. destruct (score p (measurements x)) as [sx| |]; run; [|done..].
      intros Hw%IH. destruct (compare_rank _ _); set_solver. }
  destruct (select_loop p (f, sf) rest) as [w| |] eqn:Hw; run; [|done..].
  intros [= <-]. by apply Hloop in Hw.
Qed.

Lemma eligible_closed s candidates now n :
  n ∈ eligible_candidates s candidates now →
  n ∈ candidates ∧ circuit_is_open s (node_id n) now = false.
Proof.
  unfold eligible_candidates. rewrite !list_elem_of_In, filter_In, negb_true_iff. done.
Qed.

Lemma keep_current_none s candidates now best id t cur :
  keep_current s candidates now best = Ok None →
  current s = Some (id, t) → find_candidate candidates id = Some cur →
  available (measurements cur) = false ∨ circuit_is_open s id now = true ∨
  (minimum_dwell_time (stability s) ≤ saturating_duration_since now t ∧
   ∃ sc sb, score (scoring s) (measurements cur) = Ok sc ∧
     score (scoring s) (measurements best) = Ok sb ∧
     saturating_add 32 sc (switch_margin (stability s)) ≤ sb).
Proof.
  intros Hk Hc Hf. unfold keep_current in Hk. rewrite Hc, Hf in Hk.
  destruct (available (measurements cur)); [|by left].
  destruct (circuit_is_open s id now); [by right; left|]. right; right.
  cbn [andb negb] in Hk. run in Hk.
  destruct (score (scoring s) (measurements cur)) as [sc| |]; [|done..].
  destruct (score (scoring s) (measurements best)) as [sb| |]; [|done..].
  destruct (minimum_dwell_time _ <=? _) eqn:Hd; cbn in Hk; [|done].
  destruct (saturating_add 32 sc _ <=? sb) eqn:Hm; cbn in Hk; [|done].
  apply Z.leb_le in Hd. apply Z.leb_le in Hm. eauto 10.
Qed.

(** ** Types and totality *)

(** Nothing but the public operations happens to a selector. *)
Inductive selector_step : RouteSelector → RouteSelector → Prop :=
| step_select candidates now s r s' : selector_select candidates now s = (r, s') → selector_step s s'
| step_failure id now s : selector_step s (record_failure id now s)
| step_success id s : selector_step s (record_success id s).

(** A stored circuit counts at least one failure in 32 bits, and its end is an
    instant that can be represented. *)
Definition circuit_typed (c : CircuitState) : Prop :=
  1 ≤ consecutive_failures c ≤ umax 32 ∧
  ∀ t, open_until c = Some t → t < 2 ^ 63 * nanos_per_sec.

Definition selector_typed (s : RouteSelector) : Prop := map_Forall (λ _ c, circuit_typed c) (circuits s).

Lemma selector_step_typed s s' :
  selector_typed s → selector_step s s' →
  selector_typed s' ∧ scoring s' = scoring s ∧ stability s' = stability s.
Proof.
  intros Hs. destruct 1 as [candidates now s r s' Hrun|id now s|id s].
  - destruct (selector_select_cases _ _ _ _ _ Hrun) as [[-> _]|(chosen & best & _ & _ & [(cur & _ & _ & ->)|(_ & _ & ->)])];
      [done..|]. by case_decide.
  - split; [|done]. cbn. apply map_Forall_insert_2; [|done].
    assert (0 ≤ consecutive_failures (default (mkCircuit 0 None) (circuits s !! id)) ≤ umax 32 ∧
      ∀ t, open_until (default (mkCircuit 0 None) (circuits s !! id)) = Some t → t < 2 ^ 63 * nanos_per_sec) as [Hf Ho].
    { destruct (circuits s !! id) as [c|] eqn:Hc; cbn; [|by split; [unfold umax; lia|]].
      destruct (Hs id c Hc) as [Hf Ho]. split; [lia|done]. }
    split; cbn; [unfold saturating_add, umax in *; lia|]. intros t. case_match; [|apply Ho].
    unfold instant_checked_add. case_match eqn:Hlt; [|done]. intros [= <-]. by apply Z.ltb_lt.
  - split; [|done]. cbn. by apply map_Forall_delete.
Qed.

Lemma selector_steps_typed s s' :
  selector_typed s → rtc selector_step s s' →
  selector_typed s' ∧ scoring s' = scoring s ∧ stability s' = stability s.
Proof.
  intros Hs Hsteps. induction Hsteps as [|s s' s'' Hstep Hsteps IH]; [done|].
  destruct (selector_step_typed _ _ Hs Hstep) as (Ht & <- & <-). by apply IH.
Qed.

Lemma score_defined p m : policy_typed p → measurements_typed m → score p m ≠ Panic.
Proof.
  intros Hp Hm. destruct (decide (policy_valid p)) as [Hv|Hv].
  2: { by destruct (score_invalid_policy p m Hp Hv) as [reason ->]. }
  destruct (available m) eqn:Ha; [|by rewrite score_unavailable].
  destruct (decide (10000 < packet_loss_basis_points m)); [by rewrite score_excessive_loss|].
  by rewrite (proj1 (score_exact p m Hp Hv Hm Ha ltac:(lia))).
Qed.

Definition reportable (n : NodeCandidate) : Prop :=
  is_available n = true → packet_loss_basis_points (measurements n) ≤ 10000.

Lemma select_defined p candidates :
  policy_typed p → (∀ n, n ∈ candidates → measurements_typed (measurements n)) →
  select p candidates ≠ Panic ∧
  (policy_valid p → (∀ n, n ∈ candidates → reportable n) → (∃ n, n ∈ candidates ∧ is_available n = true) →
   ∃ n, select p candidates = Ok n).
Proof.
  intros Hp Ht. destruct (decide (policy_valid p)) as [Hv|Hv].
  2: { destruct (select_invalid_policy p Hp Hv) as [r ->]. done. }
  destruct (existsb is_available candidates) eqn:Hex.
  2: { rewrite select_none_available by done. split; [done|]. intros _ _ (n & Hn & Ha).
       apply not_true_iff_false in Hex. destruct Hex. apply existsb_exists. exists n. by rewrite <-list_elem_of_In. }
  destruct (decide (Exists (λ n, is_available n = true ∧ 10000 < packet_loss_basis_points (measurements n)) candidates))
    as [(bad & Hbad & Hb)%Exists_exists|Hok].
  { rewrite select_excessive by naive_solver. split; [done|]. intros _ Hr _.
    specialize (Hr bad Hbad). unfold reportable in Hr. naive_solver lia. }
  assert (∀ n, n ∈ candidates → is_available n = true → usable n) as Hu.
  { intros n Hn Ha. split_and!; [done|by apply Ht|]. apply Z.nlt_ge. intros Hl. apply Hok, Exists_exists. eauto. }
  rewrite available_exists in Hex. destruct (List.filter is_available candidates) as [|first rest] eqn:Hf; [done|].
  destruct (select_scored p candidates first rest Hf Hp Hv Hu) as (n & -> & _). eauto.
Qed.

Lemma keep_current_defined s candidates now best :
  policy_typed (scoring s) → (∀ n, n ∈ candidates → measurements_typed (measurements n)) → best ∈ candidates →
  keep_current s candidates now best ≠ Panic ∧
  (policy_valid (scoring s) → (∀ n, n ∈ candidates → reportable n) → ∃ o, keep_current s candidates now best = Ok o).
Proof.
  intros Hp Ht Hbest. unfold keep_current. destruct (current s) as [[id t]|]; [|by eauto].
  destruct (find_candidate candidates id) as [cur|] eqn:Hf; [|by eauto].
  apply find_candidate_some in Hf as [Hcur _]. destruct (available (measurements cur) && _); [|by eauto]. run.
  pose proof (score_defined (scoring s) (measurements cur) Hp (Ht _ Hcur)) as H1.
  pose proof (score_defined (scoring s) (measurements best) Hp (Ht _ Hbest)) as H2.
  assert (policy_valid (scoring s) → (∀ n, n ∈ candidates → reportable n) → ∀ n, n ∈ candidates →
    ∃ x, score (scoring s) (measurements n) = Ok x) as Hsc.
  { intros Hv Hr n Hn. destruct (available (measurements n)) eqn:Ha; [|rewrite score_unavailable by done; eauto].
    rewrite (proj1 (score_exact _ _ Hp Hv (Ht n Hn) Ha (Hr n Hn Ha))). eauto. }
  split.
  - destruct (score _ (measurements cur)); [|done..]. by destruct (score _ (measurements best)).
  - intros Hv Hr. destruct (Hsc Hv Hr cur Hcur) as [x ->], (Hsc Hv Hr best Hbest) as [y ->]. eauto.
Qed.

(** ** Theorems *)

(** C32: the circuit breaker implements its specification.  After every sequence
    of reported failures and successes a node's circuit is open exactly while its
    failures since its last success reach the threshold and the cooldown of the
    newest one has not run out, except that a cooldown whose end no [Instant]
    represents leaves it closed; reports about other nodes do not matter. *)
Theorem circuit_breaker_refines sc st os id now :
  circuit_is_open (apply_outcomes os (selector_new sc st)) id now = spec_open st id os now && cooldown_ends st id os.
Proof.
  unfold circuit_is_open, spec_open, cooldown_ends. rewrite circuits_refine.
  unfold streak_state, instant_checked_add. destruct (failure_streak id os) as [|t l]; [done|]. simpl.
  destruct (failure_threshold st <=? _); [|done]. by destruct (_ <? 2 ^ 63 * _), (now <? _).
Qed.

(** A cooldown that does not fit an [Instant] never opens the circuit, however
    many failures were recorded. *)
Lemma overflowing_cooldown_closes s id now now' :
  instant_checked_add now (circuit_cooldown (stability s)) = None →
  failure_threshold (stability s) ≤
    saturating_add 32 (consecutive_failures (default (mkCircuit 0 None) (circuits s !! id))) 1 →
  circuit_is_open (record_failure id now s) id now' = false.
Proof.
  intros Hnone Hreached. unfold circuit_is_open, record_failure. cbn [circuits set_circuits].
  by rewrite lookup_insert_eq, (proj2 (Z.leb_le _ _) Hreached), Hnone.
Qed.

(** A returned route comes from the candidate list, its circuit is closed,
    it becomes the current route and nothing else in the selector changes; when
    identifiers are unique it is available.  A failed selection leaves the
    selector untouched. *)
Theorem selector_select_safe candidates now s r s' :
  selector_select candidates now s = (r, s') →
  match r with
  | Ok n =>
      n ∈ candidates ∧ circuit_is_open s (node_id n) now = false ∧
      fst <$> current s' = Some (node_id n) ∧
      s' = set_current (current s') s ∧
      ((∀ n1 n2, n1 ∈ candidates → n2 ∈ candidates → node_id n1 = node_id n2 → n1 = n2) →
       is_available n = true)
  | _ => s' = s
  end.
Proof.
  intros [[-> Hr]|(chosen & best & Hsel & Hfind & Hres)]%selector_select_cases.
  { destruct r; [by destruct (Hr a)|done..]. }
  apply select_result in Hsel as [Hin Hav]. apply eligible_closed in Hin as [Hin Hopen].
  pose proof (find_candidate_some _ _ _ Hfind) as [Hbin Hbid].
  destruct Hres as [(cur & Hk & -> & ->)|(Hk & -> & ->)].
  - destruct (keep_current_inv _ _ _ _ _ Hk) as (id & t & Hc & Hf & Ha & Ho).
    pose proof (find_candidate_some _ _ _ Hf) as [Hcin <-].
    rewrite Hc. split_and!; try done. destruct s; cbn in *; by subst.
  - split_and!; [done|by rewrite Hbid| | |].
    + case_decide; done.
    + case_decide as Hd; [destruct s; done|done].
    + intros Hu. rewrite (find_candidate_unique candidates chosen) in Hfind by done. by simplify_eq.
Qed.

Definition sample_selector : RouteSelector :=
  mkSelector default_routing_policy default_selection_policy (Some ("a", 0)) ∅.

Definition sample_node (id : string) (latency : Z) : NodeCandidate :=
  mkNode id (mkMeasurements true latency 5 0 100).

Lemma selector_select_safe_witness :
  ∃ n s', selector_select [sample_node "a" 200; sample_node "b" 10] (from_secs 31) sample_selector
    = (Ok n, s') ∧ n = sample_node "b" 10 ∧ fst <$> current s' = Some (node_id n).
Proof.
  eexists _, _. split; [vm_compute; reflexivity|]. split; [reflexivity|].
  match goal with |- _ <$> current ?s' = Some (node_id ?n) =>
    pose proof (selector_select_safe [sample_node "a" 200; sample_node "b" 10] (from_secs 31)
      sample_selector (Ok n) s') as H end.
  apply H. vm_compute. reflexivity.
Defined.

(** A route switch is justified.  When the answer is not the current route,
    the current route was missing, unavailable or circuit-broken, or its dwell
    time had elapsed and the new route scores at least the margin above it; the
    dwell clock restarts at the switch. *)
Theorem selector_switch_justified candidates now s s' n id t :
  selector_select candidates now s = (Ok n, s') →
  current s = Some (id, t) → node_id n ≠ id →
  current s' = Some (node_id n, now) ∧
  match find_candidate candidates id with
  | None => True
  | Some cur =>
      available (measurements cur) = false ∨ circuit_is_open s id now = true ∨
      (minimum_dwell_time (stability s) ≤ saturating_duration_since now t ∧
       ∃ sc sb, score (scoring s) (measurements cur) = Ok sc ∧
         score (scoring s) (measurements n) = Ok sb ∧
         Z.min (umax 32) (sc + switch_margin (stability s)) ≤ sb)
  end.
Proof.
  intros Hsel Hc Hne.
  apply selector_select_cases in Hsel as [[_ Hr]|(chosen & best & _ & _ & Hres)]; [by destruct (Hr n)|].
  destruct Hres as [(cur & Hk & Hn & ->)|(Hk & Hn & ->)]; injection Hn as ->.
  - destruct (keep_current_inv _ _ _ _ _ Hk) as (id' & t' & Hc' & Hf & _).
    apply find_candidate_some in Hf as [_ Hf]. congruence.
  - split.
    + rewrite decide_False; [done|]. rewrite Hc. cbn. congruence.
    + destruct (find_candidate candidates id) as [cur|] eqn:Hf; [|done].
      exact (keep_current_none s candidates now best id t cur Hk Hc Hf).
Qed.

Lemma selector_switch_justified_witness :
  current (selector_select [sample_node "a" 200; sample_node "b" 10] (from_secs 31) sample_selector).2
  = Some ("b", from_secs 31).
Proof.
  pose proof (selector_switch_justified [sample_node "a" 200; sample_node "b" 10] (from_secs 31)
    sample_selector
    (selector_select [sample_node "a" 200; sample_node "b" 10] (from_secs 31) sample_selector).2
    (sample_node "b" 10) "a" 0) as H.
  apply H; [vm_compute; reflexivity|reflexivity|discriminate].
Defined.

(** An eligible current route is kept, and the selector left unchanged, for
    the whole dwell time, whatever the other candidates score. *)
Theorem selector_dwell candidates now s id t cur :
  policy_typed (scoring s) → policy_valid (scoring s) →
  (∀ n, n ∈ candidates → is_available n = true → usable n) →
  (∀ n1 n2, n1 ∈ candidates → n2 ∈ candidates → node_id n1 = node_id n2 → n1 = n2) →
  current s = Some (id, t) → find_candidate candidates id = Some cur →
  is_available cur = true → circuit_is_open s id now = false →
  saturating_duration_since now t < minimum_dwell_time (stability s) →
  selector_select candidates now s = (Ok cur, s).
Proof.
  intros Hp Hv Hu Huniq Hc Hf Ha Ho Hd.
  pose proof (find_candidate_some _ _ _ Hf) as [Hcin Hcid].
  assert (cur ∈ eligible_candidates s candidates now) as Hel.
  { unfold eligible_candidates. rewrite list_elem_of_In, filter_In, <-list_elem_of_In, Hcid, Ho. done. }
  destruct (List.filter is_available (eligible_candidates s candidates now)) as [|f rest] eqn:Hfil.
  { exfalso. assert (cur ∈ List.filter is_available (eligible_candidates s candidates now)) as Hx
      by (by apply elem_of_available). rewrite Hfil in Hx. set_solver. }
  destruct (select_scored (scoring s) _ f rest Hfil Hp Hv) as (chosen & Hsel & _ & _).
  { intros n [Hn _]%eligible_closed. auto. }
  pose proof (select_result _ _ _ Hsel) as [[Hch _]%eligible_closed Hcav].
  pose proof (find_candidate_unique candidates chosen Huniq Hch) as Hbest.
  destruct (Hu cur Hcin Ha) as (Ha1 & Ht1 & Hl1). destruct (Hu chosen Hch Hcav) as (Ha2 & Ht2 & Hl2).
  destruct (score_exact (scoring s) (measurements cur)) as [Hs1 _]; [done..|].
  destruct (score_exact (scoring s) (measurements chosen)) as [Hs2 _]; [done..|].
  unfold selector_select. run. fold (eligible_candidates s candidates now). rewrite Hsel, Hbest.
  unfold keep_current. rewrite Hc, Hf, Ho. unfold is_available in Ha. rewrite Ha. cbn [andb negb].
  run. rewrite Hs1, Hs2. by rewrite (proj2 (Z.leb_gt _ _)).
Qed.

Lemma selector_dwell_witness :
  selector_select [sample_node "a" 200; sample_node "b" 10] (from_secs 5) sample_selector
  = (Ok (sample_node "a" 200), sample_selector).
Proof.
  apply (selector_dwell _ _ _ "a" 0); try reflexivity.
  - apply default_policy_typed.
  - apply default_policy_valid.
  - intros n Hn Ha. unfold usable, measurements_typed, fits.
    repeat (apply elem_of_cons in Hn as [-> | Hn]; [cbn in *; repeat split; (done || lia)|]).
    by apply not_elem_of_nil in Hn.
  - intros n n' Hn Hn'.
    repeat (apply elem_of_cons in Hn as [-> | Hn]); repeat (apply elem_of_cons in Hn' as [-> | Hn']);
      (done || by apply not_elem_of_nil in Hn || by apply not_elem_of_nil in Hn').
Defined.

(** C33: a selector stays well typed and answers.  Along every sequence of
    selections and reports, each stored circuit counts between one and 2^32 - 1
    failures and ends at a representable instant, and the policies are those it
    was created with.  Selecting among candidates with 32-bit measurements never
    panics, and with a valid policy and no impossible loss among the available
    candidates it returns a route as soon as one is available with a closed
    circuit. *)
Theorem selector_total sc st s candidates now :
  policy_typed sc → rtc selector_step (selector_new sc st) s →
  (∀ n, n ∈ candidates → measurements_typed (measurements n)) →
  selector_typed s ∧ scoring s = sc ∧ stability s = st ∧
  (selector_select candidates now s).1 ≠ Panic ∧
  (policy_valid sc → (∀ n, n ∈ candidates → reportable n) →
   (∃ n, n ∈ candidates ∧ is_available n = true ∧ circuit_is_open s (node_id n) now = false) →
   ∃ n, (selector_select candidates now s).1 = Ok n).
Proof.
  intros Hp Hsteps Ht.
  destruct (selector_steps_typed (selector_new sc st) s ltac:(apply map_Forall_empty) Hsteps) as (Htyped & Hsc & Hst).
  cbn in Hsc, Hst. split; [done|]. split; [done|]. split; [done|].
  assert (∀ n, n ∈ eligible_candidates s candidates now → n ∈ candidates) as Hin
    by (intros n [? _]%eligible_closed; done).
  destruct (select_defined sc (eligible_candidates s candidates now) Hp ltac:(auto)) as [Hdef Hsome].
  unfold selector_select. run. fold (eligible_candidates s candidates now). rewrite Hsc.
  destruct (select sc (eligible_candidates s candidates now)) as [chosen|e|] eqn:Hsel; [| |done].
  - pose proof (select_result _ _ _ Hsel) as [Hch _]. run.
    destruct (find_candidate candidates (node_id chosen)) as [best|] eqn:Hf.
    2: { destruct (find_candidate_exists candidates chosen (Hin _ Hch)) as [x Hx]. congruence. }
    pose proof (find_candidate_some _ _ _ Hf) as [Hbest _]. run. rewrite <-Hsc in Hp.
    destruct (keep_current_defined s candidates now best Hp Ht Hbest) as [Hk Hkok]. rewrite Hsc in Hkok.
    destruct (keep_current s candidates now best) as [[cur|]|e|]; [by eauto| | |done].
    + case_decide; cbn; eauto.
    + cbn. split; [done|]. intros Hv Hr _. destruct (Hkok Hv Hr) as [o Ho]. done.
  - cbn. split; [done|]. intros Hv Hr (n & Hn & Ha & Ho).
    destruct (Hsome Hv) as [x Hx]; [auto| |done]. exists n. split; [|done].
    unfold eligible_candidates. rewrite list_elem_of_In, filter_In, <-list_elem_of_In, negb_true_iff. done.
Qed.

Lemma selector_total_witness :
  selector_typed (record_failure "b" 0 (selector_new default_routing_policy default_selection_policy)) ∧
  ∃ n, (selector_select [sample_node "a" 200; sample_node "b" 10] (from_secs 31)
          (record_failure "b" 0 (selector_new default_routing_policy default_selection_policy))).1 = Ok n.
Proof.
  destruct (selector_total default_routing_policy default_selection_policy
    (record_failure "b" 0 (selector_new default_routing_policy default_selection_policy))
    [sample_node "a" 200; sample_node "b" 10] (from_secs 31)) as (Ht & _ & _ & _ & Hok).
  - apply default_policy_typed.
  - eapply rtc_l; [apply step_failure|apply rtc_refl].
  - intros n Hn. apply elem_of_cons in Hn as [->|Hn%list_elem_of_singleton];
      [|subst]; unfold measurements_typed, fits; cbn; lia.
  - split; [exact Ht|]. apply Hok.
    + unfold policy_valid, weight_sum. cbn. lia.
    + intros n Hn _. apply elem_of_cons in Hn as [->|Hn%list_elem_of_singleton]; [|subst]; cbn; lia.
    + exists (sample_node "a" 200). split; [set_solver|]. split; vm_compute; reflexivity.
Defined.
