(* ===== verification/RoutingTests.v ===== *)
(** The routing crate's own tests, run on the model.

    The unit tests of [core/routing/src/lib.rs] and [selector.rs] and the
    integration tests of [core/routing/tests/backoff.rs]: each test function is a
    boolean that holds when all its assertions do.  They tie the definitions to
    the expectations the authors wrote down, on concrete inputs and without
    reference to any theorem. *)

From S2P Require Import Prelude Machine Routing Backoff Selector.
Open Scope string_scope.
Open Scope Z_scope.

(** [node]: the candidate of the tests. *)
Definition test_node (id : string) (latency_ms : Z) : NodeCandidate :=
  mkNode id (mkMeasurements true latency_ms 5 0 100).

(** [result.unwrap().id == id]. *)
Definition selected (r : Result RoutingError NodeCandidate) (id : string) : bool :=
  match r with Ok n => String.eqb (node_id n) id | _ => false end.

Module routing.

Definition prefers_lower_latency_when_other_signals_match : bool :=
  selected (select default_routing_policy [test_node "de-2" 90; test_node "de-1" 40]) "de-1".

Definition never_selects_an_unavailable_node : bool :=
  selected (select default_routing_policy
    [mkNode "fast-but-down" (mkMeasurements false 1 5 0 100); test_node "healthy" 80]) "healthy".

Definition breaks_equal_score_ties_by_node_id : bool :=
  selected (select default_routing_policy [test_node "node-b" 50; test_node "node-a" 50]) "node-a".

Definition rejects_impossible_packet_loss : bool :=
  bool_decide (score default_routing_policy (mkMeasurements true 50 5 10001 100) =
    Err (InvalidMeasurements "packet loss exceeds 100 percent")).

Lemma routing_tests_pass :
  prefers_lower_latency_when_other_signals_match = true ∧ never_selects_an_unavailable_node = true ∧
  breaks_equal_score_ties_by_node_id = true ∧ rejects_impossible_packet_loss = true.
Proof. by vm_compute. Qed.
End routing.

Module selector.

Definition start : Z := from_secs 1000.

Definition fresh : RouteSelector := selector_new default_routing_policy default_selection_policy.

Definition keeps_current_node_during_minimum_dwell_time : bool :=
  let '(first, s) := selector_select [test_node "a" 40; test_node "b" 80] start fresh in
  selected first "a" &&
  selected (selector_select [test_node "a" 200; test_node "b" 10] (start + from_secs 5) s).1 "a".

Definition requires_a_meaningful_improvement_after_dwell_time : bool :=
  let '(first, s) := selector_select [test_node "a" 50; test_node "b" 60] start fresh in
  is_ok first &&
  selected (selector_select [test_node "a" 50; test_node "b" 49] (start + from_secs 31) s).1 "a".

Definition opens_circuit_after_repeated_failures : bool :=
  let s := selector_new default_routing_policy (mkSelection 0 0 2 (from_secs 60)) in
  let s := record_failure "fast" start (record_failure "fast" start s) in
  let nodes := [test_node "fast" 10; test_node "fallback" 100] in
  let '(first, s) := selector_select nodes start s in
  selected first "fallback" && selected (selector_select nodes (start + from_secs 61) s).1 "fast".

Lemma selector_tests_pass :
  keeps_current_node_during_minimum_dwell_time = true ∧
  requires_a_meaningful_improvement_after_dwell_time = true ∧
  opens_circuit_after_repeated_failures = true.
Proof. by vm_compute. Qed.
End selector.

Module backoff.

Definition policy : BackoffPolicy := mkBackoff (from_secs 1) (from_secs 8) 4 2000.

(** [policy.delay(attempt, sample).unwrap() == expected]. *)
Definition delays (attempt sample : Z) (expected : option Z) : bool :=
  match delay policy attempt sample with Ok d => bool_decide (d = expected) | _ => false end.

Definition increases_delay_exponentially_and_caps_it : bool :=
  delays 0 5000 (Some (from_secs 1)) && delays 1 5000 (Some (from_secs 2)) &&
  delays 3 5000 (Some (from_secs 8)).

Definition stops_after_bounded_number_of_attempts : bool := delays 4 5000 None.

Definition applies_symmetric_jitter : bool :=
  delays 1 0 (Some (1600 * 1000000)) && delays 1 10000 (Some (2400 * 1000000)).

Definition rejects_out_of_range_entropy_sample : bool :=
  match delay policy 0 10001 with Err InvalidEntropySample => true | _ => false end.

Definition rejects_unbounded_or_zero_policy : bool :=
  match validate_backoff (mkBackoff (from_secs 1) (from_secs 8) 0 2000) with
  | Err InvalidBackoffPolicy => true
  | _ => false
  end.

Lemma backoff_tests_pass :
  increases_delay_exponentially_and_caps_it = true ∧ stops_after_bounded_number_of_attempts = true ∧
  applies_symmetric_jitter = true ∧ rejects_out_of_range_entropy_sample = true ∧
  rejects_unbounded_or_zero_policy = true.
Proof. by vm_compute. Qed.
End backoff.
