(* ===== verification/GoBase.v ===== *)
(** The parts of Go and of its standard library that the control service
    ([services/control-api]) uses: error values, points in time, iteration over
    the runes of a string, big-endian encodings, and the lowercase slugs that all
    its identifiers are.  Byte slices and strings are byte strings. *)

From S2P Require Import Prelude Machine Text.
Open Scope string_scope.
Open Scope Z_scope.

(** ** Errors

    [errors.New] and [fmt.Errorf] with one [%w].  A sentinel is compared by its
    identity in Go and by its text here; the sentinels of the service have
    distinct texts. *)

Inductive GoError :=
| NewError (text : string)
| Wrap (text : string) (cause : GoError).

#[export] Instance go_error_eq_dec : EqDecision GoError.
Proof. solve_decision. Defined.

Definition error_text (e : GoError) : string :=
  match e with NewError text | Wrap text _ => text end.

Fixpoint errors_is (e target : GoError) : bool :=
  bool_decide (e = target) ||
  match e with Wrap _ cause => errors_is cause target | NewError _ => false end.

(** [fmt.Errorf("%w: detail", cause)] and [fmt.Errorf("context: %w", cause)]. *)
Definition with_detail (cause : GoError) (detail : string) : GoError :=
  Wrap (error_text cause +:+ ": " +:+ detail) cause.
Definition in_context (context : string) (cause : GoError) : GoError :=
  Wrap (context +:+ ": " +:+ error_text cause) cause.

Lemma errors_is_refl e : errors_is e e = true.
Proof. destruct e; cbn [errors_is]; by rewrite bool_decide_eq_true_2. Qed.

Lemma errors_is_detail cause detail : errors_is (with_detail cause detail) cause = true.
Proof. unfold with_detail. cbn [errors_is]. by rewrite errors_is_refl, orb_true_r. Qed.

(** The [%q] verb: a quoted string, whose escapes only reach error texts. *)
Class GoQuote := { go_quote : string → string }.

(** ** Maps

    [for k, v := range m] visits every entry once, in an order the program does
    not control. *)
Class MapRange := {
  map_range : ∀ {K} `{Countable K} {A}, gmap K A → list (K * A);
  map_range_perm : ∀ {K} `{Countable K} {A} (m : gmap K A), map_range m ≡ₚ map_to_list m;
}.

Section reload.
Context `{MapRange} {E A V : Type} (loop : list A → gmap string V → Result E (gmap string V)).
Context (key : A → string) (val : A → V) (P : A → Prop).
Context (loop_done : ∀ m, loop [] m = Ok m).
Context (loop_step : ∀ a l m, P a → m !! key a = None → loop (a :: l) m = loop l (<[key a := val a]> m)).

(** A loop that inserts the elements of a list with distinct keys. *)
Lemma load_all l m :
  Forall P l → NoDup (key <$> l) → (∀ a, a ∈ l → m !! key a = None) →
  loop l m = Ok (list_to_map ((λ a, (key a, val a)) <$> l) ∪ m).
Proof.
  intros Hl. revert m. induction Hl as [|a l Ha Hl IH]; intros m Hnd Hm.
  { by rewrite loop_done, fmap_nil, list_to_map_nil, (left_id_L ∅ (∪)). }
  rewrite fmap_cons in Hnd. apply NoDup_cons in Hnd as [Hni Hnd].
  rewrite loop_step; [|done|apply Hm; by left]. rewrite IH; [|done|].
  - f_equal. rewrite fmap_cons, list_to_map_cons, <-insert_union_l. symmetry. apply insert_union_r.
    apply not_elem_of_list_to_map. by rewrite <-list_fmap_compose.
  - intros b Hb. rewrite lookup_insert_ne; [apply Hm; by right|].
    intros Heq. apply Hni. rewrite Heq. by apply list_elem_of_fmap_2.
Qed.

(** Such a loop over the entries of a map rebuilds the map. *)
Lemma reload_map (f : string * V → A) m :
  (∀ k v, m !! k = Some v → P (f (k, v)) ∧ key (f (k, v)) = k ∧ val (f (k, v)) = v) →
  loop (map f (map_range m)) ∅ = Ok m.
Proof.
  intros Hf. change (map f) with (fmap (M := list) f).
  assert (∀ l, l ⊆ map_to_list m → Forall P (f <$> l) ∧ (λ a, (key a, val a)) <$> (f <$> l) = l) as Hall.
  { induction l as [|[k v] l IH]; [done|]. intros Hl.
    destruct (Hf k v) as (HP & Hk & Hv); [apply elem_of_map_to_list, Hl; by left|].
    destruct IH as [HF Heq]; [intros x Hx; apply Hl; by right|]. rewrite !fmap_cons, Heq, Hk, Hv. by split; [constructor|]. }
  destruct (Hall (map_range m)) as [HP Heq]. { intros x. by rewrite map_range_perm. }
  assert (NoDup (map_range m).*1) as Hnd by (rewrite map_range_perm; apply NoDup_fst_map_to_list).
  rewrite load_all; [|done| |intros a _; apply lookup_empty].
  - rewrite Heq, (right_id_L ∅ (∪)). f_equal. etrans; [|apply list_to_map_to_list].
    by apply list_to_map_proper; [|apply map_range_perm].
  - rewrite <-Heq, <-list_fmap_compose in Hnd. exact Hnd.
Qed.
End reload.

(** ** [time.Time] and [time.Duration]

    A [Time] is its instant in nanoseconds since the Unix epoch; the location it
    is displayed in is not used by the service.  A [Duration] is a signed 64-bit
    number of nanoseconds, and [Sub] saturates. *)

Abbreviation Time := Z (only parsing).

Definition second : Z := 1000000000.
Definition minute : Z := 60 * second.
Definition hour : Z := 60 * minute.

Definition time_after (t u : Time) : bool := u <? t.
Definition time_add (t : Time) (d : Z) : Time := t + d.
Definition time_sub (t u : Time) : Z := Z.max (- 2 ^ 63) (Z.min (2 ^ 63 - 1) (t - u)).
Definition unix (t : Time) : Z := t / second.
Definition nanosecond (t : Time) : Z := t mod second.

(** January 1 of year 1, the zero value. *)
Definition zero_time : Time := -62135596800 * second.
Definition time_is_zero (t : Time) : bool := t =? zero_time.

(** Its Unix second is an [int64]. *)
Definition time_typed (t : Time) : Prop := - 2 ^ 63 ≤ unix t < 2 ^ 63.

Lemma time_of_parts t : t = unix t * second + nanosecond t.
Proof. unfold unix, nanosecond, second. pose proof (Z.div_mod t 1000000000). lia. Qed.

Lemma nanosecond_fits t : u32 (nanosecond t).
Proof. unfold nanosecond, second. pose proof (Z.mod_pos_bound t 1000000000). unfold fits. lia. Qed.

(** ** [range] over a string

    A well-formed sequence yields its code point, any other byte U+FFFD. *)

Definition rune_error : Z := 65533.

Definition tail_bits (c : ascii) : Z := Z.land (code c) 63.

Definition decode_rune (l : list ascii) : Z :=
  match l with
  | [a] => code a
  | [a; b] => Z.lor (Z.shiftl (Z.land (code a) 31) 6) (tail_bits b)
  | [a; b; c] => Z.lor (Z.lor (Z.shiftl (Z.land (code a) 15) 12) (Z.shiftl (tail_bits b) 6)) (tail_bits c)
  | [a; b; c; d] =>
      Z.lor (Z.lor (Z.shiftl (Z.land (code a) 7) 18) (Z.shiftl (tail_bits b) 12))
        (Z.lor (Z.shiftl (tail_bits c) 6) (tail_bits d))
  | _ => rune_error
  end.

Fixpoint runes_from (fuel : nat) (l : list ascii) : list Z :=
  match fuel, l with
  | O, _ | _, [] => []
  | S fuel, _ =>
      let '(valid, n) := utf8_head l in
      if valid then decode_rune (take n l) :: runes_from fuel (drop n l)
      else rune_error :: runes_from fuel (drop 1 l)
  end.

Definition runes (s : string) : list Z := runes_from (String.length s) (chars s).

(** ** Slugs *)

Definition is_slug_char (c : ascii) : bool := between 97 122 c || between 48 57 c || (code c =? 45).

(** [value[i] == '-'] for an index within bounds. *)
Definition dash_at (i : nat) (s : string) : bool :=
  match chars s !! i with Some c => code c =? 45 | None => false end.

Definition slug_rune (r : Z) : bool :=
  negb (((r <? 97) || (122 <? r)) && ((r <? 48) || (57 <? r)) && negb (r =? 45)).

(** The body the packages [configuration], [identity] and [registry] repeat. *)
Definition valid_slug_value (value : string) : bool :=
  if bool_decide (value = "") || (63 <? len value) || dash_at 0 value
     || dash_at (String.length value - 1) value then false
  else forallb slug_rune (runes value).

(** What it accepts. *)
Definition slug (s : string) : Prop :=
  (1 ≤ String.length s ≤ 63)%nat ∧ dash_at 0 s = false ∧ dash_at (String.length s - 1) s = false ∧
  all_bytes is_slug_char s = true.

Lemma slug_rune_ascii c : between 0 127 c = true → slug_rune (code c) = is_slug_char c.
Proof.
  intros Hc. pose proof (by_inspection (λ c, implb (between 0 127 c)
    (Bool.eqb (slug_rune (code c)) (is_slug_char c))) ltac:(vm_compute; reflexivity) c) as H. cbn beta in H.
  rewrite Hc in H. by apply eqb_prop.
Qed.

Lemma slug_char_ascii c : is_slug_char c = true → between 0 127 c = true.
Proof.
  intros Hc. pose proof (by_inspection (λ c, implb (is_slug_char c) (between 0 127 c))
    ltac:(vm_compute; reflexivity) c) as H. cbn beta in H. by rewrite Hc in H.
Qed.

Lemma lor_ge_l x y : 0 ≤ x → 0 ≤ y → x ≤ Z.lor x y.
Proof. intros Hx Hy. apply Z.ldiff_le; [by apply Z.lor_nonneg|]. apply Z.bits_inj'. intros n Hn.
  rewrite Z.ldiff_spec, Z.lor_spec, Z.bits_0. by destruct (Z.testbit x n), (Z.testbit y n). Qed.

(** The bits a leading byte contributes. *)
Lemma head_bits lo hi mask low c :
  forallb (λ c, implb (between lo hi c) (low <=? Z.land (code c) mask)) all_ascii = true →
  between lo hi c = true → low ≤ Z.land (code c) mask.
Proof.
  intros Hall Hc. pose proof (by_inspection _ Hall c) as H. cbn beta in H. rewrite Hc in H.
  by apply Z.leb_le.
Qed.

Lemma code_nonneg c : 0 ≤ code c.
Proof. unfold code. lia. Qed.

Lemma land_code_nonneg c m : 0 ≤ m → 0 ≤ Z.land (code c) m.
Proof. intros. apply Z.land_nonneg. auto. Qed.

(** Only ASCII bytes stand for ASCII runes. *)
Lemma decode_rune_high l n :
  utf8_head l = (true, n) → (2 ≤ n)%nat → 128 ≤ decode_rune (take n l).
Proof.
  unfold utf8_head. destruct l as [|a l]; [intros [= <-]; lia|].
  destruct (between 0 127 a) eqn:H1; [intros [= <-]; lia|].
  unfold cont. destruct (between 194 223 a) eqn:H2.
  { destruct l as [|b l]; cbn; [done|]. destruct (between 128 191 b) eqn:Hb; [|done]. intros [= <-] _. cbn.
    etrans; [|apply lor_ge_l; [apply Z.shiftl_nonneg|]; by apply land_code_nonneg].
    rewrite Z.shiftl_mul_pow2 by lia. pose proof (head_bits 194 223 31 2 a ltac:(vm_compute; reflexivity) H2). lia. }
  destruct (between 224 239 a) eqn:H3.
  { destruct l as [|b [|c l]]; cbn; [done|by case_match|]. destruct (between _ _ b) eqn:Hb; [|done].
    destruct (between 128 191 c); [|done]. intros [= <-] _. cbn. unfold tail_bits.
    etrans; [|apply lor_ge_l; [|by apply land_code_nonneg]].
    2: { apply Z.lor_nonneg; split; apply Z.shiftl_nonneg; by apply land_code_nonneg. }
    destruct (Z.eqb_spec (code a) 224) as [Ha|Ha].
    - rewrite Z.lor_comm. etrans; [|apply lor_ge_l; apply Z.shiftl_nonneg; by apply land_code_nonneg].
      rewrite Z.shiftl_mul_pow2 by lia.
      destruct (Z.eqb_spec (code a) 237) as [?|_]; [lia|].
      pose proof (head_bits 160 191 63 32 b ltac:(vm_compute; reflexivity) Hb). lia.
    - etrans; [|apply lor_ge_l; apply Z.shiftl_nonneg; by apply land_code_nonneg].
      rewrite Z.shiftl_mul_pow2 by lia.
      assert (between 225 239 a = true) as H3' by (unfold between in *; lia).
      pose proof (head_bits 225 239 15 1 a ltac:(vm_compute; reflexivity) H3'). lia. }
  destruct (between 240 244 a) eqn:H4; [|done].
  destruct l as [|b [|c [|d l]]]; cbn; [done|by case_match|by repeat case_match|].
  destruct (between _ _ b) eqn:Hb; [|done]. destruct (between 128 191 c); [|done].
  destruct (between 128 191 d); [|done]. intros [= <-] _. cbn. unfold tail_bits.
  etrans; [|apply lor_ge_l].
  2: { apply Z.lor_nonneg; split; apply Z.shiftl_nonneg; by apply land_code_nonneg. }
  2: { apply Z.lor_nonneg; split; [apply Z.shiftl_nonneg|]; by apply land_code_nonneg. }
  destruct (Z.eqb_spec (code a) 240) as [Ha|Ha].
  - rewrite Z.lor_comm. etrans; [|apply lor_ge_l; apply Z.shiftl_nonneg; by apply land_code_nonneg].
    rewrite Z.shiftl_mul_pow2 by lia. destruct (Z.eqb_spec (code a) 244) as [?|_]; [lia|].
    pose proof (head_bits 144 191 63 16 b ltac:(vm_compute; reflexivity) Hb). lia.
  - etrans; [|apply lor_ge_l; apply Z.shiftl_nonneg; by apply land_code_nonneg].
    rewrite Z.shiftl_mul_pow2 by lia.
    assert (between 241 244 a = true) as H4' by (unfold between in *; lia).
    pose proof (head_bits 241 244 7 1 a ltac:(vm_compute; reflexivity) H4'). lia.
Qed.

Lemma utf8_head_ascii l n : utf8_head l = (true, n) → (n < 2)%nat →
  l = [] ∨ ∃ c l', l = c :: l' ∧ between 0 127 c = true ∧ n = 1%nat.
Proof.
  destruct l as [|c l]; [by left|]. intros Hh Hn. right. exists c, l. unfold utf8_head in Hh.
  destruct (between 0 127 c) eqn:Hc; [by injection Hh as <-|]. repeat case_match; simplify_eq; lia.
Qed.

(** Testing the runes for ASCII characters is testing the bytes. *)
Lemma ascii_runes (P : Z → bool) (p : ascii → bool) fuel l :
  (∀ c, between 0 127 c = true → P (code c) = p c) → (∀ c, p c = true → between 0 127 c = true) →
  (∀ r, 128 ≤ r → P r = false) →
  (length l ≤ fuel)%nat → forallb P (runes_from fuel l) = forallb p l.
Proof.
  intros Hsame Hascii Hhigh. revert l. induction fuel as [|fuel IH]; intros [|c l] Hl; [done|cbn in Hl; lia|done|].
  assert (∀ b n, utf8_head (c :: l) = (b, n) → (b, n) ≠ (true, 1%nat) → p c = false) as Hc.
  { intros b n Hh Hn. destruct (p c) eqn:Hc; [|done]. apply Hascii in Hc. unfold utf8_head in Hh. rewrite Hc in Hh. congruence. }
  cbn [runes_from]. destruct (utf8_head (c :: l)) as [[] n] eqn:Hh.
  - destruct (decide (n < 2)%nat) as [Hn|Hn].
    + destruct (utf8_head_ascii _ _ Hh Hn) as [?|(c' & l' & [= <- <-] & Hc' & ->)]; [done|].
      change (decode_rune (take 1 (c :: l))) with (code c). change (drop 1 (c :: l)) with l. cbn [forallb].
      rewrite Hsame by done. by rewrite IH by (cbn in Hl; lia).
    + cbn [forallb]. rewrite (Hhigh _ (decode_rune_high _ _ Hh ltac:(lia))), (Hc true n); [done|done|]. intros [= ->]. lia.
  - cbn [forallb]. by rewrite (Hhigh rune_error), (Hc false n).
Qed.

(** The length of the text is enough fuel. *)
Lemma runes_fuel fuel l : (length l ≤ fuel)%nat → runes_from fuel l = runes_from (length l) l.
Proof.
  revert l. induction fuel as [fuel IH] using lt_wf_ind. intros [|c l] Hl; [by destruct fuel|].
  destruct fuel as [|fuel]; cbn [length] in *; [lia|]. cbn [runes_from].
  pose proof (utf8_head_consumes c l) as Hn. destruct (utf8_head (c :: l)) as [valid [|n]]; cbn [snd] in Hn; [lia|].
  cbn [drop]. rewrite drop_0. pose proof (length_drop l n) as Hd.
  destruct valid; f_equal; by rewrite (IH fuel), ?(IH (length l)) by lia.
Qed.

Lemma slug_runes fuel l :
  (length l ≤ fuel)%nat → forallb slug_rune (runes_from fuel l) = forallb is_slug_char l.
Proof.
  apply ascii_runes; [apply slug_rune_ascii|apply slug_char_ascii|]. intros r Hr. unfold slug_rune. lia.
Qed.

Lemma valid_slug_value_spec s : valid_slug_value s = true ↔ slug s.
Proof.
  unfold valid_slug_value, slug, all_bytes, runes. rewrite slug_runes by (by rewrite length_chars).
  unfold len. destruct s as [|c s]; [cbn; split; [done|lia]|]. rewrite bool_decide_eq_false_2 by done. cbn [orb].
  destruct (dash_at 0 _), (dash_at (String.length _ - 1) _); rewrite ?orb_true_r, ?orb_false_r;
    try (split; [done|by intros (_ & ? & ? & _)]).
  destruct (Z.ltb_spec 63 (Z.of_nat (String.length (String c s)))); cbn [orb].
  - split; [done|]. lia.
  - split; [|naive_solver]. intros Hc. split_and!; [cbn in *; lia..|done|done|done].
Qed.

(** ** Big-endian encodings

    [binary.BigEndian.AppendUint16], [AppendUint32] and [AppendUint64] append
    the two, four or eight low bytes of their argument. *)

Fixpoint big_endian (n : nat) (z : Z) : string :=
  match n with
  | O => ""
  | S n => String (byte (z / 2 ^ (8 * Z.of_nat n) mod 256)) (big_endian n z)
  end.

Definition append_uint16 (message : string) (z : Z) : string := message +:+ big_endian 2 z.
Definition append_uint32 (message : string) (z : Z) : string := message +:+ big_endian 4 z.
Definition append_uint64 (message : string) (z : Z) : string := message +:+ big_endian 8 z.

(** The text of a field after its length. *)
Definition field (s : string) : string := big_endian 4 (len s) +:+ s.

Lemma byte_inj a b : u8 a → u8 b → byte a = byte b → a = b.
Proof. intros Ha Hb H%(f_equal code). rewrite !code_byte in H by (unfold fits in *; lia). done. Qed.

Lemma big_endian_peel n z z' s s' :
  big_endian n z +:+ s = big_endian n z' +:+ s' →
  z mod 2 ^ (8 * Z.of_nat n) = z' mod 2 ^ (8 * Z.of_nat n) ∧ s = s'.
Proof.
  induction n as [|n IH]; cbn [big_endian].
  { change (2 ^ (8 * Z.of_nat 0)) with 1. by rewrite !Z.mod_1_r. }
  intros H. change (String ?c ?t +:+ ?u) with (String c (t +:+ u)) in H. injection H as Hb Hs.
  destruct (IH Hs) as [Hm ->]. split; [|done].
  apply byte_inj in Hb; [|unfold fits; apply Z.mod_pos_bound; lia..].
  assert (∀ x, x mod 2 ^ (8 * Z.of_nat (S n)) =
    x / 2 ^ (8 * Z.of_nat n) mod 256 * 2 ^ (8 * Z.of_nat n) + x mod 2 ^ (8 * Z.of_nat n)) as Hsplit.
  { intros x. replace (8 * Z.of_nat (S n)) with (8 * Z.of_nat n + 8) by lia. rewrite Z.pow_add_r by lia.
    rewrite Z.rem_mul_r by lia. change (2 ^ 8) with 256. lia. }
  by rewrite !Hsplit, Hb, Hm.
Qed.

Lemma big_endian_inj n z z' s s' :
  fits (8 * Z.of_nat n) z → fits (8 * Z.of_nat n) z' →
  big_endian n z +:+ s = big_endian n z' +:+ s' → z = z' ∧ s = s'.
Proof.
  intros Hz Hz' [Hm ->]%big_endian_peel. by rewrite !Z.mod_small in Hm by done.
Qed.

Lemma string_app_cut a b s s' :
  String.length a = String.length b → a +:+ s = b +:+ s' → a = b ∧ s = s'.
Proof.
  revert b. induction a as [|c a IH]; intros [|d b]; cbn [String.length]; try done.
  intros [= Hl] H. change (String ?c ?t +:+ ?u) with (String c (t +:+ u)) in H. injection H as -> Hs.
  by destruct (IH b Hl Hs) as [-> ->].
Qed.

Lemma string_length_app s1 s2 : String.length (s1 +:+ s2) = (String.length s1 + String.length s2)%nat.
Proof. induction s1 as [|c s1 IH]; [done|]. cbn. by rewrite <-IH. Qed.

Lemma field_peel a b s s' :
  u32 (len a) → u32 (len b) → field a +:+ s = field b +:+ s' → a = b ∧ s = s'.
Proof.
  intros Ha Hb. unfold field. rewrite !string_app_assoc. intros [Hl Hs]%(big_endian_inj 4); [|done..].
  apply string_app_cut; [|done]. unfold len in Hl. lia.
Qed.

(** A counted sequence of fields. *)
Definition fields_of {A} (show : A → string) (l : list A) : string :=
  big_endian 4 (Z.of_nat (length l)) +:+ String.concat "" (map (λ a, field (show a)) l).

Lemma concat_cons (x : string) l : String.concat "" (x :: l) = x +:+ String.concat "" l.
Proof. cbn. destruct l; [by rewrite string_app_nil|done]. Qed.

Lemma fields_peel {A} (show : A → string) (P : A → Prop) l l' s s' :
  (∀ a, P a → u32 (len (show a))) → (∀ a b, P a → P b → show a = show b → a = b) →
  Forall P l → Forall P l' → u32 (Z.of_nat (length l)) → u32 (Z.of_nat (length l')) →
  fields_of show l +:+ s = fields_of show l' +:+ s' → l = l' ∧ s = s'.
Proof.
  intros Hlen Hinj Hl Hl' Hn Hn'. unfold fields_of. rewrite !string_app_assoc.
  intros [Hc Hs]%(big_endian_inj 4); [|done..]. clear Hn Hn'. revert l' Hl' Hc Hs.
  induction Hl as [|a l Ha Hl IH]; intros [|b l'] Hl' Hc; cbn [length] in Hc; try lia; [done|].
  cbn [map]. rewrite !concat_cons, !string_app_assoc. apply Forall_cons in Hl' as [Hb Hl'].
  intros [Hab Hs]%field_peel; [|auto..]. apply Hinj in Hab; [|done..]. subst b.
  destruct (IH l' Hl') as [-> ->]; [lia|done|done].
Qed.
