(* ===== verification/Netip.v ===== *)
(** Go's [net/netip] as the control service uses it: addresses with an optional
    IPv6 zone, address-port pairs and prefixes, with their tests and texts.  The
    text of an address is the RFC 5952 form that [Net] prints and reads back. *)

From S2P Require Import Prelude Machine Text Net GoBase.
Open Scope string_scope.
Open Scope Z_scope.

(** ** Values *)

(** The zero value is not an address; only IPv6 addresses carry a zone. *)
Inductive Addr :=
| NoAddr
| AddrOf (ip : IpAddr) (zone : string).

Record AddrPort := mkAddrPort { ap_addr : Addr; ap_port : Z }.

(** [bits] is -1 for an invalid prefix; a prefix keeps no zone. *)
Record Prefix := mkPrefix { pfx_addr : Addr; pfx_bits : Z }.

#[export] Instance addr_eq_dec : EqDecision Addr.
Proof. solve_decision. Defined.
#[export] Instance prefix_eq_dec : EqDecision Prefix.
Proof. solve_decision. Defined.
#[export] Instance addr_port_eq_dec : EqDecision AddrPort.
Proof. solve_decision. Defined.

#[export] Instance addr_countable : Countable Addr.
Proof.
  refine (inj_countable' (λ a, match a with NoAddr => None | AddrOf ip z => Some (ip, z) end)
    (λ o, match o with None => NoAddr | Some (ip, z) => AddrOf ip z end) _). by intros [].
Defined.
#[export] Instance prefix_countable : Countable Prefix.
Proof. refine (inj_countable' (λ p, (pfx_addr p, pfx_bits p)) (λ '(a, b), mkPrefix a b) _). by intros []. Defined.

Definition width (ip : IpAddr) : Z := match ip with V4 _ => 32 | V6 _ => 128 end.

(** What the constructors of the package guarantee. *)
Definition addr_typed (a : Addr) : Prop :=
  match a with
  | NoAddr => True
  | AddrOf ip zone => ip_typed ip ∧ (is_ipv4 ip = true → zone = "")
  end.
Definition addr_port_typed (e : AddrPort) : Prop := addr_typed (ap_addr e) ∧ u16 (ap_port e).
Definition prefix_typed (p : Prefix) : Prop :=
  match pfx_addr p with
  | NoAddr => pfx_bits p = -1
  | AddrOf ip zone => ip_typed ip ∧ zone = "" ∧ -1 ≤ pfx_bits p ≤ width ip
  end.

(** ** Tests *)

Definition addr_is_valid (a : Addr) : bool := match a with NoAddr => false | _ => true end.
Definition addr_zone (a : Addr) : string := match a with NoAddr => "" | AddrOf _ zone => zone end.

Definition is_4in6 (a : Addr) : bool :=
  match a with AddrOf (V6 b) _ => bool_decide (is_Some (to_ipv4_mapped b)) | _ => false end.

(** An IPv4-mapped address loses its zone with its prefix. *)
Definition unmap (a : Addr) : Addr :=
  match a with
  | AddrOf (V6 b) _ => match to_ipv4_mapped b with Some v4 => AddrOf (V4 v4) "" | None => a end
  | _ => a
  end.

(** [ip == IPv4Unspecified() || ip == IPv6Unspecified()]. *)
Definition addr_is_unspecified (a : Addr) : bool :=
  bool_decide (a = AddrOf (V4 0) "") || bool_decide (a = AddrOf (V6 0) "").

Definition addr_is_multicast (a : Addr) : bool :=
  match unmap a with
  | NoAddr => false
  | AddrOf (V4 b) _ => Z.land (Z.shiftr b 24) 240 =? 224
  | AddrOf (V6 b) _ => Z.shiftr b 120 =? 255
  end.

Definition prefix_is_valid (p : Prefix) : bool := 0 <=? pfx_bits p.

(** [Masked] clears the host bits and has no value for an invalid prefix. *)
Definition clear_low (width bits b : Z) : Z := Z.shiftl (Z.shiftr b (width - bits)) (width - bits).

Definition masked (p : Prefix) : Prefix :=
  if prefix_is_valid p then
    match pfx_addr p with
    | AddrOf (V4 b) _ => mkPrefix (AddrOf (V4 (clear_low 32 (pfx_bits p) b)) "") (pfx_bits p)
    | AddrOf (V6 b) _ => mkPrefix (AddrOf (V6 (clear_low 128 (pfx_bits p) b)) "") (pfx_bits p)
    | NoAddr => mkPrefix NoAddr (-1)
    end
  else mkPrefix NoAddr (-1).

(** ** Texts *)

Definition addr_string (a : Addr) : string :=
  match a with
  | NoAddr => "invalid IP"
  | AddrOf ip zone => display_ip ip +:+ (if bool_decide (zone = "") then "" else "%" +:+ zone)
  end.

Definition addr_port_string (e : AddrPort) : string :=
  match ap_addr e with
  | NoAddr => "invalid AddrPort"
  | AddrOf (V4 b) _ => display_v4 b +:+ ":" +:+ to_dec (ap_port e)
  | a => "[" +:+ addr_string a +:+ "]:" +:+ to_dec (ap_port e)
  end.

Definition prefix_string (p : Prefix) : string :=
  if prefix_is_valid p then addr_string (pfx_addr p) +:+ "/" +:+ to_dec (pfx_bits p) else "invalid Prefix".

(** ** The texts determine the values *)

(** An address the validators let through. *)
Definition plain (a : Addr) : Prop := addr_typed a ∧ addr_is_valid a = true ∧ addr_zone a = "".

Lemma plain_inv a : plain a → ∃ ip, a = AddrOf ip "" ∧ ip_typed ip ∧ addr_string a = display_ip ip.
Proof.
  destruct a as [|ip zone]; [by intros (_ & ? & _)|]. intros ([Ht _] & _ & Hz). cbn in Hz. subst.
  exists ip. cbn. by rewrite string_app_nil.
Qed.

Lemma addr_string_inj a b : plain a → plain b → addr_string a = addr_string b → a = b.
Proof.
  intros (x & -> & Hx & ->)%plain_inv (y & -> & Hy & ->)%plain_inv Heq. by rewrite (display_ip_inj x y).
Qed.

(** A text without [c] ends where [c] first appears. *)
Lemma cut_at c a b s s' :
  contains_char c a = false → contains_char c b = false →
  a +:+ String c s = b +:+ String c s' → a = b ∧ s = s'.
Proof. intros Ha Hb Heq%(f_equal (split_once c)). rewrite !split_once_app in Heq by done. by injection Heq. Qed.

Lemma to_dec_inj bits n m : fits bits n → fits bits m → to_dec n = to_dec m → n = m.
Proof. intros Hn Hm Heq%(f_equal (parse_dec bits)). rewrite !parse_to_dec in Heq by done. congruence. Qed.

Lemma display_ip_lacks c ip : is_ip_char c = false → contains_char c (display_ip ip) = false.
Proof. intros Hc. eapply all_bytes_excludes; [apply display_ip_chars|done]. Qed.

Lemma display_v4_lacks c b : is_ip_char c = false ∨ c = ":"%char → contains_char c (display_v4 b) = false.
Proof.
  intros [Hc| ->]; [eapply all_bytes_excludes; [apply display_v4_chars|done]|].
  apply (all_bytes_excludes (λ c, is_ascii_digit c || Ascii.eqb c "."%char)); [|done].
  apply all_bytes_join; [done|]. apply Forall_forall.
  intros x (o & <- & Ho)%list_elem_of_In%in_map_iff. apply list_elem_of_In in Ho.
  eapply all_bytes_class; [|apply to_dec_all_digits]; [by vm_compute|].
  pose proof (octets_typed b) as Ht. rewrite Forall_forall in Ht. specialize (Ht o Ho). unfold fits in Ht. lia.
Qed.

Definition plain_endpoint (e : AddrPort) : Prop := plain (ap_addr e) ∧ u16 (ap_port e).
Definition plain_prefix (p : Prefix) : Prop := prefix_typed p ∧ prefix_is_valid p = true.

Lemma addr_port_string_plain e :
  plain_endpoint e →
  ∃ ip, ap_addr e = AddrOf ip "" ∧ ip_typed ip ∧
    addr_port_string e = (if is_ipv4 ip then display_ip ip +:+ ":" else "[" +:+ display_ip ip +:+ "]:") +:+
      to_dec (ap_port e).
Proof.
  destruct e as [a p]. intros [(ip & Ha & Hip & Hs)%plain_inv _]. cbn in *. subst a. exists ip.
  split_and!; [done..|]. unfold addr_port_string. cbn [ap_addr ap_port].
  destruct ip as [b|b]; cbn [is_ipv4]; rewrite ?string_app_assoc; [done|]. by rewrite Hs.
Qed.

Lemma addr_port_string_inj e e' :
  plain_endpoint e → plain_endpoint e' → addr_port_string e = addr_port_string e' → e = e'.
Proof.
  intros He He'. destruct (addr_port_string_plain e He) as (x & Hx & Htx & ->).
  destruct (addr_port_string_plain e' He') as (y & Hy & Hty & ->).
  destruct He as [_ Hp], He' as [_ Hp'], e as [a p], e' as [a' p']. cbn [ap_addr ap_port] in *. subst a a'.
  assert (∀ b s t, ip_typed (V4 b) → display_v4 b +:+ s ≠ "[" +:+ t) as Hbracket.
  { intros b s t Hb. pose proof (display_ip_lacks "["%char (V4 b) eq_refl) as Hl. cbn [display_ip] in Hl.
    pose proof (display_ip_nonempty (V4 b) Hb) as Hne. cbn [display_ip] in Hne.
    destruct (display_v4 b) as [|c t']; [done|]. intros H. injection H as -> _. by cbn in Hl. }
  destruct x as [b|b], y as [b'|b']; cbn [is_ipv4 display_ip]; rewrite !string_app_assoc.
  - intros [Hd Hq]%cut_at; [|apply display_v4_lacks; by right..].
    rewrite (to_dec_inj 16 p p' Hp Hp' Hq). by rewrite (display_ip_inj (V4 b) (V4 b') Htx Hty Hd).
  - by intros ?%(Hbracket _ _ _ Htx).
  - by intros ?%eq_sym%(Hbracket _ _ _ Hty).
  - intros H. injection H as H. apply cut_at in H as [Hd Hq]; [|by apply (display_ip_lacks _ (V6 _))..].
    injection Hq as Hq. rewrite (to_dec_inj 16 p p' Hp Hp' Hq).
    by rewrite (display_ip_inj (V6 b) (V6 b') Htx Hty Hd).
Qed.

Lemma prefix_string_inj p q : plain_prefix p → plain_prefix q → prefix_string p = prefix_string q → p = q.
Proof.
  destruct p as [a n], q as [a' n']. intros [Hp Hv] [Hq Hv']. unfold prefix_string. rewrite Hv, Hv'.
  unfold prefix_typed, prefix_is_valid in *. cbn [pfx_addr pfx_bits] in *.
  destruct a as [|x z], a' as [|y z']; [lia..|]. destruct Hp as (Hx & -> & Hn), Hq as (Hy & -> & Hn').
  cbn [addr_string]. rewrite !string_app_nil. intros [Hd Hb]%cut_at; [|by apply display_ip_lacks..].
  rewrite (display_ip_inj x y) by done. assert (∀ ip, width ip < 2 ^ 16) by (by intros []).
  rewrite (to_dec_inj 16 n n'); [done|unfold fits|unfold fits|done]; pose proof (H x); pose proof (H y); lia.
Qed.

(** The texts are short. *)
Lemma to_dec_length n : u16 n → (String.length (to_dec n) ≤ 16)%nat.
Proof.
  intros Hn. unfold to_dec. etrans; [apply (print_radix_length 10 (Z.to_nat (Z.log2 n))); [lia| |done]|].
  - unfold fits in Hn. split; [lia|]. rewrite Nat2Z.inj_succ. apply dec_fuel. lia.
  - cbn. assert (Z.log2 n < 16); [|lia]. unfold fits in Hn.
    destruct (decide (n = 0)) as [->|]; [done|]. apply Z.log2_lt_pow2; lia.
Qed.

Lemma join_length k sep l :
  Forall (λ x, (String.length x ≤ k)%nat) l →
  (String.length (join sep l) ≤ length l * (k + String.length sep))%nat.
Proof.
  unfold join. induction 1 as [|x l Hx Hl IH]; [done|]. cbn [String.concat length].
  destruct l as [|y l]; [lia|]. rewrite !string_length_app. cbn [length] in *. lia.
Qed.

Lemma display_v4_short b : (String.length (display_v4 b) ≤ 68)%nat.
Proof.
  unfold display_v4. etrans; [apply (join_length 16)|done]. apply Forall_forall.
  intros x (o & <- & Ho)%list_elem_of_In%in_map_iff. apply list_elem_of_In in Ho. apply to_dec_length.
  pose proof (octets_typed b) as Ht. rewrite Forall_forall in Ht. specialize (Ht o Ho). unfold fits in *. lia.
Qed.

Lemma fmt_subslice_short gs : Forall u16 gs → (String.length (fmt_subslice gs) ≤ length gs * 5)%nat.
Proof.
  intros Hgs. unfold fmt_subslice. etrans; [apply (join_length 4)|by rewrite length_map]. apply Forall_forall.
  intros x (g & <- & Hg)%list_elem_of_In%in_map_iff. apply list_elem_of_In in Hg.
  rewrite Forall_forall in Hgs. by apply hex_text, Hgs.
Qed.

Lemma display_ip_short ip : (String.length (display_ip ip) ≤ 100)%nat.
Proof.
  destruct ip as [b|b]; cbn [display_ip]; [pose proof (display_v4_short b); lia|]. unfold display_v6.
  destruct (to_ipv4_mapped b) as [v4|].
  { rewrite string_length_app. pose proof (display_v4_short v4). cbn [String.length]. lia. }
  pose proof (segments_typed b) as Hs. assert (length (segments b) = 8%nat) as Hl by done.
  destruct (longest_zeroes _ _ _ _) as [s n]. case_match.
  - rewrite !string_length_app.
    pose proof (fmt_subslice_short (take s (segments b)) (Forall_take _ _ _ Hs)) as H1.
    pose proof (fmt_subslice_short (drop (s + n) (segments b)) (Forall_drop _ _ _ Hs)) as H2.
    rewrite length_take in H1. rewrite length_drop in H2. cbn [String.length]. lia.
  - pose proof (fmt_subslice_short _ Hs). lia.
Qed.

Lemma addr_string_short a : plain a → u32 (len (addr_string a)).
Proof. intros (ip & -> & _ & ->)%plain_inv. pose proof (display_ip_short ip). unfold fits, len. lia. Qed.

Lemma addr_port_string_short e : plain_endpoint e → u32 (len (addr_port_string e)).
Proof.
  intros He. destruct (addr_port_string_plain e He) as (ip & _ & _ & ->). destruct He as [_ Hp].
  pose proof (display_ip_short ip). pose proof (to_dec_length _ Hp). unfold fits, len.
  destruct (is_ipv4 ip); rewrite !string_length_app; cbn [String.length]; lia.
Qed.

Lemma prefix_string_short p : plain_prefix p → u32 (len (prefix_string p)).
Proof.
  destruct p as [[|ip z] n]; intros [Ht Hv]; unfold prefix_typed, prefix_is_valid in *; cbn [pfx_addr pfx_bits] in *; [lia|].
  destruct Ht as (_ & -> & Hn). unfold prefix_string, prefix_is_valid. cbn [pfx_bits pfx_addr addr_string]. rewrite Hv.
  rewrite bool_decide_eq_true_2 by done.
  pose proof (display_ip_short ip). assert (width ip < 200) by (by destruct ip).
  pose proof (to_dec_length n ltac:(unfold fits; lia)).
  rewrite string_app_nil. unfold fits, len. rewrite !string_length_app. cbn [String.length]. lia.
Qed.
