(* ===== verification/DeviceConfig.v ===== *)
(** Signed device configurations of the control service:
    [services/control-api/internal/configuration/config.go], [signature.go] and
    [accept.go].

    A configuration is validated, turned into a canonical message, signed and
    delivered; a client opens it against its own device and version.  The message
    is shown to determine every field of a valid configuration. *)

From S2P Require Import Prelude Machine Text Net GoBase Netip.
Open Scope string_scope.
Open Scope Z_scope.

(** ** Configurations *)

Definition ErrInvalid : GoError := NewError "invalid device configuration".
Definition ErrExpired : GoError := NewError "device configuration expired".

Definition TransportWireGuard : string := "wireguard".
Definition maximumLifetime : Z := 24 * hour.
Definition maximumClockSkew : Z := 5 * minute.
Definition maximumDNSResolvers : Z := 8.

Record WireGuardParameters := mkParameters {
  PeerPublicKey : string;
  TunnelAddresses : list Prefix;
  AllowedIPs : list Prefix;
  MTU : Z;
  PersistentKeepaliveSecond : Z;
}.

Record DeviceConfig := mkDeviceConfig {
  Version : Z;
  DeviceID : string;
  NodeID : string;
  ConfigTransport : string;
  ConfigEndpoint : AddrPort;
  DNS : list Addr;
  Wireguard : WireGuardParameters;
  IssuedAt : Time;
  ExpiresAt : Time;
}.

#[export] Instance parameters_eq_dec : EqDecision WireGuardParameters.
Proof. solve_decision. Defined.
#[export] Instance device_config_eq_dec : EqDecision DeviceConfig.
Proof. solve_decision. Defined.

(** The fields at their Go types. *)
Definition parameters_typed (p : WireGuardParameters) : Prop :=
  Forall prefix_typed (TunnelAddresses p) ∧ Forall prefix_typed (AllowedIPs p) ∧
  u16 (MTU p) ∧ u16 (PersistentKeepaliveSecond p).
Definition config_typed (c : DeviceConfig) : Prop :=
  u64 (Version c) ∧ addr_port_typed (ConfigEndpoint c) ∧ Forall addr_typed (DNS c) ∧
  parameters_typed (Wireguard c) ∧ time_typed (IssuedAt c) ∧ time_typed (ExpiresAt c).

(** ** Validation *)

Definition validIdentifier (value : string) : bool := valid_slug_value value.

Definition invalid (detail : string) : GoError := with_detail ErrInvalid detail.

(** The loop over [PeerPublicKey] that stops at a nonzero byte. *)
Definition all_zero (key : string) : bool := all_bytes (λ c, code c =? 0) key.

Fixpoint check_tunnel_addresses (addresses : gset Addr) (l : list Prefix) : Result GoError unit :=
  match l with
  | [] => Ok tt
  | prefix :: l =>
      let address := pfx_addr prefix in
      reject_if (negb (prefix_is_valid prefix) || addr_is_unspecified address || addr_is_multicast address
        || negb (bool_decide (addr_zone address = ""))) (invalid "invalid WireGuard tunnel address");;
      reject_if (bool_decide (address ∈ addresses)) (invalid "duplicate WireGuard tunnel address");;
      check_tunnel_addresses ({[address]} ∪ addresses) l
  end.

Fixpoint check_allowed_prefixes (allowed : gset Prefix) (l : list Prefix) : Result GoError unit :=
  match l with
  | [] => Ok tt
  | prefix :: l =>
      let address := pfx_addr prefix in
      reject_if (negb (prefix_is_valid prefix) || negb (bool_decide (prefix = masked prefix))
        || addr_is_multicast address || is_4in6 address) (invalid "invalid WireGuard allowed IP prefix");;
      reject_if (bool_decide (prefix ∈ allowed)) (invalid "duplicate WireGuard allowed IP prefix");;
      check_allowed_prefixes ({[prefix]} ∪ allowed) l
  end.

Definition validate_parameters (p : WireGuardParameters) : Result GoError unit :=
  reject_if (negb (String.length (PeerPublicKey p) =? 32)%nat)
    (invalid "WireGuard peer public key must be 32 bytes");;
  reject_if (all_zero (PeerPublicKey p)) (invalid "WireGuard peer public key is zero");;
  reject_if ((length (TunnelAddresses p) =? 0)%nat || (16 <? length (TunnelAddresses p))%nat)
    (invalid "WireGuard requires between 1 and 16 tunnel addresses");;
  check_tunnel_addresses ∅ (TunnelAddresses p);;
  reject_if ((length (AllowedIPs p) =? 0)%nat || (64 <? length (AllowedIPs p))%nat)
    (invalid "WireGuard requires between 1 and 64 allowed IP prefixes");;
  check_allowed_prefixes ∅ (AllowedIPs p);;
  reject_if ((MTU p <? 1280) || (9000 <? MTU p)) (invalid "WireGuard MTU is outside safe bounds");;
  reject_if (300 <? PersistentKeepaliveSecond p) (invalid "WireGuard keepalive is outside safe bounds").

(** The endpoint test that [configuration] and [registry] share. *)
Definition endpoint_unusable (e : AddrPort) : bool :=
  let address := unmap (ap_addr e) in
  negb (addr_is_valid (ap_addr e)) || (ap_port e =? 0) || addr_is_unspecified address
  || addr_is_multicast address || negb (bool_decide (addr_zone (ap_addr e) = "")).

Fixpoint check_dns (resolvers : gset Addr) (l : list Addr) : Result GoError unit :=
  match l with
  | [] => Ok tt
  | resolver :: l =>
      let address := unmap resolver in
      reject_if (negb (addr_is_valid address) || addr_is_unspecified address || addr_is_multicast address
        || negb (bool_decide (addr_zone resolver = ""))) (invalid "invalid DNS resolver");;
      reject_if (bool_decide (address ∈ resolvers)) (invalid "duplicate DNS resolver");;
      check_dns ({[address]} ∪ resolvers) l
  end.

Definition validate_config `{GoQuote} (now : Time) (c : DeviceConfig) : Result GoError unit :=
  reject_if (Version c =? 0) (invalid "version must be positive");;
  reject_if (negb (validIdentifier (DeviceID c)) || negb (validIdentifier (NodeID c)))
    (invalid "device and node IDs must be lowercase slugs");;
  reject_if (negb (bool_decide (ConfigTransport c = TransportWireGuard)))
    (invalid ("unsupported transport " +:+ go_quote (ConfigTransport c)));;
  reject_if (endpoint_unusable (ConfigEndpoint c))
    (invalid "endpoint must contain an unscoped unicast IP address and nonzero port");;
  reject_if ((length (DNS c) =? 0)%nat || (maximumDNSResolvers <? Z.of_nat (length (DNS c))))
    (invalid ("between 1 and " +:+ to_dec maximumDNSResolvers +:+ " DNS resolvers are required"));;
  validate_parameters (Wireguard c);;
  check_dns ∅ (DNS c);;
  reject_if (time_is_zero (IssuedAt c) || time_is_zero (ExpiresAt c)
    || negb (time_after (ExpiresAt c) (IssuedAt c))) (invalid "invalid validity interval");;
  reject_if (maximumLifetime <? time_sub (ExpiresAt c) (IssuedAt c)) (invalid "lifetime exceeds 24h0m0s");;
  reject_if (time_after (IssuedAt c) (time_add now maximumClockSkew))
    (invalid "issued-at time is in the future");;
  reject_if (negb (time_after (ExpiresAt c) now)) ErrExpired.

(** ** Signatures *)

Definition ErrInvalidSignature : GoError := NewError "invalid configuration signature".
Definition ErrUnknownSigningKey : GoError := NewError "unknown configuration signing key".
Definition configurationDomain : string := "cyberia-device-configuration:v1".

Record Signer := mkSigner { signer_key_id : string; sign : string → Result GoError string }.

Record Verifier := mkVerifier { verify : string → string → string → Result GoError unit }.

Record SignedConfig := mkSigned { Config : DeviceConfig; KeyID : string; Signature : string }.

#[export] Instance signed_eq_dec : EqDecision SignedConfig.
Proof. solve_decision. Defined.

(** [crypto/ed25519]: a 64-byte private key contains its public key. *)
Class Ed25519 := {
  ed_public : string → string;
  ed_sign : string → string → string;
  ed_verify : string → string → string → bool;
}.

Definition PublicKeySize : nat := 32.
Definition PrivateKeySize : nat := 64.
Definition SignatureSize : nat := 64.

(** Documented behaviour: signatures have their size and verify. *)
Class Ed25519Spec `{Ed25519} := {
  ed_public_size : ∀ sk, String.length sk = PrivateKeySize → String.length (ed_public sk) = PublicKeySize;
  ed_sign_size : ∀ sk m, String.length sk = PrivateKeySize → String.length (ed_sign sk m) = SignatureSize;
  ed_sign_verifies : ∀ sk m, String.length sk = PrivateKeySize → ed_verify (ed_public sk) m (ed_sign sk m) = true;
}.

Section signatures.
Context `{GoQuote} `{Ed25519} `{MapRange}.

Definition new_ed25519_signer (keyID privateKey : string) : Result GoError Signer :=
  reject_if (negb (validIdentifier keyID)) (NewError "signing key ID must be a lowercase slug");;
  reject_if (negb (String.length privateKey =? PrivateKeySize)%nat) (NewError "invalid Ed25519 private key");;
  Ok (mkSigner keyID (λ message, Ok (ed_sign privateKey message))).

Definition ed25519_verify (publicKeys : gmap string string) (keyID message signature : string) :
    Result GoError unit :=
  match publicKeys !! keyID with
  | None => Err ErrUnknownSigningKey
  | Some publicKey =>
      reject_if (negb (String.length signature =? SignatureSize)%nat
        || negb (ed_verify publicKey message signature)) ErrInvalidSignature
  end.

Fixpoint check_public_keys (l : list (string * string)) : Result GoError unit :=
  match l with
  | [] => Ok tt
  | (keyID, publicKey) :: l =>
      reject_if (negb (validIdentifier keyID) || negb (String.length publicKey =? PublicKeySize)%nat)
        (NewError ("invalid public key " +:+ go_quote keyID));;
      check_public_keys l
  end.

Definition new_ed25519_verifier (publicKeys : gmap string string) : Result GoError Verifier :=
  check_public_keys (map_range publicKeys);;
  Ok (mkVerifier (ed25519_verify publicKeys)).

Definition append_field (destination f : string) : string :=
  append_uint32 destination (len f) +:+ f.

Definition append_time (destination : string) (value : Time) : string :=
  append_uint32 (append_uint64 destination (unix value)) (nanosecond value).

(** [for _, x := range l { message = appendField(message, []byte(x.String())) }]. *)
Definition append_fields {A} (show : A → string) (message : string) (l : list A) : string :=
  foldl (λ message a, append_field message (show a)) message l.

Definition signing_message (c : DeviceConfig) : string :=
  let message := append_field "" configurationDomain in
  let message := append_uint64 message (Version c) in
  let message := append_field message (DeviceID c) in
  let message := append_field message (NodeID c) in
  let message := append_field message (ConfigTransport c) in
  let message := append_field message (addr_port_string (ConfigEndpoint c)) in
  let message := append_uint32 message (Z.of_nat (length (DNS c))) in
  let message := append_fields addr_string message (DNS c) in
  let message := append_field message (PeerPublicKey (Wireguard c)) in
  let message := append_uint32 message (Z.of_nat (length (TunnelAddresses (Wireguard c)))) in
  let message := append_fields prefix_string message (TunnelAddresses (Wireguard c)) in
  let message := append_uint32 message (Z.of_nat (length (AllowedIPs (Wireguard c)))) in
  let message := append_fields prefix_string message (AllowedIPs (Wireguard c)) in
  let message := append_uint16 message (MTU (Wireguard c)) in
  let message := append_uint16 message (PersistentKeepaliveSecond (Wireguard c)) in
  let message := append_time message (IssuedAt c) in
  append_time message (ExpiresAt c).

(** The copies of slices are the same values. *)
Definition clone_config (c : DeviceConfig) : DeviceConfig :=
  mkDeviceConfig (Version c) (DeviceID c) (NodeID c) (ConfigTransport c) (ConfigEndpoint c) (DNS c)
    (mkParameters (PeerPublicKey (Wireguard c)) (TunnelAddresses (Wireguard c)) (AllowedIPs (Wireguard c))
       (MTU (Wireguard c)) (PersistentKeepaliveSecond (Wireguard c)))
    (IssuedAt c) (ExpiresAt c).

(** [None] is the nil interface. *)
Definition seal (config : DeviceConfig) (now : Time) (signer : option Signer) : Result GoError SignedConfig :=
  validate_config now config;;
  match signer with
  | None => Err (NewError "invalid configuration signer")
  | Some signer =>
      reject_if (negb (validIdentifier (signer_key_id signer))) (NewError "invalid configuration signer");;
      let config := clone_config config in
      signature ← map_err (in_context "sign configuration") (sign signer (signing_message config));
      Ok (mkSigned config (signer_key_id signer) signature)
  end.

Definition open_config (envelope : SignedConfig) (now : Time) (verifier : option Verifier) :
    Result GoError DeviceConfig :=
  match verifier with
  | None => Err (NewError "configuration verifier is required")
  | Some verifier =>
      map_err (in_context "verify configuration")
        (verify verifier (KeyID envelope) (signing_message (Config envelope)) (Signature envelope));;
      validate_config now (Config envelope);;
      Ok (clone_config (Config envelope))
  end.

(** ** Acceptance on a device *)

Definition ErrDeviceMismatch : GoError := NewError "configuration belongs to a different device".
Definition ErrStaleVersion : GoError := NewError "configuration version is stale".

Definition open_for_device (envelope : SignedConfig) (deviceID : string) (acceptedVersion : Z) (now : Time)
    (verifier : option Verifier) : Result GoError DeviceConfig :=
  config ← open_config envelope now verifier;
  reject_if (negb (bool_decide (DeviceID config = deviceID))) ErrDeviceMismatch;;
  reject_if (Version config <=? acceptedVersion) ErrStaleVersion;;
  Ok config.
End signatures.

(** ** What validation accepts *)

Definition unicast (a : Addr) : Prop := addr_is_unspecified a = false ∧ addr_is_multicast a = false.

Definition tunnel_address_ok (p : Prefix) : Prop :=
  prefix_is_valid p = true ∧ unicast (pfx_addr p) ∧ addr_zone (pfx_addr p) = "".
Definition allowed_prefix_ok (p : Prefix) : Prop :=
  prefix_is_valid p = true ∧ p = masked p ∧ addr_is_multicast (pfx_addr p) = false ∧ is_4in6 (pfx_addr p) = false.
Definition resolver_ok (a : Addr) : Prop := addr_is_valid (unmap a) = true ∧ unicast (unmap a) ∧ addr_zone a = "".
Definition endpoint_ok (e : AddrPort) : Prop :=
  addr_is_valid (ap_addr e) = true ∧ ap_port e ≠ 0 ∧ unicast (unmap (ap_addr e)) ∧ addr_zone (ap_addr e) = "".

Record valid_parameters (p : WireGuardParameters) : Prop := {
  key_size : String.length (PeerPublicKey p) = 32%nat;
  key_nonzero : all_zero (PeerPublicKey p) = false;
  tunnel_count : (1 ≤ length (TunnelAddresses p) ≤ 16)%nat;
  tunnel_ok : Forall tunnel_address_ok (TunnelAddresses p);
  tunnel_distinct : NoDup (pfx_addr <$> TunnelAddresses p);
  allowed_count : (1 ≤ length (AllowedIPs p) ≤ 64)%nat;
  allowed_ok : Forall allowed_prefix_ok (AllowedIPs p);
  allowed_distinct : NoDup (AllowedIPs p);
  mtu_range : 1280 ≤ MTU p ≤ 9000;
  keepalive_range : PersistentKeepaliveSecond p ≤ 300;
}.

Record valid_config (now : Time) (c : DeviceConfig) : Prop := {
  version_nonzero : Version c ≠ 0;
  device_slug : slug (DeviceID c);
  node_slug : slug (NodeID c);
  transport_wireguard : ConfigTransport c = TransportWireGuard;
  endpoint_usable : endpoint_ok (ConfigEndpoint c);
  dns_count : (1 ≤ length (DNS c) ≤ 8)%nat;
  dns_ok : Forall resolver_ok (DNS c);
  dns_distinct : NoDup (unmap <$> DNS c);
  parameters_valid : valid_parameters (Wireguard c);
  times_set : IssuedAt c ≠ zero_time ∧ ExpiresAt c ≠ zero_time;
  lifetime_bounded : IssuedAt c < ExpiresAt c ≤ IssuedAt c + maximumLifetime;
  issued_by_now : IssuedAt c ≤ now + maximumClockSkew;
  not_expired : now < ExpiresAt c;
}.

Lemma reject_ok {E A} b (e : E) (m : Result E A) a : (reject_if b e;; m) = Ok a ↔ b = false ∧ m = Ok a.
Proof. destruct b; cbn; naive_solver. Qed.

Lemma reject_last {E} b (e : E) : reject_if b e = Ok tt ↔ b = false.
Proof. destruct b; cbn; naive_solver. Qed.

Lemma bind_ok {E A B} (m : Result E A) (f : A → Result E B) b :
  (m ≫= f) = Ok b ↔ ∃ a, m = Ok a ∧ f a = Ok b.
Proof. destruct m; cbn; naive_solver. Qed.

Lemma bind_unit_ok {E A} (m : Result E unit) (k : Result E A) a : (m;; k) = Ok a ↔ m = Ok tt ∧ k = Ok a.
Proof. rewrite bind_ok. split; [intros ([] & ? & ?); done|naive_solver]. Qed.

Lemma check_tunnel_addresses_ok l :
  check_tunnel_addresses ∅ l = Ok tt ↔ Forall tunnel_address_ok l ∧ NoDup (pfx_addr <$> l).
Proof.
  apply unique_loop_spec; [done|]. intros seen p l'. cbn [check_tunnel_addresses].
  rewrite !reject_ok, !orb_false_iff, !negb_false_iff, bool_decide_eq_true, bool_decide_eq_false.
  unfold tunnel_address_ok, unicast. naive_solver.
Qed.

Lemma check_allowed_prefixes_ok l :
  check_allowed_prefixes ∅ l = Ok tt ↔ Forall allowed_prefix_ok l ∧ NoDup l.
Proof.
  rewrite (unique_loop_spec allowed_prefix_ok id check_allowed_prefixes); [by rewrite list_fmap_id|done|].
  intros seen p l'. cbn [check_allowed_prefixes].
  rewrite !reject_ok, !orb_false_iff, !negb_false_iff, bool_decide_eq_true, bool_decide_eq_false.
  unfold allowed_prefix_ok. naive_solver.
Qed.

Lemma check_dns_ok l : check_dns ∅ l = Ok tt ↔ Forall resolver_ok l ∧ NoDup (unmap <$> l).
Proof.
  apply unique_loop_spec; [done|]. intros seen p l'. cbn [check_dns].
  rewrite !reject_ok, !orb_false_iff, !negb_false_iff, bool_decide_eq_true, bool_decide_eq_false.
  unfold resolver_ok, unicast. naive_solver.
Qed.

Lemma validate_parameters_ok p : validate_parameters p = Ok tt ↔ valid_parameters p.
Proof.
  unfold validate_parameters.
  rewrite ?reject_ok, bind_unit_ok, reject_ok, bind_unit_ok, reject_ok, reject_last.
  rewrite check_tunnel_addresses_ok, check_allowed_prefixes_ok.
  rewrite !orb_false_iff, negb_false_iff, !Nat.eqb_neq, Nat.eqb_eq, !Nat.ltb_ge, !Z.ltb_ge.
  split; [|intros []; naive_solver lia]. intros (? & ? & ? & [? ?] & ? & [? ?] & ? & ?). split; try done; lia.
Qed.

Lemma endpoint_unusable_ok e : endpoint_unusable e = false ↔ endpoint_ok e.
Proof.
  unfold endpoint_unusable, endpoint_ok, unicast.
  rewrite !orb_false_iff, !negb_false_iff, Z.eqb_neq, bool_decide_eq_true. naive_solver.
Qed.

Section valid.
Context `{GoQuote}.

Lemma validate_config_ok now c : validate_config now c = Ok tt ↔ valid_config now c.
Proof.
  unfold validate_config. rewrite !bind_unit_ok, !reject_last.
  rewrite validate_parameters_ok, check_dns_ok, endpoint_unusable_ok.
  rewrite !orb_false_iff, !negb_false_iff, !Nat.eqb_neq, !Z.ltb_ge, bool_decide_eq_true.
  unfold validIdentifier, time_is_zero, time_after, time_add, time_sub.
  rewrite !valid_slug_value_spec, !Z.ltb_lt, !Z.ltb_ge, !Z.eqb_neq. unfold maximumDNSResolvers. split.
  - intros (? & [? ?] & ? & ? & ? & ? & [? ?] & [[? ?] ?] & Hsub & ? & ?).
    split; try done; [lia|]. unfold maximumLifetime, hour, minute, second in *. lia.
  - intros []. unfold maximumLifetime, hour, minute, second in *.
    split_and!; try done; try lia; naive_solver lia.
Qed.

(** ** The message determines the configuration *)

Lemma append_field_eq d f : append_field d f = d +:+ field f.
Proof. unfold append_field, append_uint32, field. by rewrite string_app_assoc. Qed.

Lemma append_fields_eq {A} (show : A → string) d l :
  append_fields show (append_uint32 d (Z.of_nat (length l))) l = d +:+ fields_of show l.
Proof.
  unfold fields_of, append_uint32. rewrite <-string_app_assoc. generalize (d +:+ big_endian 4 (Z.of_nat (length l))).
  clear d. induction l as [|a l IH]; intros d; cbn [append_fields foldl map]; [by rewrite string_app_nil|].
  unfold append_fields in IH. rewrite IH, append_field_eq, concat_cons, !string_app_assoc. done.
Qed.

Lemma append_time_eq d t : append_time d t = d +:+ big_endian 8 (unix t) +:+ big_endian 4 (nanosecond t).
Proof. unfold append_time, append_uint32, append_uint64. by rewrite string_app_assoc. Qed.

Lemma signing_message_eq c :
  signing_message c =
    field configurationDomain +:+ big_endian 8 (Version c) +:+ field (DeviceID c) +:+ field (NodeID c)
    +:+ field (ConfigTransport c) +:+ field (addr_port_string (ConfigEndpoint c))
    +:+ fields_of addr_string (DNS c) +:+ field (PeerPublicKey (Wireguard c))
    +:+ fields_of prefix_string (TunnelAddresses (Wireguard c))
    +:+ fields_of prefix_string (AllowedIPs (Wireguard c))
    +:+ big_endian 2 (MTU (Wireguard c)) +:+ big_endian 2 (PersistentKeepaliveSecond (Wireguard c))
    +:+ big_endian 8 (unix (IssuedAt c)) +:+ big_endian 4 (nanosecond (IssuedAt c))
    +:+ big_endian 8 (unix (ExpiresAt c)) +:+ big_endian 4 (nanosecond (ExpiresAt c)) +:+ "".
Proof.
  unfold signing_message. cbv zeta. rewrite !append_time_eq. unfold append_uint16, append_uint64.
  rewrite !append_fields_eq, !append_field_eq, !string_app_assoc. by rewrite !string_app_nil.
Qed.

Lemma time_peel t u s s' :
  time_typed t → time_typed u →
  big_endian 8 (unix t) +:+ big_endian 4 (nanosecond t) +:+ s =
    big_endian 8 (unix u) +:+ big_endian 4 (nanosecond u) +:+ s' → t = u ∧ s = s'.
Proof.
  intros Ht Hu [Hs [Hn ->]%(big_endian_inj 4)]%big_endian_peel; [|apply nanosecond_fits..]. split; [|done].
  rewrite (time_of_parts t), (time_of_parts u), Hn. unfold time_typed in *.
  change (2 ^ (8 * Z.of_nat 8)) with (2 ^ 64) in Hs. f_equal. f_equal.
  pose proof (Z.div_mod (unix t) (2 ^ 64)). pose proof (Z.div_mod (unix u) (2 ^ 64)). nia.
Qed.

Lemma slug_short s : slug s → u32 (len s).
Proof. intros [Hl _]. unfold fits, len. lia. Qed.

Lemma resolver_plain a : addr_typed a → resolver_ok a → plain a.
Proof.
  intros Ht (Hv & _ & Hz). split_and!; [done| |done]. destruct a as [|ip z]; [done|done].
Qed.

Lemma endpoint_plain e : addr_port_typed e → endpoint_ok e → plain_endpoint e.
Proof. intros [Ht Hp] (Hv & _ & _ & Hz). by split_and!. Qed.

Lemma signing_message_inj now now' c c' :
  config_typed c → config_typed c' → valid_config now c → valid_config now' c' →
  signing_message c = signing_message c' → c = c'.
Proof.
  intros (Tv & Te & Td & (Tt & Ta & Tm & Tk) & Ti & Tx) (Tv' & Te' & Td' & (Tt' & Ta' & Tm' & Tk') & Ti' & Tx') V V'.
  assert (∀ l, Forall addr_typed l → Forall resolver_ok l → Forall plain l) as Hplain.
  { intros l H1 H2. eapply Forall_impl; [apply Forall_and; split; [exact H1|exact H2]|].
    intros a [? ?]. by apply resolver_plain. }
  assert (∀ (P : Prefix → Prop) l, (∀ p, P p → prefix_is_valid p = true) →
    Forall prefix_typed l → Forall P l → Forall plain_prefix l) as Hprefix.
  { intros P l HP H1 H2. eapply Forall_impl; [apply Forall_and; split; [exact H1|exact H2]|].
    intros p [? ?]. split; auto. }
  rewrite !signing_message_eq. intros [_ Hm]%field_peel; [|by vm_compute..].
  apply (big_endian_inj 8) in Hm as [Ev Hm]; [|done..].
  apply field_peel in Hm as [Ed Hm]; [|apply slug_short; by eapply device_slug..].
  apply field_peel in Hm as [En Hm]; [|apply slug_short; by eapply node_slug..].
  apply field_peel in Hm as [Et Hm];
    [|rewrite (transport_wireguard _ _ V); by vm_compute|rewrite (transport_wireguard _ _ V'); by vm_compute].
  pose proof (endpoint_plain _ Te (endpoint_usable _ _ V)) as Pe.
  pose proof (endpoint_plain _ Te' (endpoint_usable _ _ V')) as Pe'.
  apply field_peel in Hm as [Ee Hm]; [|by apply addr_port_string_short..]. apply addr_port_string_inj in Ee; [|done..].
  apply (fields_peel _ plain) in Hm as [El Hm];
    [|apply addr_string_short|apply addr_string_inj|apply Hplain; [done|by eapply dns_ok]..| |].
  2: { pose proof (dns_count _ _ V). unfold fits. lia. }
  2: { pose proof (dns_count _ _ V'). unfold fits. lia. }
  destruct (parameters_valid _ _ V) as [Wk _ Wt Wto _ Wa Wao _ _ _].
  destruct (parameters_valid _ _ V') as [Wk' _ Wt' Wto' _ Wa' Wao' _ _ _].
  apply field_peel in Hm as [Ek Hm]; [|unfold fits, len; lia..].
  apply (fields_peel _ plain_prefix) in Hm as [Etun Hm]; [|apply prefix_string_short|apply prefix_string_inj| | | |];
    [|eapply (Hprefix tunnel_address_ok); [by intros ? []|done..]..|unfold fits; lia|unfold fits; lia].
  apply (fields_peel _ plain_prefix) in Hm as [Eall Hm]; [|apply prefix_string_short|apply prefix_string_inj| | | |];
    [|eapply (Hprefix allowed_prefix_ok); [by intros ? []|done..]..|unfold fits; lia|unfold fits; lia].
  apply (big_endian_inj 2) in Hm as [Emtu Hm]; [|done..]. apply (big_endian_inj 2) in Hm as [Eka Hm]; [|done..].
  apply time_peel in Hm as [Ei Hm]; [|done..]. apply time_peel in Hm as [Ex _]; [|done..].
  destruct c as [? ? ? ? ? ? [] ? ?], c' as [? ? ? ? ? ? [] ? ?]. cbn in *. congruence.
Qed.

(** ** Sealing and opening *)

Context `{Ed25519} `{MapRange}.

Lemma clone_config_id c : clone_config c = c.
Proof. by destruct c as [? ? ? ? ? ? [] ? ?]. Qed.

Lemma open_config_ok envelope now verifier c :
  open_config envelope now verifier = Ok c ↔
  ∃ v, verifier = Some v ∧ c = Config envelope ∧
    verify v (KeyID envelope) (signing_message c) (Signature envelope) = Ok tt ∧ valid_config now c.
Proof.
  unfold open_config. destruct verifier as [v|]; [|naive_solver].
  rewrite !bind_unit_ok, validate_config_ok, clone_config_id. split.
  - intros (Hv & Hc & [= <-]). exists v. split_and!; try done. by destruct (verify _ _ _ _) as [[]| |].
  - intros (v' & [= <-] & -> & -> & Hc). done.
Qed.

Lemma ed25519_verify_ok keys keyID message signature :
  ed25519_verify keys keyID message signature = Ok tt ↔
  ∃ pk, keys !! keyID = Some pk ∧ String.length signature = SignatureSize ∧
    ed_verify pk message signature = true.
Proof.
  unfold ed25519_verify. destruct (keys !! keyID) as [pk|]; [|naive_solver].
  rewrite reject_last, orb_false_iff, !negb_false_iff, Nat.eqb_eq. naive_solver.
Qed.

Lemma new_verifier_ok keys v : new_ed25519_verifier keys = Ok v → v = mkVerifier (ed25519_verify keys).
Proof. unfold new_ed25519_verifier. rewrite bind_unit_ok. by intros [_ [= <-]]. Qed.

Lemma new_signer_ok keyID sk s :
  new_ed25519_signer keyID sk = Ok s ↔
  slug keyID ∧ String.length sk = PrivateKeySize ∧ s = mkSigner keyID (λ m, Ok (ed_sign sk m)).
Proof.
  unfold new_ed25519_signer, validIdentifier.
  rewrite !reject_ok, !negb_false_iff, valid_slug_value_spec, Nat.eqb_eq. naive_solver.
Qed.

Lemma seal_ok c now s envelope :
  seal c now (Some s) = Ok envelope ↔
  valid_config now c ∧ slug (signer_key_id s) ∧
  ∃ signature, sign s (signing_message c) = Ok signature ∧ envelope = mkSigned c (signer_key_id s) signature.
Proof.
  unfold seal, validIdentifier. rewrite !bind_unit_ok, reject_last, negb_false_iff, validate_config_ok,
    valid_slug_value_spec, clone_config_id, bind_ok.
  split.
  - intros (? & ? & signature & Hs & [= <-]). split_and!; try done. exists signature.
    by destruct (sign _ _); cbn in Hs; simplify_eq.
  - intros (? & ? & signature & Hs & ->). split_and!; try done. exists signature. by rewrite Hs.
Qed.

Lemma open_for_device_ok envelope deviceID accepted now verifier c :
  open_for_device envelope deviceID accepted now verifier = Ok c ↔
  open_config envelope now verifier = Ok c ∧ DeviceID c = deviceID ∧ accepted < Version c.
Proof.
  unfold open_for_device. rewrite bind_ok. split.
  - intros (c' & Ho & [Hd [Hv [= <-]]%reject_ok]%reject_ok).
    by rewrite negb_false_iff, bool_decide_eq_true in Hd; apply Z.leb_gt in Hv.
  - intros (Ho & Hd & Hv). exists c. split; [done|].
    rewrite !reject_ok, negb_false_iff, bool_decide_eq_true, Z.leb_gt. done.
Qed.

(** The signature of an envelope stands for a message that was signed. *)
Definition not_forged (keys : gmap string string) (sealed : list DeviceConfig) (envelope : SignedConfig) : Prop :=
  ∀ pk, keys !! KeyID envelope = Some pk →
    ed_verify pk (signing_message (Config envelope)) (Signature envelope) = true →
    ∃ c now, c ∈ sealed ∧ config_typed c ∧ validate_config now c = Ok tt ∧
      signing_message (Config envelope) = signing_message c.
End valid.

(** ** Theorems *)

(** C28: the canonical message determines the configuration: two valid
    configurations with the same signing message are equal in every field
    (version, identifiers, endpoint, resolvers, WireGuard parameters and validity
    interval), so a signature cannot be moved to other connection parameters. *)
Theorem signing_message_injective `{GoQuote} now now' c c' :
  config_typed c → config_typed c' →
  validate_config now c = Ok tt → validate_config now' c' = Ok tt →
  signing_message c = signing_message c' → c = c'.
Proof. intros Ht Ht' V%validate_config_ok V'%validate_config_ok. by eapply signing_message_inj. Qed.

(** C15: what a device opens is what was sealed.  For an envelope that is no
    forgery (if its signature verifies, the message is that of a configuration
    that was valid when it was sealed), [OpenForDevice] returns one of exactly the
    sealed configurations, for this device, with a version above the accepted one
    and inside its validity interval; and an envelope sealed with a trusted key
    opens to its configuration as long as it is valid, unless a version as high
    was accepted before. *)
Theorem opened_was_sealed `{GoQuote} `{Ed25519Spec} `{MapRange} keys v (sealed : list DeviceConfig) :
  new_ed25519_verifier keys = Ok v →
  (∀ envelope deviceID accepted now c,
     config_typed (Config envelope) → not_forged keys sealed envelope →
     open_for_device envelope deviceID accepted now (Some v) = Ok c →
     c ∈ sealed ∧ DeviceID c = deviceID ∧ accepted < Version c ∧ validate_config now c = Ok tt) ∧
  (∀ keyID sk signer c at_ envelope accepted now,
     new_ed25519_signer keyID sk = Ok signer → keys !! keyID = Some (ed_public sk) →
     seal c at_ (Some signer) = Ok envelope → validate_config now c = Ok tt →
     open_for_device envelope (DeviceID c) accepted now (Some v) =
       if Version c <=? accepted then Err ErrStaleVersion else Ok c).
Proof.
  intros ->%new_verifier_ok. split.
  - intros envelope deviceID accepted now c Ht Honly (Ho & Hd & Hv)%open_for_device_ok.
    apply open_config_ok in Ho as (? & [= <-] & -> & Hver & Hc).
    apply ed25519_verify_ok in Hver as (pk & Hk & _ & Hver).
    destruct (Honly _ Hk Hver) as (c0 & now0 & Hin & Ht0 & V0%validate_config_ok & Hm).
    pose proof (signing_message_inj now now0 _ c0 Ht Ht0 Hc V0 Hm) as Heq. rewrite Heq in *.
    by rewrite validate_config_ok.
  - intros keyID sk signer c at_ envelope accepted now (Hid & Hsk & ->)%new_signer_ok Hk
      (_ & _ & signature & [= <-] & ->)%seal_ok V%validate_config_ok. cbn [signer_key_id sign].
    assert (open_config (mkSigned c keyID (ed_sign sk (signing_message c))) now
      (Some (mkVerifier (ed25519_verify keys))) = Ok c) as Ho.
    { apply open_config_ok. eexists. split_and!; [done..| |done]. apply ed25519_verify_ok. exists (ed_public sk).
      split_and!; [done|by apply ed_sign_size|by apply ed_sign_verifies]. }
    unfold open_for_device. rewrite Ho. cbn. rewrite bool_decide_eq_true_2 by done. cbn.
    by destruct (Version c <=? accepted).
Qed.

(** ** Witnesses *)

Module Toys.
#[export] Instance plain_quote : GoQuote := {| go_quote s := String.append quote (String.append s quote) |}.

#[export] Instance list_range : MapRange.
Proof. refine {| map_range K _ _ A := map_to_list |}. done. Defined.

(** Signatures that name their key. *)
#[export] Instance toy_ed25519 : Ed25519 := {|
  ed_public sk := String.substring 0 32 sk;
  ed_sign sk m := sk;
  ed_verify pk m s := bool_decide (String.substring 0 32 s = pk);
|}.

Lemma substring_length n m s :
  (n + m ≤ String.length s)%nat → String.length (String.substring n m s) = m.
Proof.
  revert n m. induction s as [|c s IH]; intros [|n] [|m]; cbn; intros; try lia; try done; rewrite IH; lia.
Qed.

#[export] Instance toy_ed25519_spec : Ed25519Spec.
Proof.
  split; cbn.
  - intros sk Hsk. apply substring_length. rewrite Hsk. unfold PrivateKeySize, PublicKeySize. lia.
  - done.
  - intros. by apply bool_decide_eq_true_2.
Qed.
End Toys.
Import Toys.

Definition sample_parameters : WireGuardParameters :=
  mkParameters (String.concat "" (replicate 32 "k")) [mkPrefix (AddrOf (V4 167772162) "") 24]
    [mkPrefix (AddrOf (V4 0) "") 0; mkPrefix (AddrOf (V6 0) "") 0] 1420 25.

(** Version 7 for the device [laptop], issued at a Unix time and valid an hour. *)
Definition sample_issued : Time := 1788563400 * second.
Definition sample_config : DeviceConfig :=
  mkDeviceConfig 7 "laptop" "de-fra-1" TransportWireGuard (mkAddrPort (AddrOf (V4 3221225994) "") 51820)
    [AddrOf (V4 3221226037) ""; AddrOf (V6 42540766411282592856903984951653826561) ""]
    sample_parameters sample_issued (sample_issued + hour).

Lemma sample_config_typed : config_typed sample_config.
Proof.
  unfold config_typed, addr_port_typed, parameters_typed, prefix_typed, time_typed, fits. cbn.
  split_and!; try lia; repeat constructor; cbn; unfold fits; try lia; done.
Qed.

Lemma signing_message_injective_witness :
  validate_config sample_issued sample_config = Ok tt ∧ sample_config = clone_config sample_config.
Proof.
  split; [vm_compute; reflexivity|].
  apply (signing_message_injective sample_issued sample_issued);
    [apply sample_config_typed|apply sample_config_typed|vm_compute; reflexivity..|reflexivity].
Defined.

Definition sample_private : string := String.concat "" (replicate 64 "s").
Definition sample_signer : Signer := mkSigner "ops-1" (λ m, Ok (ed_sign sample_private m)).
Definition sample_keys : gmap string string := {["ops-1" := ed_public sample_private]}.
Definition sample_verifier : Verifier := mkVerifier (ed25519_verify sample_keys).
Definition sample_envelope : SignedConfig := mkSigned sample_config "ops-1" sample_private.

Lemma opened_was_sealed_witness :
  seal sample_config sample_issued (Some sample_signer) = Ok sample_envelope ∧
  open_for_device sample_envelope "laptop" 6 sample_issued (Some sample_verifier) = Ok sample_config ∧
  open_for_device sample_envelope "laptop" 7 sample_issued (Some sample_verifier) = Err ErrStaleVersion ∧
  sample_config ∈ [sample_config].
Proof.
  destruct (opened_was_sealed sample_keys sample_verifier [sample_config]) as [Hopen Hseal];
    [vm_compute; reflexivity|].
  assert (∀ accepted, open_for_device sample_envelope "laptop" accepted sample_issued (Some sample_verifier) =
    if Version sample_config <=? accepted then Err ErrStaleVersion else Ok sample_config) as Heq.
  { intros accepted. apply (Hseal "ops-1" sample_private sample_signer sample_config sample_issued);
      vm_compute; reflexivity. }
  split; [vm_compute; reflexivity|]. split; [apply (Heq 6)|]. split; [apply (Heq 7)|].
  apply (Hopen sample_envelope "laptop" 6 sample_issued sample_config);
    [apply sample_config_typed| |apply (Heq 6)].
  intros pk _ _. exists sample_config, sample_issued.
  split; [by left|]. split; [apply sample_config_typed|]. split; [vm_compute; reflexivity|reflexivity].
Defined.
