(* ===== verification/Snapshot.v ===== *)
(** Durable snapshots of the control service:
    [services/control-api/internal/snapshot/file.go] and [lock_linux.go].

    A snapshot is replaced by writing a temporary file, syncing it, renaming it
    over the old one and syncing the directory.  The file system is a parameter:
    its operations may fail in any way, and what it promises (POSIX [rename] and
    [fsync]) is the class [StorageSpec], stated with the contents a file may have
    after the machine loses power.  Every disk state a call passes through is
    recorded, so a crash can be placed anywhere inside it. *)

From S2P Require Import Prelude Machine Text GoBase.
Open Scope string_scope.
Open Scope Z_scope.

(** ** The file system *)

Definition ErrNotExist : GoError := NewError "file does not exist".
Definition ErrClosed : GoError := NewError "file already closed".
Definition ErrWouldBlock : GoError := NewError "resource temporarily unavailable".

Record FileInfo := mkInfo { info_dir : bool; info_regular : bool; info_perm : Z; info_size : Z }.

(** An open [os.File]: its descriptor and its name. *)
Record Handle := mkHandle { h_fd : nat; h_name : string }.

(** The calls of the service, with the type of their result; [Chmod] and
    [ReadFile] are made by its executables. *)
Inductive FsOp : Type → Type :=
| Abs (path : string) : FsOp string
| MkdirAll (path : string) (perm : Z) : FsOp unit
| Lstat (path : string) : FsOp FileInfo
| OpenFile (path : string) (perm : Z) : FsOp Handle
| Flock (h : Handle) : FsOp unit
| Open (path : string) : FsOp Handle
| ReadAll (h : Handle) (limit : Z) : FsOp string
| CreateTemp (dir pattern : string) : FsOp Handle
| Write (h : Handle) (data : string) : FsOp unit
| Sync (h : Handle) : FsOp unit
| CloseFile (h : Handle) : FsOp unit
| Rename (old new : string) : FsOp unit
| Remove (path : string) : FsOp unit
| Chmod (path : string) (perm : Z) : FsOp unit
| ReadFile (path : string) : FsOp string.

Class Storage := {
  Disk : Type;
  fs_exec : ∀ {A}, FsOp A → Disk → (GoError + A) * Disk;
}.

(** The paths whose contents a call may change, given what it returned. *)
Definition affects {A} (op : FsOp A) : (GoError + A) → string → Prop :=
  match op in FsOp A return (GoError + A) → string → Prop with
  | OpenFile p _ => λ _ path, path = p
  | CreateTemp _ _ => λ r path, match r with inr h => path = h_name h | inl _ => False end
  | Write h _ => λ _ path, path = h_name h
  | Rename old new => λ r path, match r with inr _ => path = old ∨ path = new | inl _ => False end
  | Remove p => λ _ path, path = p
  | _ => λ _ _, False
  end.

(** The [*] of the pattern is replaced by digits, in the directory. *)
Definition temp_name (dir prefix name : string) : Prop := ∃ suffix, name = dir +:+ "/" +:+ prefix +:+ suffix.

(** An absolute path in the form [filepath.Clean] leaves alone, below a directory
    other than the root, whose last component is no temporary name. *)
Definition component (s : string) : Prop :=
  s ≠ "" ∧ s ≠ "." ∧ s ≠ ".." ∧ contains_char "/" s = false.
Definition rooted (parts : list string) : string := String.concat "" (map (λ x, "/" +:+ x) parts).
Definition temp_prefix : string := ".cyberia-snapshot-".

Definition proper_path (path : string) : Prop :=
  ∃ parts base, parts ≠ [] ∧ Forall component (parts ++ [base])%list ∧ path = rooted parts +:+ "/" +:+ base ∧
    ∀ suffix, base ≠ temp_prefix +:+ suffix.

Class StorageSpec `{Storage} := {
  (** what a read sees now, and what it may see after a loss of power *)
  contents : Disk → string → option string;
  outcomes : Disk → string → option string → Prop;
  crash : Disk → Disk → Prop;
  (** a temporary file with these bytes, the same on stable storage, an entry
      renamed to them, and what an open file reads *)
  written : Disk → string → string → Prop;
  durable : Disk → string → string → Prop;
  renamed : Disk → string → string → Prop;
  opened : Disk → Handle → string → Prop;
  abs_law : ∀ path d r d', proper_path path → fs_exec (Abs path) d = (r, d') → r = inr path;
  frame_law : ∀ {A} (op : FsOp A) d r d' path, fs_exec op d = (r, d') → ¬ affects op r path →
    contents d' path = contents d path ∧ ∀ c, outcomes d' path c → outcomes d path c;
  create_law : ∀ dir prefix d h d', fs_exec (CreateTemp dir (prefix +:+ "*")) d = (inr h, d') →
    temp_name dir prefix (h_name h) ∧ written d' (h_name h) "";
  write_law : ∀ h data d d', fs_exec (Write h data) d = (inr tt, d') →
    written d (h_name h) "" → written d' (h_name h) data;
  sync_law : ∀ h data d d', fs_exec (Sync h) d = (inr tt, d') →
    written d (h_name h) data → durable d' (h_name h) data;
  close_law : ∀ h name data d r d', fs_exec (CloseFile h) d = (r, d') →
    durable d name data → durable d' name data;
  rename_law : ∀ old new data d d', fs_exec (Rename old new) d = (inr tt, d') → durable d old data →
    contents d' new = Some data ∧ renamed d' new data ∧
    ∀ c, outcomes d' new c → outcomes d new c ∨ c = Some data;
  sync_dir_law : ∀ h path data d d', fs_exec (Sync h) d = (inr tt, d') →
    (∃ base, component base ∧ path = h_name h +:+ "/" +:+ base) → renamed d path data →
    ∀ c, outcomes d' path c → c = Some data;
  crash_law : ∀ d d' path, crash d d' →
    outcomes d path (contents d' path) ∧ ∀ c, outcomes d' path c → c = contents d' path;
  open_law : ∀ path d h d', fs_exec (Open path) d = (inr h, d') →
    h_name h = path ∧ ∀ s, contents d path = Some s → opened d' h s;
  read_law : ∀ h limit s d data d', fs_exec (ReadAll h limit) d = (inr data, d') → opened d h s →
    data = String.substring 0 (Z.to_nat limit) s;
  regular_law : ∀ path d info d', fs_exec (Lstat path) d = (inr info, d') → info_regular info = true →
    is_Some (contents d path);
  absent_law : ∀ path d e d',
    fs_exec (Lstat path) d = (inl e, d') ∨ (∃ d0, fs_exec (Open path) d = (inl e, d0)) →
    errors_is e ErrNotExist = true → contents d path = None;
  read_error_law : ∀ h limit d e d', fs_exec (ReadAll h limit) d = (inl e, d') → errors_is e ErrNotExist = false;
}.

(** A running system: its disk and the states the disk has passed through. *)
Record Sys `{Storage} := mkSys { disk : Disk; past : list Disk }.

Section calls.
Context `{Storage} {C : Type}.

Definition exec {A} (op : FsOp A) : Act (C * Sys) GoError A := λ '(c, s),
  match fs_exec op (disk s) with
  | (inr a, d) => (Ok a, (c, mkSys _ d (disk s :: past s)))
  | (inl e, d) => (Err e, (c, mkSys _ d (disk s :: past s)))
  end.

(** [defer cleanup] before [body]: it runs on every return, its error ignored. *)
Definition with_defer {A} (cleanup : Act (C * Sys) GoError unit) (body : Act (C * Sys) GoError A) :
    Act (C * Sys) GoError A := λ s,
  let '(r, s) := body s in
  match r with Panic => (Panic, s) | _ => (r, (attempt (F := GoError) cleanup s).2) end.

Definition me {A} (f : C → A) : Act (C * Sys) GoError A := read (λ s, f s.1).
Definition set_me (f : C → C) : Act (C * Sys) GoError unit := update (λ '(c, s), (f c, s)).
End calls.

(** [filepath.Dir] of a cleaned absolute path. *)
Definition filepath_dir (path : string) : string :=
  match drop_while (λ c, negb (Ascii.eqb c "/"%char)) (rev (chars path)) with
  | [] => "."
  | [_] => "/"
  | _ :: rest => of_chars (rev rest)
  end.

(** ** [snapshot.File] *)

Definition ErrLocked : GoError := NewError "snapshot already owned by another store".

Record File := mkFile {
  f_path : string;
  f_limit : Z;
  f_lock : option Handle;
  f_failed : option GoError;
}.

Definition set_lock (l : option Handle) (f : File) : File := mkFile (f_path f) (f_limit f) l (f_failed f).
Definition set_failed (e : GoError) (f : File) : File := mkFile (f_path f) (f_limit f) (f_lock f) (Some e).

Section file.
Context `{Storage}.

Definition check_private_file {C} (path : string) : Act (C * Sys) GoError unit :=
  info ← exec (Lstat path);
  guard_err (negb (info_regular info) || negb (Z.land (info_perm info) 63 =? 0))
    (NewError "snapshot must be a private regular file").

Definition lock_file {C} (h : Handle) : Act (C * Sys) GoError unit :=
  r ← attempt (exec (Flock h));
  match r with
  | inl e => if errors_is e ErrWouldBlock then raise ErrLocked else raise e
  | inr _ => mret tt
  end.

(** The last steps of [Open]: create or open the lock file and take its lock. *)
Definition take_lock {C} (path lockPath : string) (limit : Z) : Act (C * Sys) GoError File :=
  lock ← exec (OpenFile lockPath 384);
  locked ← attempt (lock_file lock);
  match locked with
  | inl e => attempt (F := GoError) (exec (CloseFile lock));; raise e
  | inr _ => mret (mkFile path limit (Some lock) None)
  end.

Definition snapshot_open {C} (path : string) (limit : Z) : Act (C * Sys) GoError File :=
  guard_err (bool_decide (path = "") || (limit <=? 0) || (64 * 2 ^ 20 <? limit))
    (NewError "snapshot path and size bound in (0, 64 MiB] required");;
  path ← exec (Abs path);
  let dir := filepath_dir path in
  exec (MkdirAll dir 448);;
  info ← exec (Lstat dir);
  guard_err (negb (info_dir info) || negb (Z.land (info_perm info) 63 =? 0))
    (NewError "snapshot directory must be private and must not be a symlink");;
  let lockPath := path +:+ ".lock" in
  checked ← attempt (check_private_file lockPath);
  (match checked with
   | inl e => if errors_is e ErrNotExist then mret tt else raise e
   | inr _ => mret tt
   end);;
  take_lock path lockPath limit.

(** [file.check()], the body of [Check] under the mutex. *)
Definition file_check : Act (File * Sys) GoError unit :=
  lock ← me f_lock; failed ← me f_failed;
  match lock with
  | None => raise ErrClosed
  | Some _ => match failed with Some e => raise e | None => mret tt end
  end.

Definition file_read : Act (File * Sys) GoError string :=
  file_check;;
  path ← me f_path; limit ← me f_limit;
  check_private_file path;;
  input ← exec (Open path);
  with_defer (exec (CloseFile input))
    (data ← exec (ReadAll input (limit + 1));
     guard_err (limit <? len data) (NewError "snapshot exceeds size limit");;
     mret data).

Definition file_write (data : string) : Act (File * Sys) GoError unit :=
  file_check;;
  path ← me f_path; limit ← me f_limit;
  guard_err (limit <? len data) (NewError "snapshot exceeds size limit");;
  dir ← exec (Open (filepath_dir path));
  with_defer (exec (CloseFile dir))
    (temporary ← exec (CreateTemp (filepath_dir path) (temp_prefix +:+ "*"));
     with_defer (exec (Remove (h_name temporary)))
       (with_defer (exec (CloseFile temporary))
          (exec (Write temporary data);;
           exec (Sync temporary);;
           exec (CloseFile temporary);;
           exec (Rename (h_name temporary) path);;
           synced ← attempt (exec (Sync dir));
           match synced with
           | inl e =>
               let failed := in_context "snapshot commit durability uncertain" e in
               set_me (set_failed failed);; raise failed
           | inr _ => mret tt
           end))).

Definition file_close : Act (File * Sys) GoError unit :=
  lock ← me f_lock;
  match lock with
  | None => mret tt
  | Some h =>
      closed ← attempt (exec (CloseFile h));
      set_me (set_lock None);;
      match closed with inl e => raise e | inr _ => mret tt end
  end.
End file.

(** ** [snapshot.Decode]

    [bytes.TrimSpace] is the trimming of [Text], on the same Unicode white space.
    The JSON package is a parameter: [Marshal], one [Decode] step that yields a
    value and the rest of the input, and whether the rest holds another value. *)

Class Json (A : Type) := {
  json_marshal : A → Result GoError string;
  json_decode : string → Result GoError (A * string);
  json_eof : string → bool;
  (** values whose strings are UTF-8 and whose times RFC 3339 can express *)
  json_faithful : A → Prop;
}.

Definition decode_snapshot {A} `{Json A} (data : string) : Result GoError A :=
  reject_if (bool_decide (trim data = "null")) (NewError "null snapshot");;
  '(value, rest) ← json_decode data;
  reject_if (negb (json_eof rest)) (NewError "trailing snapshot data");;
  Ok value.

Class JsonSpec (A : Type) `{Json A} := {
  json_roundtrip : ∀ a data, json_faithful a → json_marshal a = Ok data →
    trim data ≠ "null" ∧ ∃ rest, json_decode data = Ok (a, rest) ∧ json_eof rest = true;
}.

Lemma decode_marshal {A} `{JsonSpec A} (a : A) data :
  json_faithful a → json_marshal a = Ok data → decode_snapshot data = Ok a.
Proof.
  intros Hf Hm. destruct (json_roundtrip a data Hf Hm) as (Hn & rest & Hd & He).
  unfold decode_snapshot. rewrite bool_decide_eq_false_2 by done. run. by rewrite Hd, He.
Qed.

(** ** A write replaces the snapshot atomically *)

Section atomic.
Context `{StorageSpec}.

Lemma wp_exec {C A} (op : FsOp A) (c : C) s (Q : Result GoError A → C * Sys → Prop) :
  (∀ r d, fs_exec op (disk s) = (r, d) →
    Q (match r with inr a => Ok a | inl e => Err e end) (c, mkSys _ d (disk s :: past s))) →
  wp (exec op) Q (c, s).
Proof. intros HQ. unfold wp, exec. destruct (fs_exec op (disk s)) as [[e|a] d] eqn:Hx; apply (HQ _ _ eq_refl). Qed.

(** What is left to do when a body with a deferred call returned. *)
Definition finish {C A} (cleanup : Act (C * Sys) GoError unit) (Q : Result GoError A → C * Sys → Prop)
    (r : Result GoError A) (s : C * Sys) : Prop :=
  match r with
  | Panic => Q Panic s
  | _ => wp (attempt (F := GoError) cleanup) (λ _ s', Q r s') s
  end.

Lemma wp_with_defer {C A} cleanup (body : Act (C * Sys) GoError A) Q s :
  wp body (finish cleanup Q) s →
  wp (with_defer cleanup body) Q s.
Proof. unfold wp, with_defer. destruct (body s) as [[a|e|] s']; done. Qed.

Lemma wp_me {C A} (f : C → A) c s (Q : Result GoError A → C * Sys → Prop) :
  Q (Ok (f c)) (c, s) → wp (me f) Q (c, s).
Proof. done. Qed.

Lemma wp_set_me {C} f (c : C) s (Q : Result GoError unit → C * Sys → Prop) :
  Q (Ok tt) (f c, s) → wp (set_me f) Q (c, s).
Proof. done. Qed.

(** Runs the plumbing of a call on a file up to its next file-system call. *)
Ltac fs_run :=
  repeat first
    [ wp_head
    | lazymatch goal with
      | |- wp (me _) _ _ => apply wp_me
      | |- wp (set_me _) _ _ => apply wp_set_me
      | |- wp (with_defer _ _) _ _ => apply wp_with_defer
      end ]; cbn beta iota zeta.

(** The file holds [c] now, and something in [P] after a loss of power. *)
Definition holds (d : Disk) (path : string) (c : option string) (P : option string → Prop) : Prop :=
  contents d path = c ∧ ∀ x, outcomes d path x → P x.

(** A loss of power leaves the contents alone. *)
Definition steady (d : Disk) (path : string) (c : option string) : Prop := holds d path c (eq c).

(** A loss of power leaves one of the old possibilities or the new contents. *)
Definition old_or_new (path : string) (P : option string → Prop) (data : string) (d : Disk) : Prop :=
  ∀ x, outcomes d path x → P x ∨ x = Some data.

(** All disks since [s0], the current one included, satisfy [P]. *)
Definition throughout (P : Disk → Prop) (s0 s : Sys) : Prop :=
  ∃ visited, past s = (visited ++ past s0)%list ∧ Forall P visited ∧ P (disk s).

Lemma throughout_refl (P : Disk → Prop) s : P (disk s) → throughout P s s.
Proof. intros HP. by exists []. Qed.

Lemma throughout_step P s0 s d :
  throughout P s0 s → P d → throughout P s0 (mkSys _ d (disk s :: past s)).
Proof. intros (v & Hv & HF & HP) Hd. exists (disk s :: v). cbn. rewrite Hv. split_and!; [done|by constructor|done]. Qed.

Lemma throughout_trans P s0 s1 s2 : throughout P s0 s1 → throughout P s1 s2 → throughout P s0 s2.
Proof.
  intros (v & Hv & HF & HP) (v' & Hv' & HF' & HP'). exists (v' ++ v)%list. rewrite Hv', Hv, app_assoc.
  split_and!; [done|by apply Forall_app|done].
Qed.

Lemma throughout_mono (P Q : Disk → Prop) s0 s :
  (∀ d, P d → Q d) → throughout P s0 s → throughout Q s0 s.
Proof. intros HPQ (v & Hv & HF & HP). exists v. split_and!; [done|by eapply Forall_impl|auto]. Qed.

Lemma old_or_new_holds path c P data d : holds d path c P → old_or_new path P data d.
Proof. intros [_ Ho] x Hx. left. auto. Qed.

Lemma holds_frame {A} (op : FsOp A) d r d' path c P :
  fs_exec op d = (r, d') → ¬ affects op r path → holds d path c P → holds d' path c P.
Proof.
  intros Hx Ha [Hc Ho]. destruct (frame_law op d r d' path Hx Ha) as [Hc' Ho'].
  split; [congruence|]. auto.
Qed.

Lemma old_or_new_frame {A} (op : FsOp A) d r d' path P data :
  fs_exec op d = (r, d') → ¬ affects op r path → old_or_new path P data d → old_or_new path P data d'.
Proof. intros Hx Ha Ho x Hx'. apply Ho. by eapply frame_law. Qed.

(** ** Paths *)

Lemma drop_while_app {A} (p : A → bool) l1 x l2 :
  forallb p l1 = true → p x = false → drop_while p (l1 ++ x :: l2) = (x :: l2)%list.
Proof.
  intros H1 Hx. induction l1 as [|y l1 IH]; cbn in *; [by rewrite Hx|].
  apply andb_true_iff in H1 as [-> H1]. by apply IH.
Qed.

Lemma filepath_dir_app dir base :
  dir ≠ "" → contains_char "/" base = false → filepath_dir (dir +:+ "/" +:+ base) = dir.
Proof.
  intros Hd Hb. unfold filepath_dir. rewrite !chars_app, !rev_app_distr. change (chars "/") with ["/"%char].
  cbn [rev app]. rewrite <-app_assoc. cbn [app]. rewrite drop_while_app; [|  |done].
  - destruct (rev (chars dir)) as [|c l] eqn:Hr.
    + apply (f_equal (@rev _)) in Hr. rewrite rev_involutive in Hr. by destruct dir.
    + rewrite <-Hr, rev_involutive. apply String.string_of_list_ascii_of_string.
  - apply forallb_forall. intros c Hc%in_rev. apply negb_true_iff, not_true_iff_false.
    intros ->%Ascii.eqb_eq. unfold contains_char in Hb. apply not_true_iff_false in Hb. apply Hb.
    apply existsb_exists. exists "/"%char. split; [done|]. apply Ascii.eqb_refl.
Qed.

Lemma proper_dir path :
  proper_path path → ∃ base, component base ∧ path = filepath_dir path +:+ "/" +:+ base ∧
    ∀ name, temp_name (filepath_dir path) temp_prefix name → name ≠ path.
Proof.
  intros (parts & base & Hne & Hc & -> & Ht). apply Forall_app in Hc as [Hp [Hb _]%Forall_cons].
  assert (rooted parts ≠ "") as Hr by (destruct parts as [|x parts]; [done|]; unfold rooted; by destruct parts).
  rewrite filepath_dir_app by (done || apply Hb). exists base. split_and!; [done..|].
  intros name (suffix & ->) Heq. apply string_app_cut in Heq as [_ Heq]; [|done]. injection Heq as Heq.
  by apply (Ht suffix).
Qed.

(** ** The outcome of a write *)

Section write.
Context (f : File) (s0 : Sys) (c : option string) (P : option string → Prop) (data : string).
Local Abbreviation path := (f_path f).

(** Acknowledged, refused with the old snapshot intact, or uncertain. *)
Definition write_outcome (r : Result GoError unit) (t : File * Sys) : Prop :=
  throughout (old_or_new path P data) s0 t.2 ∧
  match r with
  | Ok _ => t.1 = f ∧ steady (disk t.2) path (Some data)
  | Err e => (t.1 = f ∧ holds (disk t.2) path c P) ∨
      (t.1 = set_failed e f ∧ contents (disk t.2) path = Some data)
  | Panic => False
  end.

Lemma outcome_frame {A} (op : FsOp A) r g s x d :
  write_outcome r (g, s) → fs_exec op (disk s) = (x, d) → ¬ affects op x path →
  write_outcome r (g, mkSys _ d (disk s :: past s)).
Proof.
  intros [Ht Hr] Hx Ha. split.
  - apply throughout_step; [done|]. destruct Ht as (_ & _ & _ & Ho). by eapply old_or_new_frame.
  - destruct r as [[]|e|]; cbn in *; [destruct Hr as [-> Hs]|destruct Hr as [[-> Hs]|[-> Hc]]|done].
    + split; [done|]. by eapply holds_frame.
    + left. split; [done|]. by eapply holds_frame.
    + right. split; [done|]. rewrite <-Hc. by eapply frame_law.
Qed.

(** Calls that return what they got after an operation on another path. *)
Lemma finish_cleanup (op : FsOp unit) (Q : Result GoError unit → File * Sys → Prop) r t :
  (∀ x, ¬ affects op x path) → write_outcome r t → (∀ t', write_outcome r t' → Q r t') →
  finish (exec op) Q r t.
Proof.
  destruct t as [g s]. intros Ha Ho HQ. destruct r as [a|e|]; [| |by apply HQ].
  all: cbn; fs_run; apply wp_exec; intros [e'|a'] d Hx; by eapply HQ, outcome_frame.
Qed.

Lemma outcome_refused e s :
  throughout (old_or_new path P data) s0 s → holds (disk s) path c P → write_outcome (Err e) (f, s).
Proof. split; [done|]. by left. Qed.

(** One operation on another path while the old snapshot stands. *)
Lemma wp_untouched {A} (op : FsOp A) s (Q : Result GoError A → File * Sys → Prop) :
  throughout (old_or_new path P data) s0 s → holds (disk s) path c P →
  (∀ r d, fs_exec op (disk s) = (r, d) → ¬ affects op r path) →
  (∀ r d, fs_exec op (disk s) = (r, d) →
    let s' := mkSys _ d (disk s :: past s) in
    throughout (old_or_new path P data) s0 s' → holds (disk s') path c P →
    Q (match r with inr a => Ok a | inl e => Err e end) (f, s')) →
  wp (exec op) Q (f, s).
Proof.
  intros Ht Hs Ha HQ. apply wp_exec. intros r d Hx.
  assert (holds d path c P) as Hs' by (eapply holds_frame; eauto).
  apply (HQ r d Hx); [|done]. apply throughout_step; [done|]. by eapply old_or_new_holds.
Qed.

Lemma wp_file_write :
  proper_path path → holds (disk s0) path c P → wp (file_write data) write_outcome (f, s0).
Proof.
  intros (base & Hbase & Hpath & Hfresh)%proper_dir Hs0.
  assert (throughout (old_or_new path P data) s0 s0) as Ht0 by (apply throughout_refl; by eapply old_or_new_holds).
  unfold file_write, file_check. fs_run. destruct (f_lock f) as [lock|]; fs_run; [|by apply outcome_refused].
  destruct (f_failed f) as [e|]; fs_run; [by apply outcome_refused|].
  apply wp_guard; intros _; fs_run; [by apply outcome_refused|].
  apply wp_untouched; [done|done|cbn; tauto|]. cbn zeta. intros [e|dir] d1 Hdir Ht1 Hs1; fs_run; [by apply outcome_refused|].
  apply open_law in Hdir as [Hdir _].
  apply wp_untouched; [done|done| |].
  { intros [e|h] d Hx; cbn; [auto|]. intros Heq. apply create_law in Hx as [Hx _]. by apply (Hfresh _ Hx). }
  cbn zeta. intros [e|temporary] d2 Hcreate Ht2 Hs2; fs_run.
  { apply finish_cleanup; [cbn; tauto| |done]. by apply outcome_refused. }
  apply create_law in Hcreate as [Hname Hempty]. apply Hfresh in Hname.
  set (cleaned := finish (exec (CloseFile temporary)) (finish (exec (Remove (h_name temporary)))
    (finish (exec (CloseFile dir)) write_outcome))).
  assert (∀ r t, write_outcome r t → cleaned r t) as Hclean.
  { intros r t Ho. apply finish_cleanup; [cbn; tauto|done|]. intros t1 Ho1.
    apply finish_cleanup; [cbn; congruence|done|]. intros t2 Ho2. by apply finish_cleanup; [cbn; tauto|..]. }
  assert (∀ e s, throughout (old_or_new path P data) s0 s → holds (disk s) path c P → cleaned (Err e) (f, s)) as Hrefuse.
  { intros. apply Hclean. by apply outcome_refused. }
  apply wp_untouched; [done|done|cbn; intros _ _ _ ?; congruence|].
  cbn zeta. intros [e|[]] d3 Hwrite Ht3 Hs3; fs_run; [by apply Hrefuse|]. apply write_law in Hwrite; [|done].
  apply wp_untouched; [done|done|cbn; tauto|].
  cbn zeta. intros [e|[]] d4 Hsync Ht4 Hs4; fs_run; [by apply Hrefuse|]. eapply sync_law in Hsync; [|done].
  apply wp_untouched; [done|done|cbn; tauto|].
  cbn zeta. intros [e|[]] d5 Hclose Ht5 Hs5; fs_run; [by apply Hrefuse|]. eapply close_law in Hclose; [|done].
  apply wp_exec. intros [e|[]] d6 Hrename; fs_run.
  { apply Hrefuse; [apply throughout_step; [done|]; eapply old_or_new_holds|]; (eapply holds_frame; [done|cbn; tauto|done]). }
  eapply rename_law in Hrename as (Hcont & Hrenamed & Hout); [|done].
  assert (old_or_new path P data d6) as Ho6.
  { intros x [Hx|Hx]%Hout; [left; by apply Hs5|by right]. }
  pose proof (throughout_step _ _ _ d6 Ht5 Ho6) as Ht6.
  apply wp_exec. intros [e|[]] d7 Hsyncdir; fs_run.
  - assert (old_or_new path P data d7) as Ho7 by (by eapply old_or_new_frame; [exact Hsyncdir|cbn; tauto|]).
    apply Hclean. split; [exact (throughout_step _ _ _ d7 Ht6 Ho7)|]. right. split; [done|].
    rewrite <-Hcont. by eapply frame_law; [exact Hsyncdir|cbn; tauto].
  - assert (steady d7 path (Some data)) as Hs7.
    { split; [rewrite <-Hcont; by eapply frame_law; [exact Hsyncdir|cbn; tauto]|].
      intros x Hx. symmetry. revert x Hx. eapply sync_dir_law; [done| |done]. exists base. split; [done|]. by rewrite Hdir. }
    apply Hclean. split; [|done]. apply (throughout_step _ _ _ d7 Ht6). intros x Hx. right. symmetry. by apply Hs7.
Qed.
End write.

(** ** Reading and opening *)

(** Calls that leave the file at [path] alone, wherever they stop. *)
Definition leaves (path : string) (s s' : Sys) : Prop :=
  throughout (λ d, contents d path = contents (disk s) path ∧
    ∀ x, outcomes d path x → outcomes (disk s) path x) s s'.

Lemma leaves_refl path s : leaves path s s.
Proof. by apply throughout_refl. Qed.

Lemma leaves_step {A} (op : FsOp A) path s s' r d :
  leaves path s s' → fs_exec op (disk s') = (r, d) → ¬ affects op r path →
  leaves path s (mkSys _ d (disk s' :: past s')).
Proof.
  intros Hl Hx Ha. apply throughout_step; [done|]. destruct Hl as (_ & _ & _ & Hc & Ho).
  destruct (frame_law op _ _ _ path Hx Ha) as [Hc' Ho']. split; [congruence|auto].
Qed.

Lemma leaves_trans path s1 s2 s3 : leaves path s1 s2 → leaves path s2 s3 → leaves path s1 s3.
Proof.
  intros H12 H23. eapply throughout_trans; [done|]. eapply throughout_mono; [|done].
  destruct H12 as (_ & _ & _ & Hc & Ho). intros d [Hc' Ho']. split; [congruence|auto].
Qed.

Lemma leaves_holds path s s' c P : leaves path s s' → holds (disk s) path c P → holds (disk s') path c P.
Proof. intros (_ & _ & _ & Hc & Ho) [Hc' Ho']. split; [congruence|auto]. Qed.

Lemma leaves_contents path s s' : leaves path s s' → contents (disk s') path = contents (disk s) path.
Proof. by intros (_ & _ & _ & ? & _). Qed.

(** A call of which nothing else is needed. *)
Lemma wp_exec_leaves {C A} (op : FsOp A) path (c : C) s0 s (Q : Result GoError A → C * Sys → Prop) :
  leaves path s0 s → (∀ r, ¬ affects op r path) →
  (∀ (r : GoError + A) s', leaves path s0 s' → Q (match r with inr a => Ok a | inl e => Err e end) (c, s')) →
  wp (exec op) Q (c, s).
Proof. intros Hl Ha HQ. apply wp_exec. intros r d Hx. apply HQ. by eapply leaves_step. Qed.

(** A prefix shorter than asked for is everything. *)
Lemma prefix_whole n s : (String.length (String.substring 0 n s) < n)%nat → String.substring 0 n s = s.
Proof.
  revert n. induction s as [|c s IH]; intros [|n]; cbn; intros; try lia; try done. rewrite IH; [done|lia].
Qed.

Lemma wp_file_read f s :
  f_failed f = None →
  wp file_read (λ r t, t.1 = f ∧ leaves (f_path f) s t.2 ∧
    match r with
    | Ok data => contents (disk s) (f_path f) = Some data
    | Err e => errors_is e ErrNotExist = true → contents (disk s) (f_path f) = None
    | Panic => False
    end) (f, s).
Proof.
  intros Hf. unfold file_read, file_check, check_private_file. fs_run.
  destruct (f_lock f) as [lock|]; fs_run; [|split_and!; [done|apply leaves_refl|done]].
  rewrite Hf. fs_run. apply wp_exec. intros r d1 Hstat.
  pose proof (leaves_step _ (f_path f) s s _ _ (leaves_refl _ _) Hstat ltac:(cbn; tauto)) as Hl1.
  destruct r as [e|info]; fs_run; [split_and!; [done..|]; intros He; by eapply absent_law; [left|]|].
  apply wp_guard; intros Hg; fs_run; [done|].
  apply orb_false_iff in Hg as [Hreg%negb_false_iff _].
  destruct (regular_law _ _ _ _ Hstat Hreg) as [old Hold]. pose proof (leaves_contents _ _ _ Hl1) as Hc1. cbn in Hc1.
  apply wp_exec. cbn [disk past]. intros r d2 Hopen.
  pose proof (leaves_step _ (f_path f) s _ _ _ Hl1 Hopen ltac:(cbn; tauto)) as Hl2.
  destruct r as [e|input]; fs_run.
  { split_and!; [done..|]. intros He. rewrite <-Hc1. by eapply (absent_law _ _ _ d2); [right; eexists|]. }
  apply open_law in Hopen as [_ Hopened]. specialize (Hopened old ltac:(by rewrite Hc1)).
  set (Q := λ (r : Result GoError string) (t : File * Sys), t.1 = f ∧ leaves (f_path f) s t.2 ∧ _).
  assert (∀ r t, Q r t → finish (exec (CloseFile input)) Q r t) as Hfinish.
  { intros r [g t] (Hg & Hl & Hr). cbn in Hg. subst g. unfold finish. destruct r as [data|e|]; [| |done].
    all: fs_run; eapply wp_exec_leaves; [exact Hl|cbn; tauto|]; intros [?|?] ? ?; by split_and!. }
  apply wp_exec. cbn [disk past]. intros r d3 Hread.
  pose proof (leaves_step _ (f_path f) s _ _ _ Hl2 Hread ltac:(cbn; tauto)) as Hl3.
  destruct r as [e|data]; fs_run.
  { apply Hfinish. split_and!; [done..|]. by rewrite (read_error_law _ _ _ _ _ Hread). }
  apply (read_law _ _ _ _ _ _ Hread) in Hopened.
  apply wp_guard; intros Hlen; fs_run; apply Hfinish; (split_and!; [done..|]); [done|].
  apply Z.ltb_ge in Hlen. rewrite Hold, Hopened. symmetry. f_equal. apply prefix_whole. unfold len in Hlen.
  rewrite <-Hopened. lia.
Qed.

Lemma longer_path path suffix : suffix ≠ "" → path +:+ suffix ≠ path.
Proof.
  intros Hs Heq%(f_equal String.length). rewrite string_length_app in Heq. destruct suffix; [done|]. cbn in Heq. lia.
Qed.

Definition open_outcome {C} (path : string) (limit : Z) (c : C) (s : Sys)
    (r : Result GoError File) (t : C * Sys) : Prop :=
  t.1 = c ∧ leaves path s t.2 ∧
  match r with
  | Ok f => f_path f = path ∧ f_limit f = limit ∧ is_Some (f_lock f) ∧ f_failed f = None
  | Err _ => True
  | Panic => False
  end.

Lemma wp_take_lock {C} path limit (c : C) s0 s :
  leaves path s0 s → wp (take_lock path (path +:+ ".lock") limit) (open_outcome path limit c s0) (c, s).
Proof.
  intros Hl. pose proof (longer_path path ".lock" ltac:(done)) as Hlock. unfold take_lock, lock_file. fs_run.
  eapply wp_exec_leaves; [exact Hl|cbn; congruence|]. intros [e|lock] s5 Hl5; fs_run; [done|].
  eapply wp_exec_leaves; [exact Hl5|cbn; tauto|]. intros [e|[]] s6 Hl6; fs_run; [|by split_and!].
  destruct (errors_is e ErrWouldBlock); fs_run;
    (eapply wp_exec_leaves; [exact Hl6|cbn; tauto|]); intros [e'|[]] s7 Hl7; by fs_run.
Qed.

(** A freshly opened file is usable and the snapshot was not touched. *)
Lemma wp_snapshot_open {C} path limit (c : C) s :
  proper_path path → wp (snapshot_open path limit) (open_outcome path limit c s) (c, s).
Proof.
  intros Hp. unfold snapshot_open, check_private_file. fs_run.
  apply wp_guard; intros _; fs_run; [split_and!; [done|apply leaves_refl|done]|].
  apply wp_exec. intros r d1 Hx.
  pose proof (leaves_step _ path s s _ _ (leaves_refl _ _) Hx ltac:(cbn; tauto)) as Hl1.
  apply abs_law in Hx as ->; [|done]. fs_run.
  eapply wp_exec_leaves; [exact Hl1|cbn; tauto|]. intros [e|[]] s2 Hl2; fs_run; [done|].
  eapply wp_exec_leaves; [exact Hl2|cbn; tauto|]. intros [e|info] s3 Hl3; fs_run; [done|].
  apply wp_guard; intros _; fs_run; [done|].
  eapply wp_exec_leaves; [exact Hl3|cbn; tauto|]. intros [e|finfo] s4 Hl4; fs_run.
  - destruct (errors_is e ErrNotExist); fs_run; [by apply wp_take_lock|done].
  - apply wp_guard; intros _; fs_run; [|by apply wp_take_lock]. by cbn.
Qed.

Lemma wp_file_close path f s :
  wp file_close (λ r t, f_path t.1 = f_path f ∧ leaves path s t.2 ∧ r ≠ Panic ∧ f_lock t.1 = None) (f, s).
Proof.
  unfold file_close. fs_run. destruct (f_lock f) as [h|] eqn:Hh; fs_run; [|split_and!; [done|apply leaves_refl|done..]].
  eapply wp_exec_leaves; [apply leaves_refl|cbn; tauto|]. intros [e|[]] s1 Hl1; by fs_run.
Qed.

Lemma wp_file_close_failed f s : wp file_close (λ _ t, f_failed t.1 = f_failed f) (f, s).
Proof.
  unfold file_close. fs_run. destruct (f_lock f) as [h|] eqn:Hh; fs_run; [|done].
  apply wp_exec. intros [e|[]] d _; by fs_run.
Qed.
End atomic.

(** ** Theorem *)

(** C12: replacing a snapshot is atomic and acknowledged only when durable.  From a
    disk where the file is settled, whichever file-system calls fail, a crash at
    any moment inside [Write] leaves the old contents or the new ones, whole.
    When [Write] returns no error the new contents survive any crash; when it
    fails, either nothing changed, or the commit is uncertain and the file refuses
    every further read and write with that error. *)
Theorem snapshot_write_atomic `{StorageSpec} f s c data r t :
  proper_path (f_path f) → steady (disk s) (f_path f) c → file_write data (f, s) = (r, t) →
  throughout (λ d, ∀ d', crash d d' → contents d' (f_path f) = c ∨ contents d' (f_path f) = Some data) s t.2 ∧
  match r with
  | Ok _ => steady (disk t.2) (f_path f) (Some data)
  | Err e => steady (disk t.2) (f_path f) c ∨
      (contents (disk t.2) (f_path f) = Some data ∧
       (is_Some (f_lock f) → file_read t = (Err e, t) ∧ ∀ later, file_write later t = (Err e, t)))
  | Panic => False
  end.
Proof.
  intros Hp Hs Hrun.
  destruct (wp_elim _ _ _ _ _ (wp_file_write f s c (eq c) data Hp Hs) Hrun) as [Ht Hr]. split.
  { eapply throughout_mono; [|exact Ht]. intros d Ho d' [Hc _]%(crash_law _ _ (f_path f)).
    destruct (Ho _ Hc) as [Heq|Heq]; [by left|by right]. }
  destruct r as [[]|e|]; [by destruct Hr| |done]. destruct Hr as [[_ Hr]|[Hf Hc]]; [by left|]. right.
  split; [done|]. intros [lock Hlock]. destruct t as [g t]. cbn in Hf. subst g.
  unfold file_read, file_write, file_check, me. run. cbn [fst f_lock set_failed f_failed]. by rewrite Hlock.
Qed.

(** ** A disk of files, entries that are not yet safe, and directories *)

Module RefDisk.
Record RefDisk := mkRef {
  live : gmap string string;
  saved : gmap string string;
  dirs : gset string;
  next : nat;
}.

Definition on_live (f : gmap string string → gmap string string) (d : RefDisk) : RefDisk :=
  mkRef (f (live d)) (saved d) (dirs d) (S (next d)).

Section ref.
(** Whether syncing a directory fails. *)
Context (broken : bool).

Definition ref_exec {A} (op : FsOp A) : RefDisk → (GoError + A) * RefDisk :=
  match op in FsOp A return RefDisk → (GoError + A) * RefDisk with
  | Abs path => λ d, (inr path, d)
  | MkdirAll path _ => λ d, (inr tt, mkRef (live d) (saved d) ({[path]} ∪ dirs d) (next d))
  | Lstat path => λ d,
      (match live d !! path with
       | Some s => inr (mkInfo false true 384 (len s))
       | None => if bool_decide (path ∈ dirs d) then inr (mkInfo true false 448 4096) else inl ErrNotExist
       end, d)
  | OpenFile path _ => λ d, (inr (mkHandle (next d) path), on_live (λ m, <[path := default "" (m !! path)]> m) d)
  | Flock _ => λ d, (inr tt, d)
  | Open path => λ d,
      (match live d !! path with
       | Some _ => inr (mkHandle (next d) path)
       | None => if bool_decide (path ∈ dirs d) then inr (mkHandle (next d) path) else inl ErrNotExist
       end, d)
  | ReadAll h limit => λ d,
      (match live d !! h_name h with
       | Some s => inr (String.substring 0 (Z.to_nat limit) s)
       | None => inl (NewError "is a directory")
       end, d)
  | CreateTemp dir pattern => λ d,
      let name := dir +:+ "/" +:+ String.substring 0 (String.length pattern - 1) pattern +:+ to_dec (Z.of_nat (next d)) in
      (inr (mkHandle (next d) name), on_live (insert name "") d)
  | Write h data => λ d, (inr tt, on_live (λ m, <[h_name h := default "" (m !! h_name h) +:+ data]> m) d)
  | Sync h => λ d,
      if broken && bool_decide (h_name h ∈ dirs d) then (inl (NewError "input/output error"), d)
      else (inr tt, mkRef (live d) (live d) (dirs d) (next d))
  | CloseFile _ => λ d, (inr tt, d)
  | Rename old new => λ d,
      match live d !! old with
      | Some s => (inr tt, on_live (λ m, <[new := s]> (delete old m)) d)
      | None => (inl ErrNotExist, d)
      end
  | Remove path => λ d, (inr tt, on_live (delete path) d)
  | Chmod _ _ => λ d, (inr tt, d)
  | ReadFile path => λ d, (match live d !! path with Some s => inr s | None => inl ErrNotExist end, d)
  end.

#[export] Instance ref_storage : Storage := {| Disk := RefDisk; fs_exec A op := ref_exec op |}.

Lemma substring_prefix s t n : n = String.length s → String.substring 0 n (s +:+ t) = s.
Proof. intros ->. induction s as [|c s IH]; [by destruct t|]. exact (f_equal (String c) IH). Qed.

#[export] Instance ref_storage_spec : StorageSpec.
Proof.
  refine {|
    contents d path := live d !! path;
    outcomes d path c := c = live d !! path ∨ c = saved d !! path;
    crash d d' := (live d' = live d ∨ live d' = saved d) ∧ saved d' = live d';
    written d name s := live d !! name = Some s;
    durable d name s := live d !! name = Some s;
    renamed d path s := live d !! path = Some s;
    opened d h s := live d !! h_name h = Some s;
  |}; cbn.
  - intros path d r d' _ [= <- _]. done.
  - intros A op. destruct op; cbn; intros d r d' p Hx Ha; repeat case_match; simplify_eq; cbn in *;
      rewrite ?lookup_insert_ne, ?lookup_delete_ne by (intros Heq; apply Ha; rewrite Heq; auto);
      (split; [done|intros c [->| ->]; auto]).
  - intros dir prefix d h d' [= <- <-]. cbn. split; [|apply lookup_insert_eq].
    exists (to_dec (Z.of_nat (next d))). rewrite substring_prefix; [done|].
    rewrite string_length_app. cbn. lia.
  - intros h data d d' [= <-] Hw. cbn. rewrite Hw. apply lookup_insert_eq.
  - intros h data d d'. case_match; [done|]. by intros [= <-].
  - intros h name data d r d' [= _ <-]. done.
  - intros old new data d d' Hx Hd. rewrite Hd in Hx. injection Hx as <-. cbn. rewrite lookup_insert_eq. naive_solver.
  - intros h path data d d'. case_match; [done|]. intros [= <-] _ Hr c. cbn. naive_solver.
  - intros d d' path [[Hl|Hl] Hs]; rewrite Hs, Hl; naive_solver.
  - intros path d h d'. repeat case_match; intros [= <- <-]; naive_solver.
  - intros h limit s d data d' Hx Ho. rewrite Ho in Hx. by injection Hx.
  - intros path d info d'. repeat case_match; intros [= <- <-]; naive_solver.
  - intros path d e d' Hx He. destruct (live d !! path) eqn:Hl; [|done].
    destruct Hx as [Hx|[? Hx]]; repeat case_match; naive_solver.
  - intros h limit d e d'. case_match; intros [= <- <-]. done.
Defined.
End ref.
End RefDisk.

Lemma component_decide s :
  (negb (bool_decide (s = "")) && negb (bool_decide (s = ".")) && negb (bool_decide (s = ".."))
   && negb (contains_char "/" s)) = true → component s.
Proof.
  rewrite !andb_true_iff, !negb_true_iff, !bool_decide_eq_false. unfold component. tauto.
Qed.

Definition sample_path : string := "/var/lib/cyberia/state.json".

Lemma sample_path_proper : proper_path sample_path.
Proof.
  exists ["var"; "lib"; "cyberia"], "state.json". split_and!; [done| |reflexivity|intros suffix; discriminate].
  repeat constructor; by apply component_decide.
Qed.

(** A settled disk with one snapshot, on which syncing a directory fails. *)
Definition sample_disk : RefDisk.RefDisk :=
  RefDisk.mkRef {[sample_path := "old"]} {[sample_path := "old"]} {["/var/lib/cyberia"]} 0.
Definition sample_file : File := mkFile sample_path 64 (Some (mkHandle 0 (sample_path +:+ ".lock"))) None.

Lemma snapshot_write_atomic_witness :
  let t := @file_write (RefDisk.ref_storage true) "new" (sample_file, mkSys (RefDisk.ref_storage true) sample_disk []) in
  f_failed t.2.1 ≠ None ∧ is_ok (@file_read (RefDisk.ref_storage true) t.2).1 = false ∧
  @throughout (RefDisk.ref_storage true) (λ d, ∀ d', @crash _ (RefDisk.ref_storage_spec true) d d' →
    @contents _ (RefDisk.ref_storage_spec true) d' sample_path = Some "old" ∨
    @contents _ (RefDisk.ref_storage_spec true) d' sample_path = Some "new")
    (mkSys (RefDisk.ref_storage true) sample_disk []) t.2.2.
Proof.
  cbn zeta. split; [vm_compute; discriminate|]. split; [vm_compute; reflexivity|].
  destruct (@snapshot_write_atomic (RefDisk.ref_storage true) (RefDisk.ref_storage_spec true) sample_file
    (mkSys (RefDisk.ref_storage true) sample_disk []) (Some "old") "new" _ _
    sample_path_proper (ltac:(split; [reflexivity|intros x [->| ->]; reflexivity])) (surjective_pairing _)) as [Ht _].
  exact Ht.
Defined.

(** ** A codec for any countable type, in place of JSON *)

Module ToyJson.
Fixpoint digits_of (p : positive) : string :=
  match p with
  | xH => "e"
  | xO p => String "o" (digits_of p)
  | xI p => String "i" (digits_of p)
  end.

Fixpoint of_digits (s : string) : option positive :=
  match s with
  | "e" => Some xH
  | String "o" s => xO <$> of_digits s
  | String "i" s => xI <$> of_digits s
  | _ => None
  end.

Lemma of_digits_of p : of_digits (digits_of p) = Some p.
Proof. induction p as [p IH|p IH|]; cbn; [by rewrite IH..|done]. Qed.

(** Any partial coding by numbers gives an encoding. *)
Definition coded_json {A} (enc : A → option positive) (dec : positive → option A) : Json A := {|
  json_marshal a :=
    match enc a with Some p => Ok (String "{" (digits_of p)) | None => Err (NewError "unsupported value") end;
  json_decode s :=
    match s with
    | String "{" s =>
        match (p ← of_digits s; dec p) with Some a => Ok (a, "") | None => Err (NewError "invalid character") end
    | _ => Err (NewError "invalid character")
    end;
  json_eof rest := bool_decide (rest = "");
  json_faithful _ := True;
|}.

Definition toy_json {A} `{Countable A} : Json A := coded_json (Some ∘ encode) decode.

(** The values of a list, by their position. *)
Definition listed_json {A} `{EqDecision A} (l : list A) : Json A :=
  coded_json (λ a, (λ x, Pos.of_succ_nat x.1) <$> list_find (a =.) l) (λ p, l !! pred (Pos.to_nat p)).

Lemma drop_while_snoc {A} (p : A → bool) l x :
  p x = false → ∃ l', drop_while p (l ++ [x]) = (l' ++ [x])%list.
Proof.
  intros Hx. induction l as [|y l IH]; cbn; [rewrite Hx; by exists []|].
  destruct (p y); [done|]. by exists (y :: l).
Qed.

Lemma trim_brace s : ∃ t, trim (String "{" s) = String "{" t.
Proof.
  unfold trim, lossy_chars, scalars. cbn [String.length utf8_chunks]. change (chars (String "{" s)) with ("{"%char :: chars s).
  change (utf8_head ("{"%char :: chars s)) with (true, 1%nat). cbn [map default].
  change (of_chars (take 1 ("{"%char :: chars s))) with "{". unfold trim_chars.
  change (id "{") with "{". change (drop_while is_whitespace ("{" :: ?l)) with ("{" :: l). cbn [rev].
  match goal with |- context [drop_while _ (?l ++ [?x])] =>
    destruct (drop_while_snoc is_whitespace l x eq_refl) as [l' Hl] end.
  rewrite Hl, rev_app_distr. cbn [rev app]. rewrite concat_cons. by eexists.
Qed.

Lemma coded_json_spec {A} (enc : A → option positive) dec :
  (∀ a p, enc a = Some p → dec p = Some a) → @JsonSpec A (coded_json enc dec).
Proof.
  intros Hinv. split. cbn. intros a data _. destruct (enc a) as [p|] eqn:Hp; [|done]. intros [= <-]. split.
  - destruct (trim_brace (digits_of p)) as [t ->]. done.
  - exists "". rewrite of_digits_of. cbn. by rewrite (Hinv _ _ Hp).
Qed.

Lemma toy_json_spec {A} `{Countable A} : @JsonSpec A toy_json.
Proof. apply coded_json_spec. intros a p [= <-]. apply decode_encode. Qed.

Lemma listed_json_spec {A} `{EqDecision A} (l : list A) : @JsonSpec A (listed_json l).
Proof.
  apply coded_json_spec. intros a p Hp. apply fmap_Some in Hp as ([i x] & Hfind & ->).
  apply list_find_Some in Hfind as (Hl & <- & _). cbn [fst]. by rewrite SuccNat2Pos.id_succ.
Qed.
End ToyJson.
