(* ===== verification/Durable.v ===== *)
(** Stores that keep their state in one snapshot file: a process opens the store,
    serves calls, and may stop or lose power at any moment, inside a call too.

    A store is given by how it is opened and what its calls do.  A ghost state
    collects what the calls have acknowledged.  If every disk a call passes
    through could still be reopened under the old ghost state, and a returned
    call establishes the new one, then every reachable state, across any number of
    crashes and restarts, agrees with the ghost state. *)

From S2P Require Import Prelude Machine Text GoBase Snapshot.
Open Scope string_scope.

(** ** Parts of a store *)

(** A call on the snapshot file inside a larger value. *)
Definition on_part `{Storage} {C D A} (get : C → D) (set : D → C → C) (m : Act (D * Sys) GoError A) :
    Act (C * Sys) GoError A := λ '(c, s),
  let '(r, (d, s')) := m (get c, s) in (r, (set d c, s')).

(** Builds a value by running its initialisation on it. *)
Definition construct `{Storage} {C D} (d : D) (m : Act (D * Sys) GoError unit) : Act (C * Sys) GoError D := λ '(c, s),
  match m (d, s) with
  | (Ok _, (d', s')) => (Ok d', (c, s'))
  | (Err e, (_, s')) => (Err e, (c, s'))
  | (Panic, (_, s')) => (Panic, (c, s'))
  end.

Section rules.
Context `{Storage}.

Lemma wp_on_part {C D A} (get : C → D) set (m : Act (D * Sys) GoError A) Q c s :
  wp m (λ r t, Q r (set t.1 c, t.2)) (get c, s) → wp (on_part get set m) Q (c, s).
Proof. unfold wp, on_part. by destruct (m (get c, s)) as [r [d s']]. Qed.

Lemma wp_construct {C D} (d : D) m (Q : Result GoError D → C * Sys → Prop) c s :
  wp m (λ r t, match r with Ok _ => Q (Ok t.1) (c, t.2) | Err e => Q (Err e) (c, t.2) | Panic => Q Panic (c, t.2) end)
    (d, s) →
  wp (construct d m) Q (c, s).
Proof. unfold wp, construct. by destruct (m (d, s)) as [[a|e|] [d' s']]. Qed.
End rules.

Ltac store_run :=
  repeat first
    [ wp_head
    | lazymatch goal with
      | |- wp (me _) _ _ => apply wp_me
      | |- wp (set_me _) _ _ => apply wp_set_me
      | |- wp (on_part _ _ _) _ _ => apply wp_on_part
      end ]; cbn beta iota zeta.

(** ** Runs with crashes *)

Section runs.
Context `{StorageSpec} {T Op Res Ghost : Type}.
Context (path : string) (open_store : Act (unit * Sys) GoError T) (call : Op → Act (T * Sys) GoError Res).
(** Which calls are made, given what has been acknowledged, and what an answer
    adds to the ghost state. *)
Context (admissible : Ghost → Op → Prop) (acknowledge : Op → Result GoError Res → Ghost → Ghost) (fresh : Ghost).

(** Some disk of the call that led from [s] to [s'], or the last one. *)
Definition crash_point (s s' : Sys) (d : Disk) : Prop :=
  d = disk s' ∨ ∃ visited, past s' = (visited ++ past s)%list ∧ d ∈ visited.

Inductive run : Ghost → option T → Sys → Prop :=
| run_fresh d : steady d path None → run fresh None (mkSys _ d [])
| run_open g s r s' : run g None s → open_store (tt, s) = (r, (tt, s')) →
    run g (match r with Ok t => Some t | _ => None end) s'
| run_call g t s op r t' s' : run g (Some t) s → admissible g op → call op (t, s) = (r, (t', s')) →
    run (acknowledge op r g) (Some t') s'
| run_stop g t s : run g (Some t) s → run g None s
| run_crash_open g s r s' d d' : run g None s → open_store (tt, s) = (r, (tt, s')) →
    crash_point s s' d → crash d d' → run g None (mkSys _ d' [])
| run_crash_call g t s op r t' s' d d' : run g (Some t) s → admissible g op → call op (t, s) = (r, (t', s')) →
    crash_point s s' d → crash d d' → run g None (mkSys _ d' []).

Lemma run_opened g s t : run g None s → (open_store (tt, s)).1 = Ok t → run g (Some t) (open_store (tt, s)).2.2.
Proof.
  intros Hr Ho. change (Some t) with (match Ok (E := GoError) t with Ok t => Some t | _ => None end). rewrite <-Ho.
  apply (run_open g s); [done|]. by destruct (open_store (tt, s)) as [? [[] ?]].
Qed.

Lemma run_called g t s op :
  run g (Some t) s → admissible g op →
  run (acknowledge op (call op (t, s)).1 g) (Some (call op (t, s)).2.1) (call op (t, s)).2.2.
Proof. intros Hr Ha. apply (run_call g t s op); [done..|]. by destruct (call op (t, s)) as [? [? ?]]. Qed.

Lemma run_crashed g t s op d :
  run g (Some t) s → admissible g op → crash (disk (call op (t, s)).2.2) d → run g None (mkSys _ d []).
Proof.
  intros Hr Ha. destruct (call op (t, s)) as [r [t' s']] eqn:Hcall. intros Hc.
  apply (run_crash_call g t s op r t' s' (disk s')); [done..|by left|done].
Qed.

(** What a reopened store may find, and how a running one relates to its file. *)
Context (good : Ghost → option string → Prop) (tied : Ghost → T → option string → Prop).

Definition safe (g : Ghost) (d : Disk) : Prop := ∀ x, outcomes d path x → good g x.
Definition sound (g : Ghost) (d : Disk) : Prop := safe g d ∧ good g (contents d path).

Context (fresh_good : good fresh None).
Context (open_rule : ∀ g s, sound g (disk s) →
  wp open_store (λ r t, throughout (safe g) s t.2 ∧ good g (contents (disk t.2) path) ∧
    ∀ x, r = Ok x → tied g x (contents (disk t.2) path)) (tt, s)).
Context (call_rule : ∀ g t s op, sound g (disk s) → tied g t (contents (disk s) path) → admissible g op →
  wp (call op) (λ r t', throughout (safe g) s t'.2 ∧ sound (acknowledge op r g) (disk t'.2) ∧
    tied (acknowledge op r g) t'.1 (contents (disk t'.2) path)) (t, s)).

Lemma throughout_crash_point (P : Disk → Prop) s s' d : throughout P s s' → crash_point s s' d → P d.
Proof.
  intros (v & Hv & HF & HP) [->|(v' & Hv' & Hd)]; [done|]. rewrite Hv in Hv'. apply app_inv_tail in Hv' as <-.
  rewrite Forall_forall in HF. auto.
Qed.

Lemma safe_crash g d d' : safe g d → crash d d' → sound g d'.
Proof. intros Ho [Hc Ho']%(crash_law _ _ path). split; [|auto]. intros x ->%Ho'. auto. Qed.

Lemma run_sound g t s :
  run g t s → sound g (disk s) ∧ ∀ x, t = Some x → tied g x (contents (disk s) path).
Proof.
  induction 1 as [d [Hc Ho]|g s r s' _ [IH _] Hopen|g t s op r t' s' _ [IH Ht] Ha Hcall|g t s _ [IH _]
    |g s r s' d d' _ [IH _] Hopen Hp Hcr|g t s op r t' s' d d' _ [IH Ht] Ha Hcall Hp Hcr].
  - split; [|done]. cbn. split; [by intros x <-%Ho|]. by rewrite Hc.
  - destruct (wp_elim _ _ _ _ _ (open_rule g s IH) Hopen) as ((_ & _ & _ & Hs) & Hg & Ht). split; [done|].
    intros x Hx. destruct r; [|done..]. injection Hx as <-. by apply Ht.
  - destruct (wp_elim _ _ _ _ _ (call_rule g t s op IH (Ht t eq_refl) Ha) Hcall) as (_ & Hs & Ht').
    split; [done|]. by intros x [= <-].
  - done.
  - destruct (wp_elim _ _ _ _ _ (open_rule g s IH) Hopen) as (Hthr & _). split; [|done].
    eapply safe_crash; [|exact Hcr]. by eapply throughout_crash_point.
  - destruct (wp_elim _ _ _ _ _ (call_rule g t s op IH (Ht t eq_refl) Ha) Hcall) as (Hthr & _ & _).
    split; [|done]. eapply safe_crash; [|exact Hcr]. by eapply throughout_crash_point.
Qed.
End runs.

(** ** Calls on the file of a store *)

Section file_calls.
Context `{StorageSpec} (path : string) {Ghost : Type} (good : Ghost → option string → Prop).

Local Abbreviation safe := (safe path good).
Local Abbreviation sound := (sound path good).

Lemma safe_leaves g s s' : safe g (disk s) → leaves path s s' → throughout (safe g) s s'.
Proof. intros Ho Hl. eapply throughout_mono; [|exact Hl]. intros d [_ Ho'] x Hx. auto. Qed.

Lemma sound_leaves g s s' : sound g (disk s) → leaves path s s' → sound g (disk s').
Proof.
  intros [Ho Hg] Hl. split; [|by rewrite (leaves_contents _ _ _ Hl)].
  destruct Hl as (_ & _ & _ & _ & Ho'). intros x Hx. auto.
Qed.

(** Writing contents that the ghost state already permits. *)
Lemma wp_write_sound g f s data :
  f_path f = path → proper_path path → sound g (disk s) → good g (Some data) →
  wp (file_write data) (λ r t, throughout (safe g) s t.2 ∧ good g (contents (disk t.2) path) ∧
    match r with
    | Ok _ => t.1 = f ∧ steady (disk t.2) path (Some data)
    | Err e => (t.1 = f ∧ contents (disk t.2) path = contents (disk s) path) ∨ t.1 = set_failed e f
    | Panic => False
    end) (f, s).
Proof.
  intros <- Hp [Hsafe Hgood] Hdata.
  eapply wp_mono; [apply (wp_file_write f s (contents (disk s) (f_path f)) (good g) data Hp); by split|].
  intros r [g' t] [Ht Hr]. cbn [fst snd] in *. split.
  { eapply throughout_mono; [|exact Ht]. by intros d Ho x [Hx| ->]%Ho. }
  destruct r as [[]|e|]; [|destruct Hr as [[-> [Hc _]]|[-> Hc]]|done].
  - destruct Hr as [-> Hs]. split; [|done]. destruct Hs as [-> _]. done.
  - rewrite Hc. auto.
  - rewrite Hc. auto.
Qed.

(** ** Steps the stores share *)

Context {T : Type} (get : T → File) (set : File → T → T).

(** Encoding a value and writing it, where the ghost state permits both. *)
Lemma wp_save_sound g t s (encoded : Result GoError string) (Q : Result GoError unit → T * Sys → Prop) :
  f_path (get t) = path → proper_path path → sound g (disk s) → set (get t) t = t →
  (∀ data, encoded = Ok data → good g (Some data)) →
  (∀ r f s', throughout (safe g) s s' → sound g (disk s') → f_path f = path →
    match r with
    | Ok _ => f = get t ∧ ∃ data, encoded = Ok data ∧ steady (disk s') path (Some data)
    | _ => (f = get t ∧ contents (disk s') path = contents (disk s) path) ∨ f_failed f ≠ None
    end → Q r (set f t, s')) →
  wp (data ← lift encoded; on_part get set (file_write data)) Q (t, s).
Proof.
  intros Hf Hp Hs Hset Hgood HQ. store_run.
  assert (throughout (safe g) s s) as Hrefl by (apply throughout_refl; apply Hs).
  destruct encoded as [data|e|]; store_run; [|rewrite <-Hset; apply HQ; auto; by left..].
  eapply wp_mono; [apply (wp_write_sound g); auto|].
  intros r [f s'] (Ht & Hg & Hr). cbn [fst snd] in *.
  assert (sound g (disk s')) as Hs'. { split; [|done]. by destruct Ht as (_ & _ & _ & ?). }
  apply HQ; try done.
  - destruct r as [[]|e|]; [by destruct Hr as [-> _]|by destruct Hr as [[-> _]| ->]|done].
  - destruct r as [[]|e|]; [destruct Hr as [-> Hst]; by eauto| |done].
    destruct Hr as [[-> Hc]| ->]; [by left|by right].
Qed.

(** A failed initialisation closes the file. *)
Lemma wp_or_close g s0 s (body : Act (T * Sys) GoError unit) (t : T) (Q : Result GoError unit → T * Sys → Prop) :
  wp body (λ r t', throughout (safe g) s0 t'.2 ∧ sound g (disk t'.2) ∧ (r = Ok tt → Q (Ok tt) t')) (t, s) →
  (∀ r t', throughout (safe g) s0 t'.2 → sound g (disk t'.2) → r ≠ Ok tt → Q r t') →
  wp (r ← attempt body;
      match r with
      | inl e => attempt (F := GoError) (on_part get set file_close);; raise e
      | inr _ => mret tt
      end) Q (t, s).
Proof.
  intros Hbody HQ. store_run. eapply wp_mono; [exact Hbody|]. intros r [t' s'] (Ht & Hs & Hr). cbn [fst snd] in *.
  destruct r as [[]|e|]; store_run; [by apply Hr| |by apply HQ].
  eapply wp_mono; [apply (wp_file_close path)|]. intros r [f s3] (_ & Hl & Hp & _). cbn [fst snd] in *.
  pose proof (throughout_trans _ _ _ _ Ht (safe_leaves _ _ _ (proj1 Hs) Hl)).
  pose proof (sound_leaves _ _ _ Hs Hl). destruct r as [[]|e'|]; store_run; by apply HQ.
Qed.

(** Reading the file of a store that has not failed. *)
Lemma wp_read_sound g t s (Q : Result GoError string → T * Sys → Prop) :
  f_path (get t) = path → f_failed (get t) = None → set (get t) t = t → sound g (disk s) →
  (∀ r s', throughout (safe g) s s' → sound g (disk s') → contents (disk s') path = contents (disk s) path →
    match r with
    | Ok data => contents (disk s) path = Some data
    | Err e => errors_is e ErrNotExist = true → contents (disk s) path = None
    | Panic => False
    end → Q r (t, s')) →
  wp (on_part get set file_read) Q (t, s).
Proof.
  intros Hf Hfail Hset Hs HQ. store_run. eapply wp_mono; [by apply wp_file_read|].
  intros r [f s1] (Hf1 & Hl & Hr). cbn [fst snd] in *. subst f. rewrite Hset. rewrite Hf in Hl, Hr.
  apply HQ; [by eapply safe_leaves; [apply Hs|]|by eapply sound_leaves|by apply leaves_contents|done].
Qed.

(** Checking the file. *)
Lemma wp_file_check t s (Q : Result GoError unit → T * Sys → Prop) :
  set (get t) t = t →
  (∀ e, Q (Err e) (t, s)) → (is_Some (f_lock (get t)) → f_failed (get t) = None → Q (Ok tt) (t, s)) →
  wp (on_part get set file_check) Q (t, s).
Proof.
  intros Hset Herr Hok. unfold file_check. store_run. destruct (f_lock (get t)); store_run; cbn [fst snd]; rewrite ?Hset; [|done].
  destruct (f_failed (get t)); store_run; cbn [fst snd]; rewrite Hset; [done|by apply Hok].
Qed.

Lemma wp_close_sound g t s (Q : Result GoError unit → T * Sys → Prop) :
  sound g (disk s) →
  (∀ r f s', throughout (safe g) s s' → sound g (disk s') → contents (disk s') path = contents (disk s) path →
    f_path f = f_path (get t) → f_failed f = f_failed (get t) → Q r (set f t, s')) →
  wp (on_part get set file_close) Q (t, s).
Proof.
  intros Hs HQ. store_run.
  eapply wp_mono; [apply wp_and; [apply (wp_file_close path)|apply wp_file_close_failed]|].
  intros r [f s1] ((Hp & Hl & _ & _) & Hfail). cbn [fst snd] in *.
  apply HQ; [by eapply safe_leaves; [apply Hs|]|by eapply sound_leaves|by apply leaves_contents|done..].
Qed.

(** Opening a store: the file is opened, the value is built around it and
    initialised, and a failed initialisation closes the file. *)
Lemma wp_open_sound g s limit (mk : File → T) (body : Act (T * Sys) GoError unit) (P : T → option string → Prop) :
  proper_path path → sound g (disk s) →
  (∀ file s1, f_path file = path → is_Some (f_lock file) → f_failed file = None → sound g (disk s1) →
    wp body (λ r t', throughout (safe g) s1 t'.2 ∧ sound g (disk t'.2) ∧
      (r = Ok tt → P t'.1 (contents (disk t'.2) path))) (mk file, s1)) →
  wp (file ← snapshot_open path limit;
      construct (mk file)
        (r ← attempt body;
         match r with
         | inl e => attempt (F := GoError) (on_part get set file_close);; raise e
         | inr _ => mret tt
         end))
    (λ r t, throughout (safe g) s t.2 ∧ good g (contents (disk t.2) path) ∧
      ∀ x, r = Ok x → P x (contents (disk t.2) path)) (tt, s).
Proof.
  intros Hp Hs Hbody. store_run.
  eapply wp_mono; [by apply wp_snapshot_open|]. intros r [[] s1] (_ & Hl & Hr). cbn [fst snd] in *.
  pose proof (safe_leaves _ _ _ (proj1 Hs) Hl) as Ht1. pose proof (sound_leaves _ _ _ Hs Hl) as Hs1.
  destruct r as [file|e|]; store_run; [|split_and!; [done|apply Hs1|done]|done].
  destruct Hr as (Hpf & _ & Hlock & Hfail). apply wp_construct. apply (wp_or_close g s).
  - eapply wp_mono; [by apply Hbody|]. intros r [t s2] (Ht2 & Hs2 & Hx). cbn [fst snd] in *.
    split_and!; [by eapply throughout_trans|done|]. intros ->.
    split_and!; [by eapply throughout_trans|apply Hs2|]. intros x [= <-]. by apply Hx.
  - intros [[]|e|] [t s2] Ht2 Hs2 Hne; [done|..]; (split_and!; [done|apply Hs2|done]).
Qed.
End file_calls.

(** The reference disk, for runs on concrete values. *)
Module ToyDisk.
#[export] Instance disk_ops : Storage := RefDisk.ref_storage false.
#[export] Instance disk_laws : StorageSpec := RefDisk.ref_storage_spec false.

Definition empty_sys : Sys := mkSys disk_ops (RefDisk.mkRef ∅ ∅ ∅ 0) [].

(** Power is lost when everything has been flushed. *)
Lemma crash_flushed (d d' : @Disk disk_ops) : d' = d → RefDisk.saved d = RefDisk.live d → crash d d'.
Proof. intros -> Hd. split; [by left|exact Hd]. Qed.

Lemma empty_sys_steady : steady (disk empty_sys) sample_path None.
Proof. split; [reflexivity|]. by intros x [->| ->]. Qed.
End ToyDisk.
