(* ===== verification/ClientState.v ===== *)
(** Rollback protection on a device:
    [services/control-api/internal/configuration/client.go].

    [ClientState] records the highest configuration version a device accepted and
    persists it before the configuration is used.  Whatever fails and wherever the
    machine crashes or the process restarts, the accepted versions only grow. *)

From S2P Require Import Prelude Machine Text GoBase Netip DeviceConfig Snapshot Durable.
From stdpp Require Import sorting.
Open Scope string_scope.
Open Scope Z_scope.

Record ClientSnapshot := mkClientSnapshot { cl_schema : Z; cl_device : string; cl_version : Z }.

Record ClientState := mkClientState { cs_file : File; cs_device : string; cs_version : Z }.

Definition set_cs_file (f : File) (c : ClientState) : ClientState := mkClientState f (cs_device c) (cs_version c).
Definition set_cs_version (v : Z) (c : ClientState) : ClientState := mkClientState (cs_file c) (cs_device c) v.

Section client.
Context `{Storage} `{Json ClientSnapshot} `{GoQuote}.
Local Abbreviation Call A := (Act (ClientState * Sys) GoError A).

Definition on_client_file {A} (m : Act (File * Sys) GoError A) : Call A := on_part cs_file set_cs_file m.

Definition client_save (version : Z) : Call unit :=
  device ← me cs_device;
  data ← lift (json_marshal (mkClientSnapshot 1 device version));
  on_client_file (file_write data).

(** The state read back, or a first one when there is none. *)
Definition client_restore : Call unit :=
  data ← attempt (on_client_file file_read);
  match data with
  | inl e => if errors_is e ErrNotExist then client_save 0 else raise e
  | inr data =>
      persisted ← lift (decode_snapshot data);
      device ← me cs_device;
      guard_err (negb (cl_schema persisted =? 1) || negb (bool_decide (cl_device persisted = device)))
        (NewError "client state belongs to a different device");;
      set_me (set_cs_version (cl_version persisted))
  end.

Definition client_init : Call unit :=
  restored ← attempt client_restore;
  match restored with
  | inl e => attempt (F := GoError) (on_client_file file_close);; raise e
  | inr _ => mret tt
  end.

Definition open_client_state (path deviceID : string) : Act (unit * Sys) GoError ClientState :=
  guard_err (negb (validIdentifier deviceID)) (NewError "client device ID must be a lowercase slug");;
  file ← snapshot_open path 4096;
  construct (mkClientState file deviceID 0) client_init.

Definition client_accept (envelope : SignedConfig) (now : Time) (verifier : option Verifier) : Call DeviceConfig :=
  on_client_file file_check;;
  device ← me cs_device; version ← me cs_version;
  config ← lift (open_for_device envelope device version now verifier);
  client_save (Version config);;
  set_me (set_cs_version (Version config));;
  mret config.

Definition client_version : Call Z := me cs_version.

Definition client_close : Call unit := on_client_file file_close.

(** ** The calls of a device *)

Inductive ClientOp :=
| Accept (envelope : SignedConfig) (now : Time) (verifier : option Verifier)
| CloseClient.

Definition client_call (op : ClientOp) : Call (option DeviceConfig) :=
  match op with
  | Accept envelope now verifier => config ← client_accept envelope now verifier; mret (Some config)
  | CloseClient => client_close;; mret None
  end.

(** The configurations that were handed out, newest first. *)
Definition record_accepted (op : ClientOp) (r : Result GoError (option DeviceConfig)) (g : list DeviceConfig) :
    list DeviceConfig :=
  match r with Ok (Some config) => config :: g | _ => g end.
End client.

(** ** Accepted versions only grow *)

Section rollback.
Context `{StorageSpec} `{JsonSpec ClientSnapshot} `{GoQuote}.
Context (path device : string) (Hpath : proper_path path).
Context (Hfaithful : ∀ version, json_faithful (mkClientSnapshot 1 device version)).

(** The file holds a version at least as high as every accepted one. *)
Definition client_good (g : list DeviceConfig) (x : option string) : Prop :=
  StronglySorted (λ c c', Version c' < Version c) g ∧ Forall (λ c, DeviceID c = device) g ∧
  match x with
  | None => g = []
  | Some data => ∃ version, json_marshal (mkClientSnapshot 1 device version) = Ok data ∧
      Forall (λ c, Version c ≤ version) g
  end.

Definition client_tied (g : list DeviceConfig) (t : ClientState) (x : option string) : Prop :=
  f_path (cs_file t) = path ∧ cs_device t = device ∧
  (f_failed (cs_file t) = None →
    ∃ data, x = Some data ∧ json_marshal (mkClientSnapshot 1 device (cs_version t)) = Ok data).

Local Abbreviation safe := (safe path client_good).
Local Abbreviation sound := (sound path client_good).

Lemma marshal_version_inj v v' data :
  json_marshal (mkClientSnapshot 1 device v) = Ok data → json_marshal (mkClientSnapshot 1 device v') = Ok data → v = v'.
Proof.
  intros Hv%decode_marshal Hv'%decode_marshal; [|done..]. congruence.
Qed.

Lemma set_cs_file_same t : set_cs_file (cs_file t) t = t.
Proof. by destruct t. Qed.

(** Saving a version that no accepted one exceeds. *)
Lemma wp_client_save g t s version Q :
  f_path (cs_file t) = path → cs_device t = device → sound g (disk s) →
  Forall (λ c, Version c ≤ version) g →
  (∀ r f s', throughout (safe g) s s' → sound g (disk s') → f_path f = path →
    match r with
    | Ok _ => f = cs_file t ∧ ∃ data, json_marshal (mkClientSnapshot 1 device version) = Ok data ∧
        steady (disk s') path (Some data)
    | _ => (f = cs_file t ∧ contents (disk s') path = contents (disk s) path) ∨ f_failed f ≠ None
    end → Q r (set_cs_file f t, s')) →
  wp (client_save version) Q (t, s).
Proof.
  intros Hf Hd Hs Hv HQ. unfold client_save, on_client_file. apply wp_bind, wp_me. cbn [after]. rewrite Hd.
  apply (wp_save_sound path client_good cs_file set_cs_file g); [done..|apply set_cs_file_same| |done].
  destruct Hs as [_ (Hsort & Hdev & _)]. intros data Hm. split_and!; [done..|]. eauto.
Qed.

Lemma wp_client_restore g t s :
  f_path (cs_file t) = path → cs_device t = device → f_failed (cs_file t) = None → cs_version t = 0 →
  sound g (disk s) →
  wp client_restore (λ r t', throughout (safe g) s t'.2 ∧ sound g (disk t'.2) ∧
    (r = Ok tt → client_tied g t'.1 (contents (disk t'.2) path) ∧ f_failed (cs_file t'.1) = None)) (t, s).
Proof.
  intros Hf Hd Hfail Hv Hs. unfold client_restore, on_client_file at 1. apply wp_bind, wp_attempt.
  apply (wp_read_sound path client_good _ _ g); [done..|apply set_cs_file_same|done|].
  intros r s1 Ht1 Hs1 Hc1 Hr.
  destruct r as [data|e|]; store_run; [|destruct (errors_is e ErrNotExist) eqn:He; store_run; [|done]|done].
  - destruct Hs as [_ (_ & _ & Hg)]. rewrite Hr in Hg. destruct Hg as (version & Hm & Hall).
    rewrite (decode_marshal _ _ (Hfaithful version) Hm). store_run. rewrite Hd. cbn [cl_schema cl_device].
    rewrite bool_decide_eq_true_2 by done. cbn. split_and!; [done..|]. intros _. split; [|done].
    split_and!; [done..|]. intros _. exists data. cbn. split; [congruence|done].
  - destruct Hs as [_ (_ & _ & Hg)]. rewrite (Hr eq_refl) in Hg. subst g.
    apply (wp_client_save []); [done..|]. intros r f s' Ht' Hs' Hp' Hr'. split_and!; [|done|].
    + by eapply throughout_trans.
    + intros ->. destruct Hr' as (-> & data & Hm & [Hc _]). cbn. split; [|done]. split_and!; [done..|]. intros _.
      exists data. cbn. by rewrite Hv.
Qed.

Lemma wp_open_client g s :
  sound g (disk s) →
  wp (open_client_state path device) (λ r t, throughout (safe g) s t.2 ∧ client_good g (contents (disk t.2) path) ∧
    ∀ x, r = Ok x → client_tied g x (contents (disk t.2) path) ∧ f_failed (cs_file x) = None) (tt, s).
Proof.
  intros Hs. unfold open_client_state. apply wp_bind, wp_guard; intros _; cbn [after]; [split_and!; [apply throughout_refl, Hs|apply Hs|done]|].
  apply (wp_open_sound path client_good cs_file set_cs_file g s 4096 (λ file, mkClientState file device 0) client_restore
    (λ x c, client_tied g x c ∧ f_failed (cs_file x) = None)); [done..|].
  intros file s1 Hpf _ Hfail Hs1. by apply wp_client_restore.
Qed.

Lemma client_open_rule g s :
  sound g (disk s) →
  wp (open_client_state path device) (λ r t, throughout (safe g) s t.2 ∧ client_good g (contents (disk t.2) path) ∧
    ∀ x, r = Ok x → client_tied g x (contents (disk t.2) path)) (tt, s).
Proof.
  intros Hs. eapply wp_mono; [by apply wp_open_client|]. intros r t (Ht & Hg & Hx).
  split_and!; [done..|]. intros x Hr. by apply Hx.
Qed.

Lemma tied_bound g t s :
  sound g (disk s) → client_tied g t (contents (disk s) path) → f_failed (cs_file t) = None →
  Forall (λ c, Version c ≤ cs_version t) g.
Proof.
  intros [_ (_ & _ & Hg)] (_ & _ & Ht) Hf. destruct (Ht Hf) as (data & Hc & Hm). rewrite Hc in Hg.
  destruct Hg as (version & Hm' & Hall). by rewrite (marshal_version_inj _ _ _ Hm Hm').
Qed.

Lemma client_good_cons g c data :
  client_good g (Some data) → DeviceID c = device → Forall (λ c', Version c' < Version c) g →
  json_marshal (mkClientSnapshot 1 device (Version c)) = Ok data → client_good (c :: g) (Some data).
Proof.
  intros (Hsort & Hdev & _) Hd Hall Hm. split_and!; [by constructor|by constructor|].
  exists (Version c). split; [done|]. constructor; [done|]. eapply Forall_impl; [exact Hall|]. cbn. lia.
Qed.

Definition client_post (op : ClientOp) (g : list DeviceConfig) (s : Sys)
    (r : Result GoError (option DeviceConfig)) (t : ClientState * Sys) : Prop :=
  throughout (safe g) s t.2 ∧ sound (record_accepted op r g) (disk t.2) ∧
  client_tied (record_accepted op r g) t.1 (contents (disk t.2) path).

Lemma client_accept_rule g t s envelope now verifier :
  sound g (disk s) → client_tied g t (contents (disk s) path) →
  wp (client_call (Accept envelope now verifier)) (client_post (Accept envelope now verifier) g s) (t, s).
Proof.
  destruct t as [f dev v]. intros Hs Ht. pose proof Ht as (Hp & Hd & _). cbn in Hp, Hd. subst dev.
  assert (∀ r, (∀ c, r ≠ Ok (Some c)) → client_post (Accept envelope now verifier) g s r (mkClientState f device v, s))
    as Hrefuse.
  { intros r Hr. unfold client_post. replace (record_accepted _ r g) with g.
    - split_and!; [apply throughout_refl, Hs|done|done].
    - destruct r as [[c|]| |]; [by destruct (Hr c)|done..]. }
  cbn [client_call]. unfold client_accept, on_client_file, file_check. store_run. cbn [cs_file].
  destruct (f_lock f) as [lock|]; store_run; [|by apply Hrefuse].
  destruct (f_failed f) as [e|] eqn:Hf; store_run; [by apply Hrefuse|].
  cbn [fst snd set_cs_file cs_file cs_device cs_version].
  pose proof (tied_bound g _ s Hs Ht Hf) as Hall. cbn [cs_version] in Hall.
  destruct (open_for_device _ _ _ _ _) as [config|e|] eqn:Ho; store_run; [|by apply Hrefuse..].
  apply open_for_device_ok in Ho as (_ & Hdev & Hver).
  apply (wp_client_save g); [done..| |].
  { eapply Forall_impl; [exact Hall|]. cbn. lia. }
  intros r f' s' Ht' Hs' Hp' Hr. cbn [set_cs_file cs_device cs_version].
  assert (∀ r, (f' = f ∧ contents (disk s') path = contents (disk s) path) ∨ f_failed f' ≠ None →
    (∀ c, r ≠ Ok (Some c)) → client_post (Accept envelope now verifier) g s r (mkClientState f' device v, s')) as Hkept.
  { intros r' Hr' Hne. unfold client_post. replace (record_accepted _ r' g) with g
      by (destruct r' as [[c|]| |]; [by destruct (Hne c)|done..]).
    split_and!; [done..|]. cbn. split_and!; [done..|]. intros Hnone.
    destruct Hr' as [[-> Hc]|Hr']; [|done]. rewrite Hc. by apply Ht. }
  destruct r as [[]|e|]; store_run; [|by apply Hkept..].
  destruct Hr as (Hfile & data & Hm & Hst).
  assert (client_good (config :: g) (Some data)) as Hg.
  { apply client_good_cons; [|done| |done].
    - destruct Hs' as [_ Hg]. destruct Hst as [Hc _]. by rewrite Hc in Hg.
    - eapply Forall_impl; [exact Hall|]. cbn. lia. }
  destruct Hst as [Hc Ho]. split_and!; [done| |]; cbn.
  + split; [|by rewrite Hc]. by intros x <-%Ho.
  + split_and!; [done..|]. intros _. exists data. by rewrite Hc.
Qed.

Lemma client_call_rule g t s op :
  sound g (disk s) → client_tied g t (contents (disk s) path) → True →
  wp (client_call op) (client_post op g s) (t, s).
Proof.
  intros Hs Ht _. destruct op as [envelope now verifier|]; [by apply client_accept_rule|].
  cbn [client_call]. unfold client_close, on_client_file. apply wp_bind.
  apply (wp_close_sound path client_good _ _ g); [done|]. intros r f s1 Hthr Hs1 Hc Hp Hfail.
  assert (client_tied g (set_cs_file f t) (contents (disk s1) path)) as Ht1.
  { destruct Ht as (Htp & Htd & Htc). split_and!; [by rewrite <-Htp|done|]. cbn. by rewrite Hfail, Hc. }
  destruct r as [[]|e|]; store_run; by split_and!.
Qed.
End rollback.

(** ** Theorem *)

(** C10: rollback protection survives failures, crashes and restarts.  On a device
    that starts without a state file, whatever file-system calls fail, wherever
    the machine loses power inside opening or accepting, and however often the
    process restarts: the configurations [Accept] has handed out all belong to the
    device and their versions strictly increase, and the version that the next
    run reads back is at least the highest of them. *)
Theorem accepted_versions_increase `{StorageSpec} `{JsonSpec ClientSnapshot} `{GoQuote} path device g t s :
  proper_path path → (∀ version, json_faithful (mkClientSnapshot 1 device version)) →
  run path (open_client_state path device) client_call (λ _ _, True) record_accepted [] g t s →
  StronglySorted (λ c c', Version c' < Version c) g ∧ Forall (λ c, DeviceID c = device) g ∧
  (∀ r state s', open_client_state path device (tt, s) = (r, s') → r = Ok state →
     Forall (λ c, Version c ≤ cs_version state) g).
Proof.
  intros Hp Hf Hrun.
  destruct (run_sound path _ _ _ _ [] (client_good device) (client_tied path device)
    ltac:(split_and!; [constructor|constructor|done]) (client_open_rule path device Hp Hf)
    (client_call_rule path device Hp Hf) g t s Hrun) as [Hs _].
  pose proof Hs as [_ (Hsort & Hdev & _)]. split_and!; [done..|]. intros r state s' Hopen ->.
  destruct (wp_elim _ _ _ _ _ (wp_open_client path device Hp Hf g s Hs) Hopen) as (Ht & Hg & Hx).
  destruct (Hx state eq_refl) as [Htied Hnone].
  eapply (tied_bound path device Hf g state s'.2); [split; [by destruct Ht as (_ & _ & _ & ?)|exact Hg]|done..].
Qed.

(** ** Witness: accepted once, then power is lost during a replay *)

Import DeviceConfig.Toys Durable.ToyDisk.

Module ClientWitness.
#[export] Instance client_snapshot_eq_dec : EqDecision ClientSnapshot.
Proof. solve_decision. Defined.
#[export] Instance client_snapshot_countable : Countable ClientSnapshot.
Proof.
  refine (inj_countable' (λ c, (cl_schema c, cl_device c, cl_version c))
    (λ '(a, b, c), mkClientSnapshot a b c) _). by intros [].
Defined.

#[export] Instance client_json : Json ClientSnapshot := ToyJson.toy_json.
#[export] Instance client_json_spec : JsonSpec ClientSnapshot := ToyJson.toy_json_spec.

Definition no_state : ClientState := mkClientState (mkFile "" 0 None None) "" 0.
Definition state_of (r : Result GoError ClientState) : ClientState := match r with Ok t => t | _ => no_state end.

Definition first_open := open_client_state sample_path "laptop" (tt, empty_sys).
Definition op : ClientOp := Accept sample_envelope sample_issued (Some sample_verifier).
Definition first_accept := client_call op (state_of first_open.1, first_open.2.2).
Definition replay := client_call op first_accept.2.
Definition after_crash : Sys := mkSys disk_ops (disk replay.2.2) [].
Definition second_open := open_client_state sample_path "laptop" (tt, after_crash).

Lemma sample_run :
  run sample_path (open_client_state sample_path "laptop") client_call (λ _ _, True) record_accepted []
    [sample_config] None after_crash.
Proof.
  apply (run_crashed _ _ _ _ _ _ _ first_accept.2.1 first_accept.2.2 op); [|done|].
  - replace [sample_config] with (record_accepted op first_accept.1 []) by (vm_compute; reflexivity).
    unfold first_accept. apply (run_called _ _ _ _ _ _ [] (state_of first_open.1) first_open.2.2 op); [|done].
    unfold first_open at 2. apply (run_opened _ _ _ _ _ _ [] empty_sys); [apply run_fresh, empty_sys_steady|vm_compute; reflexivity].
  - unfold after_crash, replay. rewrite <-surjective_pairing. apply crash_flushed; [exact eq_refl|vm_compute; reflexivity].
Qed.
End ClientWitness.
Import ClientWitness.

Lemma accepted_versions_increase_witness :
  replay.1 = Err ErrStaleVersion ∧
  ∃ state, second_open.1 = Ok state ∧ cs_version state = 7 ∧ Forall (λ c, Version c ≤ cs_version state) [sample_config].
Proof.
  split; [vm_compute; reflexivity|]. exists (state_of second_open.1).
  assert (second_open.1 = Ok (state_of second_open.1)) as Hopen by (vm_compute; reflexivity).
  split; [exact Hopen|]. split; [vm_compute; reflexivity|].
  destruct (accepted_versions_increase sample_path "laptop" [sample_config] None after_crash) as (_ & _ & Hv);
    [apply sample_path_proper|by intros|apply sample_run|].
  apply (Hv second_open.1 _ second_open.2); [apply surjective_pairing|exact Hopen].
Defined.
