(* ===== verification/ConfigStore.v ===== *)
(** The configuration store of the control service:
    [services/control-api/internal/configuration/store.go] and [file.go].

    [MemoryStore] keeps the newest envelope of each device; [FileStore] makes it
    durable by writing a snapshot of a candidate before it replaces the current
    contents.  An acknowledged publication is never lost or rolled back. *)

From S2P Require Import Prelude Machine Text GoBase Netip DeviceConfig Snapshot Durable.
Open Scope string_scope.
Open Scope Z_scope.

Definition ErrConfigNotFound : GoError := NewError "device configuration not found".

(** A nil map reads as an empty one. *)
Abbreviation MemoryStore := (gmap string SignedConfig).

(** The copies of slices are the same values. *)
Definition clone_envelope (envelope : SignedConfig) : SignedConfig :=
  mkSigned (clone_config (Config envelope)) (KeyID envelope) (Signature envelope).

Definition memory_publish (envelope : SignedConfig) (devices : MemoryStore) : Result GoError MemoryStore :=
  reject_if (negb (validIdentifier (DeviceID (Config envelope))) || (Version (Config envelope) =? 0)
    || negb (validIdentifier (KeyID envelope)) || (String.length (Signature envelope) =? 0)%nat)
    (invalid "incomplete signed envelope");;
  match devices !! DeviceID (Config envelope) with
  | Some current =>
      reject_if (Version (Config envelope) <=? Version (Config current))
        (with_detail ErrStaleVersion ("current=" +:+ to_dec (Version (Config current))
           +:+ " proposed=" +:+ to_dec (Version (Config envelope))))
  | None => Ok tt
  end;;
  Ok (<[DeviceID (Config envelope) := clone_envelope envelope]> devices).

Definition memory_latest (deviceID : string) (devices : MemoryStore) : Result GoError SignedConfig :=
  match devices !! deviceID with
  | None => Err ErrConfigNotFound
  | Some envelope => Ok (clone_envelope envelope)
  end.

(** [Envelopes] is a slice that may be nil. *)
Record FileState := mkFileState { fs_schema : Z; fs_envelopes : option (list SignedConfig) }.

Record FileStore := mkFileStore { st_file : File; st_data : MemoryStore }.

Definition set_st_file (f : File) (s : FileStore) : FileStore := mkFileStore f (st_data s).
Definition set_st_data (d : MemoryStore) (s : FileStore) : FileStore := mkFileStore (st_file s) d.

(** [for _, envelope := range state.Envelopes { store.data.Publish(envelope) }]. *)
Fixpoint publish_all (l : list SignedConfig) (devices : MemoryStore) : Result GoError MemoryStore :=
  match l with
  | [] => Ok devices
  | envelope :: l =>
      devices ← map_err (λ _, NewError "invalid persisted configuration") (memory_publish envelope devices);
      publish_all l devices
  end.

Section store.
Context `{Storage} `{Json FileState} `{MapRange}.
Local Abbreviation Call A := (Act (FileStore * Sys) GoError A).

Definition on_store_file {A} (m : Act (File * Sys) GoError A) : Call A := on_part st_file set_st_file m.

Definition store_save (candidate : MemoryStore) : Call unit :=
  let state := mkFileState 1 (Some (map (λ '(_, e), clone_envelope e) (map_range candidate))) in
  data ← lift (json_marshal state);
  on_store_file (file_write data).

Definition store_load (data : string) : Call unit :=
  state ← lift (decode_snapshot data);
  guard_err (negb (fs_schema state =? 1) || bool_decide (fs_envelopes state = None)
    || (10000 <? Z.of_nat (length (default [] (fs_envelopes state))))) (NewError "invalid configuration snapshot");;
  devices ← me st_data;
  devices ← lift (publish_all (default [] (fs_envelopes state)) devices);
  set_me (set_st_data devices).

(** The envelopes read back, or an empty snapshot when there is none. *)
Definition store_restore : Call unit :=
  data ← attempt (on_store_file file_read);
  match data with
  | inl e => if errors_is e ErrNotExist then store ← me st_data; store_save store else raise e
  | inr data => store_load data
  end.

Definition store_init : Call unit :=
  restored ← attempt store_restore;
  match restored with
  | inl e => attempt (F := GoError) (on_store_file file_close);; raise e
  | inr _ => mret tt
  end.

Definition open_file_store (path : string) : Act (unit * Sys) GoError FileStore :=
  file ← snapshot_open path (16 * 2 ^ 20);
  construct (mkFileStore file ∅) store_init.

(** [clone] copies every entry. *)
Definition store_clone (devices : MemoryStore) : MemoryStore := clone_envelope <$> devices.

Definition store_publish (envelope : SignedConfig) : Call unit :=
  on_store_file file_check;;
  devices ← me st_data;
  let candidate := store_clone devices in
  candidate ← lift (memory_publish envelope candidate);
  store_save candidate;;
  set_me (set_st_data candidate).

Definition store_latest (deviceID : string) : Call SignedConfig :=
  on_store_file file_check;;
  devices ← me st_data;
  lift (memory_latest deviceID devices).

Definition store_close : Call unit := on_store_file file_close.

(** ** The calls of the store *)

Inductive StoreOp := Publish (envelope : SignedConfig) | Latest (deviceID : string) | CloseStore.

Definition store_call (op : StoreOp) : Call (option SignedConfig) :=
  match op with
  | Publish envelope => store_publish envelope;; mret None
  | Latest deviceID => envelope ← store_latest deviceID; mret (Some envelope)
  | CloseStore => store_close;; mret None
  end.

(** The newest acknowledged envelope of each device. *)
Definition record_published (op : StoreOp) (r : Result GoError (option SignedConfig)) (g : MemoryStore) : MemoryStore :=
  match op, r with
  | Publish envelope, Ok _ => <[DeviceID (Config envelope) := envelope]> g
  | _, _ => g
  end.
End store.

(** ** The memory store *)

Lemma clone_envelope_id e : clone_envelope e = e.
Proof. destruct e. unfold clone_envelope. cbn. by rewrite clone_config_id. Qed.

Lemma store_clone_id m : store_clone m = m.
Proof.
  unfold store_clone. apply map_eq. intros i. rewrite lookup_fmap. destruct (m !! i); cbn; [|done].
  by rewrite clone_envelope_id.
Qed.

(** What [Publish] asks of an envelope. *)
Definition complete (e : SignedConfig) : Prop :=
  slug (DeviceID (Config e)) ∧ Version (Config e) ≠ 0 ∧ slug (KeyID e) ∧ Signature e ≠ "".

Lemma memory_publish_ok e m m' :
  memory_publish e m = Ok m' ↔
  complete e ∧ (∀ current, m !! DeviceID (Config e) = Some current → Version (Config current) < Version (Config e)) ∧
  m' = <[DeviceID (Config e) := e]> m.
Proof.
  unfold memory_publish, complete, validIdentifier. rewrite !bind_unit_ok, reject_last, clone_envelope_id.
  rewrite !orb_false_iff, !negb_false_iff, !valid_slug_value_spec, Z.eqb_neq, Nat.eqb_neq.
  assert (String.length (Signature e) ≠ 0%nat ↔ Signature e ≠ "") as -> by (by destruct (Signature e)).
  destruct (m !! _) as [current|].
  - rewrite reject_last, Z.leb_gt. split; [intros (? & ? & [= <-]); naive_solver|].
    intros (? & Hv & ->). split; [tauto|]. split; [by apply Hv|done].
  - split; [intros (? & ? & [= <-]); naive_solver|]. intros (? & ? & ->). naive_solver.
Qed.

(** Publishing the entries of a store into an empty one restores it. *)
Definition keyed (m : MemoryStore) : Prop := ∀ id e, m !! id = Some e → DeviceID (Config e) = id ∧ complete e.

(** ** Acknowledged publications survive *)

Section durable.
Context `{StorageSpec} `{JsonSpec FileState} `{MapRange}.
Context (path : string) (Hpath : proper_path path).
(** The envelopes that are published can be expressed in JSON. *)
Context (expressible : SignedConfig → Prop).
Context (Hfaithful : ∀ l, Forall expressible l → json_faithful (mkFileState 1 (Some l))).

Definition entries (m : MemoryStore) : list SignedConfig := map (λ '(_, e), clone_envelope e) (map_range m).
Definition image (m : MemoryStore) : Result GoError string := json_marshal (mkFileState 1 (Some (entries m))).

(** Every acknowledged envelope is there, or a newer one of its device. *)
Definition covers (g m : MemoryStore) : Prop :=
  ∀ id e, g !! id = Some e → ∃ e', m !! id = Some e' ∧ (e' = e ∨ Version (Config e) < Version (Config e')).

Definition store_ok (m : MemoryStore) : Prop := keyed m ∧ ∀ id e, m !! id = Some e → expressible e.

Definition store_good (g : MemoryStore) (x : option string) : Prop :=
  match x with
  | None => g = ∅
  | Some data => ∃ m, store_ok m ∧ image m = Ok data ∧ covers g m
  end.

Definition store_tied (g : MemoryStore) (t : FileStore) (x : option string) : Prop :=
  f_path (st_file t) = path ∧ store_ok (st_data t) ∧
  (f_failed (st_file t) = None → ∃ data, x = Some data ∧ image (st_data t) = Ok data).

Local Abbreviation safe := (safe path store_good).
Local Abbreviation sound := (sound path store_good).

Lemma entries_perm m : entries m ≡ₚ (map_to_list m).*2.
Proof.
  unfold entries. rewrite (map_ext _ snd); [|intros []; apply clone_envelope_id].
  change (map snd) with (fmap (M := list) (@snd string SignedConfig)). by rewrite map_range_perm.
Qed.

Lemma elem_of_entries m e : e ∈ entries m ↔ ∃ id, m !! id = Some e.
Proof.
  rewrite entries_perm, list_elem_of_fmap. split.
  - intros ([id e'] & -> & Hin%elem_of_map_to_list). by exists id.
  - intros (id & Hid). exists (id, e). split; [done|]. by apply elem_of_map_to_list.
Qed.

Lemma entries_restore m : keyed m → publish_all (entries m) ∅ = Ok m.
Proof.
  intros Hk. apply (reload_map publish_all (λ e, DeviceID (Config e)) id complete); [done| |].
  - intros e l m' Hc Hnew. cbn [publish_all].
    assert (memory_publish e m' = Ok (<[DeviceID (Config e) := e]> m')) as ->; [|done].
    apply memory_publish_ok. split_and!; [done| |done]. intros current Hcur. by rewrite Hnew in Hcur.
  - intros id e Hid. cbn. rewrite clone_envelope_id. by destruct (Hk id e Hid).
Qed.

Lemma image_decodes m data : store_ok m → image m = Ok data → decode_snapshot data = Ok (mkFileState 1 (Some (entries m))).
Proof.
  intros [_ He] Hm. apply decode_marshal; [|done]. apply Hfaithful, Forall_forall.
  intros e (id & Hid)%elem_of_entries. eauto.
Qed.

Lemma image_inj m m' data : store_ok m → store_ok m' → image m = Ok data → image m' = Ok data → m = m'.
Proof.
  intros Hm Hm' Ha%image_decodes Hb%image_decodes; [|done..]. rewrite Ha in Hb. injection Hb as Heq.
  apply (f_equal (λ l, publish_all l ∅)) in Heq. rewrite !entries_restore in Heq by (by apply Hm || by apply Hm').
  by injection Heq.
Qed.

Lemma set_st_file_same t : set_st_file (st_file t) t = t.
Proof. by destruct t. Qed.

Lemma store_ok_empty : store_ok ∅.
Proof. split; intros id e Hid; by rewrite lookup_empty in Hid. Qed.

Lemma store_ok_insert e m : store_ok m → complete e → expressible e → store_ok (<[DeviceID (Config e) := e]> m).
Proof.
  intros [Hk He] Hc Hx. split; intros id e' [[<- <-]|[_ Hid]]%lookup_insert_Some; eauto.
Qed.

Lemma covers_newer g m e :
  covers g m → (∀ c, m !! DeviceID (Config e) = Some c → Version (Config c) < Version (Config e)) →
  covers g (<[DeviceID (Config e) := e]> m).
Proof.
  intros Hcov Hnew id e0 Hid. destruct (Hcov id e0 Hid) as (e' & He' & Hv).
  destruct (decide (DeviceID (Config e) = id)) as [<-|Hne].
  - exists e. split; [apply lookup_insert_eq|]. right. pose proof (Hnew _ He'). destruct Hv as [->|Hv]; lia.
  - exists e'. by rewrite lookup_insert_ne.
Qed.

Lemma covers_acknowledged g m e :
  covers g m → covers (<[DeviceID (Config e) := e]> g) (<[DeviceID (Config e) := e]> m).
Proof.
  intros Hcov id e0 [[<- <-]|[Hne Hid]]%lookup_insert_Some.
  - exists e. split; [apply lookup_insert_eq|by left].
  - rewrite lookup_insert_ne by done. by apply Hcov.
Qed.

(** What a store that has not failed holds covers the acknowledged envelopes. *)
Lemma tied_covers g t s :
  sound g (disk s) → store_tied g t (contents (disk s) path) → f_failed (st_file t) = None → covers g (st_data t).
Proof.
  intros [_ Hg] (_ & Hok & Ht) Hf. destruct (Ht Hf) as (data & Hc & Hm). rewrite Hc in Hg.
  destruct Hg as (m & Hok' & Hm' & Hcov). by rewrite (image_inj _ _ _ Hok Hok' Hm Hm').
Qed.

Lemma wp_store_save g t s candidate Q :
  f_path (st_file t) = path → sound g (disk s) → store_ok candidate → covers g candidate →
  (∀ r f s', throughout (safe g) s s' → sound g (disk s') → f_path f = path →
    match r with
    | Ok _ => f = st_file t ∧ ∃ data, image candidate = Ok data ∧ steady (disk s') path (Some data)
    | _ => (f = st_file t ∧ contents (disk s') path = contents (disk s) path) ∨ f_failed f ≠ None
    end → Q r (set_st_file f t, s')) →
  wp (store_save candidate) Q (t, s).
Proof.
  intros Hf Hs Hok Hcov HQ. unfold store_save, on_store_file.
  apply (wp_save_sound path store_good st_file set_st_file g); [done..|apply set_st_file_same| |done].
  intros data Hm. by exists candidate.
Qed.

Lemma wp_store_load g data :
  store_good g (Some data) → ∀ t s, f_path (st_file t) = path → st_data t = ∅ →
  contents (disk s) path = Some data →
  wp (store_load data) (λ r t', t'.2 = s ∧ (r = Ok tt → store_tied g t'.1 (Some data))) (t, s).
Proof.
  intros (m & Hok & Hm & Hcov) t s Hf Hd Hc. unfold store_load. store_run.
  rewrite (image_decodes _ _ Hok Hm). store_run. cbn [fs_schema fs_envelopes default from_option id].
  rewrite bool_decide_eq_false_2 by done. cbn [negb orb Z.eqb Pos.eqb].
  apply wp_guard; intros _; store_run; [done|]. rewrite Hd, (entries_restore m (proj1 Hok)). store_run.
  split; [done|]. intros _. split_and!; [done..|]. intros _. by exists data.
Qed.

Lemma wp_store_restore g t s :
  f_path (st_file t) = path → f_failed (st_file t) = None → st_data t = ∅ → sound g (disk s) →
  wp store_restore (λ r t', throughout (safe g) s t'.2 ∧ sound g (disk t'.2) ∧
    (r = Ok tt → store_tied g t'.1 (contents (disk t'.2) path))) (t, s).
Proof.
  intros Hf Hfail Hd Hs. unfold store_restore, on_store_file at 1. apply wp_bind, wp_attempt.
  apply (wp_read_sound path store_good _ _ g); [done..|apply set_st_file_same|done|].
  intros r s1 Ht1 Hs1 Hc1 Hr.
  destruct r as [data|e|]; store_run; [|destruct (errors_is e ErrNotExist) eqn:He; store_run; [|done]|done].
  - eapply wp_mono; [apply (wp_store_load g); try done|].
    + destruct Hs as [_ Hg]. by rewrite Hr in Hg.
    + by rewrite Hc1.
    + intros r [t' s2] [-> Hx]. cbn [fst snd] in *. split_and!; [done..|]. intros ->. rewrite Hc1, Hr. by apply Hx.
  - destruct Hs as [_ Hg]. rewrite (Hr eq_refl) in Hg. cbn in Hg. subst g. rewrite Hd.
    apply (wp_store_save ∅); [done..|apply store_ok_empty|by intros ? ? ?%lookup_empty_Some|].
    intros r f s' Ht' Hs' Hp' Hr'. split_and!; [by eapply throughout_trans|done|].
    intros ->. destruct Hr' as (-> & data & Hm & [Hc _]). unfold store_tied. cbn. rewrite Hd, Hc.
    split_and!; [done|apply store_ok_empty|]. intros _. by exists data.
Qed.

Lemma store_open_rule g s :
  sound g (disk s) →
  wp (open_file_store path) (λ r t, throughout (safe g) s t.2 ∧ store_good g (contents (disk t.2) path) ∧
    ∀ x, r = Ok x → store_tied g x (contents (disk t.2) path)) (tt, s).
Proof.
  intros Hs. apply (wp_open_sound path store_good st_file set_st_file g s _ (λ file, mkFileStore file ∅) store_restore
    (store_tied g)); [done..|].
  intros file s1 Hpf _ Hfail Hs1. by apply wp_store_restore.
Qed.

Definition store_post (op : StoreOp) (g : MemoryStore) (s : Sys)
    (r : Result GoError (option SignedConfig)) (t : FileStore * Sys) : Prop :=
  throughout (safe g) s t.2 ∧ sound (record_published op r g) (disk t.2) ∧
  store_tied (record_published op r g) t.1 (contents (disk t.2) path).

Lemma store_publish_rule g t s e :
  sound g (disk s) → store_tied g t (contents (disk s) path) → expressible e →
  wp (store_call (Publish e)) (store_post (Publish e) g s) (t, s).
Proof.
  intros Hs Ht Hx. pose proof Ht as (Hp & Hok & _).
  assert (∀ r, (∀ x, r ≠ Ok x) → store_post (Publish e) g s r (t, s)) as Hrefuse.
  { intros r Hr. unfold store_post. replace (record_published _ r g) with g by (by destruct r as [x| |]; [destruct (Hr x)|..]).
    split_and!; [apply throughout_refl, Hs|done..]. }
  cbn [store_call]. unfold store_publish, on_store_file. do 2 apply wp_bind.
  apply wp_file_check; [apply set_st_file_same|intros ?; store_run; by apply Hrefuse|]. intros _ Hf. store_run.
  pose proof (tied_covers _ _ _ Hs Ht Hf) as Hcov. rewrite store_clone_id.
  destruct (memory_publish e (st_data t)) as [candidate|err|] eqn:Hpub; store_run; [|by apply Hrefuse..].
  apply memory_publish_ok in Hpub as (Hc & Hnew & ->).
  assert (store_ok (<[DeviceID (Config e) := e]> (st_data t))) as Hok' by by apply store_ok_insert.
  apply (wp_store_save g); [done..|by apply covers_newer|]. intros r f s' Ht' Hs' Hp' Hr.
  assert (∀ r, (f = st_file t ∧ contents (disk s') path = contents (disk s) path) ∨ f_failed f ≠ None →
    (∀ x, r ≠ Ok x) → store_post (Publish e) g s r (set_st_file f t, s')) as Hkept.
  { intros r' Hr' Hne. unfold store_post.
    replace (record_published _ r' g) with g by (by destruct r' as [x| |]; [destruct (Hne x)|..]).
    split_and!; [done..|]. split_and!; [done..|]. cbn. intros Hnone.
    destruct Hr' as [[-> Hc']|?]; [|done]. rewrite Hc'. by apply Ht. }
  destruct r as [[]|err|]; store_run; [|by apply Hkept..].
  destruct Hr as (Hfile & data & Hm & [Hcs Ho]).
  assert (store_good (<[DeviceID (Config e) := e]> g) (Some data)) as Hg.
  { exists (<[DeviceID (Config e) := e]> (st_data t)). split_and!; [done..|]. by apply covers_acknowledged. }
  split_and!; [done| |]; cbn [record_published fst snd].
  - split; [by intros x <-%Ho|by rewrite Hcs].
  - split_and!; [done..|]. intros _. exists data. by rewrite Hcs.
Qed.

Lemma store_call_rule g t s op :
  sound g (disk s) → store_tied g t (contents (disk s) path) →
  match op with Publish e => expressible e | _ => True end →
  wp (store_call op) (store_post op g s) (t, s).
Proof.
  intros Hs Ht Ha. destruct op as [e|id|]; [by apply store_publish_rule|..]; cbn [store_call].
  - unfold store_latest, on_store_file. do 2 apply wp_bind.
    assert (∀ r, store_post (Latest id) g s r (t, s)) as Hsame by (intros r; split_and!; [apply throughout_refl, Hs|done..]).
    apply wp_file_check; [apply set_st_file_same|intros e; store_run; apply Hsame|]. intros _ _. store_run.
    destruct (memory_latest _ _); store_run; apply Hsame.
  - unfold store_close, on_store_file. apply wp_bind.
    apply (wp_close_sound path store_good _ _ g); [done|]. intros r f s1 Hthr Hs1 Hc Hp Hfail.
    assert (store_tied g (set_st_file f t) (contents (disk s1) path)) as Ht1.
    { destruct Ht as (Htp & Htd & Htc). split_and!; [by rewrite <-Htp|done|]. cbn. by rewrite Hfail, Hc. }
    destruct r as [[]|e|]; store_run; by split_and!.
Qed.

(** A store of more than 10000 devices is written, but never read back. *)
Lemma oversized_store_refused data m (t : FileStore) s :
  store_ok m → image m = Ok data → 10000 < Z.of_nat (size m) →
  wp (store_load data) (λ r t', r = Err (NewError "invalid configuration snapshot")) (t, s).
Proof.
  intros Hok Hm Hsize. unfold store_load. store_run. rewrite (image_decodes _ _ Hok Hm). store_run.
  cbn [fs_schema fs_envelopes default from_option id]. rewrite bool_decide_eq_false_2 by done. cbn [negb orb Z.eqb Pos.eqb].
  assert (length (entries m) = size m) as Hl by (by rewrite entries_perm, length_fmap, length_map_to_list).
  apply wp_guard; intros Hg; store_run; [done|]. rewrite Hl in Hg. lia.
Qed.

(** What [Latest] answers for a device with an acknowledged envelope. *)
Lemma latest_covers g t s id e r s' :
  sound g (disk s) → store_tied g t (contents (disk s) path) → g !! id = Some e →
  store_latest id (t, s) = (r, s') →
  match r with
  | Ok e' => e' = e ∨ Version (Config e) < Version (Config e')
  | Err err => (f_lock (st_file t) = None ∧ err = ErrClosed) ∨ f_failed (st_file t) = Some err
  | Panic => False
  end.
Proof.
  intros Hs Ht Hid. by_wp. unfold store_latest, on_store_file, file_check. store_run.
  destruct (f_lock (st_file t)) as [lock|]; store_run; [|by left].
  destruct (f_failed (st_file t)) as [err|] eqn:Hfail; store_run; [by right|].
  cbn [fst snd]. rewrite set_st_file_same. destruct (tied_covers _ _ _ Hs Ht Hfail id e Hid) as (e' & He' & Hv).
  unfold memory_latest. rewrite He'. store_run. by rewrite clone_envelope_id.
Qed.
End durable.

(** ** Theorem *)

(** Only envelopes that JSON can express are published. *)
Definition publishes (expressible : SignedConfig → Prop) (_ : MemoryStore) (op : StoreOp) : Prop :=
  match op with Publish e => expressible e | _ => True end.

(** C11: an acknowledged publication is never lost or rolled back.  Starting
    without a snapshot, whatever file-system calls fail, wherever the machine
    loses power and however often the service restarts: for a device with an
    acknowledged envelope, [Latest] returns that envelope or one of a higher
    version; it fails only because the store was closed or a write of it failed. *)
Theorem published_never_lost `{StorageSpec} `{JsonSpec FileState} `{MapRange} path expressible g t s id e r s' :
  proper_path path → (∀ l, Forall expressible l → json_faithful (mkFileState 1 (Some l))) →
  run path (open_file_store path) store_call (publishes expressible) record_published ∅ g (Some t) s →
  g !! id = Some e → store_latest id (t, s) = (r, s') →
  match r with
  | Ok e' => e' = e ∨ Version (Config e) < Version (Config e')
  | Err err => (f_lock (st_file t) = None ∧ err = ErrClosed) ∨ f_failed (st_file t) = Some err
  | Panic => False
  end.
Proof.
  intros Hp Hf Hrun Hid.
  destruct (run_sound path _ _ _ _ ∅ (store_good expressible) (store_tied path expressible)
    eq_refl (store_open_rule path Hp expressible Hf)
    (store_call_rule path Hp expressible Hf) g (Some t) s Hrun) as [Hs Ht]. specialize (Ht t eq_refl).
  by eapply (latest_covers path expressible Hf).
Qed.

(** ** Witness: published, power lost, reopened *)

Import DeviceConfig.Toys Durable.ToyDisk.

Module StoreWitness.
#[export] Instance file_state_eq_dec : EqDecision FileState.
Proof. solve_decision. Defined.

Definition snapshots : list FileState := [mkFileState 1 (Some []); mkFileState 1 (Some [sample_envelope])].
#[export] Instance store_json : Json FileState := ToyJson.listed_json snapshots.
#[export] Instance store_json_spec : JsonSpec FileState := ToyJson.listed_json_spec snapshots.

Definition no_store : FileStore := mkFileStore (mkFile "" 0 None None) ∅.
Definition store_of (r : Result GoError FileStore) : FileStore := match r with Ok t => t | _ => no_store end.

Definition first_open := open_file_store sample_path (tt, empty_sys).
Definition published := store_call (Publish sample_envelope) (store_of first_open.1, first_open.2.2).
Definition stopped := store_call CloseStore published.2.
Definition after_crash : Sys := mkSys disk_ops (disk stopped.2.2) [].
Definition second_open := open_file_store sample_path (tt, after_crash).

Lemma store_run_sample :
  run sample_path (open_file_store sample_path) store_call (publishes (λ _, True)) record_published ∅
    (record_published (Publish sample_envelope) published.1 ∅) (Some (store_of second_open.1)) second_open.2.2.
Proof.
  apply (run_opened _ _ _ _ _ _ _ after_crash); [|vm_compute; reflexivity].
  apply (run_crashed _ _ _ _ _ _ _ published.2.1 published.2.2 CloseStore);
    [|done|unfold stopped; rewrite <-surjective_pairing; apply crash_flushed; [exact eq_refl|vm_compute; reflexivity]].
  apply (run_called _ _ _ _ _ _ ∅ (store_of first_open.1) first_open.2.2 (Publish sample_envelope)); [|done].
  apply (run_opened _ _ _ _ _ _ ∅ empty_sys); [apply run_fresh, empty_sys_steady|vm_compute; reflexivity].
Qed.
End StoreWitness.
Import StoreWitness.

Lemma published_never_lost_witness :
  published.1 = Ok None ∧
  let r := (store_latest "laptop" (store_of second_open.1, second_open.2.2)).1 in
  match r with
  | Ok e' => e' = sample_envelope ∨ Version (Config sample_envelope) < Version (Config e')
  | _ => False
  end.
Proof.
  split; [vm_compute; reflexivity|]. cbv zeta.
  pose proof (published_never_lost sample_path (λ _, True) _ _ _ "laptop" sample_envelope _ _ sample_path_proper
    (λ _ _, I) store_run_sample ltac:(vm_compute; reflexivity) (surjective_pairing _)) as Hr.
  destruct (store_latest _ _).1 eqn:Hl; [exact Hr|vm_compute in Hl; discriminate..].
Defined.
