(* ===== verification/Identity.v ===== *)
(** Device identities and their enrollment:
    [services/control-api/internal/identity/device.go] and [enrollment.go].

    A device proves possession of its Ed25519 key by signing a challenge that the
    server issued for its account and device.  [EnrollmentStore] keeps the pending
    challenges by their digest and the registered devices by their identifier. *)

From S2P Require Import Prelude Machine Text GoBase Netip DeviceConfig.
Open Scope string_scope.
Open Scope Z_scope.

Definition ErrInvalidEnrollment : GoError := NewError "invalid device enrollment".
Definition ErrInvalidProof : GoError := NewError "invalid device proof".
Definition ErrEnrollmentCapacity : GoError := NewError "enrollment capacity reached".
Definition ErrInvalidChallenge : GoError := NewError "invalid or expired enrollment challenge".
Definition ErrDeviceExists : GoError := NewError "device ID already registered".
Definition ErrDeviceNotFound : GoError := NewError "device not found".

Definition enrollmentDomain : string := "cyberia-device-enrollment:v1".

(** [crypto/sha256]: [Sum256] yields 32 bytes. *)
Class Sha256 := { sum256 : string → string }.
Class Sha256Spec `{Sha256} := { sum256_size : ∀ s, String.length (sum256 s) = 32%nat }.

(** [hex.EncodeToString]. *)
Definition hex_digit (d : Z) : ascii := byte (if d <? 10 then 48 + d else 87 + d).
Fixpoint hex_encode (s : string) : string :=
  match s with
  | "" => ""
  | String c s => String (hex_digit (code c / 16)) (String (hex_digit (code c mod 16)) (hex_encode s))
  end.

Record EnrollmentRequest := mkEnrollment {
  req_account : string;
  req_device : string;
  req_key : string;
  req_challenge : string;
  req_signature : string;
}.

Record DeviceIdentity := mkIdentity {
  dev_account : string;
  dev_device : string;
  dev_key : string;
  dev_key_id : string;
}.

Record Challenge := mkChallenge { ch_value : string; ch_expires : Time }.

Record PendingChallenge := mkPending { pend_account : string; pend_device : string; pend_expires : Time }.

(** A nil [devices] map reads as an empty one. *)
Record EnrollmentStore := mkEnrollmentStore {
  es_devices : gmap string DeviceIdentity;
  es_ttl : Z;
  es_capacity : Z;
  es_challenges : gmap string PendingChallenge;
}.

#[export] Instance identity_eq_dec : EqDecision DeviceIdentity.
Proof. solve_decision. Defined.
#[export] Instance pending_eq_dec : EqDecision PendingChallenge.
Proof. solve_decision. Defined.

Definition set_devices (m : gmap string DeviceIdentity) (s : EnrollmentStore) : EnrollmentStore :=
  mkEnrollmentStore m (es_ttl s) (es_capacity s) (es_challenges s).
Definition set_challenges (m : gmap string PendingChallenge) (s : EnrollmentStore) : EnrollmentStore :=
  mkEnrollmentStore (es_devices s) (es_ttl s) (es_capacity s) m.

(** [identity] has its own copy of the slug test. *)
Definition identity_validIdentifier (value : string) : bool := valid_slug_value value.

Definition enrollment_message (request : EnrollmentRequest) : string :=
  foldl (λ message f, append_uint32 message (len f) +:+ f) ""
    [enrollmentDomain; req_account request; req_device request; req_challenge request].

Section enrollment.
Context `{Ed25519} `{Sha256}.

Definition key_id_of (publicKey : string) : string := hex_encode (sum256 publicKey).

Definition verify_enrollment (request : EnrollmentRequest) : Result GoError DeviceIdentity :=
  reject_if (negb (identity_validIdentifier (req_account request))
    || negb (identity_validIdentifier (req_device request)))
    (with_detail ErrInvalidEnrollment "account and device IDs must be lowercase slugs");;
  reject_if (negb (String.length (req_key request) =? PublicKeySize)%nat)
    (with_detail ErrInvalidEnrollment "invalid Ed25519 public key");;
  reject_if ((len (req_challenge request) <? 32) || (256 <? len (req_challenge request)))
    (with_detail ErrInvalidEnrollment "challenge length must be between 32 and 256 bytes");;
  reject_if (negb (String.length (req_signature request) =? SignatureSize)%nat
    || negb (ed_verify (req_key request) (enrollment_message request) (req_signature request))) ErrInvalidProof;;
  Ok (mkIdentity (req_account request) (req_device request) (req_key request) (key_id_of (req_key request))).

Definition new_enrollment_store (ttl capacity : Z) : Result GoError EnrollmentStore :=
  reject_if ((ttl <=? 0) || (10 * minute <? ttl) || (capacity <=? 0))
    (with_detail ErrInvalidEnrollment "TTL must be in (0, 10m] and capacity positive");;
  Ok (mkEnrollmentStore ∅ ttl capacity ∅).

(** The loop of [Issue] that deletes the expired challenges. *)
Definition reclaim (now : Time) (m : gmap string PendingChallenge) : gmap string PendingChallenge :=
  filter (λ '(_, pending), time_after (pend_expires pending) now) m.

(** [random] is what [rand.Read] puts into the 32 bytes, or its error. *)
Definition es_issue (accountID deviceID : string) (now : Time) (random : Result GoError string) :
    Act EnrollmentStore GoError Challenge :=
  guard_err (negb (identity_validIdentifier accountID) || negb (identity_validIdentifier deviceID))
    ErrInvalidEnrollment;;
  update (λ s, set_challenges (reclaim now (es_challenges s)) s);;
  challenges ← read es_challenges; capacity ← read es_capacity; ttl ← read es_ttl;
  guard_err (capacity <=? Z.of_nat (size challenges)) ErrEnrollmentCapacity;;
  value ← lift (map_err (in_context "generate challenge") random);
  let digest := sum256 value in
  guard_err (bool_decide (is_Some (challenges !! digest))) (NewError "challenge collision");;
  let expiresAt := time_add now ttl in
  update (λ s, set_challenges (<[digest := mkPending accountID deviceID expiresAt]> (es_challenges s)) s);;
  mret (mkChallenge value expiresAt).

Definition es_consume (accountID deviceID value : string) (now : Time) : Act EnrollmentStore GoError unit :=
  guard_err (negb (String.length value =? 32)%nat) ErrInvalidChallenge;;
  challenges ← read es_challenges;
  let digest := sum256 value in
  match challenges !! digest with
  | None => raise ErrInvalidChallenge
  | Some pending =>
      guard_err (negb (bool_decide (pend_account pending = accountID))
        || negb (bool_decide (pend_device pending = deviceID))) ErrInvalidChallenge;;
      if negb (time_after (pend_expires pending) now)
      then update (λ s, set_challenges (delete digest (es_challenges s)) s);; raise ErrInvalidChallenge
      else update (λ s, set_challenges (delete digest (es_challenges s)) s)
  end.

(** The copy of the key is the same value. *)
Definition clone_device (device : DeviceIdentity) : DeviceIdentity :=
  mkIdentity (dev_account device) (dev_device device) (dev_key device) (dev_key_id device).

Definition es_enroll (request : EnrollmentRequest) (now : Time) : Act EnrollmentStore GoError DeviceIdentity :=
  device ← lift (verify_enrollment request);
  devices ← read es_devices; capacity ← read es_capacity;
  guard_err (bool_decide (is_Some (devices !! dev_device device))) ErrDeviceExists;;
  guard_err (capacity <=? Z.of_nat (size devices)) ErrEnrollmentCapacity;;
  es_consume (dev_account device) (dev_device device) (req_challenge request) now;;
  update (λ s, set_devices (<[dev_device device := clone_device device]> (es_devices s)) s);;
  mret device.

Definition es_device (accountID deviceID : string) (s : EnrollmentStore) : Result GoError DeviceIdentity :=
  match es_devices s !! deviceID with
  | None => Err ErrDeviceNotFound
  | Some device =>
      reject_if (negb (bool_decide (dev_account device = accountID))) ErrDeviceNotFound;;
      Ok (clone_device device)
  end.
End enrollment.

(** ** Proofs of possession *)

(** The message binds the account, the device and the challenge. *)
Lemma enrollment_message_fields r :
  enrollment_message r =
  field enrollmentDomain +:+ field (req_account r) +:+ field (req_device r) +:+ field (req_challenge r).
Proof. unfold enrollment_message, append_uint32, field. cbn [foldl]. by rewrite !string_app_assoc. Qed.

Definition short_fields (r : EnrollmentRequest) : Prop :=
  u32 (len (req_account r)) ∧ u32 (len (req_device r)) ∧ u32 (len (req_challenge r)).

Lemma enrollment_message_inj r r' :
  short_fields r → short_fields r' → enrollment_message r = enrollment_message r' →
  req_account r = req_account r' ∧ req_device r = req_device r' ∧ req_challenge r = req_challenge r'.
Proof.
  intros (Ha & Hd & Hc) (Ha' & Hd' & Hc'). rewrite !enrollment_message_fields.
  intros [_ H]%field_peel; [|by vm_compute..]. apply field_peel in H as [-> H]; [|done..].
  apply field_peel in H as [-> H]; [|done..].
  rewrite <-(string_app_nil (field (req_challenge r))), <-(string_app_nil (field (req_challenge r'))) in H.
  by apply field_peel in H as [-> _].
Qed.

Section store_facts.
Context `{Ed25519} `{Sha256}.

Lemma verify_enrollment_ok r device :
  verify_enrollment r = Ok device ↔
  slug (req_account r) ∧ slug (req_device r) ∧ String.length (req_key r) = PublicKeySize ∧
  32 ≤ len (req_challenge r) ≤ 256 ∧ String.length (req_signature r) = SignatureSize ∧
  ed_verify (req_key r) (enrollment_message r) (req_signature r) = true ∧
  device = mkIdentity (req_account r) (req_device r) (req_key r) (key_id_of (req_key r)).
Proof.
  unfold verify_enrollment, identity_validIdentifier. rewrite !bind_unit_ok, !reject_last.
  rewrite !orb_false_iff, !negb_false_iff, !valid_slug_value_spec, !Nat.eqb_eq, !Z.ltb_ge.
  split; [intros ((? & ?) & ? & (? & ?) & (? & ?) & [= <-]); done|].
  intros (? & ? & ? & (? & ?) & ? & ? & ->). done.
Qed.

Lemma verified_short r device : verify_enrollment r = Ok device → short_fields r.
Proof.
  intros (Ha & Hd & _ & Hc & _)%verify_enrollment_ok.
  unfold short_fields, fits, len in *. destruct Ha as [Ha _], Hd as [Hd _]. lia.
Qed.

(** ** The operations of the store *)

Lemma clone_device_id d : clone_device d = d.
Proof. by destruct d. Qed.

Definition consumable (accountID deviceID value : string) (now : Time) (s : EnrollmentStore) : Prop :=
  String.length value = 32%nat ∧ ∃ expires, es_challenges s !! sum256 value = Some (mkPending accountID deviceID expires) ∧
    now < expires.

(** A challenge is removed whenever it is accepted, and also when it is found expired. *)
Lemma wp_es_consume accountID deviceID value now s :
  wp (es_consume accountID deviceID value now) (λ r s', match r with
    | Ok _ => consumable accountID deviceID value now s ∧ s' = set_challenges (delete (sum256 value) (es_challenges s)) s
    | Err e => e = ErrInvalidChallenge ∧ ¬ consumable accountID deviceID value now s ∧
        (s' = s ∨ s' = set_challenges (delete (sum256 value) (es_challenges s)) s)
    | Panic => False
    end) s.
Proof.
  unfold es_consume, consumable. repeat wp_head.
  apply wp_guard; rewrite ?negb_true_iff, ?negb_false_iff, ?Nat.eqb_neq, ?Nat.eqb_eq; intros Hlen; repeat wp_head.
  { split_and!; [done|by intros [? _]|by left]. }
  destruct (es_challenges s !! sum256 value) as [[account device expires]|] eqn:Hp; repeat wp_head.
  2: { split_and!; [done|by intros (_ & ? & ? & _)|by left]. }
  cbn [pend_account pend_device pend_expires].
  apply wp_guard; rewrite ?orb_true_iff, ?orb_false_iff, ?negb_true_iff, ?negb_false_iff, ?bool_decide_eq_false,
    ?bool_decide_eq_true; intros Hown; repeat wp_head.
  { split_and!; [done| |by left]. intros (_ & ? & [= -> -> _] & _). naive_solver. }
  destruct Hown as [-> ->]. unfold time_after. destruct (Z.ltb_spec now expires); repeat wp_head; cbn [negb]; repeat wp_head.
  - split; [|done]. eauto.
  - split_and!; [done| |by right]. intros (_ & ? & [= ->] & ?). lia.
Qed.

Definition identity_of (r : EnrollmentRequest) : DeviceIdentity :=
  mkIdentity (req_account r) (req_device r) (req_key r) (key_id_of (req_key r)).

Lemma wp_es_enroll r now s :
  wp (es_enroll r now) (λ res s', match res with
    | Ok device => verify_enrollment r = Ok device ∧ device = identity_of r ∧ es_devices s !! req_device r = None ∧
        Z.of_nat (size (es_devices s)) < es_capacity s ∧ consumable (req_account r) (req_device r) (req_challenge r) now s ∧
        s' = mkEnrollmentStore (<[req_device r := device]> (es_devices s)) (es_ttl s) (es_capacity s)
               (delete (sum256 (req_challenge r)) (es_challenges s))
    | Err e => s' = s ∨ s' = set_challenges (delete (sum256 (req_challenge r)) (es_challenges s)) s
    | Panic => False
    end) s.
Proof.
  unfold es_enroll. repeat wp_head.
  destruct (verify_enrollment r) as [device|e|] eqn:Hv; repeat wp_head; [|by left|].
  2: { unfold verify_enrollment, reject_if in Hv. cbn in Hv. repeat case_match; simplify_eq. }
  pose proof Hv as (_ & _ & _ & _ & _ & _ & ->)%verify_enrollment_ok. cbn [dev_device dev_account].
  apply wp_guard; rewrite ?bool_decide_eq_true, ?bool_decide_eq_false; intros Hd; repeat wp_head; [by left|].
  apply wp_guard; rewrite ?Z.leb_le, ?Z.leb_gt; intros Hcap; repeat wp_head; [by left|].
  eapply wp_mono; [apply wp_es_consume|]. intros [[]|e|] s' Hc; repeat wp_head; [|by destruct Hc as (_ & _ & ?)|done].
  destruct Hc as [Hc ->]. split_and!; try done. by apply eq_None_not_Some.
Qed.

Lemma wp_es_issue accountID deviceID now random s :
  wp (es_issue accountID deviceID now random) (λ res s', match res with
    | Ok challenge => slug accountID ∧ slug deviceID ∧ random = Ok (ch_value challenge) ∧
        ch_expires challenge = time_add now (es_ttl s) ∧
        (reclaim now (es_challenges s)) !! sum256 (ch_value challenge) = None ∧
        Z.of_nat (size (reclaim now (es_challenges s))) < es_capacity s ∧
        s' = set_challenges (<[sum256 (ch_value challenge) := mkPending accountID deviceID (ch_expires challenge)]>
               (reclaim now (es_challenges s))) s
    | _ => s' = s ∨ s' = set_challenges (reclaim now (es_challenges s)) s
    end) s.
Proof.
  unfold es_issue, identity_validIdentifier. repeat wp_head.
  apply wp_guard; rewrite ?orb_false_iff, ?negb_false_iff, ?valid_slug_value_spec; intros Hid; repeat wp_head; [by left|].
  cbn [set_challenges es_challenges es_capacity es_ttl].
  apply wp_guard; rewrite ?Z.leb_le, ?Z.leb_gt; intros Hcap; repeat wp_head; [by right|].
  destruct random as [value|e|]; cbn [map_err]; repeat wp_head; [|by right..].
  apply wp_guard; rewrite ?bool_decide_eq_true, ?bool_decide_eq_false; intros Hd; repeat wp_head; [by right|].
  cbn [ch_value ch_expires]. split_and!; try done; [apply Hid..|by apply eq_None_not_Some].
Qed.

(** Another account cannot tell a foreign device from an unknown one. *)
Lemma es_device_ok accountID deviceID s device :
  es_device accountID deviceID s = Ok device ↔ es_devices s !! deviceID = Some device ∧ dev_account device = accountID.
Proof.
  unfold es_device. destruct (es_devices s !! deviceID) as [d|]; [|naive_solver].
  rewrite bind_unit_ok, reject_last, negb_false_iff, bool_decide_eq_true, clone_device_id. naive_solver.
Qed.

Lemma es_device_err accountID deviceID s :
  (∀ device, es_devices s !! deviceID = Some device → dev_account device ≠ accountID) →
  es_device accountID deviceID s = Err ErrDeviceNotFound.
Proof.
  unfold es_device. destruct (es_devices s !! deviceID) as [d|]; [|done]. intros Hd.
  by rewrite bool_decide_eq_false_2 by auto.
Qed.
End store_facts.

Module ToySha.
(** The first 32 bytes of the padded input. *)
#[export] Instance toy_sha : Sha256 :=
  {| sum256 s := String.substring 0 32 (s +:+ String.concat "" (replicate 32 "0")) |}.
#[export] Instance toy_sha_spec : Sha256Spec.
Proof.
  split. intros s. apply Toys.substring_length. rewrite string_length_app.
  change (String.length (String.concat "" (replicate 32 "0"))) with 32%nat. lia.
Qed.
End ToySha.
