(* ===== verification/EnrollmentFile.v ===== *)
(** The durable enrollment store:
    [services/control-api/internal/identity/file.go].

    [FileEnrollmentStore] runs every operation on a copy of the current store and
    writes a snapshot of the copy before it takes over.  A registered device is
    never lost or replaced, and a challenge enrolls at most one device, across
    failures, crashes and restarts. *)

From S2P Require Import Prelude Machine Text GoBase Netip DeviceConfig Snapshot Durable Identity.
Open Scope string_scope.
Open Scope Z_scope.

Record ChallengeSnapshot := mkChallengeSnapshot {
  cs_digest : string;
  cs_account : string;
  cs_device_id : string;
  cs_expires : Time;
}.

(** The slices may be nil. *)
Record EnrollmentSnapshot := mkEnrollmentSnapshot {
  snap_schema : Z;
  snap_devices : option (list DeviceIdentity);
  snap_challenges : option (list ChallengeSnapshot);
}.

#[export] Instance challenge_snapshot_eq_dec : EqDecision ChallengeSnapshot.
Proof. solve_decision. Defined.
#[export] Instance enrollment_snapshot_eq_dec : EqDecision EnrollmentSnapshot.
Proof. solve_decision. Defined.

Record FileEnrollmentStore := mkFileEnrollment { ef_file : File; ef_current : EnrollmentStore }.

Definition set_ef_file (f : File) (s : FileEnrollmentStore) : FileEnrollmentStore := mkFileEnrollment f (ef_current s).
Definition set_ef_current (c : EnrollmentStore) (s : FileEnrollmentStore) : FileEnrollmentStore :=
  mkFileEnrollment (ef_file s) c.

Section store.
Context `{Ed25519} `{Sha256}.

(** The two loops of [restore]. *)
Fixpoint restore_devices (l : list DeviceIdentity) (devices : gmap string DeviceIdentity) :
    Result GoError (gmap string DeviceIdentity) :=
  match l with
  | [] => Ok devices
  | device :: l =>
      reject_if (negb (identity_validIdentifier (dev_account device))
        || negb (identity_validIdentifier (dev_device device))
        || negb (String.length (dev_key device) =? PublicKeySize)%nat
        || negb (bool_decide (dev_key_id device = key_id_of (dev_key device)))) (NewError "invalid persisted device");;
      reject_if (bool_decide (is_Some (devices !! dev_device device))) (NewError "duplicate persisted device");;
      restore_devices l (<[dev_device device := clone_device device]> devices)
  end.

Fixpoint restore_challenges (l : list ChallengeSnapshot) (challenges : gmap string PendingChallenge) :
    Result GoError (gmap string PendingChallenge) :=
  match l with
  | [] => Ok challenges
  | challenge :: l =>
      reject_if (negb (String.length (cs_digest challenge) =? 32)%nat
        || negb (identity_validIdentifier (cs_account challenge))
        || negb (identity_validIdentifier (cs_device_id challenge))
        || time_is_zero (cs_expires challenge)) (NewError "invalid persisted challenge");;
      let digest := cs_digest challenge in
      reject_if (bool_decide (is_Some (challenges !! digest))) (NewError "duplicate persisted challenge");;
      restore_challenges l
        (<[digest := mkPending (cs_account challenge) (cs_device_id challenge) (cs_expires challenge)]> challenges)
  end.

Context `{Storage} `{Json EnrollmentSnapshot} `{MapRange}.
Local Abbreviation Call A := (Act (FileEnrollmentStore * Sys) GoError A).

Definition on_enrollment_file {A} (m : Act (File * Sys) GoError A) : Call A := on_part ef_file set_ef_file m.

Definition snapshot_of (candidate : EnrollmentStore) : EnrollmentSnapshot :=
  mkEnrollmentSnapshot 1
    (Some (map (λ '(_, device), device) (map_range (es_devices candidate))))
    (Some (map (λ '(digest, c), mkChallengeSnapshot digest (pend_account c) (pend_device c) (pend_expires c))
       (map_range (es_challenges candidate)))).

Definition enrollment_persist (candidate : EnrollmentStore) : Call unit :=
  (data ← lift (json_marshal (snapshot_of candidate));
   on_enrollment_file (file_write data));;
  set_me (set_ef_current candidate).

Definition enrollment_restore (data : string) : Call unit :=
  state ← lift (decode_snapshot data);
  current ← me ef_current;
  guard_err (negb (snap_schema state =? 1) || bool_decide (snap_devices state = None)
    || bool_decide (snap_challenges state = None)
    || (es_capacity current <? Z.of_nat (length (default [] (snap_devices state))))
    || (es_capacity current <? Z.of_nat (length (default [] (snap_challenges state)))))
    (NewError "invalid enrollment snapshot schema or capacity");;
  devices ← lift (restore_devices (default [] (snap_devices state)) ∅);
  set_me (λ s, set_ef_current (set_devices devices (ef_current s)) s);;
  challenges ← lift (restore_challenges (default [] (snap_challenges state)) (es_challenges current));
  set_me (λ s, set_ef_current (set_challenges challenges (ef_current s)) s).

(** The store read back, or an empty one when there is none. *)
Definition enrollment_reload : Call unit :=
  data ← attempt (on_enrollment_file file_read);
  match data with
  | inl e => if errors_is e ErrNotExist then current ← me ef_current; enrollment_persist current else raise e
  | inr data => enrollment_restore data
  end.

Definition enrollment_init : Call unit :=
  restored ← attempt enrollment_reload;
  match restored with
  | inl e => attempt (F := GoError) (on_enrollment_file file_close);; raise e
  | inr _ => mret tt
  end.

Definition open_file_enrollment (path : string) (ttl capacity : Z) : Act (unit * Sys) GoError FileEnrollmentStore :=
  current ← lift (new_enrollment_store ttl capacity);
  guard_err (10000 <? capacity) (NewError "durable enrollment capacity exceeds 10000");;
  file ← snapshot_open path (16 * 2 ^ 20);
  construct (mkFileEnrollment file current) enrollment_init.

Definition enrollment_candidate (current : EnrollmentStore) : EnrollmentStore :=
  mkEnrollmentStore (clone_device <$> es_devices current) (es_ttl current) (es_capacity current) (es_challenges current).

Definition file_issue (accountID deviceID : string) (now : Time) (random : Result GoError string) : Call Challenge :=
  on_enrollment_file file_check;;
  current ← me ef_current;
  let '(r, candidate) := es_issue accountID deviceID now random (enrollment_candidate current) in
  challenge ← lift r;
  enrollment_persist candidate;;
  mret challenge.

Definition file_enroll (request : EnrollmentRequest) (now : Time) : Call DeviceIdentity :=
  on_enrollment_file file_check;;
  current ← me ef_current;
  let '(r, candidate) := es_enroll request now (enrollment_candidate current) in
  (if is_ok r || negb (size (es_challenges candidate) =? size (es_challenges current))%nat
   then enrollment_persist candidate else mret tt);;
  lift r.

Definition file_device (accountID deviceID : string) : Call DeviceIdentity :=
  on_enrollment_file file_check;;
  current ← me ef_current;
  lift (es_device accountID deviceID current).

Definition enrollment_close : Call unit := on_enrollment_file file_close.

(** ** The calls of the store *)

Inductive EnrollmentOp :=
| Issue (accountID deviceID : string) (now : Time) (random : Result GoError string)
| Enroll (request : EnrollmentRequest) (now : Time)
| Device (accountID deviceID : string)
| CloseEnrollment.

Inductive EnrollmentAnswer := Issued (c : Challenge) | Enrolled (d : DeviceIdentity) | Found (d : DeviceIdentity) | Done.

Definition enrollment_call (op : EnrollmentOp) : Call EnrollmentAnswer :=
  match op with
  | Issue accountID deviceID now random => c ← file_issue accountID deviceID now random; mret (Issued c)
  | Enroll request now => d ← file_enroll request now; mret (Enrolled d)
  | Device accountID deviceID => d ← file_device accountID deviceID; mret (Found d)
  | CloseEnrollment => enrollment_close;; mret Done
  end.

(** The acknowledged enrollments, newest first: the device and its challenge. *)
Definition record_enrolled (op : EnrollmentOp) (r : Result GoError EnrollmentAnswer)
    (g : list (DeviceIdentity * string)) : list (DeviceIdentity * string) :=
  match op, r with
  | Enroll request _, Ok (Enrolled device) => (device, req_challenge request) :: g
  | _, _ => g
  end.
End store.

(** ** Enrollments survive *)

Section durable.
Context `{Ed25519} `{Sha256Spec} `{StorageSpec} `{JsonSpec EnrollmentSnapshot} `{MapRange}.
Context (path : string) (Hpath : proper_path path) (ttl capacity : Z).
(** The expiry times that JSON can express. *)
Context (expressible : Time → Prop).

Definition device_ok (id : string) (d : DeviceIdentity) : Prop :=
  dev_device d = id ∧ slug (dev_account d) ∧ slug id ∧ String.length (dev_key d) = PublicKeySize ∧
  dev_key_id d = key_id_of (dev_key d).

Definition challenge_ok (digest : string) (c : PendingChallenge) : Prop :=
  String.length digest = 32%nat ∧ slug (pend_account c) ∧ slug (pend_device c) ∧
  pend_expires c ≠ zero_time ∧ expressible (pend_expires c).

Record enrollment_ok (s : EnrollmentStore) : Prop := {
  ok_ttl : es_ttl s = ttl;
  ok_capacity : es_capacity s = capacity;
  ok_devices : map_Forall device_ok (es_devices s);
  ok_challenges : map_Forall challenge_ok (es_challenges s);
  ok_devices_size : Z.of_nat (size (es_devices s)) ≤ capacity;
  ok_challenges_size : Z.of_nat (size (es_challenges s)) ≤ capacity;
}.

Context (Hfaithful : ∀ s, enrollment_ok s → json_faithful (snapshot_of s)).

Definition image (s : EnrollmentStore) : Result GoError string := json_marshal (snapshot_of s).

(** Everything acknowledged is registered, and its challenge is not pending. *)
Definition registered (g : list (DeviceIdentity * string)) (s : EnrollmentStore) : Prop :=
  Forall (λ x, es_devices s !! dev_device x.1 = Some x.1 ∧ es_challenges s !! sum256 x.2 = None) g.

(** The holder of the key signed the challenge for this account and device. *)
Definition proven (x : DeviceIdentity * string) : Prop :=
  ∃ signature, let d := x.1 in
    ed_verify (dev_key d) (enrollment_message (mkEnrollment (dev_account d) (dev_device d) (dev_key d) x.2 signature))
      signature = true.

Definition legitimate (g : list (DeviceIdentity * string)) : Prop :=
  NoDup ((dev_device ∘ fst) <$> g) ∧ NoDup ((sum256 ∘ snd) <$> g) ∧ Forall proven g.

Definition enrollment_good (g : list (DeviceIdentity * string)) (x : option string) : Prop :=
  legitimate g ∧
  match x with
  | None => g = []
  | Some data => ∃ s, enrollment_ok s ∧ image s = Ok data ∧ registered g s
  end.

Definition enrollment_tied (g : list (DeviceIdentity * string)) (t : FileEnrollmentStore) (x : option string) : Prop :=
  f_path (ef_file t) = path ∧ enrollment_ok (ef_current t) ∧
  (f_failed (ef_file t) = None → ∃ data, x = Some data ∧ image (ef_current t) = Ok data).

Local Abbreviation safe := (safe path enrollment_good).
Local Abbreviation sound := (sound path enrollment_good).

Lemma restore_devices_same (m : gmap string DeviceIdentity) :
  map_Forall device_ok m → restore_devices (map (λ '(_, device), device) (map_range m)) ∅ = Ok m.
Proof.
  intros Hm. apply (reload_map restore_devices dev_device id (λ d, device_ok (dev_device d) d)); [done| |].
  - intros d l m' (_ & Ha & Hd & Hk & Hid) Hnew. cbn [restore_devices]. unfold identity_validIdentifier.
    rewrite (proj2 (valid_slug_value_spec _) Ha), (proj2 (valid_slug_value_spec _) Hd), Hk, Hid.
    rewrite (bool_decide_eq_true_2 (key_id_of _ = _)) by done.
    by rewrite bool_decide_eq_false_2, clone_device_id by (by rewrite Hnew; intros []).
  - intros id d Hid. destruct (Hm id d Hid) as (<- & ?). done.
Qed.

Lemma restore_challenges_same (m : gmap string PendingChallenge) :
  map_Forall challenge_ok m →
  restore_challenges (map (λ '(digest, c),
    mkChallengeSnapshot digest (pend_account c) (pend_device c) (pend_expires c)) (map_range m)) ∅ = Ok m.
Proof.
  intros Hm. apply (reload_map restore_challenges cs_digest
    (λ c, mkPending (cs_account c) (cs_device_id c) (cs_expires c))
    (λ c, challenge_ok (cs_digest c) (mkPending (cs_account c) (cs_device_id c) (cs_expires c)))); [done| |].
  - intros c l m' (Hl & Ha & Hd & Hz & _) Hnew. cbn [restore_challenges]. unfold identity_validIdentifier, time_is_zero.
    cbn [pend_account pend_device pend_expires] in *.
    rewrite Hl, (proj2 (valid_slug_value_spec _) Ha), (proj2 (valid_slug_value_spec _) Hd), (proj2 (Z.eqb_neq _ _) Hz).
    by rewrite bool_decide_eq_false_2 by (by rewrite Hnew; intros []).
  - intros digest [a d e] Hid. specialize (Hm digest _ Hid). done.
Qed.

Lemma snapshot_decodes s data : enrollment_ok s → image s = Ok data → decode_snapshot data = Ok (snapshot_of s).
Proof. intros Hok Hm. apply decode_marshal; [by apply Hfaithful|done]. Qed.

Lemma snapshot_inj s s' : enrollment_ok s → enrollment_ok s' → snapshot_of s = snapshot_of s' → s = s'.
Proof.
  intros [Ht Hc Hd Hch _ _] [Ht' Hc' Hd' Hch' _ _]. unfold snapshot_of. intros [= Hds Hcs].
  apply (f_equal (λ l, restore_devices l ∅)) in Hds. apply (f_equal (λ l, restore_challenges l ∅)) in Hcs.
  rewrite !restore_devices_same in Hds by done. rewrite !restore_challenges_same in Hcs by done.
  destruct s, s'. cbn in *. congruence.
Qed.

Lemma snapshot_image_inj s s' data :
  enrollment_ok s → enrollment_ok s' → image s = Ok data → image s' = Ok data → s = s'.
Proof.
  intros Hs Hs' Ha%snapshot_decodes Hb%snapshot_decodes; [|done..]. apply snapshot_inj; [done..|]. congruence.
Qed.

Lemma set_ef_file_same t : set_ef_file (ef_file t) t = t.
Proof. by destruct t. Qed.

Lemma candidate_same s : enrollment_candidate s = s.
Proof.
  destruct s as [d t c ch]. unfold enrollment_candidate. cbn. f_equal. apply map_eq. intros i. rewrite lookup_fmap.
  destruct (d !! i); [|done]. cbn. by rewrite clone_device_id.
Qed.

Lemma tied_registered g t s :
  sound g (disk s) → enrollment_tied g t (contents (disk s) path) → f_failed (ef_file t) = None →
  registered g (ef_current t).
Proof.
  intros [_ [_ Hg]] (_ & Hok & Ht) Hf. destruct (Ht Hf) as (data & Hc & Hm). rewrite Hc in Hg.
  destruct Hg as (m & Hok' & Hm' & Hcov). by rewrite (snapshot_image_inj _ _ _ Hok Hok' Hm Hm').
Qed.

(** *** What the operations keep *)

Lemma reclaim_ok now m : map_Forall challenge_ok m → map_Forall challenge_ok (reclaim now m).
Proof. intros Hm k c (Hk & _)%map_lookup_filter_Some. by apply Hm. Qed.

Lemma reclaim_none now m k : m !! k = None → reclaim now m !! k = None.
Proof. intros Hk. apply map_lookup_filter_None. by left. Qed.

Lemma size_delete_le {V} (m : gmap string V) k : (size (delete k m) ≤ size m)%nat.
Proof. rewrite map_size_delete. destruct (m !! k); cbn; lia. Qed.

Lemma drop_challenge_ok s k : enrollment_ok s → enrollment_ok (set_challenges (delete k (es_challenges s)) s).
Proof.
  intros []. split; cbn; try done; [by apply map_Forall_delete|].
  pose proof (size_delete_le (es_challenges s) k). lia.
Qed.

Lemma drop_challenge_registered g s k : registered g s → registered g (set_challenges (delete k (es_challenges s)) s).
Proof.
  intros Hg. eapply Forall_impl; [exact Hg|]. intros x [Hd Hc]. split; [done|]. cbn. apply lookup_delete_None. by right.
Qed.

Lemma issued_ok s a d now c :
  enrollment_ok s → slug a → slug d → time_add now ttl ≠ zero_time → expressible (time_add now ttl) →
  ch_expires c = time_add now ttl → reclaim now (es_challenges s) !! sum256 (ch_value c) = None →
  Z.of_nat (size (reclaim now (es_challenges s))) < es_capacity s →
  enrollment_ok (set_challenges (<[sum256 (ch_value c) := mkPending a d (ch_expires c)]>
    (reclaim now (es_challenges s))) s).
Proof.
  intros [Ht Hcap Hd Hc Hds Hcs] Ha Hdev Hz Hx He Hnew Hsize. split; cbn; try done.
  - apply map_Forall_insert_2; [|by apply reclaim_ok]. rewrite He. split_and!; try done. apply sum256_size.
  - rewrite map_size_insert_None by done. lia.
Qed.

Lemma issued_registered g s now k p :
  registered g s → k ∉ ((sum256 ∘ snd) <$> g) →
  registered g (set_challenges (<[k := p]> (reclaim now (es_challenges s))) s).
Proof.
  unfold registered. rewrite !Forall_forall. intros Hg Hk x Hx. destruct (Hg x Hx) as [Hd Hc].
  split; [done|]. cbn. rewrite lookup_insert_ne; [by apply reclaim_none|].
  intros ->. apply Hk. by apply (list_elem_of_fmap_2 (sum256 ∘ snd)).
Qed.

Definition after_enroll (r : EnrollmentRequest) (s : EnrollmentStore) : EnrollmentStore :=
  mkEnrollmentStore (<[req_device r := identity_of r]> (es_devices s)) (es_ttl s) (es_capacity s)
    (delete (sum256 (req_challenge r)) (es_challenges s)).

Lemma enrolled_ok r s :
  enrollment_ok s → verify_enrollment r = Ok (identity_of r) → es_devices s !! req_device r = None →
  Z.of_nat (size (es_devices s)) < es_capacity s → enrollment_ok (after_enroll r s).
Proof.
  intros [Ht Hcap Hd Hc Hds Hcs] (Ha & Hdev & Hk & _)%verify_enrollment_ok Hnew Hsize. split; cbn; try done.
  - by apply map_Forall_insert_2.
  - by apply map_Forall_delete.
  - rewrite map_size_insert_None by done. lia.
  - pose proof (size_delete_le (es_challenges s) (sum256 (req_challenge r))). lia.
Qed.

Lemma enrolled_registered g r s :
  registered g s → es_devices s !! req_device r = None → registered g (after_enroll r s).
Proof.
  intros Hg Hnew. eapply Forall_impl; [exact Hg|]. intros [d c] [Hd Hc]. cbn in *. split.
  - rewrite lookup_insert_ne; [done|]. congruence.
  - apply lookup_delete_None. by right.
Qed.

Lemma enrolled_acknowledged g r s now :
  verify_enrollment r = Ok (identity_of r) → registered g s → legitimate g → es_devices s !! req_device r = None →
  consumable (req_account r) (req_device r) (req_challenge r) now s →
  registered ((identity_of r, req_challenge r) :: g) (after_enroll r s) ∧
  legitimate ((identity_of r, req_challenge r) :: g).
Proof.
  intros (_ & _ & _ & _ & _ & Hv & _)%verify_enrollment_ok Hg (Hid & Hdig & Hpr) Hnew (_ & expires & Hp & _).
  split; [|split_and!].
  - constructor; [|by apply enrolled_registered]. cbn. by rewrite lookup_insert_eq, lookup_delete_eq.
  - rewrite fmap_cons. constructor; [|done]. intros (x & Hx & Hin)%list_elem_of_fmap.
    destruct (proj1 (Forall_forall _ _) Hg x Hin) as [Hd _]. cbn in Hx. congruence.
  - rewrite fmap_cons. constructor; [|done]. intros (x & Hx & Hin)%list_elem_of_fmap.
    destruct (proj1 (Forall_forall _ _) Hg x Hin) as [_ Hc]. cbn in Hx. congruence.
  - constructor; [|done]. exists (req_signature r). cbn. by destruct r.
Qed.

(** *** Opening *)

Lemma wp_enrollment_persist g t s candidate Q :
  f_path (ef_file t) = path → sound g (disk s) → enrollment_ok candidate → registered g candidate →
  (∀ r f s', throughout (safe g) s s' → sound g (disk s') → f_path f = path →
    match r with
    | Ok _ => f = ef_file t ∧ ∃ data, image candidate = Ok data ∧ steady (disk s') path (Some data)
    | _ => (f = ef_file t ∧ contents (disk s') path = contents (disk s) path) ∨ f_failed f ≠ None
    end → Q r (mkFileEnrollment f (if r is Ok _ then candidate else ef_current t), s')) →
  wp (enrollment_persist candidate) Q (t, s).
Proof.
  intros Hf Hs Hok Hreg HQ. unfold enrollment_persist, on_enrollment_file. apply wp_bind.
  apply (wp_save_sound path enrollment_good ef_file set_ef_file g); [done..|apply set_ef_file_same| |].
  { intros data Hm. split; [apply Hs|]. by exists candidate. }
  intros r f s' Ht Hs' Hp Hr. specialize (HQ r f s' Ht Hs' Hp Hr). destruct r as [[]|e|]; store_run; exact HQ.
Qed.

Definition empty_store : EnrollmentStore := mkEnrollmentStore ∅ ttl capacity ∅.

Lemma empty_store_ok : 0 < capacity → enrollment_ok empty_store.
Proof. intros Hc. split; cbn; try done; [apply map_Forall_empty..|rewrite map_size_empty; lia|rewrite map_size_empty; lia]. Qed.

Lemma wp_enrollment_restore g data :
  0 < capacity → enrollment_good g (Some data) → ∀ t s, f_path (ef_file t) = path → ef_current t = empty_store →
  wp (enrollment_restore data) (λ r t', t'.2 = s ∧ (r = Ok tt → enrollment_tied g t'.1 (Some data))) (t, s).
Proof.
  intros Hcap (_ & m & Hok & Hm & Hreg) t s Hf Hcur. unfold enrollment_restore. store_run.
  rewrite (snapshot_decodes _ _ Hok Hm). store_run. rewrite Hcur.
  apply wp_guard; intros _; store_run; [done|].
  cbn [snap_devices snap_challenges snapshot_of default from_option id es_challenges empty_store].
  rewrite (restore_devices_same _ (ok_devices _ Hok)). store_run.
  rewrite (restore_challenges_same _ (ok_challenges _ Hok)). store_run. split; [done|]. intros _.
  unfold enrollment_tied. cbn. rewrite Hcur. unfold set_challenges, set_devices. cbn.
  destruct m as [ds tt' cap chs]. pose proof (ok_ttl _ Hok). pose proof (ok_capacity _ Hok). cbn in *. subst tt' cap.
  split_and!; [done..|]. intros _. by exists data.
Qed.

Lemma wp_enrollment_reload g t s :
  0 < capacity → f_path (ef_file t) = path → f_failed (ef_file t) = None → ef_current t = empty_store →
  sound g (disk s) →
  wp enrollment_reload (λ r t', throughout (safe g) s t'.2 ∧ sound g (disk t'.2) ∧
    (r = Ok tt → enrollment_tied g t'.1 (contents (disk t'.2) path))) (t, s).
Proof.
  intros Hcap Hf Hfail Hcur Hs. unfold enrollment_reload, on_enrollment_file at 1. apply wp_bind, wp_attempt.
  apply (wp_read_sound path enrollment_good _ _ g); [done..|apply set_ef_file_same|done|].
  intros r s1 Ht1 Hs1 Hc1 Hr.
  destruct r as [data|e|]; store_run; [|destruct (errors_is e ErrNotExist) eqn:He; store_run; [|done]|done].
  - eapply wp_mono; [apply (wp_enrollment_restore g); try done|].
    + destruct Hs as [_ Hg]. by rewrite Hr in Hg.
    + intros r [t' s2] [-> Hx]. cbn [fst snd] in *. split_and!; [done..|]. intros ->. rewrite Hc1, Hr. by apply Hx.
  - destruct Hs as [_ [_ Hg]]. rewrite (Hr eq_refl) in Hg. subst g. rewrite Hcur.
    apply (wp_enrollment_persist []); [done..|by apply empty_store_ok|constructor|].
    intros r f s' Ht' Hs' Hp' Hr'. split_and!; [by eapply throughout_trans|done|].
    intros ->. destruct Hr' as (-> & data & Hm & [Hc _]). unfold enrollment_tied. cbn. rewrite Hc.
    split_and!; [done|by apply empty_store_ok|]. intros _. by exists data.
Qed.

Lemma enrollment_open_rule g s :
  sound g (disk s) →
  wp (open_file_enrollment path ttl capacity) (λ r t, throughout (safe g) s t.2 ∧
    enrollment_good g (contents (disk t.2) path) ∧
    ∀ x, r = Ok x → enrollment_tied g x (contents (disk t.2) path)) (tt, s).
Proof.
  intros Hs. unfold open_file_enrollment, new_enrollment_store. apply wp_bind, wp_lift. unfold reject_if.
  assert (∀ r, is_ok (A := FileEnrollmentStore) r = false → throughout (safe g) s s ∧ enrollment_good g (contents (disk s) path) ∧
    ∀ x, r = Ok (E := GoError) x → enrollment_tied g x (contents (disk s) path)) as Hrefuse.
  { intros r Hr. split_and!; [apply throughout_refl, Hs|apply Hs|]. by intros x ->. }
  destruct ((ttl <=? 0) || (10 * minute <? ttl) || (capacity <=? 0)) eqn:Hargs; cbn; [by apply Hrefuse|].
  apply wp_bind, wp_guard; intros _; cbn [after]; [by apply Hrefuse|].
  apply (wp_open_sound path enrollment_good ef_file set_ef_file g s _ (λ file, mkFileEnrollment file empty_store)
    enrollment_reload (enrollment_tied g)); [done..|].
  intros file s1 Hpf _ Hfail Hs1. apply wp_enrollment_reload; [|done..].
  apply orb_false_iff in Hargs as [_ Hc]. lia.
Qed.

(** *** Calls *)

(** [rand.Read] does not repeat a value whose challenge has enrolled a device,
    and expiry times stay within what JSON expresses. *)
Definition fresh_values (g : list (DeviceIdentity * string)) (op : EnrollmentOp) : Prop :=
  match op with
  | Issue _ _ now random =>
      time_add now ttl ≠ zero_time ∧ expressible (time_add now ttl) ∧
      ∀ value, random = Ok value → sum256 value ∉ ((sum256 ∘ snd) <$> g)
  | _ => True
  end.

Definition enrollment_post (op : EnrollmentOp) (g : list (DeviceIdentity * string)) (s : Sys)
    (r : Result GoError EnrollmentAnswer) (t : FileEnrollmentStore * Sys) : Prop :=
  throughout (safe g) s t.2 ∧ sound (record_enrolled op r g) (disk t.2) ∧
  enrollment_tied (record_enrolled op r g) t.1 (contents (disk t.2) path).

Lemma post_same op g t s r :
  record_enrolled op r g = g → sound g (disk s) → enrollment_tied g t (contents (disk s) path) →
  enrollment_post op g s r (t, s).
Proof. intros Hr Hs Ht. unfold enrollment_post. rewrite Hr. split_and!; [apply throughout_refl, Hs|done..]. Qed.

(** A write that failed leaves the old contents, or a store that refuses all calls. *)
Lemma post_unwritten op g t s r f s' :
  record_enrolled op r g = g → enrollment_tied g t (contents (disk s) path) →
  throughout (safe g) s s' → sound g (disk s') → f_path f = path →
  (f = ef_file t ∧ contents (disk s') path = contents (disk s) path) ∨ f_failed f ≠ None →
  enrollment_post op g s r (mkFileEnrollment f (ef_current t), s').
Proof.
  intros Hr (Hp & Hok & Htied) Ht Hs' Hp' Hf. unfold enrollment_post. rewrite Hr. split_and!; [done..|].
  split_and!; [done..|]. cbn. intros Hnone. destruct Hf as [[-> Hc]|?]; [|done]. rewrite Hc. by apply Htied.
Qed.

(** After a write the snapshot is the current store. *)
Lemma post_written op g t s r s' candidate data :
  f_path (ef_file t) = path → throughout (safe g) s s' →
  enrollment_ok candidate → registered (record_enrolled op r g) candidate → legitimate (record_enrolled op r g) →
  image candidate = Ok data → steady (disk s') path (Some data) →
  enrollment_post op g s r (mkFileEnrollment (ef_file t) candidate, s').
Proof.
  intros Hp Ht Hok Hreg Hleg Hm [Hc Ho]. split_and!; [done| |]; cbn [fst snd].
  - assert (enrollment_good (record_enrolled op r g) (Some data)) as Hg by (split; [done|by exists candidate]).
    split; [by intros x <-%Ho|by rewrite Hc].
  - split_and!; [done..|]. intros _. exists data. by rewrite Hc.
Qed.

Lemma file_issue_rule g t s a d now random :
  sound g (disk s) → enrollment_tied g t (contents (disk s) path) → fresh_values g (Issue a d now random) →
  wp (enrollment_call (Issue a d now random)) (enrollment_post (Issue a d now random) g s) (t, s).
Proof.
  intros Hs Ht (Hz & Hx & Hfresh). pose proof Ht as (Hp & Hok & _). cbn [enrollment_call].
  unfold file_issue, on_enrollment_file. do 2 apply wp_bind.
  apply wp_file_check; [apply set_ef_file_same|intros e; store_run; by apply post_same|]. intros _ Hf. store_run.
  pose proof (tied_registered _ _ _ Hs Ht Hf) as Hreg. rewrite candidate_same.
  pose proof (wp_es_issue a d now random (ef_current t)) as Hi. unfold wp in Hi.
  destruct (es_issue a d now random (ef_current t)) as [r candidate]. cbn [fst snd] in Hi. store_run.
  destruct r as [c|e|]; store_run; [|by apply post_same..].
  destruct Hi as (Ha & Hd & Hr & He & Hnew & Hsize & ->). rewrite (ok_ttl _ Hok) in He.
  assert (sum256 (ch_value c) ∉ ((sum256 ∘ snd) <$> g)) as Hnot by (apply Hfresh; done).
  apply (wp_enrollment_persist g); [done..|by apply issued_ok|by apply issued_registered|].
  intros r f s' Ht' Hs' Hp' Hw. destruct r as [[]|e|]; store_run.
  - destruct Hw as (-> & data & Hm & Hst). eapply post_written; [done..| | | |exact Hm|done];
      [by apply issued_ok|by apply issued_registered|apply Hs].
  - by apply post_unwritten.
  - by apply post_unwritten.
Qed.

Lemma file_enroll_rule g t s request now :
  sound g (disk s) → enrollment_tied g t (contents (disk s) path) →
  wp (enrollment_call (Enroll request now)) (enrollment_post (Enroll request now) g s) (t, s).
Proof.
  intros Hs Ht. pose proof Ht as (Hp & Hok & _). cbn [enrollment_call].
  unfold file_enroll, on_enrollment_file. do 2 apply wp_bind.
  apply wp_file_check; [apply set_ef_file_same|intros e; store_run; by apply post_same|]. intros _ Hf. store_run.
  pose proof (tied_registered _ _ _ Hs Ht Hf) as Hreg. rewrite candidate_same.
  pose proof (wp_es_enroll request now (ef_current t)) as Hi. unfold wp in Hi.
  destruct (es_enroll request now (ef_current t)) as [r candidate]. cbn [fst snd] in Hi. store_run.
  destruct r as [device|e|]; [| |done]; cbn [is_ok orb].
  - destruct Hi as (Hv & -> & Hnew & Hsize & Hcon & ->).
    destruct (enrolled_acknowledged g request (ef_current t) now Hv Hreg (proj1 (proj2 Hs)) Hnew Hcon) as [Hreg' Hleg'].
    fold (after_enroll request (ef_current t)).
    apply (wp_enrollment_persist g); [done..|by apply enrolled_ok|by apply enrolled_registered|].
    intros r f s' Ht' Hs' Hp' Hw. destruct r as [[]|e|]; store_run; [|by apply post_unwritten..].
    destruct Hw as (-> & data & Hm & Hst). eapply post_written; [done..| | | |exact Hm|done]; [by apply enrolled_ok|done..].
  - assert (enrollment_ok candidate ∧ registered g candidate) as [Hok' Hreg'].
    { destruct Hi as [->| ->]; [done|]. split; [by apply drop_challenge_ok|by apply drop_challenge_registered]. }
    destruct (negb _); store_run; [|by apply post_same].
    apply (wp_enrollment_persist g); [done..|]. intros r f s' Ht' Hs' Hp' Hw.
    destruct r as [[]|e'|]; store_run; [|by apply post_unwritten..].
    destruct Hw as (-> & data & Hm & Hst). eapply post_written; [done..| |exact Hm|done]. apply Hs.
Qed.

Lemma enrollment_call_rule g t s op :
  sound g (disk s) → enrollment_tied g t (contents (disk s) path) → fresh_values g op →
  wp (enrollment_call op) (enrollment_post op g s) (t, s).
Proof.
  intros Hs Ht Ha. destruct op as [a d now random|request now|a d|];
    [by apply file_issue_rule|by apply file_enroll_rule|..]; cbn [enrollment_call].
  - unfold file_device, on_enrollment_file. do 2 apply wp_bind.
    apply wp_file_check; [apply set_ef_file_same|intros e; store_run; by apply post_same|]. intros _ _. store_run.
    destruct (es_device _ _ _); store_run; by apply post_same.
  - unfold enrollment_close, on_enrollment_file. apply wp_bind.
    apply (wp_close_sound path enrollment_good _ _ g); [done|]. intros r f s1 Hthr Hs1 Hc Hp Hfail.
    assert (enrollment_tied g (set_ef_file f t) (contents (disk s1) path)) as Ht1.
    { destruct Ht as (Htp & Htd & Htc). split_and!; [by rewrite <-Htp|done|]. cbn. by rewrite Hfail, Hc. }
    destruct r as [[]|e|]; store_run; by split_and!.
Qed.

Lemma registered_bound g s : NoDup ((dev_device ∘ fst) <$> g) → registered g s → (length g ≤ size (es_devices s))%nat.
Proof.
  intros Hnd Hreg. rewrite <-(length_fmap (dev_device ∘ fst)), <-(size_list_to_set (C := gset string) _ Hnd), <-size_dom.
  apply subseteq_size. intros id (x & -> & Hx)%elem_of_list_to_set%list_elem_of_fmap. apply elem_of_dom.
  destruct (proj1 (Forall_forall _ _) Hreg x Hx) as [Hd _]. cbn. eauto.
Qed.

Lemma wp_file_device accountID deviceID t s (Q : Result GoError DeviceIdentity → Prop) :
  (f_lock (ef_file t) = None → Q (Err ErrClosed)) →
  (∀ e, f_failed (ef_file t) = Some e → Q (Err e)) →
  (f_failed (ef_file t) = None → Q (es_device accountID deviceID (ef_current t))) →
  wp (file_device accountID deviceID) (λ r _, Q r) (t, s).
Proof.
  intros Hclosed Hfailed Hok. unfold file_device, on_enrollment_file, file_check. store_run.
  destruct (f_lock (ef_file t)); store_run; [|by apply Hclosed].
  destruct (f_failed (ef_file t)) as [e|] eqn:Hf; store_run; [by apply Hfailed|]. cbn. by apply Hok.
Qed.
End durable.

(** ** Theorem *)

(** C7: enrollment is durable and each challenge enrolls once.  Starting without a
    snapshot, whatever file-system calls fail, wherever the machine loses power
    and however often the service restarts, the acknowledged enrollments have
    distinct device identifiers and distinct challenges, each was proven with a
    signature by its key over its account, device and challenge, and there are at
    most [capacity] of them; a lookup by the owning account returns exactly the
    enrolled identity unless the store was closed or a write failed, and a lookup
    by any other account does not succeed. *)
Theorem enrollments_durable `{Ed25519} `{Sha256Spec} `{StorageSpec} `{JsonSpec EnrollmentSnapshot} `{MapRange}
    path ttl capacity (expressible : Time → Prop) g t s :
  proper_path path → (∀ c, enrollment_ok ttl capacity expressible c → json_faithful (snapshot_of c)) →
  run path (open_file_enrollment path ttl capacity) enrollment_call (fresh_values ttl expressible) record_enrolled []
    g t s →
  NoDup ((dev_device ∘ fst) <$> g) ∧ NoDup ((sum256 ∘ snd) <$> g) ∧ Forall proven g ∧
  Z.of_nat (length g) ≤ Z.max 0 capacity ∧
  ∀ store device challenge account r s', t = Some store → (device, challenge) ∈ g →
    file_device account (dev_device device) (store, s) = (r, s') →
    match r with
    | Ok found => found = device ∧ account = dev_account device
    | Err e => (f_lock (ef_file store) = None ∧ e = ErrClosed) ∨ f_failed (ef_file store) = Some e ∨
        (e = ErrDeviceNotFound ∧ account ≠ dev_account device)
    | Panic => False
    end.
Proof.
  intros Hp Hf Hrun.
  destruct (run_sound path _ _ _ _ [] (enrollment_good ttl capacity expressible) (enrollment_tied path ttl capacity expressible)
    ltac:(split; [split_and!; constructor|done]) (enrollment_open_rule path Hp ttl capacity expressible Hf)
    (enrollment_call_rule path Hp ttl capacity expressible Hf) g t s Hrun) as [Hs Ht].
  pose proof Hs as [_ [(Hid & Hdig & Hpr) Hreg]]. split_and!; [done..| |].
  - destruct (contents (disk s) path); [|subst g; cbn; lia]. destruct Hreg as (c & Hok & _ & Hreg).
    pose proof (registered_bound g c Hid Hreg). pose proof (ok_devices_size _ _ _ _ Hok). lia.
  - intros store device challenge account r s' -> Hin. specialize (Ht store eq_refl). by_wp.
    apply (wp_file_device _ _ _ _ (λ r, match r with
      | Ok found => found = device ∧ account = dev_account device
      | Err e => (f_lock (ef_file store) = None ∧ e = ErrClosed) ∨ f_failed (ef_file store) = Some e ∨
          (e = ErrDeviceNotFound ∧ account ≠ dev_account device)
      | Panic => False
      end)); [by left|by right; left|]. intros Hfail.
    destruct (proj1 (Forall_forall _ _) (tied_registered _ _ _ _ Hf _ _ _ Hs Ht Hfail) _ Hin) as [Hd _]. cbn in Hd.
    unfold es_device. rewrite Hd. destruct (decide (dev_account device = account)) as [<-|Hne].
    + rewrite bool_decide_eq_true_2 by done. cbn. by rewrite clone_device_id.
    + rewrite bool_decide_eq_false_2 by done. cbn. auto.
Qed.

(** ** Witness: enrolled, power lost, reopened *)

Import DeviceConfig.Toys Identity.ToySha Durable.ToyDisk.

Module EnrollmentWitness.
Definition nonce : string := String.concat "" (replicate 32 "n").
Definition device_key : string := ed_public sample_private.
Definition request : EnrollmentRequest :=
  mkEnrollment "alice" "laptop" device_key nonce sample_private.
Definition device : DeviceIdentity := mkIdentity "alice" "laptop" device_key (key_id_of device_key).
Definition ttl : Z := 5 * minute.
Definition capacity : Z := 4.

Definition issue : EnrollmentOp := Issue "alice" "laptop" sample_issued (Ok nonce).
Definition enroll : EnrollmentOp := Enroll request (sample_issued + minute).

Definition snapshots : list EnrollmentSnapshot :=
  [mkEnrollmentSnapshot 1 (Some []) (Some []);
   mkEnrollmentSnapshot 1 (Some []) (Some [mkChallengeSnapshot (sum256 nonce) "alice" "laptop" (sample_issued + ttl)]);
   mkEnrollmentSnapshot 1 (Some [device]) (Some [])].
#[export] Instance enrollment_json : Json EnrollmentSnapshot := ToyJson.listed_json snapshots.
#[export] Instance enrollment_json_spec : JsonSpec EnrollmentSnapshot := ToyJson.listed_json_spec snapshots.

Definition no_store : FileEnrollmentStore := mkFileEnrollment (mkFile "" 0 None None) (mkEnrollmentStore ∅ 0 0 ∅).
Definition store_of (r : Result GoError FileEnrollmentStore) : FileEnrollmentStore :=
  match r with Ok t => t | _ => no_store end.

Definition first_open := open_file_enrollment sample_path ttl capacity (tt, empty_sys).
Definition issued := enrollment_call issue (store_of first_open.1, first_open.2.2).
Definition enrolled := enrollment_call enroll (issued.2.1, issued.2.2).
Definition replayed := enrollment_call enroll (enrolled.2.1, enrolled.2.2).
Definition after_crash : Sys := mkSys disk_ops (disk replayed.2.2) [].
Definition second_open := open_file_enrollment sample_path ttl capacity (tt, after_crash).
Definition log : list (DeviceIdentity * string) :=
  record_enrolled enroll enrolled.1 (record_enrolled issue issued.1 []).

Lemma enrollment_run_sample :
  run sample_path (open_file_enrollment sample_path ttl capacity) enrollment_call (fresh_values ttl (λ _, True))
    record_enrolled [] log (Some (store_of second_open.1)) second_open.2.2.
Proof.
  apply (run_opened _ _ _ _ _ _ _ after_crash); [|vm_compute; reflexivity].
  apply (run_crashed _ _ _ _ _ _ _ enrolled.2.1 enrolled.2.2 enroll);
    [|done|apply crash_flushed; [exact eq_refl|vm_compute; reflexivity]].
  apply (run_called _ _ _ _ _ _ _ issued.2.1 issued.2.2 enroll); [|done].
  apply (run_called _ _ _ _ _ _ [] (store_of first_open.1) first_open.2.2 issue); [|split_and!; [done..|]].
  - apply (run_opened _ _ _ _ _ _ [] empty_sys); [apply run_fresh, empty_sys_steady|vm_compute; reflexivity].
  - intros value _. apply not_elem_of_nil.
Qed.
End EnrollmentWitness.
Import EnrollmentWitness.

Lemma enrollments_durable_witness :
  log = [(device, nonce)] ∧ replayed.1 = Err ErrDeviceExists ∧
  (file_device "alice" "laptop" (store_of second_open.1, second_open.2.2)).1 = Ok device.
Proof.
  assert (log = [(device, nonce)]) as Hlog by (vm_compute; reflexivity).
  split; [exact Hlog|]. split; [vm_compute; reflexivity|].
  destruct (enrollments_durable sample_path ttl capacity (λ _, True) log (Some (store_of second_open.1)) second_open.2.2
    sample_path_proper ltac:(intros; exact I) enrollment_run_sample) as (_ & _ & _ & _ & Hfind).
  pose proof (Hfind _ device nonce "alice" _ _ eq_refl ltac:(rewrite Hlog; by left) (surjective_pairing _)) as Hr.
  change (dev_device device) with "laptop" in Hr.
  destruct (file_device _ _ _).1 as [d|e|] eqn:Hd; [by destruct Hr as [-> _]|vm_compute in Hd; discriminate..].
Defined.
