(* ===== verification/Registry.v ===== *)
(** The node registry of the control service:
    [services/control-api/internal/registry/registry.go] and [lifecycle.go].

    [MemoryRegistry] keeps the metadata of the nodes.  [Register] validates a new
    node and never replaces one; [Transition] changes a status by comparing it with
    the one the caller expects. *)

From S2P Require Import Prelude Machine Text GoBase Netip DeviceConfig.
From stdpp Require Import sorting.
Open Scope string_scope.
Open Scope Z_scope.

Definition ErrAlreadyRegistered : GoError := NewError "node is already registered".
Definition ErrNotFound : GoError := NewError "node is not registered".
Definition ErrStateConflict : GoError := NewError "node state changed concurrently".
Definition ErrInvalidTransition : GoError := NewError "invalid node state transition".

(** [Status] and [Transport] are string types. *)
Definition StatusProvisioning : string := "provisioning".
Definition StatusHealthy : string := "healthy".
Definition StatusRestricted : string := "restricted".
Definition StatusQuarantined : string := "quarantined".

Definition NodeTransportWireGuard : string := "wireguard".

Record Node := mkNode {
  node_id : string;
  node_region : string;
  node_endpoint : AddrPort;
  node_transports : list string;
  node_status : string;
  node_registered_at : Time;
}.

Definition set_status (status : string) (n : Node) : Node :=
  mkNode (node_id n) (node_region n) (node_endpoint n) (node_transports n) status (node_registered_at n).

Abbreviation MemoryRegistry := (gmap string Node).

Definition validSlug (value : string) : bool := valid_slug_value value.

(** The copy of the slice is the same value. *)
Definition clone_node (n : Node) : Node :=
  mkNode (node_id n) (node_region n) (node_endpoint n) (node_transports n) (node_status n) (node_registered_at n).

(** [strings.Compare] puts [left] before or beside [right]. *)
Definition id_le (left right : Node) : Prop := String.leb (node_id left) (node_id right) = true.
#[export] Instance id_le_dec : RelDecision id_le.
Proof. intros left right. unfold id_le. apply _. Defined.

Section registry.
Context `{GoQuote} `{MapRange}.

Fixpoint check_transports (transports : gset string) (l : list string) : Result GoError unit :=
  match l with
  | [] => Ok tt
  | transport :: l =>
      reject_if (negb (bool_decide (transport = NodeTransportWireGuard)))
        (NewError ("unsupported transport " +:+ go_quote transport));;
      reject_if (bool_decide (transport ∈ transports)) (NewError ("duplicate transport " +:+ go_quote transport));;
      check_transports ({[transport]} ∪ transports) l
  end.

Definition validate_node (n : Node) : Result GoError unit :=
  reject_if (negb (validSlug (node_id n))) (NewError "node ID must be a lowercase slug");;
  reject_if (negb (validSlug (node_region n))) (NewError "region must be a lowercase slug");;
  reject_if (endpoint_unusable (node_endpoint n))
    (NewError "endpoint must contain an unscoped unicast IP address and nonzero port");;
  reject_if (length (node_transports n) =? 0)%nat (NewError "at least one transport is required");;
  check_transports ∅ (node_transports n);;
  reject_if (negb (bool_decide (node_status n = StatusProvisioning)) && negb (bool_decide (node_status n = StatusHealthy))
    && negb (bool_decide (node_status n = StatusRestricted)) && negb (bool_decide (node_status n = StatusQuarantined)))
    (NewError ("unsupported node status " +:+ go_quote (node_status n))).

Definition register (n : Node) (nodes : MemoryRegistry) : Result GoError MemoryRegistry :=
  map_err (in_context "validate node") (validate_node n);;
  reject_if (bool_decide (is_Some (nodes !! node_id n))) ErrAlreadyRegistered;;
  Ok (<[node_id n := clone_node n]> nodes).

Definition get_node (id : string) (nodes : MemoryRegistry) : Result GoError Node :=
  match nodes !! id with None => Err ErrNotFound | Some n => Ok (clone_node n) end.

(** [slices.SortFunc] yields an ordered permutation of its argument. *)
Definition list_nodes (nodes : MemoryRegistry) : list Node :=
  merge_sort id_le (map (λ '(_, n), clone_node n) (map_range nodes)).

Definition transition_allowed (current target : string) : bool :=
  if bool_decide (current = StatusProvisioning) then
    bool_decide (target = StatusHealthy) || bool_decide (target = StatusQuarantined)
  else if bool_decide (current = StatusHealthy) then
    bool_decide (target = StatusRestricted) || bool_decide (target = StatusQuarantined)
  else if bool_decide (current = StatusRestricted) then
    bool_decide (target = StatusHealthy) || bool_decide (target = StatusQuarantined)
  else if bool_decide (current = StatusQuarantined) then false
  else false.

Definition transition (id expected target : string) (nodes : MemoryRegistry) : Result GoError MemoryRegistry :=
  match nodes !! id with
  | None => Err ErrNotFound
  | Some n =>
      reject_if (negb (bool_decide (node_status n = expected)))
        (with_detail ErrStateConflict ("current=" +:+ go_quote (node_status n) +:+ " expected=" +:+ go_quote expected));;
      reject_if (negb (transition_allowed expected target))
        (with_detail ErrInvalidTransition (go_quote expected +:+ " -> " +:+ go_quote target));;
      Ok (<[id := set_status target n]> nodes)
  end.

(** ** Histories *)

Inductive RegistryOp := Register (n : Node) | Transition (id expected target : string).

(** An operation that fails leaves the registry as it is. *)
Definition registry_step (op : RegistryOp) (nodes : MemoryRegistry) : MemoryRegistry :=
  match (match op with Register n => register n nodes | Transition id e t => transition id e t nodes end) with
  | Ok nodes' => nodes'
  | _ => nodes
  end.

Definition registry_run (ops : list RegistryOp) (nodes : MemoryRegistry) : MemoryRegistry :=
  foldl (λ nodes op, registry_step op nodes) nodes ops.

(** ** What validation accepts *)

Definition status_known (status : string) : Prop :=
  status ∈ [StatusProvisioning; StatusHealthy; StatusRestricted; StatusQuarantined].

(** A valid node has the one transport, once. *)
Definition valid_node (n : Node) : Prop :=
  slug (node_id n) ∧ slug (node_region n) ∧ endpoint_ok (node_endpoint n) ∧
  node_transports n = [NodeTransportWireGuard] ∧ status_known (node_status n).

Lemma check_transports_ok l :
  check_transports ∅ l = Ok tt ↔ Forall (λ t, t = NodeTransportWireGuard) l ∧ NoDup l.
Proof.
  rewrite <-(list_fmap_id l) at 3. apply (unique_loop_spec (λ t, t = NodeTransportWireGuard) id check_transports); [done|].
  intros seen a l'. cbn [check_transports]. rewrite !bind_unit_ok, !reject_last.
  by rewrite negb_false_iff, bool_decide_eq_true, bool_decide_eq_false.
Qed.

Lemma wireguard_only (l : list string) :
  (length l ≠ 0)%nat ∧ Forall (λ t, t = NodeTransportWireGuard) l ∧ NoDup l ↔ l = [NodeTransportWireGuard].
Proof.
  split; [|intros ->; split_and!; [done|by repeat constructor|apply NoDup_singleton]].
  destruct l as [|a [|b l]]; intros (? & Hall & Hnd); [done|by apply Forall_singleton in Hall as ->|].
  apply Forall_cons in Hall as [-> [-> _]%Forall_cons]. apply NoDup_cons in Hnd as [Hn _]. set_solver.
Qed.

Lemma validate_node_ok n : validate_node n = Ok tt ↔ valid_node n.
Proof.
  unfold validate_node, valid_node, validSlug, status_known. rewrite !bind_unit_ok, !reject_last, check_transports_ok.
  rewrite !negb_false_iff, !valid_slug_value_spec, endpoint_unusable_ok, Nat.eqb_neq, <-wireguard_only.
  rewrite !andb_false_iff, !negb_false_iff, !bool_decide_eq_true, !elem_of_cons, elem_of_nil. naive_solver.
Qed.

Lemma clone_node_id n : clone_node n = n.
Proof. by destruct n. Qed.

Lemma register_ok n nodes nodes' :
  register n nodes = Ok nodes' ↔ valid_node n ∧ nodes !! node_id n = None ∧ nodes' = <[node_id n := n]> nodes.
Proof.
  unfold register. rewrite !bind_unit_ok, reject_last, clone_node_id, bool_decide_eq_false, <-eq_None_not_Some, <-validate_node_ok.
  destruct (validate_node n) as [[]| |]; cbn; naive_solver.
Qed.

Lemma transition_ok id expected target nodes nodes' :
  transition id expected target nodes = Ok nodes' ↔
  ∃ n, nodes !! id = Some n ∧ node_status n = expected ∧ transition_allowed expected target = true ∧
    nodes' = <[id := set_status target n]> nodes.
Proof.
  unfold transition. destruct (nodes !! id) as [n|]; [|naive_solver].
  rewrite !bind_unit_ok, !reject_last, !negb_false_iff, bool_decide_eq_true. naive_solver.
Qed.

Definition permitted (a b : string) : Prop := transition_allowed a b = true.

Lemma permitted_known a b : permitted a b → status_known b.
Proof.
  unfold permitted, transition_allowed, status_known. rewrite !elem_of_cons.
  repeat case_bool_decide; subst; cbn; intros; try done; auto.
Qed.

Lemma quarantine_terminal b : ¬ permitted StatusQuarantined b.
Proof. done. Qed.

Definition registry_wf (nodes : MemoryRegistry) : Prop := map_Forall (λ id n, node_id n = id ∧ valid_node n) nodes.

Lemma registry_step_wf op nodes : registry_wf nodes → registry_wf (registry_step op nodes).
Proof.
  intros Hwf. unfold registry_step. destruct op as [n|id e t].
  - destruct (register n nodes) eqn:Hr; [|done..]. apply register_ok in Hr as (Hv & _ & ->). by apply map_Forall_insert_2.
  - destruct (transition id e t nodes) eqn:Hr; [|done..]. apply transition_ok in Hr as (n & Hn & <- & Ht & ->).
    apply map_Forall_insert_2; [|done]. destruct (Hwf id n Hn) as (Hid & ? & ? & ? & ? & _).
    split_and!; try done. by apply permitted_known in Ht.
Qed.

(** A registered node keeps everything but its status, which moves along a permitted edge or stays. *)
Lemma registry_step_keeps op nodes id n :
  nodes !! id = Some n →
  ∃ status, registry_step op nodes !! id = Some (set_status status n) ∧ (permitted (node_status n) status ∨ node_status n = status).
Proof.
  intros Hn. assert (nodes !! id = Some (set_status (node_status n) n)) as Hsame by (rewrite Hn; by destruct n).
  assert (∃ status, nodes !! id = Some (set_status status n) ∧ (permitted (node_status n) status ∨ node_status n = status)) as Hstay
    by (exists (node_status n); split; [done|by right]).
  unfold registry_step. destruct op as [n0|id0 e t].
  - destruct (register n0 nodes) eqn:Hr; [|done..]. apply register_ok in Hr as (_ & Hnew & ->).
    rewrite lookup_insert_ne by congruence. done.
  - destruct (transition id0 e t nodes) eqn:Hr; [|done..]. apply transition_ok in Hr as (n0 & Hn0 & <- & Ht & ->).
    destruct (decide (id0 = id)) as [->|Hne]; [|by rewrite lookup_insert_ne].
    rewrite Hn in Hn0. injection Hn0 as <-. exists t. rewrite lookup_insert_eq. split; [done|by left].
Qed.

(** *** Listing *)

Lemma listed_perm (nodes : MemoryRegistry) : map (λ '(_, n), clone_node n) (map_range nodes) ≡ₚ (map_to_list nodes).*2.
Proof.
  rewrite (map_ext _ snd); [|intros []; apply clone_node_id].
  change (map snd) with (fmap (M := list) (@snd string Node)). by rewrite map_range_perm.
Qed.

Lemma list_nodes_perm (nodes : MemoryRegistry) : list_nodes nodes ≡ₚ (map_to_list nodes).*2.
Proof. unfold list_nodes. rewrite merge_sort_Permutation. apply listed_perm. Qed.

Lemma wf_ids nodes : registry_wf nodes → node_id <$> (map_to_list nodes).*2 = (map_to_list nodes).*1.
Proof.
  intros Hwf. rewrite <-list_fmap_compose. apply list_fmap_ext. intros i [id n] Hin.
  apply list_elem_of_lookup_2, elem_of_map_to_list in Hin. by destruct (Hwf id n Hin) as [<- _].
Qed.

Lemma list_nodes_ids nodes : registry_wf nodes → NoDup (node_id <$> list_nodes nodes).
Proof. intros Hwf. rewrite list_nodes_perm, (wf_ids _ Hwf). apply NoDup_fst_map_to_list. Qed.
End registry.

#[export] Instance id_le_trans : Transitive id_le.
Proof. intros a b c. apply string_leb_trans. Qed.
#[export] Instance id_le_total : Total id_le.
Proof.
  intros a b. unfold id_le. destruct (String.leb (node_id a) (node_id b)) eqn:Hab; [by left|right].
  apply string_compare_gt_leb. unfold String.leb in Hab. by destruct (String.compare _ _).
Qed.

(** An order on identifiers that are distinct is strict. *)
Lemma strictly_sorted l :
  StronglySorted id_le l → NoDup (node_id <$> l) →
  StronglySorted (λ a b, String.compare (node_id a) (node_id b) = Lt) l.
Proof.
  induction 1 as [|a l Hl IH Ha]; [constructor|]. rewrite fmap_cons. intros [Hn Hnd]%NoDup_cons.
  constructor; [auto|]. apply Forall_forall. intros b Hb. rewrite Forall_forall in Ha. specialize (Ha b Hb).
  unfold id_le, String.leb in Ha. destruct (String.compare _ _) eqn:Hc; [|done..].
  apply String.compare_eq_iff in Hc. destruct Hn. rewrite Hc. by apply list_elem_of_fmap_2.
Qed.

Lemma same_id l (a b : Node) : NoDup (node_id <$> l) → a ∈ l → b ∈ l → node_id a = node_id b → a = b.
Proof.
  intros Hnd (i & Hi)%list_elem_of_lookup (j & Hj)%list_elem_of_lookup Hid.
  assert (i = j) as ->; [|congruence].
  eapply (NoDup_lookup (node_id <$> l)); [done|by rewrite list_lookup_fmap, Hi|]. by rewrite list_lookup_fmap, Hj, Hid.
Qed.

(** ** Theorems *)

(** C27: the life of a node.  From a well-formed registry (every node stored under
    its own valid identifier, with the one supported transport and a known
    status), every sequence of registrations and transitions, successful or not,
    leaves a well-formed registry in which each node registered before is still
    registered with the same metadata; its status has moved only along permitted
    transitions, so a quarantined node stays quarantined for ever. *)
Theorem node_lifecycle `{GoQuote} ops nodes id n :
  registry_wf nodes → nodes !! id = Some n →
  registry_wf (registry_run ops nodes) ∧
  ∃ status, registry_run ops nodes !! id = Some (set_status status n) ∧ rtc permitted (node_status n) status ∧
    (node_status n = StatusQuarantined → status = StatusQuarantined).
Proof.
  intros Hwf Hn.
  assert (registry_wf (registry_run ops nodes) ∧ ∃ status, registry_run ops nodes !! id = Some (set_status status n) ∧
    rtc permitted (node_status n) status) as (Hwf' & status & Hs & Hr).
  { revert nodes n Hwf Hn. induction ops as [|op ops IH]; intros nodes n Hwf Hn.
    - split; [done|]. exists (node_status n). split; [|done]. cbn. rewrite Hn. by destruct n.
    - destruct (registry_step_keeps op nodes id n Hn) as (status & Hst & Hrc).
      destruct (IH _ _ (registry_step_wf op _ Hwf) Hst) as (Hwf' & status' & Hs' & Hr').
      split; [done|]. exists status'. split; [done|]. cbn in Hr'. destruct Hrc as [Hp| <-]; [|done]. by eapply rtc_l. }
  split; [done|]. exists status. split_and!; [done..|]. intros Hq. rewrite Hq in Hr.
  apply rtc_inv in Hr as [->|(next & Hp & _)]; [done|]. by apply quarantine_terminal in Hp.
Qed.

(** [List] is deterministic.  On a well-formed registry its result is sorted by
    identifier, contains exactly the registered nodes, each once, and does not
    depend on the order in which the map is visited. *)
Theorem list_nodes_deterministic (M M' : MapRange) nodes :
  registry_wf nodes →
  StronglySorted (λ a b, String.compare (node_id a) (node_id b) = Lt) (@list_nodes M nodes) ∧
  @list_nodes M nodes ≡ₚ (map_to_list nodes).*2 ∧ @list_nodes M nodes = @list_nodes M' nodes.
Proof.
  intros Hwf.
  assert (∀ M0 : MapRange, StronglySorted id_le (@list_nodes M0 nodes)) as Hsort.
  { intros M0. apply StronglySorted_merge_sort; apply _. }
  split_and!; [by apply strictly_sorted, list_nodes_ids|apply list_nodes_perm|].
  apply (StronglySorted_unique_strong id_le); [|apply Hsort..|by rewrite !list_nodes_perm].
  intros a b Ha Hb Hab Hba. rewrite (@list_nodes_perm M') in Hb. rewrite <-(@list_nodes_perm M) in Hb.
  apply (same_id _ _ _ (list_nodes_ids (H0 := M) nodes Hwf) Ha Hb).
  unfold id_le, String.leb in *. rewrite String.compare_antisym in Hba.
  destruct (String.compare (node_id a) (node_id b)) eqn:Hc; [|done..]. by apply String.compare_eq_iff.
Qed.

(** ** Witnesses *)

Import DeviceConfig.Toys.

Definition sample_node (id : string) : Node :=
  mkNode id "eu-central" (ConfigEndpoint sample_config) [NodeTransportWireGuard] StatusProvisioning sample_issued.

Definition sample_nodes : MemoryRegistry :=
  registry_run [Register (sample_node "de-fra-2"); Register (sample_node "de-fra-1")] ∅.

Lemma sample_nodes_wf : registry_wf sample_nodes.
Proof. unfold sample_nodes, registry_run. cbn [foldl]. do 2 apply registry_step_wf. apply map_Forall_empty. Qed.

(** Brought up, quarantined, and then neither restored nor replaced. *)
Lemma node_lifecycle_witness :
  ∃ status, registry_run [Transition "de-fra-1" StatusProvisioning StatusHealthy;
      Transition "de-fra-1" StatusHealthy StatusQuarantined;
      Transition "de-fra-1" StatusQuarantined StatusHealthy;
      Register (sample_node "de-fra-1")] sample_nodes !! "de-fra-1" = Some (set_status status (sample_node "de-fra-1")) ∧
    status = StatusQuarantined ∧ rtc permitted StatusProvisioning status.
Proof.
  destruct (node_lifecycle [Transition "de-fra-1" StatusProvisioning StatusHealthy;
      Transition "de-fra-1" StatusHealthy StatusQuarantined;
      Transition "de-fra-1" StatusQuarantined StatusHealthy;
      Register (sample_node "de-fra-1")] sample_nodes "de-fra-1" (sample_node "de-fra-1"))
    as (_ & status & Hs & Hr & _); [apply sample_nodes_wf|vm_compute; reflexivity|].
  exists status. split; [exact Hs|]. split; [|exact Hr]. vm_compute in Hs. injection Hs as <-. reflexivity.
Defined.

Lemma list_nodes_deterministic_witness :
  node_id <$> list_nodes sample_nodes = ["de-fra-1"; "de-fra-2"] ∧
  StronglySorted (λ a b, String.compare (node_id a) (node_id b) = Lt) (list_nodes sample_nodes).
Proof.
  split; [vm_compute; reflexivity|].
  exact (proj1 (list_nodes_deterministic list_range list_range sample_nodes sample_nodes_wf)).
Defined.
