(* ===== verification/Telemetry.v ===== *)
(** Telemetry metrics: [services/control-api/internal/telemetry/metric.go].

    A metric has a supported name, a finite value that suits the name, and only
    allowlisted attributes with short printable values.  A [float64] is an
    IEEE 754 number of the Standard Library's [SpecFloat]. *)

From Stdlib Require Import Floats.SpecFloat.
From S2P Require Import Prelude Machine Text GoBase DeviceConfig.
Open Scope string_scope.
Open Scope Z_scope.

Definition ErrInvalidMetric : GoError := NewError "invalid telemetry metric".
Definition ErrForbiddenAttribute : GoError := NewError "forbidden telemetry attribute".

Definition maximumAttributes : Z := 6.
Definition maximumAttributeValue : Z := 64.

Definition ConnectionSuccess : string := "connection_success".
Definition HandshakeLatencyMS : string := "handshake_latency_ms".
Definition ReconnectCount : string := "reconnect_count".
Definition PacketLossRatio : string := "packet_loss_ratio".
Definition RoundTripTimeMS : string := "round_trip_time_ms".

Definition supportedMetrics : gset string :=
  {[ConnectionSuccess; HandshakeLatencyMS; ReconnectCount; PacketLossRatio; RoundTripTimeMS]}.

Definition allowedAttributes : gset string :=
  {["client_platform"; "client_version"; "error_class"; "outcome"; "region"; "transport"]}.

Record Metric := mkMetric { metric_name : string; metric_value : spec_float; metric_attributes : gmap string string }.

(** ** [float64] *)

Definition float_zero : spec_float := S754_zero false.
Definition float_one : spec_float := S754_finite false (2 ^ 52) (-52).

Definition is_nan (x : spec_float) : bool := match x with S754_nan => true | _ => false end.
Definition is_inf (x : spec_float) : bool := match x with S754_infinity _ => true | _ => false end.

(** [math.Trunc] clears the bits of the significand below the binary point. *)
Definition math_trunc (x : spec_float) : spec_float :=
  match x with
  | S754_finite sign m e =>
      if 0 <=? e then x
      else match Z.shiftl (Z.shiftr (Z.pos m) (- e)) (- e) with
           | Zpos m' => S754_finite sign m' e
           | _ => S754_zero sign
           end
  | _ => x
  end.

(** [unicode.IsPrint] on ASCII: the graphic characters and the space. *)
Definition is_print (r : Z) : bool := (32 <=? r) && (r <=? 126).

Definition printable_rune (r : Z) : bool := negb ((127 <? r) || negb (is_print r)).
Definition printableASCII (value : string) : bool := forallb printable_rune (runes value).

Section validate.
Context `{GoQuote} `{MapRange}.

Fixpoint check_attributes (l : list (string * string)) : Result GoError unit :=
  match l with
  | [] => Ok tt
  | (name, value) :: l =>
      reject_if (negb (bool_decide (name ∈ allowedAttributes))) (with_detail ErrForbiddenAttribute (go_quote name));;
      reject_if (bool_decide (value = "") || (maximumAttributeValue <? len value) || negb (printableASCII value))
        (with_detail ErrInvalidMetric ("invalid " +:+ go_quote name +:+ " attribute value"));;
      check_attributes l
  end.

Definition validate_metric (metric : Metric) : Result GoError unit :=
  let name := metric_name metric in
  let value := metric_value metric in
  reject_if (negb (bool_decide (name ∈ supportedMetrics)))
    (with_detail ErrInvalidMetric ("unsupported name " +:+ go_quote name));;
  reject_if (is_nan value || is_inf value || SFltb value float_zero)
    (with_detail ErrInvalidMetric "value must be finite and non-negative");;
  (if bool_decide (name = PacketLossRatio) then
     reject_if (SFltb float_one value) (with_detail ErrInvalidMetric "packet loss ratio must be between zero and one")
   else if bool_decide (name = ConnectionSuccess) then
     reject_if (negb (SFeqb value float_zero) && negb (SFeqb value float_one))
       (with_detail ErrInvalidMetric "connection success must be zero or one")
   else if bool_decide (name = ReconnectCount) then
     reject_if (negb (SFeqb (math_trunc value) value))
       (with_detail ErrInvalidMetric "reconnect count must be an integer")
   else Ok tt);;
  reject_if (maximumAttributes <? Z.of_nat (size (metric_attributes metric)))
    (with_detail ErrInvalidMetric "too many attributes");;
  check_attributes (map_range (metric_attributes metric)).
End validate.

(** ** What validation accepts *)

(** The number [m * 2 ^ e], as a numerator over a power of two. *)
Definition below_or_one (m e : Z) : Prop := m * 2 ^ Z.max 0 e ≤ 2 ^ Z.max 0 (- e).
Definition whole (m e : Z) : Prop := (2 ^ Z.max 0 (- e) | m).

(** A finite number with the significand and exponent of a [float64]. *)
Definition float_typed (x : spec_float) : Prop := valid_binary 53 1024 x = true.

Definition value_suits (name : string) (x : spec_float) : Prop :=
  match x with
  | S754_zero _ => True
  | S754_finite false m e =>
      (name = PacketLossRatio → below_or_one (Z.pos m) e) ∧
      (name = ConnectionSuccess → x = float_one) ∧
      (name = ReconnectCount → whole (Z.pos m) e)
  | _ => False
  end.

Definition printable_byte (c : ascii) : bool := between 32 126 c.

Definition attribute_suits (name value : string) : Prop :=
  name ∈ allowedAttributes ∧ (1 ≤ String.length value ≤ 64)%nat ∧ all_bytes printable_byte value = true.

Lemma digits_bounds m : 2 ^ (Z.pos (digits2_pos m) - 1) ≤ Z.pos m < 2 ^ Z.pos (digits2_pos m).
Proof.
  induction m as [p IH|p IH|]; cbn [digits2_pos]; [..|by cbn];
    rewrite Pos2Z.inj_succ, Z.pow_succ_r by lia;
    replace (Z.succ (Z.pos (digits2_pos p)) - 1) with (Z.succ (Z.pos (digits2_pos p) - 1)) by lia;
    rewrite Z.pow_succ_r by lia; lia.
Qed.

(** A [float64] that is not subnormal has 53 significant bits. *)
Lemma float_typed_finite s m e :
  float_typed (S754_finite s m e) →
  Z.pos (digits2_pos m) ≤ 53 ∧ (e = -1074 ∨ (-1074 ≤ e ∧ Z.pos (digits2_pos m) = 53)).
Proof.
  unfold float_typed. cbn [valid_binary]. unfold bounded, canonical_mantissa, fexp, emin. rewrite andb_true_iff.
  intros [Hc _]. apply Z.eqb_eq in Hc. lia.
Qed.

Lemma significand_bounds s m e :
  float_typed (S754_finite s m e) → Z.pos m < 2 ^ 53 ∧ (-1074 < e → 2 ^ 52 ≤ Z.pos m).
Proof.
  intros [Hd Hn]%float_typed_finite. pose proof (digits_bounds m) as [Hlo Hhi]. split.
  - eapply Z.lt_le_trans; [exact Hhi|]. by apply Z.pow_le_mono_r.
  - intros He. destruct Hn as [->|[_ Hn]]; [lia|]. by rewrite Hn in Hlo.
Qed.

Lemma above_one m e :
  float_typed (S754_finite false m e) →
  SFltb float_one (S754_finite false m e) = false ↔ below_or_one (Z.pos m) e.
Proof.
  intros [Hhi Hlo]%significand_bounds. unfold below_or_one, SFltb, SFcompare, float_one.
  destruct (Z.compare_spec (-52) e) as [<-|He|He].
  - change (Z.max 0 (-52)) with 0. change (Z.max 0 (- -52)) with 52. rewrite Z.mul_1_r.
    change (Pos.compare_cont Eq (2 ^ 52) m) with (Pos.compare (2 ^ 52) m). destruct (Pos.compare_spec (2 ^ 52) m) as [<-|Hm|Hm]; cbn; split; try done; lia.
  - split; [done|]. specialize (Hlo ltac:(lia)). intros Hb. exfalso.
    destruct (decide (0 ≤ e)).
    + rewrite (Z.max_l 0 (- e)), (Z.max_r 0 e) in Hb by lia. pose proof (Z.pow_pos_nonneg 2 e). nia.
    + rewrite (Z.max_r 0 (- e)), (Z.max_l 0 e), Z.mul_1_r in Hb by lia.
      assert (2 ^ (- e) ≤ 2 ^ 51) by (apply Z.pow_le_mono_r; lia). lia.
  - split; [|done]. intros _. rewrite (Z.max_r 0 (- e)), (Z.max_l 0 e), Z.mul_1_r by lia.
    assert (2 ^ 53 ≤ 2 ^ (- e)) by (apply Z.pow_le_mono_r; lia). lia.
Qed.

Lemma SFeqb_finite m e m' e' :
  SFeqb (S754_finite false m e) (S754_finite false m' e') = true ↔ m = m' ∧ e = e'.
Proof.
  unfold SFeqb, SFcompare. destruct (Z.compare_spec e e') as [<-|He|He]; [|split; [done|lia]..].
  change (Pos.compare_cont Eq m m') with (Pos.compare m m'). destruct (Pos.compare_spec m m') as [<-|Hm|Hm]; [done|split; [done|]; intros [<- _]; lia..].
Qed.

Lemma trunc_same m e :
  SFeqb (math_trunc (S754_finite false m e)) (S754_finite false m e) = true ↔ whole (Z.pos m) e.
Proof.
  unfold whole. cbn [math_trunc]. destruct (Z.leb_spec 0 e) as [He|He].
  - rewrite Z.max_l by lia. split; [intros _; apply Z.divide_1_l|]. intros _. by apply SFeqb_finite.
  - rewrite Z.max_r by lia. rewrite <-Z.mod_divide by lia. rewrite <-shiftl_shiftr_id by lia.
    destruct (Z.shiftl (Z.shiftr (Z.pos m) (- e)) (- e)) as [|m'|m']; [by split| |by split].
    rewrite SFeqb_finite. split; [by intros [-> _]|by intros [= ->]].
Qed.

Lemma printable_runes value : printableASCII value = all_bytes printable_byte value.
Proof.
  unfold printableASCII, all_bytes, runes. apply ascii_runes; [| | |by rewrite length_chars].
  - intros c Hc. unfold printable_rune, is_print, printable_byte, between in *. lia.
  - intros c. unfold printable_byte, between. lia.
  - intros r Hr. unfold printable_rune. lia.
Qed.

Section accepts.
Context `{GoQuote} `{MapRange}.

Lemma check_attributes_ok l : check_attributes l = Ok tt ↔ Forall (λ '(name, value), attribute_suits name value) l.
Proof.
  induction l as [|[name value] l IH]; cbn [check_attributes]; [split; [constructor|done]|].
  rewrite !bind_unit_ok, !reject_last, IH, Forall_cons, !orb_false_iff, !negb_false_iff.
  unfold attribute_suits. rewrite printable_runes, bool_decide_eq_true, bool_decide_eq_false, Z.ltb_ge.
  assert (value ≠ "" ∧ len value ≤ maximumAttributeValue ↔ (1 ≤ String.length value ≤ 64)%nat) as Hlen.
  { unfold len, maximumAttributeValue. destruct value; cbn; [split; [naive_solver|lia]|]. split; [lia|]. split; [done|lia]. }
  rewrite <-Hlen. tauto.
Qed.

(** The seventh attribute is already refused by the allowlist of six. *)
Lemma few_attributes (m : gmap string string) : map_Forall attribute_suits m → Z.of_nat (size m) ≤ maximumAttributes.
Proof.
  intros Hm. assert (dom m ⊆ allowedAttributes) as Hd%subseteq_size.
  { intros name (value & Hv)%elem_of_dom. by apply (Hm name value). }
  rewrite size_dom in Hd. change (size allowedAttributes) with 6%nat in Hd. unfold maximumAttributes. lia.
Qed.

Lemma value_rules name x :
  float_typed x →
  is_nan x || is_inf x || SFltb x float_zero = false ∧
  (if bool_decide (name = PacketLossRatio) then reject_if (SFltb float_one x) (with_detail ErrInvalidMetric
       "packet loss ratio must be between zero and one")
   else if bool_decide (name = ConnectionSuccess) then
     reject_if (negb (SFeqb x float_zero) && negb (SFeqb x float_one))
       (with_detail ErrInvalidMetric "connection success must be zero or one")
   else if bool_decide (name = ReconnectCount) then
     reject_if (negb (SFeqb (math_trunc x) x)) (with_detail ErrInvalidMetric "reconnect count must be an integer")
   else Ok tt) = Ok tt ↔ value_suits name x.
Proof.
  intros Ht. destruct x as [sign|sign| |[] m e]; cbn [is_nan is_inf orb value_suits]; [|naive_solver..|].
  - split; [done|]. intros _. split; [by destruct sign|]. by repeat case_bool_decide; destruct sign.
  - change (SFltb (S754_finite false m e) float_zero) with false.
    case_bool_decide as Hp; [subst name|case_bool_decide as Hc; [subst name|case_bool_decide as Hr; [subst name|]]].
    + rewrite reject_last, (above_one _ _ Ht). split; [|tauto]. intros [_ ?]. by split_and!.
    + rewrite reject_last. change (SFeqb (S754_finite false m e) float_zero) with false. cbn [negb andb].
      unfold float_one. rewrite negb_false_iff, SFeqb_finite.
      split; [intros (_ & -> & ->); by split_and!|]. intros (_ & Hx & _). by injection (Hx eq_refl) as -> ->.
    + rewrite reject_last, negb_false_iff, trunc_same. split; [|tauto]. intros [_ ?]. by split_and!.
    + split; [|done]. intros _. by split_and!.
Qed.
End accepts.

(** ** Theorem *)

(** C37: exactly which metrics are accepted.  [Validate] accepts a metric if and
    only if its name is supported, its value is finite, not negative and suits the
    name (at most one for a loss ratio, zero or one for a success, a whole number
    for a count), and every attribute is allowlisted with 1 to 64 bytes of
    printable ASCII; the order in which the attributes are visited does not
    matter. *)
Theorem metric_accepted_exact `{GoQuote} `{MapRange} (metric : Metric) :
  float_typed (metric_value metric) →
  validate_metric metric = Ok tt ↔
  metric_name metric ∈ supportedMetrics ∧ value_suits (metric_name metric) (metric_value metric) ∧
  map_Forall attribute_suits (metric_attributes metric).
Proof.
  intros Ht. unfold validate_metric. rewrite !bind_unit_ok, !reject_last, check_attributes_ok, negb_false_iff, bool_decide_eq_true.
  assert (Forall (λ '(name, value), attribute_suits name value) (map_range (metric_attributes metric)) ↔
    map_Forall attribute_suits (metric_attributes metric)) as -> by by rewrite map_range_perm, map_Forall_to_list.
  rewrite <-(value_rules _ _ Ht), Z.ltb_ge.
  pose proof (few_attributes (metric_attributes metric)). tauto.
Qed.

Import DeviceConfig.Toys.

Definition sample_metric : Metric :=
  mkMetric PacketLossRatio (S754_finite false (2 ^ 52) (-54)) {["region" := "eu-central"; "transport" := "wireguard"]}.

Lemma metric_accepted_exact_witness :
  validate_metric sample_metric = Ok tt ∧ value_suits PacketLossRatio (S754_finite false (2 ^ 52) (-54)) ∧
  validate_metric (mkMetric ReconnectCount (S754_finite false (2 ^ 52) (-54)) ∅) ≠ Ok tt.
Proof.
  assert (validate_metric sample_metric = Ok tt) as Hok by (vm_compute; reflexivity).
  split; [exact Hok|]. split; [|vm_compute; discriminate].
  apply (metric_accepted_exact sample_metric ltac:(vm_compute; reflexivity)) in Hok. apply Hok.
Defined.
