(* ===== verification/Token.v ===== *)
(** Bearer tokens of accounts: [services/control-api/internal/api/token.go].

    The operator provisions the SHA-256 digests of tokens; a request authenticates
    with the canonical unpadded base64url text of 32 bytes.  The file also holds
    what the code uses of [regexp], [encoding/hex], [encoding/base64] and
    [strings]. *)

From S2P Require Import Prelude Machine Text GoBase Netip DeviceConfig Identity.
Open Scope string_scope.
Open Scope Z_scope.

(** ** [regexp]

    The regular expressions that the source uses, anchored at both ends; a text
    is matched rune by rune, with the rest of the expression as continuation. *)

Inductive regex :=
| Class (p : Z → bool)
| Cat (a b : regex)
| Optional (a : regex)
| UpTo (n : nat) (a : regex).

Section matching.
Context (m : (list Z → bool) → list Z → bool).
Fixpoint up_to (n : nat) (k : list Z → bool) (l : list Z) : bool :=
  match n with O => k l | S n => k l || m (up_to n k) l end.
End matching.

Fixpoint match_then (r : regex) (k : list Z → bool) (l : list Z) : bool :=
  match r with
  | Class p => match l with [] => false | x :: l => p x && k l end
  | Cat a b => match_then a (match_then b k) l
  | Optional a => k l || match_then a k l
  | UpTo n a => up_to (match_then a) n k l
  end.

(** [MatchString] of [^r$]. *)
Definition match_string (r : regex) (s : string) : bool := match_then r (λ l, bool_decide (l = [])) (runes s).

Definition lower_or_digit (r : Z) : bool := ((97 <=? r) && (r <=? 122)) || ((48 <=? r) && (r <=? 57)).

(** [[a-z0-9](?:[a-z0-9-]{0,61}[a-z0-9])?] *)
Definition accountSlug : regex :=
  Cat (Class lower_or_digit)
    (Optional (Cat (UpTo 61 (Class (λ r, lower_or_digit r || (r =? 45)))) (Class lower_or_digit))).

(** ** [hex.DecodeString]; the errors are not used *)

Definition hex_value (c : ascii) : option Z :=
  if between 48 57 c then Some (code c - 48)
  else if between 97 102 c then Some (code c - 87)
  else if between 65 70 c then Some (code c - 55)
  else None.

Fixpoint hex_decode (s : string) : option string :=
  match s with
  | "" => Some ""
  | String a (String b s) =>
      x ← hex_value a; y ← hex_value b; rest ← hex_decode s; Some (String (byte (16 * x + y)) rest)
  | _ => None
  end.

(** ** [base64.RawURLEncoding] *)

Definition sextet_char (v : Z) : ascii :=
  byte (if v <? 26 then 65 + v else if v <? 52 then 71 + v else if v <? 62 then v - 4 else if v =? 62 then 45 else 95).

Definition sextet_value (c : ascii) : option Z :=
  if between 65 90 c then Some (code c - 65)
  else if between 97 122 c then Some (code c - 71)
  else if between 48 57 c then Some (code c + 4)
  else if code c =? 45 then Some 62
  else if code c =? 95 then Some 63
  else None.

Fixpoint sextets (l : list Z) : list Z :=
  match l with
  | x :: y :: z :: l => x / 4 :: (x mod 4 * 16 + y / 16) :: (y mod 16 * 4 + z / 64) :: z mod 64 :: sextets l
  | [x; y] => [x / 4; x mod 4 * 16 + y / 16; y mod 16 * 4]
  | [x] => [x / 4; x mod 4 * 16]
  | [] => []
  end.

Definition base64_encode (s : string) : string :=
  of_chars (map sextet_char (sextets (map code (chars s)))).

(** [Strict] refuses a last quantum with nonzero unused bits. *)
Fixpoint quanta (l : list Z) : option (list Z) :=
  match l with
  | a :: b :: c :: d :: l =>
      rest ← quanta l; Some (a * 4 + b / 16 :: b mod 16 * 16 + c / 4 :: c mod 4 * 64 + d :: rest)
  | [a; b; c] => if c mod 4 =? 0 then Some [a * 4 + b / 16; b mod 16 * 16 + c / 4] else None
  | [a; b] => if b mod 16 =? 0 then Some [a * 4 + b / 16] else None
  | [_] => None
  | [] => Some []
  end.

(** The decoder skips carriage returns and line feeds. *)
Definition base64_decode (s : string) : option string :=
  l ← mapM sextet_value (filter (λ c, negb ((code c =? 10) || (code c =? 13))) (chars s));
  bytes ← quanta l;
  Some (of_chars (map byte bytes)).

(** ** [strings.Fields] and [strings.EqualFold] *)

(** The bytes of each rune. *)
Fixpoint rune_chunks (fuel : nat) (l : list ascii) : list (list ascii) :=
  match fuel, l with
  | O, _ | _, [] => []
  | S fuel, _ =>
      let '(valid, n) := utf8_head l in
      let n := if valid then n else 1%nat in
      take n l :: rune_chunks fuel (drop n l)
  end.

Fixpoint words_from (acc : list ascii) (l : list (list ascii)) : list string :=
  match l with
  | [] => match acc with [] => [] | _ => [of_chars acc] end
  | c :: l =>
      if is_whitespace (of_chars c) then
        match acc with [] => words_from [] l | _ => of_chars acc :: words_from [] l end
      else words_from (acc ++ c)%list l
  end.

Definition go_fields (s : string) : list string := words_from [] (rune_chunks (String.length s) (chars s)).

(** The letters of [Bearer] fold to their ASCII counterparts only. *)
Definition fold_char (c : ascii) : ascii := if between 65 90 c then byte (code c + 32) else c.
Definition equal_fold_ascii (s t : string) : bool :=
  bool_decide (map fold_char (chars s) = map fold_char (chars t)).

(** ** The authenticator *)

Definition ErrUnauthenticated : GoError := NewError "invalid or expired account credential".

Record TokenCredential := mkCredential { cred_account : string; cred_digest : string; cred_expires : Time }.

Abbreviation TokenAuthenticator := (gmap string TokenCredential).

(** What the authenticator sees of a request: the error of its context and the
    values of its [Authorization] headers. *)
Record Credentials := mkCredentials { context_err : option GoError; authorization : list string }.

Section tokens.
Context `{Sha256}.

Fixpoint add_credentials (at_ : Time) (l : list TokenCredential) (auth : TokenAuthenticator) :
    Result GoError TokenAuthenticator :=
  match l with
  | [] => Ok auth
  | credential :: l =>
      let invalid := NewError "invalid account credential or expiry outside (now, now+24h]" in
      match hex_decode (cred_digest credential) with
      | None => Err invalid
      | Some digest =>
          reject_if (negb (String.length digest =? 32)%nat || negb (match_string accountSlug (cred_account credential))
            || negb (time_after (cred_expires credential) at_)
            || time_after (cred_expires credential) (time_add at_ (24 * hour))) invalid;;
          reject_if (bool_decide (is_Some (auth !! digest))) (NewError "duplicate account token digest");;
          add_credentials at_ l (<[digest := credential]> auth)
      end
  end.

(** [now] is the reading of the clock, [None] for a nil clock. *)
Definition new_token_authenticator (credentials : list TokenCredential) (now : option Time) :
    Result GoError TokenAuthenticator :=
  let refused := NewError "account credentials and clock required; maximum 10000 credentials" in
  match now with
  | None => Err refused
  | Some at_ =>
      reject_if ((length credentials =? 0)%nat || (10000 <? Z.of_nat (length credentials))) refused;;
      add_credentials at_ credentials ∅
  end.

Definition authenticate (auth : TokenAuthenticator) (request : Credentials) (now : Time) : Result GoError string :=
  match context_err request with
  | Some e => Err e
  | None =>
      match authorization request with
      | [value] =>
          reject_if (128 <? len value) ErrUnauthenticated;;
          match go_fields value with
          | [scheme; text] =>
              reject_if (negb (equal_fold_ascii scheme "Bearer")) ErrUnauthenticated;;
              match base64_decode text with
              | None => Err ErrUnauthenticated
              | Some token =>
                  reject_if (negb (String.length token =? 32)%nat || negb (bool_decide (base64_encode token = text)))
                    ErrUnauthenticated;;
                  match auth !! sum256 text with
                  | None => Err ErrUnauthenticated
                  | Some credential =>
                      reject_if (negb (time_after (cred_expires credential) now)) ErrUnauthenticated;;
                      Ok (cred_account credential)
                  end
              end
          | _ => Err ErrUnauthenticated
          end
      | _ => Err ErrUnauthenticated
      end
  end.
End tokens.

Example slug_examples :
  map (match_string accountSlug) ["alice"; "a"; "a-1"; "-a"; "a-"; ""; "Alice"] =
  [true; true; true; false; false; false; false].
Proof. reflexivity. Qed.

Example base64_example : base64_encode "hello" = "aGVsbG8" ∧ base64_decode "aGVsbG8" = Some "hello" ∧
  base64_decode "aGVsbG9" = None.
Proof. split_and!; vm_compute; reflexivity. Qed.

(** ** The language of a regular expression *)

Fixpoint denotes (r : regex) (l : list Z) : Prop :=
  match r with
  | Class p => ∃ x, l = [x] ∧ p x = true
  | Cat a b => ∃ l1 l2, l = (l1 ++ l2)%list ∧ denotes a l1 ∧ denotes b l2
  | Optional a => l = [] ∨ denotes a l
  | UpTo n a => ∃ parts, (length parts ≤ n)%nat ∧ Forall (denotes a) parts ∧ l = mjoin parts
  end.

Lemma up_to_ok (m : (list Z → bool) → list Z → bool) (D : list Z → Prop) n k l :
  (∀ k l, m k l = true ↔ ∃ l1 l2, l = (l1 ++ l2)%list ∧ D l1 ∧ k l2 = true) →
  up_to m n k l = true ↔
  ∃ l1 l2, l = (l1 ++ l2)%list ∧ (∃ parts, (length parts ≤ n)%nat ∧ Forall D parts ∧ l1 = mjoin parts) ∧ k l2 = true.
Proof.
  intros Hm. revert l. induction n as [|n IH]; intros l; cbn [up_to].
  - split.
    + intros Hk. exists [], l. split_and!; [done| |done]. by exists [].
    + intros (l1 & l2 & -> & ([|] & Hlen & _ & ->) & Hk); [done|cbn in Hlen; lia].
  - rewrite orb_true_iff, Hm. split.
    + intros [Hk|(l1 & l2 & -> & Hl1 & Hrest)].
      * exists [], l. split_and!; [done| |done]. exists []. cbn. split_and!; [lia|done..].
      * apply IH in Hrest as (l3 & l4 & -> & (parts & Hlen & Hall & ->) & Hk).
        exists (l1 ++ mjoin parts)%list, l4. split_and!; [by rewrite (assoc_L (++))| |done].
        exists (l1 :: parts). cbn. split_and!; [lia|by constructor|done].
    + intros (l1 & l2 & -> & ([|p parts] & Hlen & Hall & ->) & Hk); [by left|right].
      apply Forall_cons in Hall as [Hp Hall]. exists p, (mjoin parts ++ l2)%list.
      split_and!; [cbn; by rewrite (assoc_L (++))|done|]. apply IH. exists (mjoin parts), l2.
      split_and!; [done| |done]. exists parts. cbn in Hlen. split_and!; [lia|done..].
Qed.

Lemma match_then_ok r k l :
  match_then r k l = true ↔ ∃ l1 l2, l = (l1 ++ l2)%list ∧ denotes r l1 ∧ k l2 = true.
Proof.
  revert k l. induction r as [p|a IHa b IHb|a IHa|n a IHa]; intros k l; cbn [match_then denotes].
  - destruct l as [|x l]; [split; [done|by intros (? & ? & Heq & (? & -> & _) & _)]|].
    rewrite andb_true_iff. split; [intros [Hp Hk]; exists [x], l; split_and!; [done|by exists x|done]|].
    intros (? & l2 & Heq & (y & -> & Hp) & Hk). by injection Heq as -> ->.
  - rewrite IHa. split.
    + intros (l1 & l2 & -> & Ha & (l3 & l4 & -> & Hb & Hk)%IHb). exists (l1 ++ l3)%list, l4.
      split_and!; [by rewrite (assoc_L (++))| |done]. by exists l1, l3.
    + intros (? & l4 & -> & (l1 & l3 & -> & Ha & Hb) & Hk). exists l1, (l3 ++ l4)%list.
      split_and!; [by rewrite (assoc_L (++))|done|]. apply IHb. by exists l3, l4.
  - rewrite orb_true_iff, IHa. split.
    + intros [Hk|(l1 & l2 & -> & Ha & Hk)]; [exists [], l; auto|exists l1, l2; auto].
    + intros (l1 & l2 & -> & [->|Ha] & Hk); [by left|right]. by exists l1, l2.
  - by apply up_to_ok.
Qed.

Lemma match_string_ok r s : match_string r s = true ↔ denotes r (runes s).
Proof.
  unfold match_string. rewrite match_then_ok. setoid_rewrite bool_decide_eq_true.
  split; [intros (l1 & ? & Hl & ? & ->); by rewrite (right_id_L [] (++)) in Hl; subst|].
  intros Hd. exists (runes s), []. by rewrite (right_id_L [] (++)).
Qed.

(** At most [n] runes of a class. *)
Lemma denotes_up_to_class n p l : denotes (UpTo n (Class p)) l ↔ (length l ≤ n)%nat ∧ forallb p l = true.
Proof.
  cbn [denotes]. split.
  - intros (parts & Hlen & Hall & ->).
    assert (length (mjoin parts) = length parts ∧ forallb p (mjoin parts) = true) as [-> ?]; [|done].
    clear Hlen. induction Hall as [|q parts (x & -> & Hx) Hall [IHl IHp]]; [done|].
    change (mjoin ([x] :: parts)) with (x :: mjoin parts). cbn [length forallb]. by rewrite IHl, Hx, IHp.
  - intros [Hlen Hp]. exists ((λ x, [x]) <$> l). rewrite length_fmap. split_and!; [done| |].
    + apply Forall_forall. intros ? (x & -> & Hx)%list_elem_of_fmap. exists x. split; [done|].
      by apply (proj1 (forallb_forall p l) Hp x), list_elem_of_In.
    + clear. induction l as [|x l IH]; [done|]. rewrite fmap_cons.
      change (mjoin ([x] :: ?q)) with (x :: mjoin q). by rewrite <-IH.
Qed.

(** *** The account slugs are the slugs of the other packages *)

Definition dash_free_ends (l : list Z) : Prop := head l ≠ Some 45 ∧ last l ≠ Some 45.

Lemma lower_or_digit_spec r : lower_or_digit r = true ↔ slug_rune r = true ∧ r ≠ 45.
Proof. unfold lower_or_digit, slug_rune. lia. Qed.

Lemma class_or_dash l : forallb (λ r, lower_or_digit r || (r =? 45)) l = forallb slug_rune l.
Proof.
  induction l as [|r l IH]; [done|]. cbn [forallb]. rewrite IH. f_equal. unfold lower_or_digit, slug_rune. lia.
Qed.

Lemma account_slug_language l :
  denotes accountSlug l ↔ (1 ≤ length l ≤ 63)%nat ∧ forallb slug_rune l = true ∧ dash_free_ends l.
Proof.
  unfold accountSlug, dash_free_ends. cbn [denotes]. split.
  - intros (? & rest & -> & (x & -> & [Hx Hnx]%lower_or_digit_spec) & Hrest). cbn [app length head forallb]. rewrite Hx.
    destruct Hrest as [->|(mid & ? & -> & Hmid & (z & -> & [Hz Hnz]%lower_or_digit_spec))].
    + cbn. split_and!; [lia..|done|congruence|congruence].
    + apply denotes_up_to_class in Hmid as [Hlen Hmid]. rewrite length_app, forallb_app. cbn [length forallb]. rewrite Hz.
      rewrite class_or_dash in Hmid. rewrite Hmid. cbn [andb].
      change (x :: mid ++ [z])%list with ((x :: mid) ++ [z])%list. rewrite last_snoc. split_and!; [lia..|done|congruence|congruence].
  - intros (Hlen & Hall & Hhd & Htl). destruct l as [|x l]; [cbn in Hlen; lia|].
    cbn [forallb] in Hall. apply andb_true_iff in Hall as [Hx Hall].
    exists [x], l. split_and!; [done|exists x; split; [done|]; apply lower_or_digit_spec; cbn in Hhd; split; congruence|].
    destruct l as [|z mid _] using rev_ind; [by left|right]. exists mid, [z].
    rewrite forallb_app in Hall. cbn [forallb] in Hall. apply andb_true_iff in Hall as [Hmid [Hz _]%andb_true_iff].
    change (x :: mid ++ [z])%list with ((x :: mid) ++ [z])%list in Htl. rewrite last_snoc in Htl.
    cbn [length] in Hlen. rewrite length_app in Hlen. cbn [length] in Hlen.
    split_and!; [done| |exists z; split; [done|]; apply lower_or_digit_spec; split; congruence].
    apply denotes_up_to_class. rewrite class_or_dash. split; [lia|done].
Qed.

Lemma runes_ascii_from fuel l :
  (length l ≤ fuel)%nat → forallb (between 0 127) l = true → runes_from fuel l = map code l.
Proof.
  revert l. induction fuel as [|fuel IH]; intros [|c l] Hl; try done; [cbn in Hl; lia|].
  cbn [forallb]. rewrite andb_true_iff. intros [Hc Ha]. cbn [runes_from]. unfold utf8_head. rewrite Hc.
  change (take 1 (c :: l)) with [c]. change (drop 1 (c :: l)) with l. cbn [decode_rune map].
  rewrite IH; [done|cbn in Hl; lia|done].
Qed.

Lemma forallb_weaken {A} (p q : A → bool) l : (∀ x, p x = true → q x = true) → forallb p l = true → forallb q l = true.
Proof. intros Hpq. rewrite !forallb_forall. auto. Qed.

Lemma runes_of_slug_chars s : all_bytes is_slug_char s = true → runes s = map code (chars s).
Proof.
  intros Hs. apply runes_ascii_from; [by rewrite length_chars|]. unfold all_bytes in Hs.
  eapply forallb_weaken; [|exact Hs]. apply slug_char_ascii.
Qed.

Lemma dash_at_code i s : dash_at i s = false ↔ map code (chars s) !! i ≠ Some 45.
Proof.
  unfold dash_at. change (map code) with (fmap (M := list) code). rewrite list_lookup_fmap.
  destruct (chars s !! i) as [c|]; cbn; [|done]. rewrite Z.eqb_neq. split; congruence.
Qed.

(** The account slugs are the slugs of the other packages. *)
Lemma account_slug_equiv s : match_string accountSlug s = valid_slug_value s.
Proof.
  apply eq_bool_prop_intro. rewrite !Is_true_true, match_string_ok, account_slug_language, valid_slug_value_spec. unfold slug, dash_free_ends.
  assert (forallb slug_rune (runes s) = all_bytes is_slug_char s) as ->.
  { unfold runes, all_bytes. apply slug_runes. by rewrite length_chars. }
  rewrite !dash_at_code, head_lookup, last_lookup.
  destruct (all_bytes is_slug_char s) eqn:Hs; [|naive_solver].
  rewrite (runes_of_slug_chars s Hs), length_map, length_chars, Nat.sub_1_r. tauto.
Qed.

(** ** Encodings *)

(** A test on every number below a bound. *)
Lemma range_check n (p : Z → bool) : forallb p (seqZ 0 n) = true → ∀ d, 0 ≤ d < n → p d = true.
Proof. intros Hall d Hd. apply (proj1 (forallb_forall _ _) Hall), list_elem_of_In, elem_of_seqZ. lia. Qed.

Lemma hex_value_digit d : 0 ≤ d < 16 → hex_value (hex_digit d) = Some d.
Proof.
  intros Hd. apply (bool_decide_eq_true_1 (hex_value (hex_digit d) = Some d)). revert d Hd.
  by apply (range_check 16 (λ d, bool_decide (hex_value (hex_digit d) = Some d))).
Qed.

Lemma byte_code c : byte (code c) = c.
Proof.
  pose proof (by_inspection (λ c, Ascii.eqb (byte (code c)) c) ltac:(vm_compute; reflexivity) c) as H.
  by apply Ascii.eqb_eq.
Qed.

Lemma code_range c : 0 ≤ code c < 256.
Proof.
  pose proof (by_inspection (λ c, (0 <=? code c) && (code c <? 256)) ltac:(vm_compute; reflexivity) c) as H.
  cbn beta in H. lia.
Qed.

Lemma hex_decode_encode s : hex_decode (hex_encode s) = Some s.
Proof.
  induction s as [|c s IH]; [done|]. cbn [hex_encode hex_decode]. pose proof (code_range c).
  rewrite !hex_value_digit by (split; [apply Z.div_pos || apply Z.mod_pos_bound|apply Z.div_lt_upper_bound || apply Z.mod_pos_bound]; lia).
  cbn [mbind option_bind]. rewrite IH. cbn [mbind option_bind].
  replace (16 * (code c / 16) + code c mod 16) with (code c) by (pose proof (Z.div_mod (code c) 16); lia).
  by rewrite byte_code.
Qed.

Definition sextet (v : Z) : Prop := 0 ≤ v < 64.

Definition sextet_plain (v : Z) : bool :=
  bool_decide (sextet_value (sextet_char v) = Some v) && between 0 127 (sextet_char v)
  && negb (is_whitespace (of_chars [sextet_char v]))
  && negb ((code (sextet_char v) =? 10) || (code (sextet_char v) =? 13)).

Lemma sextet_roundtrip v : sextet v →
  sextet_value (sextet_char v) = Some v ∧ between 0 127 (sextet_char v) = true ∧
  is_whitespace (of_chars [sextet_char v]) = false ∧
  negb ((code (sextet_char v) =? 10) || (code (sextet_char v) =? 13)) = true.
Proof.
  intros Hv.
  assert (sextet_plain v = true) as Hc by (revert v Hv; by apply (range_check 64)).
  unfold sextet_plain in Hc. rewrite !andb_true_iff, negb_true_iff, bool_decide_eq_true in Hc. tauto.
Qed.

Definition octet (v : Z) : Prop := 0 ≤ v < 256.

(** Three bytes at a time. *)
Lemma list_ind3 {A} (P : list A → Prop) :
  P [] → (∀ x, P [x]) → (∀ x y, P [x; y]) → (∀ x y z l, P l → P (x :: y :: z :: l)) → ∀ l, P l.
Proof.
  intros H0 H1 H2 H3. fix IH 1. intros [|x [|y [|z l]]]; [apply H0|apply H1|apply H2|apply H3, IH].
Qed.

Ltac base64_arith := unfold octet, sextet in *; Z.div_mod_to_equations; lia.

Lemma sextets_range l : Forall octet l → Forall sextet (sextets l).
Proof.
  induction l as [|x|x y|x y z l IH] using list_ind3; cbn [sextets]; rewrite ?Forall_cons, ?Forall_nil.
  - done.
  - intros [Hx _]. split_and!; try done; base64_arith.
  - intros (Hx & Hy & _). split_and!; try done; base64_arith.
  - intros (Hx & Hy & Hz & Hl). split_and!; [base64_arith..|auto].
Qed.

Lemma quanta_sextets l : Forall octet l → quanta (sextets l) = Some l.
Proof.
  induction l as [|x|x y|x y z l IH] using list_ind3; cbn [sextets quanta]; rewrite ?Forall_cons.
  - done.
  - intros [Hx _]. replace (_ =? 0) with true by base64_arith. do 2 f_equal. base64_arith.
  - intros (Hx & Hy & _). replace (_ =? 0) with true by base64_arith. f_equal. f_equal; [|f_equal]; base64_arith.
  - intros (Hx & Hy & Hz & Hl). rewrite (IH Hl). cbn [mbind option_bind]. f_equal. f_equal; [|f_equal; [|f_equal]]; base64_arith.
Qed.

Lemma codes_octets l : Forall octet (map code l).
Proof. apply Forall_map, Forall_forall. intros c _. apply code_range. Qed.

Lemma base64_decode_encode s : base64_decode (base64_encode s) = Some s.
Proof.
  unfold base64_decode, base64_encode. rewrite String.list_ascii_of_string_of_list_ascii.
  pose proof (sextets_range _ (codes_octets (chars s))) as Hr.
  assert (mapM sextet_value (filter (λ c, negb ((code c =? 10) || (code c =? 13))) (map sextet_char (sextets (map code (chars s)))))
    = Some (sextets (map code (chars s)))) as ->.
  { induction Hr as [|v l Hv Hl IH]; [done|]. destruct (sextet_roundtrip v Hv) as (Hval & _ & _ & Hkeep).
    cbn [map]. rewrite filter_cons_True by (by rewrite Hkeep). cbn [mapM]. rewrite Hval. cbn [mbind option_bind]. by rewrite IH. }
  cbn [mbind option_bind]. rewrite (quanta_sextets _ (codes_octets _)). cbn [mbind option_bind].
  rewrite map_map. rewrite (map_ext _ id) by apply byte_code. rewrite map_id. by rewrite String.string_of_list_ascii_of_string.
Qed.

(** ** Fields *)

Definition plain_char (c : ascii) : bool := between 0 127 c && negb (is_whitespace (of_chars [c])).

(** With fuel for every byte the chunks are a partition of the text. *)
Lemma rune_chunks_partition fuel l : (length l ≤ fuel)%nat → concat (rune_chunks fuel l) = l.
Proof.
  revert l. induction fuel as [|fuel IH]; intros [|c l] Hl; [done|cbn in Hl; lia|done|]. cbn [rune_chunks].
  pose proof (utf8_head_consumes c l) as Hn. destruct (utf8_head (c :: l)) as [valid n]. cbn [snd] in Hn.
  set (m := if valid then n else 1%nat). assert (1 ≤ m)%nat as Hm by (subst m; destruct valid; lia).
  cbn [concat]. rewrite IH; [apply take_drop|]. rewrite length_drop. cbn [length] in *. lia.
Qed.

Lemma ascii_chunks fuel l :
  (length l ≤ fuel)%nat → forallb (between 0 127) l = true → rune_chunks fuel l = map (λ c, [c]) l.
Proof.
  revert l. induction fuel as [|fuel IH]; intros [|c l] Hl; try done; [cbn in Hl; lia|].
  cbn [forallb]. rewrite andb_true_iff. intros [Hc Ha]. cbn [rune_chunks]. unfold utf8_head. rewrite Hc.
  change (take 1 (c :: l)) with [c]. change (drop 1 (c :: l)) with l. cbn [map].
  rewrite IH; [done|cbn in Hl; lia|done].
Qed.

Lemma plain_words acc w rest :
  forallb plain_char w = true →
  words_from acc (map (λ c, [c]) w ++ rest)%list = words_from (acc ++ w)%list rest.
Proof.
  revert acc. induction w as [|c w IH]; intros acc; cbn [forallb map app]; [by rewrite (right_id_L [] (++))|].
  rewrite andb_true_iff. intros [Hc Hw]. cbn [words_from]. unfold plain_char in Hc. apply andb_true_iff in Hc as [_ Hc].
  apply negb_true_iff in Hc. rewrite Hc, (IH _ Hw). by rewrite <-(assoc_L (++)).
Qed.

Lemma plain_ascii w : forallb plain_char w = true → forallb (between 0 127) w = true.
Proof. apply forallb_weaken. intros c. unfold plain_char. rewrite andb_true_iff. tauto. Qed.

Lemma two_fields a b :
  a ≠ "" → b ≠ "" → all_bytes plain_char a = true → all_bytes plain_char b = true →
  go_fields (a +:+ " " +:+ b) = [a; b].
Proof.
  intros Hna Hnb Ha Hb. unfold all_bytes in *. unfold go_fields.
  assert (chars (a +:+ " " +:+ b) = (chars a ++ " "%char :: chars b)%list) as Hchars by (by rewrite !chars_app).
  rewrite ascii_chunks; [|by rewrite length_chars|].
  2: { rewrite Hchars, forallb_app, (plain_ascii _ Ha). cbn [forallb]. by rewrite (plain_ascii _ Hb). }
  rewrite Hchars, map_app, plain_words by done. cbn [map words_from app].
  change (is_whitespace (of_chars [" "%char])) with true. cbv iota.
  rewrite <-(app_nil_r (map _ (chars b))), plain_words by done. cbn [words_from]. rewrite app_nil_l.
  rewrite !String.string_of_list_ascii_of_string. destruct a, b; try done.
Qed.

Lemma base64_plain s : all_bytes plain_char (base64_encode s) = true.
Proof.
  unfold base64_encode, all_bytes. rewrite String.list_ascii_of_string_of_list_ascii.
  pose proof (sextets_range _ (codes_octets (chars s))) as Hr. induction Hr as [|v l Hv Hl IH]; [done|].
  cbn [map forallb]. rewrite IH. destruct (sextet_roundtrip v Hv) as (_ & Ha & Hw & _). unfold plain_char. by rewrite Ha, Hw.
Qed.

(** ** Authentication *)

(** The request presents this text as its only credential. *)
Definition presents (request : Credentials) (text : string) : Prop :=
  context_err request = None ∧ ∃ value scheme, authorization request = [value] ∧ len value ≤ 128 ∧
    go_fields value = [scheme; text] ∧ equal_fold_ascii scheme "Bearer" = true.

Lemma bearer_presents text :
  text ≠ "" → len text ≤ 121 → all_bytes plain_char text = true →
  presents (mkCredentials None ["Bearer " +:+ text]) text.
Proof.
  intros Hne Hlen Hp. split; [done|]. exists ("Bearer " +:+ text), "Bearer". split_and!; [done| | |done].
  - unfold len in *. rewrite string_length_app. cbn [String.length]. lia.
  - by apply (two_fields "Bearer" text).
Qed.

Definition credential_ok (at_ : Time) (c : TokenCredential) : Prop :=
  slug (cred_account c) ∧ at_ < cred_expires c ≤ at_ + 24 * hour.

Lemma add_credentials_ok at_ l auth auth' :
  add_credentials at_ l auth = Ok auth' →
  Forall (credential_ok at_) l ∧
  ∀ digest c, auth' !! digest = Some c ↔ auth !! digest = Some c ∨ (c ∈ l ∧ hex_decode (cred_digest c) = Some digest).
Proof.
  revert auth. induction l as [|c l IH]; intros auth; cbn [add_credentials].
  - intros [= <-]. split; [constructor|]. intros digest c. rewrite elem_of_nil. tauto.
  - destruct (hex_decode (cred_digest c)) as [digest|] eqn:Hd; [|done].
    rewrite !bind_unit_ok, !reject_last, !orb_false_iff, !negb_false_iff, account_slug_equiv, valid_slug_value_spec.
    unfold time_after, time_add. rewrite Z.ltb_lt, Z.ltb_ge, bool_decide_eq_false, <-eq_None_not_Some.
    intros ((((_ & Hs) & Hlo) & Hhi) & Hnew & Hrest). destruct (IH _ Hrest) as [Hall Hlook].
    split; [by constructor|]. intros d c'. rewrite Hlook, elem_of_cons, lookup_insert_Some. split.
    + intros [[[<- <-]|[_ ?]]|[? ?]]; auto.
    + intros [?|[[->|?] ?]]; [left; right; split; congruence|left; left; split; congruence|auto].
Qed.

(** The credentials of a new authenticator are the listed ones, by their digests. *)
Lemma new_token_authenticator_ok credentials at_ auth :
  new_token_authenticator credentials (Some at_) = Ok auth →
  Forall (credential_ok at_) credentials ∧
  ∀ digest c, auth !! digest = Some c ↔ c ∈ credentials ∧ hex_decode (cred_digest c) = Some digest.
Proof.
  unfold new_token_authenticator. rewrite bind_unit_ok. intros [_ [Hall Hlook]%add_credentials_ok].
  split; [done|]. intros digest c. rewrite Hlook, lookup_empty. naive_solver.
Qed.

Section exact.
Context `{Sha256}.

Lemma authenticate_ok auth request now account :
  authenticate auth request now = Ok account ↔
  ∃ token c, presents request (base64_encode token) ∧ String.length token = 32%nat ∧
    auth !! sum256 (base64_encode token) = Some c ∧ now < cred_expires c ∧ account = cred_account c.
Proof.
  unfold authenticate, presents. destruct (context_err request); [naive_solver|].
  destruct (authorization request) as [|value [|]]; [naive_solver| |naive_solver].
  rewrite bind_unit_ok, reject_last, Z.ltb_ge.
  split.
  - intros [Hlen Hrun]. destruct (go_fields value) as [|scheme [|text [|]]] eqn:Hf; try done.
    rewrite bind_unit_ok, reject_last, negb_false_iff in Hrun. destruct Hrun as [Hs Hrun].
    destruct (base64_decode text) as [token|]; [|done].
    rewrite bind_unit_ok, reject_last, orb_false_iff, !negb_false_iff, Nat.eqb_eq, bool_decide_eq_true in Hrun.
    destruct Hrun as [[H32 <-] Hrun]. destruct (auth !! _) as [c|] eqn:Hc; [|done].
    rewrite bind_unit_ok, reject_last, negb_false_iff in Hrun. unfold time_after in Hrun.
    destruct Hrun as [Hx [= <-]]. exists token, c. split_and!; try done; [|lia]. by exists value, scheme.
  - intros (token & c & (_ & ? & scheme & [= <-] & Hlen & Hf & Hs) & H32 & Hc & Hx & ->). split; [done|].
    rewrite Hf, Hs. cbn [reject_if negb mbind result_bind]. rewrite base64_decode_encode, H32.
    rewrite bool_decide_eq_true_2 by done. cbn [reject_if negb mbind result_bind orb Nat.eqb]. rewrite Hc.
    unfold time_after. rewrite (proj2 (Z.ltb_lt _ _) Hx). done.
Qed.
End exact.

(** C16: bearer authentication is exact.  An authenticator built at time [at_] from a
    list of credentials accepts a request if and only if its context is alive, its
    single [Authorization] header of at most 128 bytes names the bearer scheme and
    the canonical base64url text of 32 bytes, and a listed credential with the
    digest of that text has not expired; the account is the one of that
    credential, a slug, and the credential expires at most 24 hours after [at_]. *)
Theorem token_authentication_exact `{Sha256} credentials at_ auth request now account :
  new_token_authenticator credentials (Some at_) = Ok auth →
  authenticate auth request now = Ok account ↔
  ∃ token c, presents request (base64_encode token) ∧ String.length token = 32%nat ∧ c ∈ credentials ∧
    hex_decode (cred_digest c) = Some (sum256 (base64_encode token)) ∧
    now < cred_expires c ≤ at_ + 24 * hour ∧ slug (cred_account c) ∧ account = cred_account c.
Proof.
  intros [Hall Hlook]%new_token_authenticator_ok. rewrite Forall_forall in Hall. rewrite authenticate_ok. split.
  - intros (token & c & Hp & H32 & [Hin Hd]%Hlook & Hx & ->).
    destruct (Hall c Hin) as [Hs Hexp]. exists token, c. split_and!; try done. lia.
  - intros (token & c & Hp & H32 & Hin & Hd & [Hx _] & _ & ->). exists token, c. split_and!; try done. by apply Hlook.
Qed.

Import Identity.ToySha.

Definition sample_token : string := String.concat "" (replicate 32 "t").
Definition sample_text : string := base64_encode sample_token.
Definition sample_credential : TokenCredential :=
  mkCredential "alice" (hex_encode (sum256 sample_text)) (sample_issued + hour).
Definition sample_auth : TokenAuthenticator := {[sum256 sample_text := sample_credential]}.
Definition sample_request : Credentials := mkCredentials None ["Bearer " +:+ sample_text].

Lemma token_authentication_exact_witness :
  new_token_authenticator [sample_credential] (Some sample_issued) = Ok sample_auth ∧
  authenticate sample_auth sample_request (sample_issued + minute) = Ok "alice" ∧
  authenticate sample_auth sample_request (sample_issued + hour) = Err ErrUnauthenticated.
Proof.
  assert (new_token_authenticator [sample_credential] (Some sample_issued) = Ok sample_auth) as Hnew
    by (vm_compute; reflexivity).
  split; [exact Hnew|]. split; [|vm_compute; reflexivity].
  apply (token_authentication_exact [sample_credential] sample_issued _ _ _ _ Hnew).
  exists sample_token, sample_credential. split; [apply bearer_presents; [done|vm_compute; discriminate|apply base64_plain]|].
  split; [vm_compute; reflexivity|]. split; [by left|]. split; [vm_compute; reflexivity|].
  split; [split; vm_compute; [reflexivity|discriminate]|].
  split; [by apply valid_slug_value_spec|reflexivity].
Defined.
