(* ===== verification/ControlApi.v ===== *)
(** The HTTP interface of the control service:
    [services/control-api/internal/api/enrollment.go], [configuration.go],
    [server.go] and [control.go].

    A handler turns a request into a response and changes the state of the
    repositories behind it.  The repositories and the account authenticator are
    the interfaces of the source: records of operations with their laws, so the
    theorems hold for every implementation that obeys them. *)

From S2P Require Import Prelude Machine Text GoBase Netip DeviceConfig Snapshot Durable ConfigStore Identity EnrollmentFile Token.
From stdpp Require Import sorting.
Open Scope string_scope.
Open Scope Z_scope.

(** ** Requests and responses *)

(** The path is clean and split at its slashes; a trailing slash leaves an empty
    last segment.  [path_values] are the segments that wildcards matched. *)
Record Request := mkRequest {
  method : string;
  segments : list string;
  path_values : list string;
  credentials : Credentials;
  content_type : string;
  body : string;
}.

(** What a request meets while it is served: the clock when it is authenticated
    and when the handler asks again, and the bytes of [rand.Read]. *)
Record Env := mkEnv { auth_time : Time; use_time : Time; entropy : Result GoError string }.

(** The values that are encoded as JSON, and the plain texts of [net/http]. *)
Inductive Payload :=
| ErrorBody (error : string)
| DeviceBody (deviceID publicKey keyID : string)
| ChallengeBody (challenge : Challenge)
| EnvelopeBody (envelope : SignedConfig)
| StatusBody (status : string)
| VersionBody (version : string)
| PlainBody (text : string).

Record Response := mkResponse { status : Z; headers : gmap string string; payload : Payload }.

Definition write_json (code : Z) (value : Payload) : Response :=
  mkResponse code {["Content-Type" := "application/json"]} value.

Definition set_header (name value : string) (r : Response) : Response :=
  mkResponse (status r) (<[name := value]> (headers r)) (payload r).

Definition Handler (W : Type) : Type := Request → Env → Act W GoError Response.

(** A header that the inner handler sets replaces the one set before it. *)
Definition protective : gmap string string :=
  {["Cache-Control" := "no-store";
    "Content-Security-Policy" := "default-src 'none'; frame-ancestors 'none'";
    "X-Content-Type-Options" := "nosniff"]}.

Definition secured {W} (next : Act W GoError Response) : Act W GoError Response :=
  response ← next;
  mret (mkResponse (status response) (headers response ∪ protective) (payload response)).

Definition security_headers {W} (next : Handler W) : Handler W := λ request env, secured (next request env).

(** ** [http.ServeMux] *)

Inductive Segment := Lit (s : string) | Wild.

(** [subtree] for a pattern that ends in a slash. *)
Record Pattern := mkPattern { pat_method : option string; pat_path : list Segment; subtree : bool }.

Fixpoint match_path (p : list Segment) (subtree : bool) (path : list string) : option (list string) :=
  match p, path with
  | [], [] => Some []
  | [], _ => if subtree then Some [] else None
  | Lit s :: p, x :: path => if bool_decide (s = x) then match_path p subtree path else None
  | Wild :: p, x :: path => if bool_decide (x = "") then None else cons x <$> match_path p subtree path
  | _, [] => None
  end.

(** A GET pattern also serves HEAD. *)
Definition methods_of (m : string) : list string := if bool_decide (m = "GET") then ["GET"; "HEAD"] else [m].
Definition method_matches (pattern : option string) (m : string) : bool :=
  match pattern with None => true | Some p => bool_decide (m ∈ methods_of p) end.

Definition set_path_values (values : list string) (r : Request) : Request :=
  mkRequest (method r) (segments r) values (credentials r) (content_type r) (body r).

(** The first pattern that matches; in the tables of the service no two patterns
    match one request, but for the catch-all that comes last. *)
Fixpoint find_route {W} (routes : list (Pattern * Handler W)) (r : Request) : option (Handler W * list string) :=
  match routes with
  | [] => None
  | (p, h) :: routes =>
      match match_path (pat_path p) (subtree p) (segments r) with
      | Some values => if method_matches (pat_method p) (method r) then Some (h, values) else find_route routes r
      | None => find_route routes r
      end
  end.

Definition string_le (s t : string) : Prop := String.leb s t = true.
#[export] Instance string_le_dec : RelDecision string_le.
Proof. intros s t. unfold string_le. apply _. Defined.

(** The methods of the patterns for this path. *)
Definition allowed_methods {W} (routes : list (Pattern * Handler W)) (r : Request) : list string :=
  merge_sort string_le (remove_dups (mjoin (map (λ '(p, _),
    match match_path (pat_path p) (subtree p) (segments r), pat_method p with
    | Some _, Some m => methods_of m
    | _, _ => []
    end) routes))).

Definition plain_error (code : Z) (text : string) : Response :=
  mkResponse code {["Content-Type" := "text/plain; charset=utf-8"; "X-Content-Type-Options" := "nosniff"]} (PlainBody text).

Definition serve_mux {W} (routes : list (Pattern * Handler W)) : Handler W := λ request env,
  match find_route routes request with
  | Some (handler, values) => handler (set_path_values values request) env
  | None =>
      match allowed_methods routes request with
      | [] => mret (plain_error 404 "404 page not found")
      | methods => mret (set_header "Allow" (String.concat ", " methods) (plain_error 405 "Method Not Allowed"))
      end
  end.

(** [request.PathValue("deviceID")]. *)
Definition path_value (r : Request) : string := default "" (head (path_values r)).

(** ** Request bodies *)

(** What a reader reports after its bytes. *)
Inductive ReadEnd := EndOfBody | BodyTooLarge.
Record Stream := mkStream { stream_bytes : string; stream_end : ReadEnd }.

(** [http.MaxBytesReader]. *)
Definition max_bytes (limit : nat) (body : string) : Stream :=
  if (String.length body <=? limit)%nat then mkStream body EndOfBody
  else mkStream (String.substring 0 limit body) BodyTooLarge.

Inductive DecodeError := IsEOF | IsTooLarge | OtherError.

(** A [json.Decoder] that refuses unknown fields: one value and the rest of the
    stream, and the error of decoding one more value of any type. *)
Class BodyJson (A : Type) := {
  decode_value : Stream → (DecodeError + A) * Stream;
  decode_trailing : Stream → option DecodeError;
}.

(** [mime.ParseMediaType], without the parameters. *)
Class Mime := { parse_media_type : string → Result GoError string }.

Definition maximumEnrollmentBody : nat := 4096.

Definition decode_enrollment_json `{Mime} {A} `{BodyJson A} (request : Request) : Response + A :=
  let wrong_type := write_json 415 (ErrorBody "application/json required") in
  let refused e := match e with
    | Some IsTooLarge => write_json 413 (ErrorBody "request body too large")
    | _ => write_json 400 (ErrorBody "invalid JSON request")
    end in
  match parse_media_type (content_type request) with
  | Ok mediaType =>
      if bool_decide (mediaType = "application/json") then
        match decode_value (max_bytes maximumEnrollmentBody (body request)) with
        | (inl e, _) => inl (refused (Some e))
        | (inr value, rest) =>
            match decode_trailing rest with
            | Some IsEOF => inr value
            | e => inl (refused e)
            end
        end
      else inl wrong_type
  | _ => inl wrong_type
  end.

(** ** Interfaces *)

Definition AccountAuthenticator : Type := Request → Time → Result GoError string.

Record EnrollmentRepository (W : Type) := mkRepository {
  repo_issue : string → string → Time → Result GoError string → Act W GoError Challenge;
  repo_enroll : EnrollmentRequest → Time → Act W GoError DeviceIdentity;
  repo_device : string → string → Act W GoError DeviceIdentity;
}.
Arguments repo_issue {_}. Arguments repo_enroll {_}. Arguments repo_device {_}.

Record ConfigurationReader (W : Type) := mkReader { reader_latest : string → Act W GoError SignedConfig }.
Arguments reader_latest {_}.

(** ** The handlers *)

Definition authenticate_account (auth : AccountAuthenticator) (request : Request) (env : Env) : Response + string :=
  let refused := set_header "WWW-Authenticate" "Bearer" (write_json 401 (ErrorBody "authentication required")) in
  match auth request (auth_time env) with
  | Ok account => if bool_decide (account = "") then inl refused else inr account
  | _ => inl refused
  end.

Definition write_enrollment_error (e : GoError) : Response :=
  if errors_is e ErrInvalidEnrollment || errors_is e ErrInvalidProof || errors_is e ErrInvalidChallenge
  then write_json 400 (ErrorBody "invalid enrollment")
  else if errors_is e ErrDeviceExists then write_json 409 (ErrorBody "device registration conflict")
  else if errors_is e ErrEnrollmentCapacity then write_json 503 (ErrorBody "enrollment capacity reached")
  else write_json 500 (ErrorBody "enrollment failed").

Record ChallengeRequest := mkChallengeRequest { cr_device : string }.
Record DeviceRequest := mkDeviceRequest { dr_device : string; dr_key : string; dr_challenge : string; dr_signature : string }.

Section handlers.
Context {W : Type} `{Mime} `{BodyJson ChallengeRequest} `{BodyJson DeviceRequest} `{GoQuote}.

Definition get_device (auth : AccountAuthenticator) (store : EnrollmentRepository W) : Handler W := λ request env,
  match authenticate_account auth request env with
  | inl refused => mret refused
  | inr account =>
      found ← attempt (repo_device store account (path_value request));
      match found with
      | inl e =>
          if errors_is e ErrDeviceNotFound then mret (write_json 404 (ErrorBody "device not found"))
          else mret (write_json 500 (ErrorBody "device lookup failed"))
      | inr device => mret (write_json 200 (DeviceBody (dev_device device) (dev_key device) (dev_key_id device)))
      end
  end.

Definition post_challenge (auth : AccountAuthenticator) (store : EnrollmentRepository W) : Handler W := λ request env,
  match authenticate_account auth request env with
  | inl refused => mret refused
  | inr account =>
      match decode_enrollment_json (A := ChallengeRequest) request with
      | inl refused => mret refused
      | inr value =>
          issued ← attempt (repo_issue store account (cr_device value) (use_time env) (entropy env));
          match issued with
          | inl e => mret (write_enrollment_error e)
          | inr challenge => mret (write_json 201 (ChallengeBody challenge))
          end
      end
  end.

Definition post_device (auth : AccountAuthenticator) (store : EnrollmentRepository W) : Handler W := λ request env,
  match authenticate_account auth request env with
  | inl refused => mret refused
  | inr account =>
      match decode_enrollment_json (A := DeviceRequest) request with
      | inl refused => mret refused
      | inr value =>
          enrolled ← attempt (repo_enroll store
            (mkEnrollment account (dr_device value) (dr_key value) (dr_challenge value) (dr_signature value)) (use_time env));
          match enrolled with
          | inl e => mret (write_enrollment_error e)
          | inr device => mret (write_json 201 (DeviceBody (dev_device device) (dev_key device) (dev_key_id device)))
          end
      end
  end.

Definition get_configuration (auth : AccountAuthenticator) (devices : EnrollmentRepository W)
    (configs : ConfigurationReader W) (verifier : Verifier) : Handler W := λ request env,
  match authenticate_account auth request env with
  | inl refused => mret refused
  | inr account =>
      let deviceID := path_value request in
      found ← attempt (repo_device devices account deviceID);
      match found with
      | inl e =>
          if errors_is e ErrDeviceNotFound then mret (write_json 404 (ErrorBody "device not found"))
          else mret (write_json 500 (ErrorBody "device lookup failed"))
      | inr _ =>
          latest ← attempt (reader_latest configs deviceID);
          match latest with
          | inl e =>
              if errors_is e ErrConfigNotFound then mret (write_json 404 (ErrorBody "configuration not found"))
              else mret (write_json 500 (ErrorBody "configuration lookup failed"))
          | inr envelope =>
              match open_for_device envelope deviceID 0 (use_time env) (Some verifier) with
              | Ok _ => mret (write_json 200 (EnvelopeBody envelope))
              | _ => mret (write_json 503 (ErrorBody "configuration unavailable"))
              end
          end
      end
  end.

(** ** The tables of routes *)

Definition device_path : list Segment := [Lit "api"; Lit "v1"; Lit "devices"; Wild].
Definition devices_path : list Segment := [Lit "api"; Lit "v1"; Lit "devices"].
Definition challenges_path : list Segment := [Lit "api"; Lit "v1"; Lit "enrollment"; Lit "challenges"].
Definition configuration_path : list Segment := [Lit "api"; Lit "v1"; Lit "devices"; Wild; Lit "configuration"].

Definition route (m : string) (path : list Segment) : Pattern := mkPattern (Some m) path false.

(** [None] is a nil interface or function. *)
Definition new_enrollment_handler (auth : option AccountAuthenticator) (store : option (EnrollmentRepository W))
    (clock : bool) : Result GoError (Handler W) :=
  match auth, store, clock with
  | Some auth, Some store, true =>
      Ok (security_headers (serve_mux
        [(route "GET" device_path, get_device auth store);
         (route "POST" challenges_path, post_challenge auth store);
         (route "POST" devices_path, post_device auth store)]))
  | _, _, _ => Err (NewError "enrollment requires authenticator, repository and clock")
  end.

Definition new_configuration_handler (auth : option AccountAuthenticator) (devices : option (EnrollmentRepository W))
    (configs : option (ConfigurationReader W)) (verifier : option Verifier) (clock : bool) : Result GoError (Handler W) :=
  match auth, devices, configs, verifier, clock with
  | Some auth, Some devices, Some configs, Some verifier, true =>
      Ok (security_headers (serve_mux
        [(route "GET" configuration_path, get_configuration auth devices configs verifier)]))
  | _, _, _, _, _ =>
      Err (NewError "configuration delivery requires authenticator, device and configuration readers, verifier and clock")
  end.

Definition new_handler (version : string) : Handler W :=
  security_headers (serve_mux
    [(route "GET" [Lit "healthz"], λ _ _, mret (write_json 200 (StatusBody "ok")));
     (route "GET" [Lit "api"; Lit "v1"; Lit "version"], λ _ _, mret (write_json 200 (VersionBody version)))]).

Record ControlDependencies := mkDependencies {
  dep_authenticator : option AccountAuthenticator;
  dep_enrollment : option (EnrollmentRepository W);
  dep_configurations : option (ConfigurationReader W);
  dep_verifier : option Verifier;
  dep_clock : bool;
}.

Definition new_control_handler (version : string) (d : ControlDependencies) : Result GoError (Handler W) :=
  enrollment ← new_enrollment_handler (dep_authenticator d) (dep_enrollment d) (dep_clock d);
  configs ← new_configuration_handler (dep_authenticator d) (dep_enrollment d) (dep_configurations d)
    (dep_verifier d) (dep_clock d);
  Ok (security_headers (serve_mux
    [(route "GET" configuration_path, configs);
     (route "GET" device_path, enrollment);
     (route "POST" devices_path, enrollment);
     (route "POST" challenges_path, enrollment);
     (mkPattern None [] true, new_handler version)])).
End handlers.
Arguments ControlDependencies : clear implicits.

(** ** What the repositories promise *)

Class RepositorySpec {W} (R : EnrollmentRepository W) := {
  (** the registered identity of a device, and whether lookups can be answered *)
  owner_of : W → string → option DeviceIdentity;
  available : W → Prop;
  device_found : ∀ account id w d w', repo_device R account id w = (Ok d, w') →
    w' = w ∧ owner_of w id = Some d ∧ dev_account d = account;
  device_hidden : ∀ account id w, available w →
    (∀ d, owner_of w id = Some d → dev_account d ≠ account) →
    repo_device R account id w = (Err ErrDeviceNotFound, w);
}.

(** *** The store in memory and the durable store keep the promise *)

Section implementations.
Context `{Ed25519} `{Sha256}.

Definition memory_repository : EnrollmentRepository EnrollmentStore :=
  mkRepository _ es_issue es_enroll (λ account id s, (es_device account id s, s)).
End implementations.

#[export] Instance memory_repository_spec `{Ed25519} `{Sha256} : RepositorySpec memory_repository.
Proof.
  refine {| owner_of s id := es_devices s !! id; available s := True |}.
  - intros account id s d s' [= Hd <-]. by apply es_device_ok in Hd.
  - intros account id s _ Hd. cbn. by rewrite es_device_err.
Defined.

Section durable_repository.
Context `{Ed25519} `{Sha256} `{Storage} `{Json EnrollmentSnapshot} `{MapRange}.

Definition file_repository : EnrollmentRepository (FileEnrollmentStore * Sys) :=
  mkRepository _ file_issue file_enroll file_device.

Lemma file_device_cases account id t s :
  file_device account id (t, s) =
  (match f_lock (ef_file t), f_failed (ef_file t) with
   | None, _ => Err ErrClosed
   | _, Some e => Err e
   | _, None => es_device account id (ef_current t)
   end, (t, s)).
Proof.
  destruct t as [[path limit lock failed] current].
  unfold file_device, on_enrollment_file, on_part, file_check. destruct lock, failed; reflexivity.
Qed.

#[export] Instance file_repository_spec : RepositorySpec file_repository.
Proof.
  refine {| owner_of w id := es_devices (ef_current w.1) !! id;
            available w := is_Some (f_lock (ef_file w.1)) ∧ f_failed (ef_file w.1) = None |}.
  - intros account id [t s] d w'. cbn [repo_device file_repository]. rewrite file_device_cases.
    destruct (f_lock _); [|done]. destruct (f_failed _); [done|]. intros [= Hd <-].
    by apply es_device_ok in Hd.
  - intros account id [t s] [[l Hl] Hf] Hd. cbn [fst snd repo_device file_repository] in *.
    rewrite file_device_cases, Hl, Hf. by rewrite es_device_err.
Defined.
End durable_repository.

(** ** Routing *)

Lemma match_device segs values :
  match_path device_path false segs = Some values ↔
  ∃ id, id ≠ "" ∧ segs = ["api"; "v1"; "devices"; id] ∧ values = [id].
Proof.
  split; [|intros (id & Hid & -> & ->); cbn; repeat case_bool_decide; done].
  unfold device_path. destruct segs as [|a [|b [|c [|d [|]]]]]; cbn; repeat case_bool_decide; try done; intros [= <-]; subst; eauto.
Qed.

Lemma match_configuration segs values :
  match_path configuration_path false segs = Some values ↔
  ∃ id, id ≠ "" ∧ segs = ["api"; "v1"; "devices"; id; "configuration"] ∧ values = [id].
Proof.
  split; [|intros (id & Hid & -> & ->); cbn; repeat case_bool_decide; done].
  unfold configuration_path. destruct segs as [|a [|b [|c [|d [|e [|]]]]]]; cbn; repeat case_bool_decide; try done; intros [= <-]; subst; eauto.
Qed.

(** Every handler of a table, and the two errors of the multiplexer. *)
Lemma serve_mux_all {W} (routes : list (Pattern * Handler W)) (Q : Response → W → Prop) request env w :
  (∀ p h values, (p, h) ∈ routes → match_path (pat_path p) (subtree p) (segments request) = Some values →
     method_matches (pat_method p) (method request) = true →
     wp (h (set_path_values values request) env) (λ r w', ∀ response, r = Ok response → Q response w') w) →
  (∀ code text hs, Q (mkResponse code hs (PlainBody text)) w) →
  wp (serve_mux routes request env) (λ r w', ∀ response, r = Ok response → Q response w') w.
Proof.
  intros Hroutes Hplain. unfold serve_mux.
  assert (∀ h values, find_route routes request = Some (h, values) →
    wp (h (set_path_values values request) env) (λ r w', ∀ response, r = Ok response → Q response w') w) as Hfind.
  { clear Hplain. induction routes as [|[p h] routes IH]; [done|]. cbn [find_route]. intros h' values.
    assert (find_route routes request = Some (h', values) →
      wp (h' (set_path_values values request) env) (λ r w', ∀ response, r = Ok response → Q response w') w) as Hrest
      by (apply IH; intros p0 h0 v0 Hin; apply Hroutes; by right).
    destruct (match_path _ _ _) as [v|] eqn:Hm; [|exact Hrest].
    destruct (method_matches _ _) eqn:Hmm; [|exact Hrest].
    intros [= <- <-]. eapply Hroutes; [by left|done..]. }
  destruct (find_route routes request) as [[h values]|]; [by apply Hfind|].
  destruct (allowed_methods routes request); apply wp_ret; intros response [= <-]; apply Hplain.
Qed.

Lemma wp_security_headers {W} (next : Handler W) (Q : Response → W → Prop) request env w :
  (∀ r w' hs, Q r w' → Q (mkResponse (status r) hs (payload r)) w') →
  wp (next request env) (λ r w', ∀ response, r = Ok response → Q response w') w →
  wp (security_headers next request env) (λ r w', ∀ response, r = Ok response → Q response w') w.
Proof.
  intros HQ Hnext. unfold security_headers, secured. apply wp_bind. eapply wp_mono; [exact Hnext|].
  intros [response|e|] w' Hr; cbn [after]; [|done..]. apply wp_ret. intros ? [= <-]. apply HQ. by apply Hr.
Qed.

Section theorems.
Context {W : Type} `{Mime} `{BodyJson ChallengeRequest} `{BodyJson DeviceRequest} `{GoQuote}.

(** The handler that a complete set of dependencies yields. *)
Definition control_handler version auth (store : EnrollmentRepository W) configs verifier : Handler W :=
  let enrollment := security_headers (serve_mux
    [(route "GET" device_path, get_device auth store);
     (route "POST" challenges_path, post_challenge auth store);
     (route "POST" devices_path, post_device auth store)]) in
  security_headers (serve_mux
    [(route "GET" configuration_path,
        security_headers (serve_mux [(route "GET" configuration_path, get_configuration auth store configs verifier)]));
     (route "GET" device_path, enrollment);
     (route "POST" devices_path, enrollment);
     (route "POST" challenges_path, enrollment);
     (mkPattern None [] true, new_handler version)]).

(** Construction succeeds exactly when nothing is missing; there is no anonymous fallback. *)
Lemma new_control_handler_ok version d h :
  new_control_handler version d = Ok h ↔
  ∃ auth store configs verifier, d = mkDependencies (Some auth) (Some store) (Some configs) (Some verifier) true ∧
    h = control_handler version auth store configs verifier.
Proof.
  split; [|by intros (? & ? & ? & ? & -> & ->)].
  destruct d as [[auth|] [store|] [configs|] [verifier|] []]; try done. cbn. intros [= <-].
  by exists auth, store, configs, verifier.
Qed.

(** *** Authentication comes first *)

(** The requests that reach a handler for an account. *)
Definition protected (request : Request) : Prop :=
  (method request ∈ ["GET"; "HEAD"] ∧ ∃ id, id ≠ "" ∧
    (segments request = ["api"; "v1"; "devices"; id] ∨ segments request = ["api"; "v1"; "devices"; id; "configuration"])) ∨
  (method request = "POST" ∧
    (segments request = ["api"; "v1"; "devices"] ∨ segments request = ["api"; "v1"; "enrollment"; "challenges"])).

Definition refuses (auth : AccountAuthenticator) (request : Request) (t : Time) : Prop :=
  ∀ values account, auth (set_path_values values request) t = Ok account → account = "".

Lemma refused_account auth request env values :
  refuses auth request (auth_time env) →
  authenticate_account auth (set_path_values values request) env =
  inl (set_header "WWW-Authenticate" "Bearer" (write_json 401 (ErrorBody "authentication required"))).
Proof.
  intros Hr. unfold authenticate_account. specialize (Hr values).
  destruct (auth _ _) as [account|e|]; [|done..]. by rewrite (Hr account eq_refl).
Qed.

Lemma refused_handlers auth (store : EnrollmentRepository W) configs verifier request env values w :
  refuses auth request (auth_time env) →
  let refusal := (Ok (set_header "WWW-Authenticate" "Bearer" (write_json 401 (ErrorBody "authentication required"))), w) in
  get_device auth store (set_path_values values request) env w = refusal ∧
  post_challenge auth store (set_path_values values request) env w = refusal ∧
  post_device auth store (set_path_values values request) env w = refusal ∧
  get_configuration auth store configs verifier (set_path_values values request) env w = refusal.
Proof.
  intros Hr. unfold get_device, post_challenge, post_device, get_configuration.
  by rewrite (refused_account auth request env values Hr).
Qed.

(** The first match in a table. *)
Lemma serve_first p (h : Handler W) routes request env values :
  match_path (pat_path p) (subtree p) (segments request) = Some values →
  method_matches (pat_method p) (method request) = true →
  serve_mux ((p, h) :: routes) request env = h (set_path_values values request) env.
Proof. intros Hm Hmm. unfold serve_mux. cbn [find_route]. by rewrite Hm, Hmm. Qed.

Lemma find_skip p (h : Handler W) routes request :
  match_path (pat_path p) (subtree p) (segments request) = None ∨ method_matches (pat_method p) (method request) = false →
  find_route ((p, h) :: routes) request = find_route routes request.
Proof. cbn [find_route]. intros [->|Hm]; [done|]. rewrite Hm. by destruct (match_path _ _ _). Qed.

Lemma serve_found (h : Handler W) routes request env values :
  find_route routes request = Some (h, values) → serve_mux routes request env = h (set_path_values values request) env.
Proof. intros Hf. unfold serve_mux. by rewrite Hf. Qed.

Definition reading (m : string) : Prop := m ∈ ["GET"; "HEAD"].

Lemma get_matches m : reading m → method_matches (Some "GET") m = true.
Proof. intros Hm. by apply bool_decide_eq_true. Qed.

Lemma get_posts m : reading m → method_matches (Some "POST") m = false.
Proof. unfold reading. rewrite elem_of_cons, list_elem_of_singleton. intros [->| ->]; reflexivity. Qed.
(** *** Where the protected requests go *)

Section dispatch.
Context (version : string) (auth : AccountAuthenticator) (store : EnrollmentRepository W)
  (configs : ConfigurationReader W) (verifier : Verifier) (request : Request) (env : Env).

Local Abbreviation serve := (control_handler version auth store configs verifier request env).

Lemma dispatch_configuration id :
  reading (method request) → id ≠ "" → segments request = ["api"; "v1"; "devices"; id; "configuration"] →
  serve = secured (secured (get_configuration auth store configs verifier (set_path_values [id] request) env)).
Proof.
  intros Hm Hid Hs. unfold control_handler, security_headers at 1.
  rewrite (serve_first _ _ _ _ _ [id]); [|apply match_configuration; eauto|by apply get_matches].
  unfold security_headers at 1. rewrite (serve_first _ _ _ _ _ [id]); [done|apply match_configuration; eauto|by apply get_matches].
Qed.

Lemma dispatch_device id :
  reading (method request) → id ≠ "" → segments request = ["api"; "v1"; "devices"; id] →
  serve = secured (secured (get_device auth store (set_path_values [id] request) env)).
Proof.
  intros Hm Hid Hs. unfold control_handler, security_headers at 1. erewrite serve_found.
  2: { rewrite find_skip; [|left; rewrite Hs; cbn; by repeat case_bool_decide].
       cbn [find_route route pat_path pat_method subtree].
       rewrite (proj2 (match_device (segments request) [id])), (get_matches _ Hm) by eauto. done. }
  unfold security_headers at 1. rewrite (serve_first _ _ _ _ _ [id]); [done|apply match_device; eauto|by apply get_matches].
Qed.

Lemma dispatch_challenge :
  method request = "POST" → segments request = ["api"; "v1"; "enrollment"; "challenges"] →
  serve = secured (secured (post_challenge auth store (set_path_values [] request) env)).
Proof.
  intros Hm Hs. unfold control_handler, security_headers at 1.
  erewrite serve_found; [|unfold find_route; rewrite Hm, Hs; reflexivity].
  unfold security_headers at 1. erewrite serve_found; [|unfold find_route; cbn [segments method set_path_values]; rewrite Hm, Hs; reflexivity].
  done.
Qed.

Lemma dispatch_enroll :
  method request = "POST" → segments request = ["api"; "v1"; "devices"] →
  serve = secured (secured (post_device auth store (set_path_values [] request) env)).
Proof.
  intros Hm Hs. unfold control_handler, security_headers at 1.
  erewrite serve_found; [|unfold find_route; rewrite Hm, Hs; reflexivity].
  unfold security_headers at 1. erewrite serve_found; [|unfold find_route; cbn [segments method set_path_values]; rewrite Hm, Hs; reflexivity].
  done.
Qed.
End dispatch.

(** *** Only configurations carry envelopes *)

Definition no_envelope (r : Response) : Prop := ∀ e, payload r ≠ EnvelopeBody e.

Lemma authenticate_refusal auth request env r : authenticate_account auth request env = inl r → no_envelope r.
Proof.
  unfold authenticate_account. destruct (auth _ _) as [account|e|]; [case_bool_decide|..]; intros [= <-]; done.
Qed.

Lemma authenticate_inr auth request env account :
  authenticate_account auth request env = inr account → auth request (auth_time env) = Ok account ∧ account ≠ "".
Proof.
  unfold authenticate_account. destruct (auth _ _) as [a|e|]; [case_bool_decide|..]; intros [= <-]; done.
Qed.

Lemma decode_refusal {A} `{BodyJson A} request r : decode_enrollment_json (A := A) request = inl r → no_envelope r.
Proof. unfold decode_enrollment_json. repeat case_match; intros [= <-]; done. Qed.

Lemma enrollment_error_plain e : no_envelope (write_enrollment_error e).
Proof. unfold write_enrollment_error. by repeat case_match. Qed.

Local Abbreviation answers P := (λ r (_ : W), ∀ response, r = Ok (E := GoError) response → P response).

Lemma wp_get_device auth store request env w : wp (get_device auth store request env) (answers no_envelope) w.
Proof.
  unfold get_device. destruct (authenticate_account _ _ _) as [r|account] eqn:Ha.
  { apply wp_ret. intros ? [= <-]. by eapply authenticate_refusal. }
  apply wp_bind, wp_attempt, wp_intro. intros [dev|e|] w' _; repeat wp_head; [by intros ? [= <-]| |done].
  destruct (errors_is _ _); apply wp_ret; by intros ? [= <-].
Qed.

Lemma wp_post_challenge auth store request env w : wp (post_challenge auth store request env) (answers no_envelope) w.
Proof.
  unfold post_challenge. destruct (authenticate_account _ _ _) as [r|account] eqn:Ha.
  { apply wp_ret. intros ? [= <-]. by eapply authenticate_refusal. }
  destruct (decode_enrollment_json request) as [r|value] eqn:Hd.
  { apply wp_ret. intros ? [= <-]. exact (decode_refusal _ _ Hd). }
  apply wp_bind, wp_attempt, wp_intro. intros [c|e|] w' _; repeat wp_head; [by intros ? [= <-]| |done].
  intros ? [= <-]. apply enrollment_error_plain.
Qed.

Lemma wp_post_device auth store request env w : wp (post_device auth store request env) (answers no_envelope) w.
Proof.
  unfold post_device. destruct (authenticate_account _ _ _) as [r|account] eqn:Ha.
  { apply wp_ret. intros ? [= <-]. by eapply authenticate_refusal. }
  destruct (decode_enrollment_json request) as [r|value] eqn:Hd.
  { apply wp_ret. intros ? [= <-]. exact (decode_refusal _ _ Hd). }
  apply wp_bind, wp_attempt, wp_intro. intros [c|e|] w' _; repeat wp_head; [by intros ? [= <-]| |done].
  intros ? [= <-]. apply enrollment_error_plain.
Qed.

(** A response that carries the envelope [e] was earned. *)
Definition delivers (auth : AccountAuthenticator) (store : EnrollmentRepository W) `{!RepositorySpec store} (configs : ConfigurationReader W) verifier
    request env w (e : SignedConfig) (response : Response) (w' : W) : Prop :=
  status response = 200 ∧ ∃ account id device config,
    reading (method request) ∧ segments request = ["api"; "v1"; "devices"; id; "configuration"] ∧
    auth (set_path_values [id] request) (auth_time env) = Ok account ∧ account ≠ "" ∧
    owner_of w id = Some device ∧ dev_account device = account ∧
    reader_latest configs id w = (Ok e, w') ∧
    open_for_device e id 0 (use_time env) (Some verifier) = Ok config.

Lemma wp_get_configuration auth store `{!RepositorySpec store} configs verifier request env w e id :
  reading (method request) → segments request = ["api"; "v1"; "devices"; id; "configuration"] →
  wp (get_configuration auth store configs verifier (set_path_values [id] request) env)
    (λ r w', ∀ response, r = Ok response → payload response = EnvelopeBody e →
       delivers auth store configs verifier request env w e response w') w.
Proof.
  intros Hm Hs. unfold get_configuration. destruct (authenticate_account _ _ _) as [r|account] eqn:Ha.
  { apply wp_ret. intros ? [= <-] Hp. by destruct (authenticate_refusal _ _ _ _ Ha e). }
  apply authenticate_inr in Ha as [Ha Hne]. change (path_value (set_path_values [id] request)) with id.
  apply wp_bind, wp_attempt, wp_intro. intros [dev|err|] w1 Hd; repeat wp_head; [| |done].
  2: { destruct (errors_is _ _); apply wp_ret; by intros ? [= <-]. }
  apply device_found in Hd as (-> & Hown & Hacc).
  apply wp_intro. intros [env0|err|] w2 Hl; repeat wp_head; [| |done].
  2: { destruct (errors_is _ _); apply wp_ret; by intros ? [= <-]. }
  destruct (open_for_device _ _ _ _ _) as [config|err|] eqn:Ho; apply wp_ret; [|by intros ? [= <-]..].
  intros ? [= <-] [= ->]. split; [done|]. exists account, id, dev, config. by split_and!.
Qed.

Lemma wp_enrollment_mux auth store request env w :
  wp (security_headers (serve_mux
    [(route "GET" device_path, get_device auth store);
     (route "POST" challenges_path, post_challenge auth store);
     (route "POST" devices_path, post_device auth store)]) request env) (answers no_envelope) w.
Proof.
  apply (wp_security_headers _ (λ r _, no_envelope r)); [done|]. apply (serve_mux_all _ (λ r _, no_envelope r)); [|done].
  intros p h values Hin _ _. rewrite !elem_of_cons in Hin.
  destruct Hin as [[= -> ->]|[[= -> ->]|[[= -> ->]|Hin]]];
    [apply wp_get_device|apply wp_post_challenge|apply wp_post_device|by apply elem_of_nil in Hin].
Qed.

Lemma wp_new_handler version request env w : wp (new_handler version request env) (answers no_envelope) w.
Proof.
  apply (wp_security_headers _ (λ r _, no_envelope r)); [done|]. apply (serve_mux_all _ (λ r _, no_envelope r)); [|done].
  intros p h values Hin _ _. rewrite !elem_of_cons in Hin.
  destruct Hin as [[= -> ->]|[[= -> ->]|Hin]]; [apply wp_ret; by intros ? [= <-]..|by apply elem_of_nil in Hin].
Qed.

Lemma wp_control_handler version auth store `{!RepositorySpec store} configs verifier request env w e :
  wp (control_handler version auth store configs verifier request env)
    (λ r w', ∀ response, r = Ok response → payload response = EnvelopeBody e →
       delivers auth store configs verifier request env w e response w') w.
Proof.
  set (Q := λ (response : Response) (w' : W), payload response = EnvelopeBody e →
    delivers auth store configs verifier request env w e response w').
  assert (∀ r w' hs, Q r w' → Q (mkResponse (status r) hs (payload r)) w') as HQ by done.
  assert (∀ m, wp m (answers no_envelope) w → wp m (λ r w', ∀ response, r = Ok response → Q response w') w) as Hother.
  { intros m Hm. eapply wp_mono; [exact Hm|]. intros r w' Hr response Hok Hp. by destruct (Hr response Hok e). }
  apply (wp_security_headers _ Q); [done|]. apply (serve_mux_all _ Q); [|done].
  intros p h values Hin Hmatch Hmm. rewrite !elem_of_cons in Hin.
  destruct Hin as [[= -> ->]|[[= -> ->]|[[= -> ->]|[[= -> ->]|[[= -> ->]|Hin]]]]];
    [|apply Hother, wp_enrollment_mux..|apply Hother, wp_new_handler|by apply elem_of_nil in Hin].
  apply (wp_security_headers _ Q); [done|]. apply (serve_mux_all _ Q); [|done].
  intros p h values' [[= -> ->]|Hin]%elem_of_cons Hmatch' Hmm'; [|by apply elem_of_nil in Hin].
  apply match_configuration in Hmatch' as (id & Hid & Hs & ->).
  apply (wp_get_configuration auth store configs verifier request env w e id); [|done].
  by apply bool_decide_eq_true in Hmm.
Qed.

Lemma secured_ok (m : Act W GoError Response) w r w' :
  m w = (Ok r, w') → secured m w = (Ok (mkResponse (status r) (headers r ∪ protective) (payload r)), w').
Proof. intros Hm. unfold secured, mbind, act_bind. by rewrite Hm. Qed.

Lemma secured_twice (m : Act W GoError Response) w code hs value w' :
  m w = (Ok (mkResponse code hs value), w') →
  ∃ hs', secured (secured m) w = (Ok (mkResponse code hs' value), w') ∧ ∀ k v, hs !! k = Some v → hs' !! k = Some v.
Proof.
  intros Hm. exists ((hs ∪ protective) ∪ protective). rewrite (secured_ok (secured m) w _ w' (secured_ok m w _ w' Hm)).
  split; [done|]. intros k v Hk. by do 2 apply lookup_union_Some_l.
Qed.
End theorems.

(** ** Theorems *)

(** C17: no anonymous access.  When a control handler could be built at all, each of
    its four protected routes (device lookup, configuration, challenge,
    enrollment) answers a request whose credentials the authenticator does not
    accept with 401 and a bearer challenge, and changes no state. *)
Theorem unauthenticated_refused {W} `{Mime} `{BodyJson ChallengeRequest} `{BodyJson DeviceRequest} `{GoQuote}
    version (d : ControlDependencies W) h request env w :
  new_control_handler version d = Ok h → protected request →
  (∀ auth, dep_authenticator d = Some auth → refuses auth request (auth_time env)) →
  ∃ response, h request env w = (Ok response, w) ∧ status response = 401 ∧
    headers response !! "WWW-Authenticate" = Some "Bearer" ∧ payload response = ErrorBody "authentication required".
Proof.
  intros (auth & store & configs & verifier & -> & ->)%new_control_handler_ok Hp Hr. specialize (Hr auth eq_refl).
  assert (∀ m, m w = (Ok (set_header "WWW-Authenticate" "Bearer" (write_json 401 (ErrorBody "authentication required"))), w) →
    ∃ response, secured (secured m) w = (Ok response, w) ∧ status response = 401 ∧
      headers response !! "WWW-Authenticate" = Some "Bearer" ∧ payload response = ErrorBody "authentication required") as Hsec.
  { intros m Hm. destruct (secured_twice m w _ _ _ _ Hm) as (hs & -> & Hhs). eexists. split_and!; try done.
    cbn. apply Hhs, lookup_insert_eq. }
  destruct Hp as [(Hm & id & Hid & [Hs|Hs])|(Hm & [Hs|Hs])].
  - rewrite (dispatch_device _ _ _ _ _ _ _ id Hm Hid Hs). apply Hsec. by apply (refused_handlers auth store configs verifier).
  - rewrite (dispatch_configuration _ _ _ _ _ _ _ id Hm Hid Hs). apply Hsec. by apply (refused_handlers auth store configs verifier).
  - rewrite (dispatch_enroll _ _ _ _ _ _ _ Hm Hs). apply Hsec. by apply (refused_handlers auth store configs verifier).
  - rewrite (dispatch_challenge _ _ _ _ _ _ _ Hm Hs). apply Hsec. by apply (refused_handlers auth store configs verifier).
Qed.

(** C18: foreign devices look like unknown ones.  For an authenticated account that
    does not own a device, whether nobody or someone else has registered it, the
    lookups of the device and of its configuration answer 404 with the same text,
    the same headers and no change of state. *)
Theorem foreign_device_hidden {W} `{Mime} `{BodyJson ChallengeRequest} `{BodyJson DeviceRequest} `{GoQuote}
    version auth (store : EnrollmentRepository W) `{!RepositorySpec store} configs verifier h request env w account id :
  new_control_handler version (mkDependencies (Some auth) (Some store) (Some configs) (Some verifier) true) = Ok h →
  reading (method request) → id ≠ "" →
  segments request = ["api"; "v1"; "devices"; id] ∨ segments request = ["api"; "v1"; "devices"; id; "configuration"] →
  auth (set_path_values [id] request) (auth_time env) = Ok account → account ≠ "" →
  available w → (∀ device, owner_of w id = Some device → dev_account device ≠ account) →
  h request env w =
  (Ok (mkResponse 404 (({["Content-Type" := "application/json"]} ∪ protective) ∪ protective) (ErrorBody "device not found")), w).
Proof.
  intros (? & ? & ? & ? & [= <- <- <- <-] & ->)%new_control_handler_ok Hm Hid Hs Ha Hne Hav Hown.
  pose proof (device_hidden account id w Hav Hown) as Hdev.
  assert (authenticate_account auth (set_path_values [id] request) env = inr account) as Hauth.
  { unfold authenticate_account. rewrite Ha. by rewrite bool_decide_eq_false_2. }
  assert (∀ m, m w = (Ok (write_json 404 (ErrorBody "device not found")), w) → secured (secured m) w =
    (Ok (mkResponse 404 (({["Content-Type" := "application/json"]} ∪ protective) ∪ protective)
      (ErrorBody "device not found")), w)) as Hsec.
  { intros m Hget. exact (secured_ok (secured m) w _ w (secured_ok m w _ w Hget)). }
  destruct Hs as [Hs|Hs];
    [rewrite (dispatch_device _ _ _ _ _ _ _ id Hm Hid Hs)|rewrite (dispatch_configuration _ _ _ _ _ _ _ id Hm Hid Hs)];
    apply Hsec; [unfold get_device|unfold get_configuration]; rewrite Hauth;
    change (path_value (set_path_values [id] request)) with id; unfold mbind, act_bind, attempt; by rewrite Hdev.
Qed.
