(* ===== verification/Runtime.v ===== *)
(** The executables of the control service: [services/control-api/cmd/server]
    ([config.go], [runtime.go], [lifecycle.go]) and [cmd/config-publisher].

    The server loads its configuration, opens the two durable stores and serves
    the control handler over them; the publisher seals a configuration and adds it
    to the configuration store. *)

From S2P Require Import Prelude Machine Text GoBase Netip DeviceConfig Snapshot Durable ConfigStore Identity EnrollmentFile Token ControlApi.
Open Scope string_scope.
Open Scope Z_scope.

(** ** [filepath.Join] *)

Fixpoint split_slash (acc : list ascii) (l : list ascii) : list string :=
  match l with
  | [] => [of_chars acc]
  | c :: l => if Ascii.eqb c "/" then of_chars acc :: split_slash [] l else split_slash (acc ++ [c])%list l
  end.

(** The components kept so far, last first. *)
Definition clean_step (rooted : bool) (out : list string) (c : string) : list string :=
  if bool_decide (c = "") || bool_decide (c = ".") then out
  else if bool_decide (c = "..") then
    match out with
    | x :: rest => if bool_decide (x = "..") then ".." :: out else rest
    | [] => if rooted then [] else [".."]
    end
  else c :: out.

Definition filepath_clean (path : string) : string :=
  let rooted := match chars path with c :: _ => Ascii.eqb c "/" | [] => false end in
  let kept := String.concat "/" (rev (foldl (clean_step rooted) [] (split_slash [] (chars path)))) in
  if rooted then "/" +:+ kept else if bool_decide (kept = "") then "." else kept.

(** Of two nonempty elements. *)
Definition filepath_join (dir base : string) : string := filepath_clean (dir +:+ "/" +:+ base).

(** ** The configuration of the server *)

Record RuntimeConfig := mkRuntimeConfig {
  rc_state_dir : string;
  rc_credentials : list TokenCredential;
  rc_signing_keys : gmap string string;
}.

Definition maximumRuntimeConfig : Z := 2 ^ 20.

Section config.
Context `{Storage} `{Json RuntimeConfig}.

(** [path] is the value of [CYBERIA_RUNTIME_CONFIG], empty when it is not set. *)
Definition load_runtime_config {C} (path : string) : Act (C * Sys) GoError RuntimeConfig :=
  guard_err (bool_decide (path = "")) (NewError "CYBERIA_RUNTIME_CONFIG is required");;
  info ← exec (Lstat path);
  guard_err (negb (info_regular info) || negb (Z.land (info_perm info) 63 =? 0) || (maximumRuntimeConfig <? info_size info))
    (NewError "runtime configuration must be a private regular file below 1 MiB");;
  input ← exec (Open path);
  with_defer (exec (CloseFile input))
    (data ← exec (ReadAll input (maximumRuntimeConfig + 1));
     guard_err (maximumRuntimeConfig <? len data) (NewError "runtime configuration exceeds 1 MiB");;
     '(config, rest) ← lift (json_decode data);
     guard_err (negb (json_eof rest)) (NewError "runtime configuration has trailing data");;
     mret config).
End config.

(** ** The running server *)

Record Runtime := mkRuntime { rt_enrollment : FileEnrollmentStore; rt_configurations : FileStore }.

Definition set_rt_enrollment (e : FileEnrollmentStore) (r : Runtime) : Runtime := mkRuntime e (rt_configurations r).
Definition set_rt_configurations (c : FileStore) (r : Runtime) : Runtime := mkRuntime (rt_enrollment r) c.

Section runtime.
Context `{Storage} `{GoQuote} `{Ed25519} `{Sha256} `{MapRange}.
Context `{Json EnrollmentSnapshot} `{Json FileState} `{Json DeviceConfig}.
Context `{Mime} `{BodyJson ChallengeRequest} `{BodyJson DeviceRequest}.

Definition on_enrollment {A} (m : Act (FileEnrollmentStore * Sys) GoError A) : Act (Runtime * Sys) GoError A :=
  on_part rt_enrollment set_rt_enrollment m.
Definition on_configurations {A} (m : Act (FileStore * Sys) GoError A) : Act (Runtime * Sys) GoError A :=
  on_part rt_configurations set_rt_configurations m.

Definition runtime_close : Act (Runtime * Sys) GoError unit :=
  first ← attempt (on_enrollment enrollment_close);
  second ← attempt (on_configurations store_close);
  match first, second with
  | inl e, _ => raise e
  | inr _, inl e => raise e
  | inr _, inr _ => mret tt
  end.

(** The stores as the interfaces of the handler. *)
Definition runtime_repository : EnrollmentRepository (Runtime * Sys) :=
  mkRepository _
    (λ account device now random, on_enrollment (file_issue account device now random))
    (λ request now, on_enrollment (file_enroll request now))
    (λ account device, on_enrollment (file_device account device)).

Definition runtime_reader : ConfigurationReader (Runtime * Sys) :=
  mkReader _ (λ device, on_configurations (store_latest device)).

Definition token_auth (auth : TokenAuthenticator) : AccountAuthenticator := λ request now,
  authenticate auth (credentials request) now.

Fixpoint decode_keys (l : list (string * string)) (keys : gmap string string) : Result GoError (gmap string string) :=
  match l with
  | [] => Ok keys
  | (id, encoded) :: l =>
      match hex_decode encoded with
      | None => Err (NewError "invalid configuration signing public key")
      | Some raw =>
          reject_if (negb (String.length raw =? PublicKeySize)%nat) (NewError "invalid configuration signing public key");;
          decode_keys l (<[id := raw]> keys)
      end
  end.

(** Runs a method on a value that is not stored yet, or no longer. *)
Definition on_value {C T A} (t : T) (m : Act (T * Sys) GoError A) : Act (C * Sys) GoError A :=
  on_part (λ _, t) (λ _ c, c) m.

(** [now] is the reading of the clock when the credentials are checked. *)
Definition new_runtime_handler (version : string) (config : RuntimeConfig) (now : option Time) :
    Act (unit * Sys) GoError (Handler (Runtime * Sys) * Runtime) :=
  let clock := match now with Some _ => true | None => false end in
  guard_err (bool_decide (rc_state_dir config = "") || negb clock)
    (NewError "private state directory and clock required");;
  exec (MkdirAll (rc_state_dir config) 448);;
  exec (Chmod (rc_state_dir config) 448);;
  auth ← lift (new_token_authenticator (rc_credentials config) now);
  keys ← lift (decode_keys (map_range (rc_signing_keys config)) ∅);
  verifier ← lift (new_ed25519_verifier keys);
  enrollment ← open_file_enrollment (filepath_join (rc_state_dir config) "enrollment.json") minute 10000;
  opened ← attempt (open_file_store (filepath_join (rc_state_dir config) "configurations.json"));
  match opened with
  | inl e => attempt (F := GoError) (on_value enrollment enrollment_close);; raise e
  | inr configs =>
      match new_control_handler version (mkDependencies (Some (token_auth auth)) (Some runtime_repository)
        (Some runtime_reader) (Some verifier) clock) with
      | Ok handler => mret (handler, mkRuntime enrollment configs)
      | Err e =>
          attempt (F := GoError) (on_value configs store_close);;
          attempt (F := GoError) (on_value enrollment enrollment_close);; raise e
      | Panic => lift Panic
      end
  end.

(** ** The publisher *)

(** [json.Unmarshal] of exactly one value. *)
Definition json_unmarshal {A} `{Json A} (data : string) : Result GoError A :=
  '(value, rest) ← json_decode data;
  reject_if (negb (json_eof rest)) (NewError "invalid character after top-level value");;
  Ok value.

Definition publish {C} (stateDir inputPath keyID privateKeyHex : string) (now : Time) : Act (C * Sys) GoError unit :=
  guard_err (bool_decide (stateDir = "") || bool_decide (inputPath = ""))
    (NewError "state directory and input file are required");;
  input ← exec (ReadFile inputPath);
  config ← lift (json_unmarshal (A := DeviceConfig) input);
  match hex_decode privateKeyHex with
  | None => raise (NewError "invalid Ed25519 private key hex")
  | Some privateKey =>
      guard_err (negb (String.length privateKey =? PrivateKeySize)%nat) (NewError "invalid Ed25519 private key hex");;
      signer ← lift (new_ed25519_signer keyID privateKey);
      envelope ← lift (seal config now (Some signer));
      store ← on_value tt (open_file_store (filepath_join stateDir "configurations.json"));
      on_value store (with_defer store_close (store_publish envelope))
  end.
End runtime.

(** ** Serving until cancelled

    The errors that [serveWithShutdownTimeout] joins, in order; it returns nil when
    there are none.  [Serve] always ends with an error. *)

Definition ErrServerClosed : GoError := NewError "http: Server closed".

Definition serving_error (e : GoError) : option GoError := if errors_is e ErrServerClosed then None else Some e.

(** What happens first: [Serve] ends, or the context is cancelled. *)
Inductive FirstEvent := ServeEnded | ContextDone.

Definition serve_with_shutdown (first : FirstEvent) (shutdown closed : option GoError) (served : GoError) : list GoError :=
  match first with
  | ServeEnded => option_list (serving_error served)
  | ContextDone =>
      let closeErr := match shutdown with Some _ => closed | None => None end in
      (option_list shutdown ++ option_list closeErr ++ option_list (serving_error served))%list
  end.

(** A clean exit is one where nothing but the requested shutdown happened. *)
Lemma serve_clean first shutdown closed served :
  serve_with_shutdown first shutdown closed served = [] ↔
  errors_is served ErrServerClosed = true ∧ (first = ContextDone → shutdown = None).
Proof.
  unfold serve_with_shutdown, serving_error. destruct first, shutdown, (errors_is served ErrServerClosed); cbn; naive_solver.
Qed.

(** ** Access control of the running server *)

Section access.
Context `{Storage} `{GoQuote} `{Ed25519} `{Sha256} `{MapRange}.
Context `{Json EnrollmentSnapshot} `{Json FileState}.
Context `{Mime} `{BodyJson ChallengeRequest} `{BodyJson DeviceRequest}.

Lemma runtime_device account id rt s :
  repo_device runtime_repository account id (rt, s) =
  (let '(r, _) := file_device account id (rt_enrollment rt, s) in r, (rt, s)).
Proof.
  cbn [repo_device runtime_repository]. unfold on_enrollment, on_part. rewrite file_device_cases. by destruct rt.
Qed.

#[export] Instance runtime_repository_spec : RepositorySpec runtime_repository.
Proof.
  refine {| owner_of w id := es_devices (ef_current (rt_enrollment w.1)) !! id;
            available w := is_Some (f_lock (ef_file (rt_enrollment w.1))) ∧ f_failed (ef_file (rt_enrollment w.1)) = None |}.
  - intros account id [rt s] d w'. rewrite runtime_device.
    destruct (file_device account id (rt_enrollment rt, s)) as [r w1] eqn:Hd. intros [= -> <-].
    by apply (device_found (R := file_repository)) in Hd as (_ & ? & ?).
  - intros account id [rt s] Hav Hd. rewrite runtime_device.
    pose proof (device_hidden (R := file_repository) account id (rt_enrollment rt, s) Hav Hd) as Hf.
    cbn [repo_device file_repository] in Hf. by rewrite Hf.
Defined.

Lemma decode_keys_ok l m keys :
  decode_keys l m = Ok keys →
  ∀ id pk, keys !! id = Some pk → m !! id = Some pk ∨ ∃ encoded, (id, encoded) ∈ l ∧ hex_decode encoded = Some pk.
Proof.
  revert m. induction l as [|[id encoded] l IH]; intros m; cbn [decode_keys]; [intros [= <-]; by left|].
  destruct (hex_decode encoded) as [raw|] eqn:Hd; [|done]. rewrite bind_unit_ok. intros [_ Hrest] id' pk Hk.
  destruct (IH _ Hrest id' pk Hk) as [[[<- <-]|[_ ?]]%lookup_insert_Some|(enc & Hin & He)]; [right|by left|right].
  - exists encoded. split; [by left|done].
  - exists enc. split; [by right|done].
Qed.

(** The handler of a server that started. *)
Lemma new_runtime_handler_ok version config now s h rt s' :
  new_runtime_handler version config now (tt, s) = (Ok (h, rt), s') →
  ∃ at_ auth keys, now = Some at_ ∧ new_token_authenticator (rc_credentials config) (Some at_) = Ok auth ∧
    decode_keys (map_range (rc_signing_keys config)) ∅ = Ok keys ∧
    h = control_handler version (token_auth auth) runtime_repository runtime_reader (mkVerifier (ed25519_verify keys)).
Proof.
  intros Hrun.
  assert (wp (new_runtime_handler version config now) (λ r _, ∀ h rt, r = Ok (h, rt) →
    ∃ at_ auth keys, now = Some at_ ∧ new_token_authenticator (rc_credentials config) (Some at_) = Ok auth ∧
      decode_keys (map_range (rc_signing_keys config)) ∅ = Ok keys ∧
      h = control_handler version (token_auth auth) runtime_repository runtime_reader (mkVerifier (ed25519_verify keys)))
    (tt, s)) as Hwp; [|by apply (wp_elim _ _ _ _ _ Hwp Hrun h rt)].
  clear Hrun h rt s'. unfold new_runtime_handler. store_run.
  apply wp_guard; intros Hg; store_run; [done|]. destruct now as [at_|]; [|by rewrite orb_true_r in Hg].
  do 2 (apply wp_intro; intros [[]|e|] ? _; store_run; [|done..]).
  destruct (new_token_authenticator _ _) as [auth|e|] eqn:Ha; store_run; [|done..].
  destruct (decode_keys _ _) as [keys|e|] eqn:Hk; store_run; [|done..].
  destruct (new_ed25519_verifier keys) as [v|e|] eqn:Hv; store_run; [|done..]. apply new_verifier_ok in Hv as ->.
  apply wp_intro. intros [enrollment|e|] s3 _; store_run; [|done..].
  apply wp_intro. intros [configs|e|] s4 _; store_run; [| |done].
  - intros h rt [= <- _]. by exists at_, auth, keys.
  - apply wp_intro. intros [[]|e'|] s5 _; store_run; done.
Qed.
(** The credential behind an authenticated account. *)
Definition bears (config : RuntimeConfig) (request : Request) (now : Time) (account : string) : Prop :=
  ∃ token c, presents (credentials request) (base64_encode token) ∧ String.length token = 32%nat ∧
    c ∈ rc_credentials config ∧ hex_decode (cred_digest c) = Some (sum256 (base64_encode token)) ∧
    now < cred_expires c ∧ cred_account c = account.

Lemma token_auth_bears config at_ auth request now account :
  new_token_authenticator (rc_credentials config) (Some at_) = Ok auth → token_auth auth request now = Ok account →
  bears config request now account.
Proof.
  intros [_ Hlook]%new_token_authenticator_ok (token & c & Hpres & H32 & [Hin Hd]%Hlook & Hx & ->)%authenticate_ok.
  by exists token, c.
Qed.

(** An envelope for a device that is valid and signed under a key of the configuration. *)
Definition authentic (config : RuntimeConfig) (now : Time) (id : string) (e : SignedConfig) : Prop :=
  DeviceID (Config e) = id ∧ validate_config now (Config e) = Ok tt ∧
  ∃ encoded pk, rc_signing_keys config !! KeyID e = Some encoded ∧ hex_decode encoded = Some pk ∧
    ed_verify pk (signing_message (Config e)) (Signature e) = true.

Lemma opened_authentic config keys now id accepted e cfg :
  decode_keys (map_range (rc_signing_keys config)) ∅ = Ok keys →
  open_for_device e id accepted now (Some (mkVerifier (ed25519_verify keys))) = Ok cfg → authentic config now id e.
Proof.
  intros Hkeys ((? & [= <-] & -> & (pk & Hpk & _ & Hver)%ed25519_verify_ok & Hvalid)%open_config_ok & Hid & _)%open_for_device_ok.
  destruct (decode_keys_ok _ _ _ Hkeys _ _ Hpk) as [Hnone|(encoded & Henc & Hdec)]; [by rewrite lookup_empty in Hnone|].
  rewrite map_range_perm in Henc. apply elem_of_map_to_list in Henc. split; [done|]. split; [by rewrite validate_config_ok|].
  by exists encoded, pk.
Qed.
End access.

(** Access control of the server, end to end.  Whenever a server that started
    from a configuration answers a request with a device configuration, the
    request presented the canonical 32-byte bearer token of an unexpired
    credential of that configuration, the device of the path is registered to the
    account of that credential, and the envelope is made out to that device, is
    valid at the time, and carries a signature that verifies under a signing key
    listed in the configuration. *)
Theorem runtime_access_control `{Storage} `{GoQuote} `{Ed25519} `{Sha256} `{MapRange} `{Json EnrollmentSnapshot}
    `{Json FileState} `{Mime} `{BodyJson ChallengeRequest} `{BodyJson DeviceRequest}
    version config now s h rt s' request env w response w' e :
  new_runtime_handler version config now (tt, s) = (Ok (h, rt), s') →
  h request env w = (Ok response, w') → payload response = EnvelopeBody e →
  ∃ id device, segments request = ["api"; "v1"; "devices"; id; "configuration"] ∧
    bears config request (auth_time env) (dev_account device) ∧
    es_devices (ef_current (rt_enrollment w.1)) !! id = Some device ∧ authentic config (use_time env) id e.
Proof.
  intros (at_ & auth & keys & -> & Hauth & Hkeys & ->)%new_runtime_handler_ok Hrun Hp.
  destruct (wp_elim _ _ _ _ _ (wp_control_handler version (token_auth auth) runtime_repository runtime_reader
    (mkVerifier (ed25519_verify keys)) request env w e) Hrun response eq_refl Hp)
    as (_ & account & id & device & cfg & _ & Hs & Ha & _ & Hown & <- & _ & Ho).
  exists id, device. split_and!; [done| |done|by eapply opened_authentic].
  exact (token_auth_bears _ _ _ _ _ _ Hauth Ha).
Qed.

(** ** Publishing *)

Section publishing.
Context `{StorageSpec} `{GoQuote} `{Ed25519} `{MapRange} `{JsonSpec FileState} `{Json DeviceConfig}.
Context (path : string) (Hpath : proper_path path) (expressible : SignedConfig → Prop).
Context (Hfaithful : ∀ l, Forall expressible l → json_faithful (mkFileState 1 (Some l))).

Local Abbreviation sound := (sound path (store_good expressible)).

(** Publishing into an open store and closing it. *)
Lemma wp_publish_and_close g t s e (Q : Result GoError unit → FileStore * Sys → Prop) :
  sound g (disk s) → store_tied path expressible g t (contents (disk s) path) → expressible e →
  (∀ r t' s', (r = Ok tt → sound (<[DeviceID (Config e) := e]> g) (disk s')) → Q r (t', s')) →
  wp (with_defer store_close (store_publish e)) Q (t, s).
Proof.
  intros Hs Ht He HQ. apply wp_with_defer.
  pose proof (store_publish_rule path Hpath expressible Hfaithful g t s e Hs Ht He) as Hpub. unfold wp in Hpub.
  cbn [store_call] in Hpub. unfold mbind, act_bind in Hpub. apply wp_intro. intros r [t1 s1] Hrun. rewrite Hrun in Hpub.
  unfold finish. destruct r as [[]|err|]; cbn [fst snd mret act_ret] in Hpub; [| |apply HQ; done].
  - destruct Hpub as (_ & Hs1 & _). cbn [record_published fst snd] in Hs1.
    apply wp_attempt. unfold store_close, on_store_file.
    apply (wp_close_sound path (store_good expressible) _ _ (<[DeviceID (Config e) := e]> g)); [done|].
    intros r f s' _ Hs' _ _ _. destruct r as [[]|e'|]; by apply HQ.
  - apply wp_attempt, wp_intro. intros r [t2 s2] _. destruct r as [[]|e'|]; by apply HQ.
Qed.

(** The envelope of a publication: the configuration that the input file holds when
    it is read, valid now, with the signature of the given key under its ID. *)
Definition published_from (inputPath keyID privateKeyHex : string) (now : Time) (s : Sys) (e : SignedConfig) : Prop :=
  ∃ input sk, (fs_exec (ReadFile inputPath) (disk s)).1 = inr input ∧ json_unmarshal input = Ok (Config e) ∧
    validate_config now (Config e) = Ok tt ∧ hex_decode privateKeyHex = Some sk ∧ String.length sk = PrivateKeySize ∧
    validIdentifier keyID = true ∧ KeyID e = keyID ∧ Signature e = ed_sign sk (signing_message (Config e)).

Lemma wp_publish g stateDir inputPath keyID privateKeyHex now s :
  path = filepath_join stateDir "configurations.json" →
  (∀ e, published_from inputPath keyID privateKeyHex now s e → expressible e) → sound g (disk s) →
  wp (publish stateDir inputPath keyID privateKeyHex now) (λ r t, r = Ok tt →
    ∃ e, published_from inputPath keyID privateKeyHex now s e ∧ sound (<[DeviceID (Config e) := e]> g) (disk t.2)) (tt, s).
Proof.
  intros Hjoin Hx Hs. unfold publish. store_run. apply wp_guard; intros _; store_run; [done|].
  apply wp_exec. intros [err|input] d1 Hread; store_run; [done|]. set (s1 := mkSys _ d1 _).
  assert (leaves path s s1) as Hl by (eapply leaves_step; [apply leaves_refl|exact Hread|cbn; tauto]).
  pose proof (sound_leaves _ _ _ _ _ Hs Hl) as Hs1.
  destruct (json_unmarshal input) as [config|err|] eqn:Hinput; store_run; [|done..].
  destruct (hex_decode privateKeyHex) as [sk|] eqn:Hhex; store_run; [|done].
  apply wp_guard; intros Hsk; store_run; [done|].
  destruct (new_ed25519_signer keyID sk) as [signer|err|] eqn:Hsigner; store_run; [|done..].
  apply new_signer_ok in Hsigner as (Hid & Hlen & ->).
  destruct (seal config now _) as [e|err|] eqn:Hseal; store_run; [|done..].
  apply seal_ok in Hseal as (Hvalid & _ & signature & [= <-] & ->). cbn [signer_key_id].
  set (e := mkSigned config keyID (ed_sign sk (signing_message config))).
  assert (published_from inputPath keyID privateKeyHex now s e) as He.
  { exists input, sk. rewrite Hread, Hhex. cbn. unfold validIdentifier. by rewrite valid_slug_value_spec, validate_config_ok. }
  unfold on_value at 1. apply wp_on_part. rewrite <-Hjoin.
  eapply wp_mono; [by apply (store_open_rule path Hpath expressible Hfaithful g)|].
  intros r [[] s2] (Hthr & Hg2 & Ht2). cbn [fst snd] in *. destruct r as [store|err|]; store_run; [|done..].
  unfold on_value. apply wp_on_part.
  apply (wp_publish_and_close g); [|by apply Ht2|by apply Hx|].
  { split; [by destruct Hthr as (_ & _ & _ & ?)|done]. }
  intros r t' s' Hr ->. exists e. split; [done|by apply Hr].
Qed.
End publishing.

(** Whoever opens the store next, after a loss of power or not, finds this envelope
    for its device, or a newer one. *)
Definition found_later `{StorageSpec} `{GoQuote} `{MapRange} `{Json FileState} (path : string) (e : SignedConfig) (s : Sys) : Prop :=
  ∀ s2 t s3 r s4, s2 = s ∨ (∃ d, crash (disk s) d ∧ s2 = mkSys _ d []) →
    open_file_store path (tt, s2) = (Ok t, (tt, s3)) → store_latest (DeviceID (Config e)) (t, s3) = (r, s4) →
    match r with
    | Ok e' => e' = e ∨ Version (Config e) < Version (Config e')
    | Err err => (f_lock (st_file t) = None ∧ err = ErrClosed) ∨ f_failed (st_file t) = Some err
    | Panic => False
    end.

(** What [publish] reports as published is durable, after any history of the store
    with crashes and restarts. *)
Lemma publish_durable `{StorageSpec} `{GoQuote} `{Ed25519} `{MapRange} `{JsonSpec FileState} `{Json DeviceConfig}
    stateDir inputPath keyID privateKeyHex now expressible g s s' (path := filepath_join stateDir "configurations.json") :
  proper_path path → (∀ l, Forall expressible l → json_faithful (mkFileState 1 (Some l))) →
  (∀ e, published_from inputPath keyID privateKeyHex now s e → expressible e) →
  run path (open_file_store path) store_call (publishes expressible) record_published ∅ g None s →
  publish stateDir inputPath keyID privateKeyHex now (tt, s) = (Ok tt, (tt, s')) →
  ∃ e, published_from inputPath keyID privateKeyHex now s e ∧ found_later path e s'.
Proof.
  intros Hp Hf Hx Hrun Hpub.
  destruct (run_sound path _ _ _ _ ∅ (store_good expressible) (store_tied path expressible)
    eq_refl (store_open_rule path Hp expressible Hf) (store_call_rule path Hp expressible Hf) g None s Hrun) as [Hs _].
  destruct (wp_elim _ _ _ _ _ (wp_publish path Hp expressible Hf g stateDir inputPath keyID privateKeyHex now s eq_refl Hx Hs)
    Hpub eq_refl) as (e & He & Hs'). cbn [snd] in Hs'.
  exists e. split; [done|]. intros s2 t s3 r s4 Hs2 Hopen Hlatest.
  assert (sound path (store_good expressible) (<[DeviceID (Config e) := e]> g) (disk s2)) as Hsound2.
  { destruct Hs2 as [->|(d & Hcr & ->)]; [done|]. eapply safe_crash; [apply Hs'|exact Hcr]. }
  destruct (wp_elim _ _ _ _ _ (store_open_rule path Hp expressible Hf _ s2 Hsound2) Hopen) as (Hthr & Hg3 & Ht3).
  eapply (latest_covers path expressible Hf); [|by apply Ht3|apply lookup_insert_eq|exact Hlatest].
  split; [by destruct Hthr as (_ & _ & _ & ?)|done].
Qed.

(** ** Witnesses *)

Import DeviceConfig.Toys Identity.ToySha Durable.ToyDisk.

Module ServerWitness.
#[export] Instance enrollment_texts : Json EnrollmentSnapshot := EnrollmentFile.EnrollmentWitness.enrollment_json.
#[export] Instance store_texts : Json FileState := ConfigStore.StoreWitness.store_json.
#[export] Instance store_texts_spec : JsonSpec FileState := ConfigStore.StoreWitness.store_json_spec.

#[export] Instance plain_mime : Mime := {| parse_media_type s := Ok s |}.
#[export] Instance no_body {A} : BodyJson A := {|
  decode_value s := (inl OtherError, s);
  decode_trailing _ := Some IsEOF;
|}.

Definition config : RuntimeConfig :=
  mkRuntimeConfig "/var/lib/cyberia" [sample_credential] {["ops-1" := hex_encode (ed_public sample_private)]}.

Definition started := new_runtime_handler "dev" config (Some sample_issued) (tt, empty_sys).
Definition nothing : Handler (Runtime * Sys) := λ _ _, mret (plain_error 404 "").
Definition handler : Handler (Runtime * Sys) := match started.1 with Ok (h, _) => h | _ => nothing end.

Definition file (name : string) : File := mkFile name (16 * 2 ^ 20) (Some (mkHandle 0 (name +:+ ".lock"))) None.
Definition laptop : DeviceIdentity := mkIdentity "alice" "laptop" "key" "id".
Definition tablet : DeviceIdentity := mkIdentity "bob" "tablet" "key" "id".
Definition running : Runtime :=
  mkRuntime
    (mkFileEnrollment (file "/var/lib/cyberia/enrollment.json")
       (mkEnrollmentStore {["laptop" := laptop; "tablet" := tablet]} minute 10000 ∅))
    (mkFileStore (file "/var/lib/cyberia/configurations.json") {["laptop" := sample_envelope]}).

Definition request_for (path : list string) (creds : Credentials) : Request := mkRequest "GET" path [] creds "" "".
Definition configuration_of (id : string) : list string := ["api"; "v1"; "devices"; id; "configuration"].
Definition env : Env := mkEnv (sample_issued + minute) (sample_issued + minute) (Err (NewError "unused")).
Definition anonymous : Credentials := mkCredentials None [].

Definition dependencies : ControlDependencies (Runtime * Sys) :=
  mkDependencies (Some (token_auth sample_auth)) (Some runtime_repository) (Some runtime_reader) (Some sample_verifier) true.
Definition built : Handler (Runtime * Sys) :=
  control_handler "dev" (token_auth sample_auth) runtime_repository runtime_reader sample_verifier.

Definition delivered := handler (request_for (configuration_of "laptop") sample_request) env (running, empty_sys).
Definition answer : Response := match delivered.1 with Ok r => r | _ => plain_error 404 "" end.

Definition opened : Runtime := match started.1 with Ok (_, rt) => rt | _ => running end.

Lemma started_ok :
  new_runtime_handler "dev" config (Some sample_issued) (tt, empty_sys) = (Ok (handler, opened), started.2).
Proof.
  change (started = (Ok (handler, opened), started.2)). unfold opened.
  assert (is_ok started.1 = true) as Hok by (vm_compute; reflexivity). unfold handler.
  destruct started as [[[h rt]|e|] s]; [reflexivity|discriminate..].
Qed.

Lemma delivered_ok :
  handler (request_for (configuration_of "laptop") sample_request) env (running, empty_sys) = (Ok answer, delivered.2).
Proof.
  change (delivered = (Ok answer, delivered.2)).
  assert (is_ok delivered.1 = true) as Hok by (vm_compute; reflexivity). unfold answer.
  destruct delivered as [[r|e|] s]; [reflexivity|discriminate..].
Qed.
End ServerWitness.
Import ServerWitness.

Lemma unauthenticated_refused_witness :
  ∃ response, built (request_for (configuration_of "laptop") anonymous)
    env (running, empty_sys) = (Ok response, (running, empty_sys)) ∧
    status response = 401.
Proof.
  destruct (unauthenticated_refused "dev" dependencies built
    (request_for (configuration_of "laptop") anonymous) env
    (running, empty_sys)) as (response & Hr & Hs & _).
  - reflexivity.
  - left. split; [by left|]. exists "laptop". split; [done|by right].
  - intros auth [= <-] values account. discriminate.
  - by exists response.
Defined.

(** Alice asks for the tablet of Bob and for a phone that nobody registered. *)
Lemma foreign_device_hidden_witness :
  (built (request_for (configuration_of "tablet") sample_request)
    env (running, empty_sys)).1 =
  (built (request_for (configuration_of "phone") sample_request)
    env (running, empty_sys)).1.
Proof.
  assert (∀ id, id ≠ "" → (∀ device, es_devices (ef_current (rt_enrollment running)) !! id = Some device →
      dev_account device ≠ "alice") →
    built (request_for (configuration_of id) sample_request) env
      (running, empty_sys) =
    (Ok (mkResponse 404 (({["Content-Type" := "application/json"]} ∪ protective) ∪ protective)
      (ErrorBody "device not found")), (running, empty_sys))) as Hsame.
  { intros id Hid Hown. apply (foreign_device_hidden "dev" (token_auth sample_auth) runtime_repository runtime_reader
      sample_verifier _ _ _ _ "alice" id);
      [reflexivity|by left|exact Hid|by right|vm_compute; reflexivity|done|split; [by eexists|reflexivity]|exact Hown]. }
  rewrite !Hsame; [reflexivity|done| |done|].
  - intros device Hd. vm_compute in Hd. discriminate.
  - intros device Hd. vm_compute in Hd. injection Hd as <-. discriminate.
Defined.


Module PublisherWitness.
#[export] Instance config_texts : Json DeviceConfig := ToyJson.listed_json [sample_config].

Definition input : string := "/root/laptop.json".
Definition text : string := match json_marshal sample_config with Ok s => s | _ => "" end.
Definition files : gmap string string := {[input := text]}.
Definition before : Sys := mkSys disk_ops (RefDisk.mkRef files files ∅ 0) [].
Definition path : string := filepath_join "/var/lib/cyberia" "configurations.json".
Definition result := publish "/var/lib/cyberia" input "ops-1" (hex_encode sample_private) sample_issued (tt, before).
Definition after_loss : Sys := mkSys disk_ops (disk result.2.2) [].
Definition reopened := open_file_store path (tt, after_loss).
Definition store : FileStore := match reopened.1 with Ok t => t | _ => ConfigStore.StoreWitness.no_store end.

Lemma path_proper : proper_path path.
Proof.
  exists ["var"; "lib"; "cyberia"], "configurations.json". split; [done|].
  split; [|split; [vm_compute; reflexivity|done]]. repeat constructor; by apply component_decide.
Qed.

Lemma fresh_run expressible :
  run path (open_file_store path) store_call (publishes expressible) record_published ∅ ∅ None before.
Proof. apply run_fresh. split; [reflexivity|]. by intros x [->| ->]. Qed.

Lemma result_ok : publish "/var/lib/cyberia" input "ops-1" (hex_encode sample_private) sample_issued (tt, before) =
  (Ok tt, (tt, result.2.2)).
Proof.
  change (result = (Ok tt, (tt, result.2.2))). assert (is_ok result.1 = true) as Hok by (vm_compute; reflexivity).
  by destruct result as [[[]|e|] [[] s]].
Qed.

Lemma reopened_ok : open_file_store path (tt, after_loss) = (Ok store, (tt, reopened.2.2)).
Proof.
  change (reopened = (Ok store, (tt, reopened.2.2))). unfold store.
  assert (is_ok reopened.1 = true) as Hok by (vm_compute; reflexivity). by destruct reopened as [[t|e|] [[] s]].
Qed.
End PublisherWitness.
Import PublisherWitness.
