(* ===== verification/Concurrent.v ===== *)
(** The control server under concurrent requests.

    [net/http] serves every request in a goroutine of its own; the two stores
    guard each of their methods with a mutex ([internal/identity/file.go],
    [internal/configuration/file.go]).  A request in flight is therefore the
    handler of [ControlApi] stopped in front of its next store call, and the
    server interleaves the store calls of all requests in flight; that a call, with
    its mutexes and its steps, may be taken as one step is shown in [Locks].  The
    server is shown to refine one that runs every handler at once. *)

From S2P Require Import Prelude Machine Text GoBase Netip DeviceConfig Snapshot Durable ConfigStore Identity EnrollmentFile Token ControlApi Runtime.
From stdpp Require Import sorting.
Open Scope string_scope.
Open Scope Z_scope.

(** ** Store calls *)

Inductive StoreCall :=
| CallIssue (accountID deviceID : string) (now : Time) (random : Result GoError string)
| CallEnroll (request : EnrollmentRequest) (now : Time)
| CallDevice (accountID deviceID : string)
| CallLatest (deviceID : string).

Inductive Reply :=
| ReplyIssue (r : Result GoError Challenge)
| ReplyEnroll (r : Result GoError DeviceIdentity)
| ReplyDevice (r : Result GoError DeviceIdentity)
| ReplyLatest (r : Result GoError SignedConfig).

Definition perform {W} (store : EnrollmentRepository W) (configs : ConfigurationReader W) (c : StoreCall) (w : W) : Reply * W :=
  match c with
  | CallIssue accountID deviceID now random =>
      let '(r, w') := repo_issue store accountID deviceID now random w in (ReplyIssue r, w')
  | CallEnroll request now => let '(r, w') := repo_enroll store request now w in (ReplyEnroll r, w')
  | CallDevice accountID deviceID => let '(r, w') := repo_device store accountID deviceID w in (ReplyDevice r, w')
  | CallLatest deviceID => let '(r, w') := reader_latest configs deviceID w in (ReplyLatest r, w')
  end.

(** *** A handler up to its next call

    The handler is run against stores that answer from the replies it has got so
    far; at the first call without a reply it stops and the call is noted. *)

Record Replay := mkReplay { replies : list Reply; wanted : option StoreCall }.

Definition replay {A} (c : StoreCall) (reply_of : Reply → option (Result GoError A)) : Act Replay GoError A := λ s,
  match replies s with
  | [] => (Panic, mkReplay [] (Some c))
  | reply :: rest => (default Panic (reply_of reply), mkReplay rest (wanted s))
  end.

Definition replay_repository : EnrollmentRepository Replay :=
  mkRepository _
    (λ accountID deviceID now random, replay (CallIssue accountID deviceID now random)
       (λ reply, match reply with ReplyIssue r => Some r | _ => None end))
    (λ request now, replay (CallEnroll request now) (λ reply, match reply with ReplyEnroll r => Some r | _ => None end))
    (λ accountID deviceID, replay (CallDevice accountID deviceID)
       (λ reply, match reply with ReplyDevice r => Some r | _ => None end)).

Definition replay_reader : ConfigurationReader Replay :=
  mkReader _ (λ deviceID, replay (CallLatest deviceID) (λ reply, match reply with ReplyLatest r => Some r | _ => None end)).

(** What a request in flight does next.  A handler that panics is recovered by
    [net/http], which drops the connection without a response. *)
Inductive Next := Ask (c : StoreCall) | Respond (response : Response) | Drop.

Definition next_of (outcome : Result GoError Response * Replay) : Next :=
  match outcome with
  | (_, mkReplay _ (Some c)) => Ask c
  | (Ok response, _) => Respond response
  | _ => Drop
  end.

(** ** The two servers *)

Inductive Event := Received (request : Request) (env : Env) | Answered (i : nat) (response : Response) | Dropped (i : nat).

(** A request in flight with the replies it has got, or one that is over. *)
Inductive Job :=
| Running (request : Request) (env : Env) (log : list Reply)
| Sent (request : Request) (env : Env) (response : Response)
| Gone (request : Request) (env : Env).

Record Server (W : Type) := mkServer { world : W; jobs : list Job }.
Arguments mkServer {_}. Arguments world {_}. Arguments jobs {_}.

(** The specification: a request is served in one step, and answered later. *)
Inductive AtomicJob :=
| Waiting (request : Request) (env : Env)
| Served (request : Request) (env : Env) (result : Result GoError Response)
| Over (request : Request) (env : Env) (response : option Response).

Record AtomicServer (W : Type) := mkAtomic { aworld : W; ajobs : list AtomicJob }.
Arguments mkAtomic {_}. Arguments aworld {_}. Arguments ajobs {_}.

Inductive atomic_step {W} (handler : Handler W) : AtomicServer W → option Event → AtomicServer W → Prop :=
| atomic_receive s request env :
    atomic_step handler s (Some (Received request env)) (mkAtomic (aworld s) (ajobs s ++ [Waiting request env]))
| atomic_serve s i request env r w' :
    ajobs s !! i = Some (Waiting request env) →
    handler request env (aworld s) = (r, w') →
    atomic_step handler s None (mkAtomic w' (<[i := Served request env r]> (ajobs s)))
| atomic_answer s i request env response :
    ajobs s !! i = Some (Served request env (Ok response)) →
    atomic_step handler s (Some (Answered i response)) (mkAtomic (aworld s) (<[i := Over request env (Some response)]> (ajobs s)))
| atomic_drop s i request env r :
    ajobs s !! i = Some (Served request env r) → is_ok r = false →
    atomic_step handler s (Some (Dropped i)) (mkAtomic (aworld s) (<[i := Over request env None]> (ajobs s))).

(** Runs and the events they show. *)
Inductive runs {S} (step : S → option Event → S → Prop) : S → list Event → S → Prop :=
| runs_none s : runs step s [] s
| runs_more s l s' e s'' : runs step s l s' → step s' e s'' → runs step s (l ++ option_list e) s''.

Section servers.
Context {W : Type} `{Mime} `{BodyJson ChallengeRequest} `{BodyJson DeviceRequest} `{GoQuote}.
Context (version : string) (auth : AccountAuthenticator) (verifier : Verifier).
Context (store : EnrollmentRepository W) (configs : ConfigurationReader W).

Definition next (request : Request) (env : Env) (log : list Reply) : Next :=
  next_of (control_handler version auth replay_repository replay_reader verifier request env (mkReplay log None)).

Inductive step : Server W → option Event → Server W → Prop :=
| step_receive s request env :
    step s (Some (Received request env)) (mkServer (world s) (jobs s ++ [Running request env []]))
| step_call s i request env log c reply w' :
    jobs s !! i = Some (Running request env log) → next request env log = Ask c →
    perform store configs c (world s) = (reply, w') →
    step s None (mkServer w' (<[i := Running request env (log ++ [reply])]> (jobs s)))
| step_answer s i request env log response :
    jobs s !! i = Some (Running request env log) → next request env log = Respond response →
    step s (Some (Answered i response)) (mkServer (world s) (<[i := Sent request env response]> (jobs s)))
| step_drop s i request env log :
    jobs s !! i = Some (Running request env log) → next request env log = Drop →
    step s (Some (Dropped i)) (mkServer (world s) (<[i := Gone request env]> (jobs s))).

(** *** Scheduling

    A schedule says which request arrives or which request in flight runs on; a
    request that is over stays as it is. *)

Inductive Action := Receive (request : Request) (env : Env) | Advance (i : nat).

Definition advance (i : nat) (s : Server W) : option Event * Server W :=
  match jobs s !! i with
  | Some (Running request env log) =>
      match next request env log with
      | Ask c =>
          let '(reply, w') := perform store configs c (world s) in
          (None, mkServer w' (<[i := Running request env (log ++ [reply])]> (jobs s)))
      | Respond response => (Some (Answered i response), mkServer (world s) (<[i := Sent request env response]> (jobs s)))
      | Drop => (Some (Dropped i), mkServer (world s) (<[i := Gone request env]> (jobs s)))
      end
  | _ => (None, s)
  end.

Definition act (x : Action) (s : Server W) : option Event * Server W :=
  match x with
  | Receive request env => (Some (Received request env), mkServer (world s) (jobs s ++ [Running request env []]))
  | Advance i => advance i s
  end.

Fixpoint schedule (l : list Action) (s : Server W) : list Event * Server W :=
  match l with
  | [] => ([], s)
  | x :: l => let '(e, s') := act x s in let '(events, s'') := schedule l s' in ((option_list e ++ events)%list, s'')
  end.
End servers.


Section scheduling.
Context {W : Type} `{Mime} `{BodyJson ChallengeRequest} `{BodyJson DeviceRequest} `{GoQuote}.
Context (version : string) (auth : AccountAuthenticator) (verifier : Verifier).
Context (store : EnrollmentRepository W) (configs : ConfigurationReader W).

Local Abbreviation step := (step version auth verifier store configs).
Local Abbreviation perform_action := (act version auth verifier store configs).

Lemma act_step x s : perform_action x s = (None, s) ∨ step s (perform_action x s).1 (perform_action x s).2.
Proof.
  destruct x as [request env|i]; [right; constructor|]. cbn [act]. unfold advance.
  destruct (jobs s !! i) as [[request env log|request env response|request env]|] eqn:Hi; try by left. right.
  destruct (next _ _ _ request env log) as [c|response|] eqn:Hn; [|by eapply step_answer|by eapply step_drop].
  destruct (perform store configs c (world s)) as [reply w'] eqn:Hp. by eapply step_call.
Qed.

(** Every schedule is a run. *)
Lemma schedule_runs l s0 events s :
  runs step s0 events s → runs step s0 (events ++ (schedule version auth verifier store configs l s).1)
    (schedule version auth verifier store configs l s).2.
Proof.
  revert events s. induction l as [|x l IH]; intros events s Hruns; cbn [schedule]; [by rewrite app_nil_r|].
  assert (runs step s0 (events ++ option_list (perform_action x s).1) (perform_action x s).2) as Hruns'.
  { destruct (act_step x s) as [Heq|Hstep]; [by rewrite Heq, app_nil_r|by eapply runs_more]. }
  specialize (IH _ _ Hruns'). destruct (perform_action x s) as [e s']. cbn [fst snd] in *.
  destruct (schedule _ _ _ _ _ l s') as [events' s'']. cbn [fst snd] in *. by rewrite app_assoc.
Qed.
End scheduling.

(** ** Handlers as trees of store calls *)

Inductive Prog := Return (r : Result GoError Response) | Do (c : StoreCall) (k : Reply → Prog).

Fixpoint run_prog {W} (store : EnrollmentRepository W) (configs : ConfigurationReader W) (p : Prog) (w : W) :
    Result GoError Response * W :=
  match p with
  | Return r => (r, w)
  | Do c k => let '(reply, w') := perform store configs c w in run_prog store configs (k reply) w'
  end.

Definition map_ok (f : Response → Response) (r : Result GoError Response) : Result GoError Response :=
  response ← r; Ok (f response).

Fixpoint map_prog (f : Response → Response) (p : Prog) : Prog :=
  match p with
  | Return r => Return (map_ok f r)
  | Do c k => Do c (λ reply, map_prog f (k reply))
  end.

Definition panic_reply (c : StoreCall) : Reply :=
  match c with
  | CallIssue _ _ _ _ => ReplyIssue Panic
  | CallEnroll _ _ => ReplyEnroll Panic
  | CallDevice _ _ => ReplyDevice Panic
  | CallLatest _ => ReplyLatest Panic
  end.

(** A tree passes a panic on.  It makes one call, or one and then a lookup of a configuration. *)
Definition strict (c : StoreCall) (k : Reply → Prog) : Prop := k (panic_reply c) = Return Panic.
Definition ends (p : Prog) : Prop := ∃ r, p = Return r.
Definition looks_up (p : Prog) : Prop := ∃ id k, p = Do (CallLatest id) k ∧ strict (CallLatest id) k ∧ ∀ reply, ends (k reply).

(** The clock and the random bytes of a call are those its request meets. *)
Definition drawn_from (env : Env) (c : StoreCall) : Prop :=
  match c with
  | CallIssue _ _ now random => now = use_time env ∧ random = entropy env
  | CallEnroll _ now => now = use_time env
  | _ => True
  end.

Definition shaped (env : Env) (p : Prog) : Prop :=
  match p with
  | Return _ => True
  | Do c k => drawn_from env c ∧ strict c k ∧ ∀ reply, ends (k reply) ∨ looks_up (k reply)
  end.

(** A handler for stores of any kind. *)
Definition PolyAct : Type := ∀ W, EnrollmentRepository W → ConfigurationReader W → Act W GoError Response.

Definition uniform (env : Env) (m : PolyAct) : Prop := ∃ p, shaped env p ∧ ∀ W store configs w, m W store configs w = run_prog store configs p w.

Lemma uniform_ext env (m m' : PolyAct) :
  (∀ W store configs w, m W store configs w = m' W store configs w) → uniform env m → uniform env m'.
Proof. intros He (p & Hp & Hm). exists p. split; [done|]. intros. by rewrite <-He. Qed.

Lemma uniform_ret env r : uniform env (λ W _ _ w, (Ok r, w)).
Proof. by exists (Return (Ok r)). Qed.

Lemma uniform_once env c (f : Reply → Result GoError Response) : drawn_from env c → f (panic_reply c) = Panic → uniform env (λ W store configs w,
  let '(reply, w') := perform store configs c w in (f reply, w')).
Proof.
  intros Hd Hf. exists (Do c (λ reply, Return (f reply))). split; [|done].
  split; [done|]. split; [unfold strict; by rewrite Hf|]. intros reply. left. by eexists.
Qed.

Lemma map_prog_ends f p : ends p → ends (map_prog f p).
Proof. intros [r ->]. by eexists. Qed.

Lemma map_prog_strict f c k : strict c k → strict c (λ reply, map_prog f (k reply)).
Proof. unfold strict. by intros ->. Qed.

Lemma map_prog_shaped env f p : shaped env p → shaped env (map_prog f p).
Proof.
  destruct p as [r|c k]; [done|]. intros (Hd & Hs & Hk). split; [done|]. split; [by apply map_prog_strict|].
  intros reply. destruct (Hk reply) as [He|(id & k' & -> & Hs' & He)]; [left; by apply map_prog_ends|right].
  exists id, (λ reply, map_prog f (k' reply)). split_and!; [done|by apply map_prog_strict|]. intros. by apply map_prog_ends.
Qed.

Lemma run_map_prog {W} (store : EnrollmentRepository W) configs f p w :
  run_prog store configs (map_prog f p) w =
  let '(r, w') := run_prog store configs p w in (map_ok f r, w').
Proof.
  revert w. induction p as [r|c k IH]; intros w; [done|]. cbn [map_prog run_prog].
  destruct (perform store configs c w) as [reply w']. apply IH.
Qed.

Lemma uniform_secured env (m : PolyAct) : uniform env m → uniform env (λ W store configs, secured (m W store configs)).
Proof.
  intros (p & Hp & Hm).
  exists (map_prog (λ response, mkResponse (status response) (headers response ∪ protective) (payload response)) p).
  split; [by apply map_prog_shaped|]. intros W store configs w. rewrite run_map_prog, <-Hm. unfold secured, mbind, act_bind.
  by destruct (m W store configs w) as [[response|e|] w'].
Qed.

(** *** Tables of handlers *)

Definition PolyHandler : Type := ∀ W, EnrollmentRepository W → ConfigurationReader W → Handler W.

Definition table (routes : list (Pattern * PolyHandler)) {W} (store : EnrollmentRepository W) (configs : ConfigurationReader W) :
    list (Pattern * Handler W) := map (λ '(p, h), (p, h W store configs)) routes.

Lemma find_route_table routes request : ∃ found, ∀ W store configs,
  find_route (table routes (W := W) store configs) request = (λ '(h, values), (h W store configs, values)) <$> found ∧
  ∀ h values, found = Some (h, values) → ∃ p, (p, h) ∈ routes ∧
    match_path (pat_path p) (subtree p) (segments request) = Some values ∧ method_matches (pat_method p) (method request) = true.
Proof.
  induction routes as [|[p h] routes [found IH]]; [by exists None|].
  assert (∀ h' values, (∃ p', (p', h') ∈ routes ∧ match_path (pat_path p') (subtree p') (segments request) = Some values ∧
    method_matches (pat_method p') (method request) = true) → ∃ p', (p', h') ∈ (p, h) :: routes ∧
    match_path (pat_path p') (subtree p') (segments request) = Some values ∧
    method_matches (pat_method p') (method request) = true) as Hlater by (intros h' values (p' & ? & ?); exists p'; split; [by right|done]).
  assert (∀ W store configs, table ((p, h) :: routes) (W := W) store configs = (p, h W store configs) :: table routes store configs)
    as Hcons by done.
  destruct (match_path (pat_path p) (subtree p) (segments request)) as [values|] eqn:Hm;
    [destruct (method_matches (pat_method p) (method request)) eqn:Hmm|];
    [exists (Some (h, values))|exists found..]; intros W store configs; rewrite Hcons; cbn [find_route]; rewrite Hm, ?Hmm.
  - split; [done|]. intros ? ? [= <- <-]. exists p. split; [by left|done].
  - destruct (IH W store configs) as [-> Hf]. split; [done|]. eauto.
  - destruct (IH W store configs) as [-> Hf]. split; [done|]. eauto.
Qed.

Lemma allowed_table routes request : ∃ methods, ∀ W store configs,
  allowed_methods (table routes (W := W) store configs) request = methods.
Proof.
  exists (merge_sort string_le (remove_dups (mjoin (map (λ p : Pattern,
    match match_path (pat_path p) (subtree p) (segments request), pat_method p with
    | Some _, Some m => methods_of m
    | _, _ => []
    end) routes.*1)))).
  intros W store configs. unfold allowed_methods, table. rewrite map_map. repeat f_equal.
  induction routes as [|[p h] routes IH]; [done|]. cbn. by f_equal.
Qed.

Lemma uniform_mux routes request env :
  (∀ p h values, (p, h) ∈ routes → match_path (pat_path p) (subtree p) (segments request) = Some values →
     method_matches (pat_method p) (method request) = true →
     uniform env (λ W store configs, h W store configs (set_path_values values request) env)) →
  uniform env (λ W store configs, serve_mux (table routes store configs) request env).
Proof.
  intros Hroutes. destruct (find_route_table routes request) as [[[h values]|] Hfind].
  - destruct (Hfind Replay replay_repository replay_reader) as [_ Hin]. destruct (Hin h values eq_refl) as (p & Hp & Hm & Hmm).
    eapply uniform_ext; [|exact (Hroutes p h values Hp Hm Hmm)]. intros W store configs w.
    unfold serve_mux. destruct (Hfind W store configs) as [-> _]. done.
  - destruct (allowed_table routes request) as [[|x methods] Hallowed].
    + eapply uniform_ext; [|apply uniform_ret]. intros W store configs w.
      unfold serve_mux. destruct (Hfind W store configs) as [-> _]. by rewrite Hallowed.
    + eapply uniform_ext; [|apply uniform_ret]. intros W store configs w.
      unfold serve_mux. destruct (Hfind W store configs) as [-> _]. by rewrite Hallowed.
Qed.

(** *** The handlers of the service *)

Section uniformity.
Context `{Mime} `{BodyJson ChallengeRequest} `{BodyJson DeviceRequest} `{GoQuote}.
Context (version : string) (auth : AccountAuthenticator) (verifier : Verifier).

(** Runs the monadic plumbing around one store call of a handler. *)
Ltac one_call :=
  let W := fresh "W" in let w := fresh "w" in
  intros W ? ? w; run; cbn [perform]; match goal with |- context [let '(_, _) := ?m w in _] => destruct (m w) as [[] ?] end;
  repeat case_match; congruence.

Lemma uniform_get_device request env : uniform env (λ W store _, get_device auth store request env).
Proof.
  unfold get_device. destruct (authenticate_account auth request env) as [r|account]; [apply uniform_ret|].
  eapply uniform_ext; [|apply (uniform_once env (CallDevice account (path_value request)) (λ reply,
    match reply with
    | ReplyDevice (Ok device) => Ok (write_json 200 (DeviceBody (dev_device device) (dev_key device) (dev_key_id device)))
    | ReplyDevice (Err e) => Ok (if errors_is e ErrDeviceNotFound then write_json 404 (ErrorBody "device not found")
        else write_json 500 (ErrorBody "device lookup failed"))
    | _ => Panic
    end)); done]. one_call.
Qed.

Lemma uniform_post_challenge request env : uniform env (λ W store _, post_challenge auth store request env).
Proof.
  unfold post_challenge. destruct (authenticate_account auth request env) as [r|account]; [apply uniform_ret|].
  destruct (decode_enrollment_json request) as [r|value]; [apply uniform_ret|].
  eapply uniform_ext; [|apply (uniform_once env (CallIssue account (cr_device value) (use_time env) (entropy env)) (λ reply,
    match reply with
    | ReplyIssue (Ok challenge) => Ok (write_json 201 (ChallengeBody challenge))
    | ReplyIssue (Err e) => Ok (write_enrollment_error e)
    | _ => Panic
    end)); done]. one_call.
Qed.

Lemma uniform_post_device request env : uniform env (λ W store _, post_device auth store request env).
Proof.
  unfold post_device. destruct (authenticate_account auth request env) as [r|account]; [apply uniform_ret|].
  destruct (decode_enrollment_json request) as [r|value]; [apply uniform_ret|].
  eapply uniform_ext; [|apply (uniform_once env (CallEnroll (mkEnrollment account (dr_device value) (dr_key value)
      (dr_challenge value) (dr_signature value)) (use_time env)) (λ reply,
    match reply with
    | ReplyEnroll (Ok device) => Ok (write_json 201 (DeviceBody (dev_device device) (dev_key device) (dev_key_id device)))
    | ReplyEnroll (Err e) => Ok (write_enrollment_error e)
    | _ => Panic
    end)); done]. one_call.
Qed.

Lemma uniform_get_configuration request env :
  uniform env (λ W store configs, get_configuration auth store configs verifier request env).
Proof.
  unfold get_configuration. destruct (authenticate_account auth request env) as [r|account]; [apply uniform_ret|].
  set (id := path_value request).
  set (latest := λ reply, Return match reply with
    | ReplyLatest (Ok envelope) => Ok match open_for_device envelope id 0 (use_time env) (Some verifier) with
        | Ok _ => write_json 200 (EnvelopeBody envelope)
        | _ => write_json 503 (ErrorBody "configuration unavailable")
        end
    | ReplyLatest (Err e) => Ok (if errors_is e ErrConfigNotFound then write_json 404 (ErrorBody "configuration not found")
        else write_json 500 (ErrorBody "configuration lookup failed"))
    | _ => Panic
    end).
  exists (Do (CallDevice account id) (λ reply, match reply with
    | ReplyDevice (Ok device) => Do (CallLatest id) latest
    | ReplyDevice (Err e) => Return (Ok (if errors_is e ErrDeviceNotFound then write_json 404 (ErrorBody "device not found")
        else write_json 500 (ErrorBody "device lookup failed")))
    | _ => Return Panic
    end)). split.
  - split; [done|]. split; [done|]. intros [r|r|[device|e|]|r]; try (left; by eexists). right.
    exists id, latest. split_and!; [done..|]. intros reply. by eexists.
  - intros W store configs w. run. cbn [run_prog perform]. destruct (repo_device store account id w) as [[device|e|] w'];
      [|by repeat case_match|done].
    cbn [run_prog perform]. destruct (reader_latest configs id w') as [[envelope|e|] w'']; cbn [latest run_prog];
      [|by repeat case_match|done]. by repeat case_match.
Qed.

(** A table behind the security headers. *)
Lemma uniform_table routes request env :
  (∀ p h values, (p, h) ∈ routes → uniform env (λ W store configs, h W store configs (set_path_values values request) env)) →
  uniform env (λ W store configs, security_headers (serve_mux (table routes store configs)) request env).
Proof.
  intros Hroutes. apply (uniform_secured env (λ W store configs, serve_mux (table routes store configs) request env)).
  apply uniform_mux. eauto.
Qed.

Definition enrollment_routes : list (Pattern * PolyHandler) :=
  [(route "GET" device_path, λ W store _, get_device auth store);
   (route "POST" challenges_path, λ W store _, post_challenge auth store);
   (route "POST" devices_path, λ W store _, post_device auth store)].

Definition configuration_routes : list (Pattern * PolyHandler) :=
  [(route "GET" configuration_path, λ W store configs, get_configuration auth store configs verifier)].

Definition public_routes : list (Pattern * PolyHandler) :=
  [(route "GET" [Lit "healthz"], λ W _ _ _ _, mret (write_json 200 (StatusBody "ok")));
   (route "GET" [Lit "api"; Lit "v1"; Lit "version"], λ W _ _ _ _, mret (write_json 200 (VersionBody version)))].

Definition behind_headers (routes : list (Pattern * PolyHandler)) : PolyHandler := λ W store configs,
  security_headers (serve_mux (table routes store configs)).

Definition control_routes : list (Pattern * PolyHandler) :=
  [(route "GET" configuration_path, behind_headers configuration_routes);
   (route "GET" device_path, behind_headers enrollment_routes);
   (route "POST" devices_path, behind_headers enrollment_routes);
   (route "POST" challenges_path, behind_headers enrollment_routes);
   (mkPattern None [] true, behind_headers public_routes)].

(** The control handler treats the stores as black boxes. *)
Lemma uniform_control request env :
  uniform env (λ W store configs, control_handler version auth store configs verifier request env).
Proof.
  apply (uniform_table control_routes request env). intros p h values Hin. unfold control_routes in Hin.
  assert (uniform env (λ W store configs, behind_headers enrollment_routes W store configs (set_path_values values request) env)) as He.
  { apply uniform_table. intros p' h' values' Hin'. unfold enrollment_routes in Hin'. rewrite !elem_of_cons in Hin'.
    destruct Hin' as [[= -> ->]|[[= -> ->]|[[= -> ->]|[]%elem_of_nil]]];
      [apply uniform_get_device|apply uniform_post_challenge|apply uniform_post_device]. }
  rewrite !elem_of_cons in Hin. destruct Hin as [[= -> ->]|[[= -> ->]|[[= -> ->]|[[= -> ->]|[[= -> ->]|[]%elem_of_nil]]]]]; try exact He.
  - apply uniform_table. intros p' h' values' [[= -> ->]|[]%elem_of_nil]%elem_of_cons. apply uniform_get_configuration.
  - apply uniform_table. intros p' h' values' Hin'. unfold public_routes in Hin'. rewrite !elem_of_cons in Hin'.
    destruct Hin' as [[= -> ->]|[[= -> ->]|[]%elem_of_nil]]; apply uniform_ret.
Qed.
End uniformity.

(** ** A request in flight is a subtree *)

Fixpoint all_strict (p : Prog) : Prop :=
  match p with
  | Return _ => True
  | Do c k => strict c k ∧ ∀ reply, all_strict (k reply)
  end.

Lemma shaped_strict env p : shaped env p → all_strict p.
Proof.
  destruct p as [r|c k]; [done|]. intros (_ & Hs & Hk). split; [done|]. intros reply.
  destruct (Hk reply) as [[r ->]|(id & k' & -> & Hs' & He)]; [done|]. split; [done|]. intros reply'. by destruct (He reply') as [r ->].
Qed.

Definition replies_to (c : StoreCall) (reply : Reply) : Prop :=
  match c, reply with
  | CallIssue _ _ _ _, ReplyIssue _ | CallEnroll _ _, ReplyEnroll _ | CallDevice _ _, ReplyDevice _ | CallLatest _, ReplyLatest _ => True
  | _, _ => False
  end.

Lemma perform_replies {W} (store : EnrollmentRepository W) configs c w : replies_to c (perform store configs c w).1.
Proof.
  destruct c; cbn [perform];
    [destruct (repo_issue _ _ _ _ _ _)|destruct (repo_enroll _ _ _ _)|destruct (repo_device _ _ _ _)|destruct (reader_latest _ _ _)]; exact I.
Qed.

Fixpoint feed (p : Prog) (log : list Reply) : Prog :=
  match p, log with
  | Do _ k, reply :: log => feed (k reply) log
  | _, _ => p
  end.

Fixpoint matches (p : Prog) (log : list Reply) : Prop :=
  match p, log with
  | _, [] => True
  | Do c k, reply :: log => replies_to c reply ∧ matches (k reply) log
  | Return _, _ :: _ => False
  end.

Lemma feed_snoc p log c k reply : feed p log = Do c k → feed p (log ++ [reply]) = k reply.
Proof.
  revert p. induction log as [|x log IH]; intros [r|c' k']; cbn; [done|by intros [= <- <-]; destruct (k' reply)|done|apply IH].
Qed.

Lemma matches_snoc p log c k reply : matches p log → feed p log = Do c k → replies_to c reply → matches p (log ++ [reply]).
Proof.
  revert p. induction log as [|x log IH]; intros [r|c' k']; cbn; [done| |done|].
  - intros _ [= <- <-] Hr. split; [done|]. by destruct (k' reply).
  - intros [? ?] Hf Hr. split; [done|]. by apply IH.
Qed.

Definition prog_next (p : Prog) : Next :=
  match p with
  | Do c _ => Ask c
  | Return (Ok response) => Respond response
  | Return _ => Drop
  end.

Lemma next_replayed p log :
  all_strict p → matches p log →
  next_of (run_prog replay_repository replay_reader p (mkReplay log None)) = prog_next (feed p log).
Proof.
  revert log. induction p as [r|c k IH]; intros [|reply log] Hs Hm; [by destruct r|done| |].
  - assert (perform replay_repository replay_reader c (mkReplay [] None) = (panic_reply c, mkReplay [] (Some c))) as Hp by by destruct c.
    cbn [run_prog]. rewrite Hp. destruct Hs as [Hs _]. unfold strict in Hs. by rewrite Hs.
  - destruct Hm as [Hr Hm]. destruct Hs as [_ Hs].
    assert (perform replay_repository replay_reader c (mkReplay (reply :: log) None) = (reply, mkReplay log None)) as Hp
      by by destruct c, reply.
    cbn [run_prog feed]. rewrite Hp. by apply IH.
Qed.

(** ** The interleaved server refines the atomic one *)

(** Looking up a configuration changes nothing, and no store call changes what
    it finds: the running server publishes nothing. *)
Class Separate {W} (store : EnrollmentRepository W) (configs : ConfigurationReader W) := {
  latest_reads : ∀ id w, (reader_latest configs id w).2 = w;
  latest_frame : ∀ c id w,
    (reader_latest configs id (perform store configs c w).2).1 = (reader_latest configs id w).1;
}.

Section refinement.
Context {W : Type} `{Mime} `{BodyJson ChallengeRequest} `{BodyJson DeviceRequest} `{GoQuote}.
Context (version : string) (auth : AccountAuthenticator) (verifier : Verifier).
Context (store : EnrollmentRepository W) (configs : ConfigurationReader W) `{!Separate store configs}.

Local Abbreviation upcoming := (next version auth verifier).
Local Abbreviation step := (step version auth verifier store configs).
Local Abbreviation handler := (control_handler version auth store configs verifier).
Local Abbreviation atomic_step := (atomic_step handler).

(** The tree of a request. *)
Record tree_of (request : Request) (env : Env) (p : Prog) : Prop := {
  tree_shaped : shaped env p;
  tree_run : ∀ w, handler request env w = run_prog store configs p w;
  tree_next : ∀ log, matches p log → upcoming request env log = prog_next (feed p log);
}.

Lemma tree_exists request env : ∃ p, tree_of request env p.
Proof.
  destruct (uniform_control version auth verifier request env) as (p & Hs & Hrun). exists p. split; [done|auto|].
  intros log Hm. unfold next. rewrite Hrun. apply next_replayed; [by eapply shaped_strict|done].
Qed.

(** What is left of a request that has taken effect. *)
Definition settles (w : W) (q : Prog) (r : Result GoError Response) : Prop :=
  q = Return r ∨ ∃ id k, q = Do (CallLatest id) k ∧ k (ReplyLatest (reader_latest configs id w).1) = Return r.

Lemma settles_frame c w q r : settles w q r → settles (perform store configs c w).2 q r.
Proof. intros [->|(id & k & -> & Hk)]; [by left|right]. exists id, k. by rewrite latest_frame. Qed.

Lemma perform_latest id w : perform store configs (CallLatest id) w = (ReplyLatest (reader_latest configs id w).1, w).
Proof. cbn [perform]. pose proof (latest_reads (store := store) id w) as Hr. by destruct (reader_latest configs id w) as [r w']; cbn in *; subst. Qed.

(** From the first call on, the result of a request is fixed. *)
Lemma first_call_settles env c k w reply w' :
  shaped env (Do c k) → perform store configs c w = (reply, w') →
  ∃ r, run_prog store configs (Do c k) w = (r, w') ∧ settles w' (k reply) r.
Proof.
  intros (_ & _ & Hk) Hp. cbn [run_prog]. rewrite Hp. destruct (Hk reply) as [[r ->]|(id & k' & -> & _ & He)].
  - exists r. split; [done|by left].
  - destruct (He (ReplyLatest (reader_latest configs id w').1)) as [r Hr]. exists r. cbn [run_prog]. rewrite perform_latest, Hr.
    split; [done|]. right. by exists id, k'.
Qed.

Inductive job_sim (w : W) : Job → AtomicJob → Prop :=
| sim_waiting request env : job_sim w (Running request env []) (Waiting request env)
| sim_served request env log p r :
    tree_of request env p → matches p log → settles w (feed p log) r →
    job_sim w (Running request env log) (Served request env r)
| sim_sent request env response : job_sim w (Sent request env response) (Over request env (Some response))
| sim_gone request env : job_sim w (Gone request env) (Over request env None).

Definition sim (s : Server W) (a : AtomicServer W) : Prop :=
  aworld a = world s ∧ Forall2 (job_sim (world s)) (jobs s) (ajobs a).

Lemma job_sim_frame c w j a : job_sim w j a → job_sim (perform store configs c w).2 j a.
Proof. intros []; try by constructor. econstructor; [done..|]. by apply settles_frame. Qed.

Lemma sim_insert (s : Server W) (a : AtomicServer W) w' i j x :
  Forall2 (job_sim w') (jobs s) (ajobs a) → job_sim w' j x → sim (mkServer w' (<[i := j]> (jobs s))) (mkAtomic w' (<[i := x]> (ajobs a))).
Proof. intros Hall Hj. split; [done|]. by apply Forall2_insert. Qed.

Lemma sim_frame s a c reply w' :
  sim s a → perform store configs c (world s) = (reply, w') → Forall2 (job_sim w') (jobs s) (ajobs a).
Proof.
  intros [_ Hall] Hp. eapply Forall2_impl; [exact Hall|]. intros j x Hj. apply (job_sim_frame c) in Hj. by rewrite Hp in Hj.
Qed.

Lemma runs_snoc {S} (R : S → option Event → S → Prop) s l s' e s'' l' :
  runs R s l s' → R s' e s'' → l' = (l ++ option_list e)%list → runs R s l' s''.
Proof. intros Hr Hs ->. by eapply runs_more. Qed.

(** A request that makes no store call is served when it is answered. *)
Lemma served_at_once request env w r :
  (∃ p, tree_of request env p ∧ p = Return r) → handler request env w = (r, w).
Proof. intros (p & Hp & ->). by rewrite (tree_run _ _ _ Hp). Qed.

(** The last state of a request. *)
Lemma finish_tree request env log w a result :
  job_sim w (Running request env log) a → (∀ p, prog_next p = result → ∃ r, p = Return r) →
  upcoming request env log = result →
  ∃ r, prog_next (Return r) = result ∧
    (a = Served request env r ∨ (a = Waiting request env ∧ handler request env w = (r, w))).
Proof.
  intros Hsim Hresult Hnext. inversion Hsim as [rq en|rq en lg p r Hp Hm Hq|rq en x|rq en]; simplify_eq.
  - destruct (tree_exists request env) as [p Hp]. rewrite (tree_next _ _ _ Hp) in Hresult by by destruct p.
    assert (feed p [] = p) as Hf by by destruct p. rewrite Hf in Hresult. destruct (Hresult p eq_refl) as [r ->].
    exists r. rewrite (tree_next _ _ _ Hp) by done. split; [done|right]. split; [done|]. apply served_at_once. eauto.
  - rewrite (tree_next _ _ _ Hp log Hm) in Hresult |- *. destruct (Hresult _ eq_refl) as [r' Hr'].
    destruct Hq as [Hq|(id & k & Hq & _)]; [|congruence]. exists r. rewrite Hq. split; [done|by left].
Qed.

(** Serving a request that has not made a call yet. *)
Lemma call_sim s a i request env log c reply w' l w0 :
  sim s a → runs atomic_step w0 l a → jobs s !! i = Some (Running request env log) → upcoming request env log = Ask c →
  perform store configs c (world s) = (reply, w') →
  ∃ a', runs atomic_step w0 l a' ∧ sim (mkServer w' (<[i := Running request env (log ++ [reply])]> (jobs s))) a'.
Proof.
  intros Hsim Hruns Hi Hn Hp. pose proof (sim_frame _ _ _ _ _ Hsim Hp) as Hall'. destruct Hsim as [Hw Hall].
  destruct (Forall2_lookup_l _ _ _ _ _ Hall Hi) as (x & Hx & Hj).
  inversion Hj as [rq en|rq en lg p r Ht Hm Hq|rq en y|rq en]; simplify_eq.
  - destruct (tree_exists request env) as [p Ht]. rewrite (tree_next _ _ _ Ht) in Hn by by destruct p.
    destruct p as [[]|c' k]; cbn in Hn; simplify_eq.
    destruct (first_call_settles _ _ _ _ _ _ (tree_shaped _ _ _ Ht) Hp) as (r & Hr & Hset).
    exists (mkAtomic w' (<[i := Served request env r]> (ajobs a))). split.
    + eapply (runs_snoc _ _ _ _ None); [exact Hruns| |cbn; by rewrite app_nil_r]. eapply (atomic_serve _ a); [exact Hx|].
      by rewrite Hw, (tree_run _ _ _ Ht).
    + apply sim_insert; [done|]. eapply sim_served; [exact Ht| |].
      * cbn [app matches]. split; [|by destruct (k reply)]. pose proof (perform_replies store configs c (world s)) as Hr'. by rewrite Hp in Hr'.
      * cbn [app feed]. by destruct (k reply).
  - rewrite (tree_next _ _ _ Ht log Hm) in Hn. destruct Hq as [Hq|(id & k & Hq & Hk)]; rewrite Hq in Hn; [by destruct r|].
    cbn in Hn. simplify_eq. rewrite perform_latest in Hp. simplify_eq. exists a. split; [done|].
    destruct a as [aw al]. cbn [aworld ajobs] in *. subst aw.
    replace al with (<[i := Served request env r]> al) by by apply list_insert_id.
    apply (sim_insert s (mkAtomic (world s) al)); [done|]. eapply sim_served; [exact Ht|by eapply matches_snoc|].
    left. by rewrite (feed_snoc _ _ _ _ _ Hq).
Qed.

(** Ending a request, after serving it where it made no call. *)
Lemma end_sim s a i request env log result l w0 e j x :
  sim s a → runs atomic_step w0 l a → jobs s !! i = Some (Running request env log) →
  (∀ p, prog_next p = result → ∃ r, p = Return r) → upcoming request env log = result →
  (∀ r a', prog_next (Return r) = result → ajobs a' !! i = Some (Served request env r) →
     atomic_step a' (Some e) (mkAtomic (aworld a') (<[i := x]> (ajobs a')))) →
  job_sim (world s) j x →
  ∃ a', runs atomic_step w0 (l ++ [e]) a' ∧ sim (mkServer (world s) (<[i := j]> (jobs s))) a'.
Proof.
  intros [Hw Hall] Hruns Hi Hresult Hn Hend Hjx. destruct (Forall2_lookup_l _ _ _ _ _ Hall Hi) as (y & Hy & Hj).
  destruct (finish_tree _ _ _ _ _ _ Hj Hresult Hn) as (r & Hr & Hcases).
  exists (mkAtomic (world s) (<[i := x]> (ajobs a))). split; [|by apply sim_insert].
  destruct a as [aw al]. cbn [aworld ajobs] in *. subst aw. destruct Hcases as [->|[-> Hserve]].
  - eapply runs_snoc; [exact Hruns|exact (Hend r (mkAtomic (world s) al) Hr Hy)|done].
  - assert (runs atomic_step w0 l (mkAtomic (world s) (<[i := Served request env r]> al))) as Hruns'.
    { eapply (runs_snoc _ _ _ _ None); [exact Hruns| |cbn; by rewrite app_nil_r].
      by eapply (atomic_serve _ (mkAtomic (world s) al)). }
    eapply (runs_snoc _ _ _ _ (Some e)); [exact Hruns'| |done].
    assert (<[i := x]> al = <[i := x]> (<[i := Served request env r]> al)) as -> by by rewrite list_insert_insert_eq.
    apply (Hend r (mkAtomic (world s) (<[i := Served request env r]> al))); [done|].
    apply list_lookup_insert_eq. by eapply lookup_lt_Some.
Qed.

Lemma step_sim s e s' a l w0 :
  step s e s' → sim s a → runs atomic_step w0 l a →
  ∃ a', runs atomic_step w0 (l ++ option_list e) a' ∧ sim s' a'.
Proof.
  intros Hstep Hsim Hruns.
  destruct Hstep as [s request env|s i request env log c reply w' Hi Hn Hp|s i request env log response Hi Hn|s i request env log Hi Hn].
  - destruct Hsim as [Hw Hall]. eexists. split; [eapply runs_more; [exact Hruns|apply atomic_receive]|]. split; [done|].
    apply Forall2_app; [done|]. repeat constructor.
  - rewrite app_nil_r. by eapply call_sim.
  - eapply end_sim; [done..| |exact Hn| |apply sim_sent].
    + intros [r|c k]; [by exists r|done].
    + intros [r|err|] a' Hr Ha'; cbn in Hr; simplify_eq. by eapply atomic_answer.
  - eapply end_sim; [done..| |exact Hn| |apply sim_gone].
    + intros [r|c k]; [by exists r|done].
    + intros r a' Hr Ha'. eapply atomic_drop; [exact Ha'|]. by destruct r.
Qed.

Lemma runs_sim w l s :
  runs step (mkServer w []) l s → ∃ a, runs atomic_step (mkAtomic w []) l a ∧ sim s a.
Proof.
  remember (mkServer w []) as s0 eqn:Hs0. intros Hruns.
  induction Hruns as [s|s l s' e s'' Hruns IH Hstep]; subst.
  - exists (mkAtomic w []). split; [constructor|done].
  - destruct (IH eq_refl) as (a & Ha & Hsim). by eapply step_sim.
Qed.

(** *** What a request in flight has asked for *)

Fixpoint depth_le (n : nat) (p : Prog) : Prop :=
  match p, n with
  | Return _, _ => True
  | Do _ _, O => False
  | Do _ k, S n => ∀ reply, depth_le n (k reply)
  end.

Lemma depth_step n p : depth_le n p → depth_le (S n) p.
Proof. revert n. induction p as [r|c k IH]; intros [|n] Hd; try done. intros reply. by apply IH. Qed.

Lemma shaped_depth env p : shaped env p → depth_le 2 p.
Proof.
  destruct p as [r|c k]; [done|]. intros (_ & _ & Hk) reply.
  destruct (Hk reply) as [[r ->]|(id & k' & -> & _ & He)]; [done|]. intros reply'. by destruct (He reply') as [r ->].
Qed.

Lemma job_matches w l s i request env log :
  runs step (mkServer w []) l s → jobs s !! i = Some (Running request env log) →
  ∃ p, tree_of request env p ∧ matches p log.
Proof.
  intros (a & _ & _ & Hall)%runs_sim Hi. destruct (Forall2_lookup_l _ _ _ _ _ Hall Hi) as (x & _ & Hj).
  inversion Hj as [rq en|rq en lg p r Ht Hm Hq|rq en y|rq en]; simplify_eq; [|by exists p].
  destruct (tree_exists request env) as [p Hp]. exists p. split; [done|by destruct p].
Qed.

(** Only the first call of a request can change a store. *)
Lemma job_call w l s i request env log c :
  runs step (mkServer w []) l s → jobs s !! i = Some (Running request env log) → upcoming request env log = Ask c →
  (log = [] ∧ drawn_from env c) ∨ ∃ id, c = CallLatest id.
Proof.
  intros Hruns Hi Hn. destruct (job_matches _ _ _ _ _ _ _ Hruns Hi) as (p & Ht & Hm).
  rewrite (tree_next _ _ _ Ht log Hm) in Hn. pose proof (tree_shaped _ _ _ Ht) as Hs.
  destruct p as [[]|c' k]; [by destruct log..|]. destruct Hs as (Hd & _ & Hk).
  destruct log as [|reply log]; cbn in Hn; [left; by simplify_eq|right].
  destruct (Hk reply) as [[r Hr]|(id & k' & Hr & _ & He)]; rewrite Hr in Hn; destruct log as [|reply' log]; cbn in Hn;
    [by destruct r|by destruct r|simplify_eq; by exists id|].
  destruct (He reply') as [r Hr']. rewrite Hr' in Hn. destruct log, r; done.
Qed.
End refinement.

(** ** What the answers of a server say, however the requests interleave *)

(** A repository never loses or replaces a device. *)
Class Registers {W} (R : EnrollmentRepository W) `{!RepositorySpec R} := {
  issue_keeps : ∀ accountID deviceID now random w id,
    owner_of (repo_issue R accountID deviceID now random w).2 id = owner_of w id;
  lookup_reads : ∀ accountID deviceID w, (repo_device R accountID deviceID w).2 = w;
  enroll_keeps : ∀ request now w id d, owner_of w id = Some d → owner_of (repo_enroll R request now w).2 id = Some d;
  enroll_registers : ∀ request now w d w', repo_enroll R request now w = (Ok d, w') →
    owner_of w (dev_device d) = None ∧ owner_of w' (dev_device d) = Some d ∧ dev_account d = req_account request;
}.

Section histories.
Context {W : Type} `{Mime} `{BodyJson ChallengeRequest} `{BodyJson DeviceRequest} `{GoQuote}.
Context (version : string) (auth : AccountAuthenticator) (verifier : Verifier).
Context (store : EnrollmentRepository W) (configs : ConfigurationReader W).
Context `{!RepositorySpec store} `{!Registers store} `{!Separate store configs}.

Local Abbreviation handler := (control_handler version auth store configs verifier).

Definition grows (w w' : W) : Prop := ∀ id d, owner_of w id = Some d → owner_of w' id = Some d.

Lemma perform_grows c w : grows w (perform store configs c w).2.
Proof.
  intros id d Hd. destruct c as [a i now random|request now|a i|i]; cbn [perform].
  - pose proof (issue_keeps a i now random w id) as Hk. destruct (repo_issue _ _ _ _ _ _) as [r w']. cbn in *. congruence.
  - pose proof (enroll_keeps request now w id d Hd) as Hk. by destruct (repo_enroll _ _ _ _) as [r w'].
  - pose proof (lookup_reads a i w) as Hk. destruct (repo_device _ _ _ _) as [r w']. cbn in *. congruence.
  - pose proof (latest_reads (store := store) i w) as Hk. destruct (reader_latest _ _ _) as [r w']. cbn in *. congruence.
Qed.

Lemma run_prog_grows p w : grows w (run_prog store configs p w).2.
Proof.
  revert w. induction p as [r|c k IH]; intros w; [by intros id d|]. cbn [run_prog].
  pose proof (perform_grows c w) as Hg. destruct (perform store configs c w) as [reply w']. intros id d Hd. by apply IH, Hg.
Qed.

Lemma handler_grows request env w : grows w (handler request env w).2.
Proof.
  destruct (uniform_control version auth verifier request env) as (p & _ & Hrun). rewrite Hrun. apply run_prog_grows.
Qed.

(** A 201 that names a device. *)
Definition enrolls (response : Response) (id key : string) : Prop :=
  status response = 201 ∧ ∃ keyID, payload response = DeviceBody id key keyID.

Definition never_enrolls (response : Response) : Prop := ∀ id key, ¬ enrolls response id key.

Lemma refusal_enrolls_none request env r : authenticate_account auth request env = inl r → never_enrolls r.
Proof. unfold authenticate_account. repeat case_match; intros [= <-] id key [? [? ?]]; done. Qed.

Lemma decode_enrolls_none {A} `{BodyJson A} request r : decode_enrollment_json (A := A) request = inl r → never_enrolls r.
Proof. unfold decode_enrollment_json. repeat case_match; intros [= <-] id key [? [? ?]]; done. Qed.

Lemma error_enrolls_none e : never_enrolls (write_enrollment_error e).
Proof. unfold write_enrollment_error. intros id key. repeat case_match; intros [? [? ?]]; done. Qed.

(** What a 201 answer meant for the repository. *)
Definition enrolled (request : Request) (env : Env) (w : W) (response : Response) (w' : W) : Prop :=
  ∀ id key, enrolls response id key → owner_of w id = None ∧
    ∃ d, owner_of w' id = Some d ∧ dev_key d = key ∧
      auth (set_path_values [] request) (auth_time env) = Ok (dev_account d).

Local Abbreviation answers P := (λ r (_ : W), ∀ response, r = Ok (E := GoError) response → P response).

Lemma get_device_enrolls_none request env w : wp (get_device auth store request env) (answers never_enrolls) w.
Proof.
  unfold get_device. destruct (authenticate_account _ _ _) as [r|account] eqn:Ha.
  { apply wp_ret. intros ? [= <-]. by eapply refusal_enrolls_none. }
  apply wp_bind, wp_attempt, wp_intro. intros [dev|e|] w' _; repeat wp_head; [| |done].
  - intros ? [= <-] id key [? _]. done.
  - destruct (errors_is _ _); apply wp_ret; intros ? [= <-] id key [? _]; done.
Qed.

Lemma post_challenge_enrolls_none request env w : wp (post_challenge auth store request env) (answers never_enrolls) w.
Proof.
  unfold post_challenge. destruct (authenticate_account _ _ _) as [r|account] eqn:Ha.
  { apply wp_ret. intros ? [= <-]. by eapply refusal_enrolls_none. }
  destruct (decode_enrollment_json request) as [r|value] eqn:Hd.
  { apply wp_ret. intros ? [= <-]. exact (decode_enrolls_none _ _ Hd). }
  apply wp_bind, wp_attempt, wp_intro. intros [c|e|] w' _; repeat wp_head; [| |done].
  - intros ? [= <-] id key [_ [? ?]]. done.
  - intros ? [= <-]. apply error_enrolls_none.
Qed.

Lemma get_configuration_enrolls_none request env w :
  wp (get_configuration auth store configs verifier request env) (answers never_enrolls) w.
Proof.
  unfold get_configuration. destruct (authenticate_account _ _ _) as [r|account] eqn:Ha.
  { apply wp_ret. intros ? [= <-]. by eapply refusal_enrolls_none. }
  assert (∀ code body, code ≠ 201 → never_enrolls (write_json code body)) as Hother by (intros code b Hc id key [? _]; done).
  apply wp_bind, wp_attempt, wp_intro. intros [dev|e|] w' _; repeat wp_head; [| |done].
  2: { destruct (errors_is _ _); apply wp_ret; intros ? [= <-]; by apply Hother. }
  apply wp_intro. intros [env0|err|] w2 _; repeat wp_head; [| |done].
  - destruct (open_for_device _ _ _ _ _); apply wp_ret; intros ? [= <-]; by apply Hother.
  - destruct (errors_is _ _); apply wp_ret; intros ? [= <-]; by apply Hother.
Qed.

Lemma wp_post_device_enrolls request env w :
  wp (post_device auth store (set_path_values [] request) env) (λ r w', ∀ response, r = Ok response →
    enrolled request env w response w') w.
Proof.
  unfold post_device. destruct (authenticate_account _ _ _) as [r|account] eqn:Ha.
  { apply wp_ret. intros ? [= <-] id key He. by apply (refusal_enrolls_none _ _ _ Ha) in He. }
  apply authenticate_inr in Ha as [Ha _].
  destruct (decode_enrollment_json _) as [r|value] eqn:Hd.
  { apply wp_ret. intros ? [= <-] id key He. by apply (decode_enrolls_none _ _ Hd) in He. }
  apply wp_bind, wp_attempt, wp_intro. intros [d|e|] w' He; repeat wp_head; [| |done].
  - apply enroll_registers in He as (Hnone & Hsome & Hacc). intros ? [= <-] id key [_ [keyID [= <- <- _]]].
    split; [done|]. exists d. split_and!; [done..|]. by rewrite Hacc.
  - intros ? [= <-] id key He'. by apply error_enrolls_none in He'.
Qed.

Lemma wp_handler_enrolls request env w :
  wp (handler request env) (λ r w', ∀ response, r = Ok response → enrolled request env w response w') w.
Proof.
  set (Q := enrolled request env w).
  assert (∀ r w' hs, Q r w' → Q (mkResponse (status r) hs (payload r)) w') as HQ by done.
  assert (∀ m, wp m (answers never_enrolls) w → wp m (λ r w', ∀ response, r = Ok response → Q response w') w) as Hother.
  { intros m Hm. eapply wp_mono; [exact Hm|]. intros r w' Hr response Hok id key He. by apply (Hr response Hok) in He. }
  assert (∀ code text hs w', Q (mkResponse code hs (PlainBody text)) w') as Hplain by (intros ? ? ? ? ? ? [_ [? ?]]; done).
  apply (wp_security_headers _ Q); [done|]. apply (serve_mux_all _ Q); [|done].
  intros p h values Hin _ _.
  assert (∀ routes, (∀ p h values, (p, h) ∈ routes → match_path (pat_path p) (subtree p) (segments request) = Some values →
      wp (h (set_path_values values request) env) (λ r w', ∀ response, r = Ok response → Q response w') w) →
    wp (security_headers (serve_mux routes) (set_path_values values request) env)
      (λ r w', ∀ response, r = Ok response → Q response w') w) as Htable.
  { intros routes Hroutes. apply (wp_security_headers _ Q); [done|]. apply (serve_mux_all _ Q); [|done]. intros. by eapply Hroutes. }
  rewrite !elem_of_cons in Hin.
  destruct Hin as [[= -> ->]|[[= -> ->]|[[= -> ->]|[[= -> ->]|[[= -> ->]|[]%elem_of_nil]]]]]; apply Htable; clear Htable;
    intros p' h' values' Hin' Hm'; rewrite !elem_of_cons in Hin'.
  1: destruct Hin' as [[= -> ->]|[]%elem_of_nil]; apply Hother, get_configuration_enrolls_none.
  4: destruct Hin' as [[= -> ->]|[[= -> ->]|[]%elem_of_nil]]; apply wp_ret; intros ? [= <-] id key [? _]; done.
  all: destruct Hin' as [[= -> ->]|[[= -> ->]|[[= -> ->]|[]%elem_of_nil]]];
    [apply Hother, get_device_enrolls_none|apply Hother, post_challenge_enrolls_none|].
  all: assert (values' = []) as -> by (cbn in Hm'; repeat case_match; simplify_eq; done); apply wp_post_device_enrolls.
Qed.

(** *** Along the runs of the atomic server *)

Definition served_as (a : AtomicServer W) (i : nat) (request : Request) (env : Env) (response : Response) : Prop :=
  ajobs a !! i = Some (Served request env (Ok response)) ∨ ajobs a !! i = Some (Over request env (Some response)).

(** What an answer has earned stays true while the repository grows. *)
Definition earned (request : Request) (env : Env) (response : Response) (w : W) : Prop :=
  (∀ e, payload response = EnvelopeBody e → ∃ id device config,
     segments request = ["api"; "v1"; "devices"; id; "configuration"] ∧
     auth (set_path_values [id] request) (auth_time env) = Ok (dev_account device) ∧
     owner_of w id = Some device ∧ open_for_device e id 0 (use_time env) (Some verifier) = Ok config) ∧
  (∀ id key, enrolls response id key → ∃ d, owner_of w id = Some d ∧ dev_key d = key ∧
     auth (set_path_values [] request) (auth_time env) = Ok (dev_account d)).

Lemma earned_grows request env response w w' : grows w w' → earned request env response w → earned request env response w'.
Proof.
  intros Hg [He Hd]. split.
  - intros e Hp. destruct (He e Hp) as (id & device & config & ? & ? & ? & ?). exists id, device, config. split_and!; auto.
  - intros id key Hen. destruct (Hd id key Hen) as (d & ? & ? & ?). exists d. split_and!; auto.
Qed.

Lemma handler_earns request env w response w' :
  handler request env w = (Ok response, w') → grows w w' ∧ earned request env response w' ∧ enrolled request env w response w'.
Proof.
  intros Hrun. pose proof (handler_grows request env w) as Hg. rewrite Hrun in Hg. cbn [snd] in Hg.
  pose proof (wp_elim _ _ _ _ _ (wp_handler_enrolls request env w) Hrun response eq_refl) as Hen.
  split; [done|]. split; [|done]. split.
  - intros e Hp. destruct (wp_elim _ _ _ _ _ (wp_control_handler version auth store configs verifier request env w e)
      Hrun response eq_refl Hp) as (_ & account & id & device & config & _ & Hs & Ha & _ & Ho & <- & _ & Hop).
    exists id, device, config. split_and!; auto.
  - intros id key He. by destruct (Hen id key He) as (_ & ?).
Qed.

(** Everything served is earned, no device is enrolled twice, and none that was
    registered at first. *)
Definition history_ok (w0 : W) (a : AtomicServer W) : Prop :=
  grows w0 (aworld a) ∧
  (∀ i request env response id key, served_as a i request env response → enrolls response id key → owner_of w0 id = None) ∧
  (∀ i request env response, served_as a i request env response → earned request env response (aworld a)) ∧
  (∀ i j request request' env env' response response' id key key',
     served_as a i request env response → served_as a j request' env' response' →
     enrolls response id key → enrolls response' id key' → i = j).

(** Only what a step serves is new. *)
Lemma served_insert al i x w w' j request env response :
  served_as (mkAtomic w' (<[i := x]> al)) j request env response →
  (j = i ∧ (x = Served request env (Ok response) ∨ x = Over request env (Some response))) ∨
  (j ≠ i ∧ served_as (mkAtomic w al) j request env response).
Proof.
  unfold served_as. cbn [ajobs]. intros Hs. destruct (decide (j = i)) as [->|Hne]; [left|right].
  - split; [done|]. destruct Hs as [[(_ & -> & _)|[[] _]]%list_lookup_insert_Some|[(_ & -> & _)|[[] _]]%list_lookup_insert_Some]; auto.
  - split; [done|]. by rewrite !list_lookup_insert_ne in Hs by done.
Qed.

(** A step that serves nothing. *)
Lemma history_same w0 a a' :
  aworld a' = aworld a → (∀ j request env response, served_as a' j request env response → served_as a j request env response) →
  history_ok w0 a → history_ok w0 a'.
Proof.
  intros Hw Hsame (Hgrows & Hnew & Hearned & Hunique). split_and!.
  - by rewrite Hw.
  - intros i request env response id key Hi%Hsame. by eapply Hnew.
  - intros j request env response Hj. rewrite Hw. by apply (Hearned j), Hsame.
  - intros i j request request' env env' response response' id key key' Hi Hj. apply Hsame in Hi, Hj. by eapply Hunique.
Qed.

Lemma history_serve w0 a i request env r w' :
  handler request env (aworld a) = (r, w') → history_ok w0 a →
  history_ok w0 (mkAtomic w' (<[i := Served request env r]> (ajobs a))).
Proof.
  intros Hrun (Hgrows & Hnew & Hearned & Hunique). destruct a as [w al]. cbn [aworld ajobs] in *.
  assert (grows w w') as Hg by (pose proof (handler_grows request env w) as Hg; by rewrite Hrun in Hg).
  assert (∀ j request' env' response response' id key key', r = Ok response → enrolls response id key →
    served_as (mkAtomic w al) j request' env' response' → enrolls response' id key' → False) as Hfresh.
  { intros j request' env' response response' id key key' -> He Hj He'.
    apply handler_earns in Hrun as (_ & _ & Hen). destruct (Hen id key He) as [Hnone _].
    destruct (Hearned _ _ _ _ Hj) as [_ Hd]. destruct (Hd id key' He') as (d & Hsome & _). cbn [aworld] in Hsome. congruence. }
  split_and!.
  - intros id d Hd. by apply Hg, Hgrows.
  - intros j rq en rs id key [[-> [[= <- <- ->]|[=]]]|[Hne Hj]]%(served_insert _ _ _ w) He; [|by eapply Hnew].
    apply handler_earns in Hrun as (_ & _ & Hen). destruct (Hen id key He) as [Hnone _].
    destruct (owner_of w0 id) as [d|] eqn:Hd; [|done]. apply Hgrows in Hd. congruence.
  - intros j rq en rs [[-> [[= <- <- ->]|[=]]]|[Hne Hj]]%(served_insert _ _ _ w); cbn [aworld].
    + by apply handler_earns in Hrun as (_ & ? & _).
    + eapply earned_grows; [exact Hg|]. exact (Hearned _ _ _ _ Hj).
  - intros j j' rq rq' en en' rs rs' id key key' Hj Hj' He He'.
    apply (served_insert _ _ _ w) in Hj as [[-> [[= <- <- ->]|[=]]]|[Hne Hj]];
      apply (served_insert _ _ _ w) in Hj' as [[-> [[= <- <- Hr]|[=]]]|[Hne' Hj']].
    + done.
    + by edestruct (Hfresh j').
    + subst r. by edestruct (Hfresh j).
    + by eapply (Hunique j j').
Qed.

Lemma history_step w0 a e a' : atomic_step handler a e a' → history_ok w0 a → history_ok w0 a'.
Proof.
  intros Hstep Hok.
  destruct Hstep as [a request env|a i request env r w' Hi Hrun|a i request env response Hi|a i request env r Hi Hr].
  - apply (history_same w0 a); [done| |exact Hok].
    intros j rq en rs [Hj|Hj]; apply lookup_app_Some in Hj as [Hj|[_ Hj]]; [by left| |by right|];
      apply list_lookup_singleton_Some in Hj as [_ Hj]; discriminate.
  - by apply history_serve.
  - apply (history_same w0 a); [done| |exact Hok].
    intros j rq en rs [[-> [[=]|[= <- <- <-]]]|[_ Hj]]%(served_insert _ _ _ (aworld a)); [by left|by destruct a].
  - apply (history_same w0 a); [done| |exact Hok].
    intros j rq en rs [[-> [[=]|[=]]]|[_ Hj]]%(served_insert _ _ _ (aworld a)). by destruct a.
Qed.

Lemma history_runs w l a : runs (atomic_step handler) (mkAtomic w []) l a → history_ok w a.
Proof.
  remember (mkAtomic w []) as a0 eqn:Ha0. intros Hruns.
  induction Hruns as [a|a l a' e a'' Hruns IH Hstep]; subst; [|by eapply history_step, IH].
  assert (∀ i request env response, ¬ served_as (mkAtomic w []) i request env response) as Hnone by (by intros i ? ? ? [[=]|[=]]).
  split; [by intros id d|]. split_and!; intros; exfalso; by eapply Hnone.
Qed.

(** What is shown of served requests holds of the answers of the interleaved server. *)
Lemma concurrent_history w l s :
  runs (step version auth verifier store configs) (mkServer w []) l s →
  (∀ i request env response, jobs s !! i = Some (Sent request env response) → earned request env response (world s)) ∧
  (∀ i j request request' env env' response response' id key key',
     jobs s !! i = Some (Sent request env response) → jobs s !! j = Some (Sent request' env' response') →
     enrolls response id key → enrolls response' id key' → i = j) ∧
  (∀ i request env response id key,
     jobs s !! i = Some (Sent request env response) → enrolls response id key → owner_of w id = None).
Proof.
  intros Hruns. destruct (runs_sim version auth verifier store configs w l s Hruns) as (a & Ha & Hw & Hall).
  apply history_runs in Ha as (_ & Hnew & Hearned & Hunique).
  assert (∀ i request env response, jobs s !! i = Some (Sent request env response) → served_as a i request env response) as Hsent.
  { intros i request env response Hi. destruct (Forall2_lookup_l _ _ _ _ _ Hall Hi) as (x & Hx & Hj).
    inversion Hj; simplify_eq. by right. }
  split_and!.
  - intros i request env response Hi. rewrite <-Hw. by eapply Hearned, Hsent.
  - intros i j request request' env env' response response' id key key' Hi Hj. apply Hsent in Hi, Hj. by eapply Hunique.
  - intros i request env response id key Hi%Hsent. by eapply Hnew.
Qed.
End histories.

(** ** The durable stores of the server *)

Section runtime.
Context `{Storage} `{GoQuote} `{Ed25519} `{Sha256} `{MapRange} `{Json EnrollmentSnapshot} `{Json FileState}.

Lemma store_latest_cases id t s :
  store_latest id (t, s) =
  (match f_lock (st_file t), f_failed (st_file t) with
   | None, _ => Err ErrClosed
   | _, Some e => Err e
   | _, None => memory_latest id (st_data t)
   end, (t, s)).
Proof.
  destruct t as [[path limit lock failed] data].
  unfold store_latest, on_store_file, on_part, file_check. destruct lock, failed; reflexivity.
Qed.

Lemma runtime_latest id rt s :
  reader_latest runtime_reader id (rt, s) = ((store_latest id (rt_configurations rt, s)).1, (rt, s)).
Proof.
  cbn [reader_latest runtime_reader]. unfold on_configurations, on_part. rewrite store_latest_cases. by destruct rt.
Qed.

Lemma on_enrollment_configurations {A} (m : Act (FileEnrollmentStore * Sys) GoError A) w :
  rt_configurations (on_enrollment m w).2.1 = rt_configurations w.1.
Proof. destruct w as [rt s]. unfold on_enrollment, on_part. by destruct (m _) as [r [t s']]. Qed.

Lemma perform_configurations c w : rt_configurations (perform runtime_repository runtime_reader c w).2.1 = rt_configurations w.1.
Proof.
  destruct c; cbn [perform runtime_repository repo_issue repo_enroll repo_device];
    [match goal with |- context [on_enrollment ?m] => rewrite <-(on_enrollment_configurations m w); by destruct (on_enrollment m w) end..|].
  destruct w as [rt s]. by rewrite runtime_latest.
Qed.

#[export] Instance runtime_separate : Separate runtime_repository runtime_reader.
Proof.
  split.
  - intros id [rt s]. by rewrite runtime_latest.
  - intros c id w. pose proof (perform_configurations c w) as Hc. destruct (perform _ _ c w) as [reply [rt' s']], w as [rt s].
    cbn [fst snd] in *. rewrite !runtime_latest, !store_latest_cases. cbn [fst]. by rewrite Hc.
Qed.

Lemma wp_persist_devices candidate t s (Q : Result GoError unit → FileEnrollmentStore * Sys → Prop) :
  (∀ r t' s', match r with Ok _ => ef_current t' = candidate | _ => ef_current t' = ef_current t end → Q r (t', s')) →
  wp (enrollment_persist candidate) Q (t, s).
Proof.
  intros HQ. unfold enrollment_persist, on_enrollment_file. store_run.
  destruct (json_marshal _) as [data|e|]; store_run; [|by apply HQ..].
  apply wp_intro. intros [[]|e|] [f s'] _; store_run; by apply HQ.
Qed.

Lemma candidate_id s : enrollment_candidate s = s.
Proof.
  destruct s as [devices ttl capacity challenges]. unfold enrollment_candidate. cbn. f_equal. apply map_eq. intros i.
  rewrite lookup_fmap. by destruct (devices !! i) as [[]|].
Qed.

Lemma wp_enrollment_check t s (Q : Result GoError unit → FileEnrollmentStore * Sys → Prop) :
  Q (Ok tt) (t, s) → (∀ e, Q (Err e) (t, s)) → wp (on_enrollment_file file_check) Q (t, s).
Proof. intros Hok Herr. by apply wp_file_check; [apply set_ef_file_same|..]. Qed.

(** A call runs on the current store, and its outcome takes over once it is written. *)
Definition issue_effect a d now random (before : EnrollmentStore) (r : Result GoError Challenge) (later : EnrollmentStore) : Prop :=
  match r with
  | Ok c => es_issue a d now random before = (Ok c, later)
  | _ => later = before
  end.

Definition enroll_effect request now (before : EnrollmentStore) (r : Result GoError DeviceIdentity) (later : EnrollmentStore) : Prop :=
  match r with
  | Ok device => es_enroll request now before = (Ok device, later)
  | _ => later = before ∨ ∃ e, es_enroll request now before = (Err e, later)
  end.

Lemma file_issue_effect a d now random t s :
  wp (file_issue a d now random) (λ r w', issue_effect a d now random (ef_current t) r (ef_current w'.1)) (t, s).
Proof.
  unfold file_issue. apply wp_bind, wp_enrollment_check; [|done]. cbn [after]. store_run. rewrite candidate_id.
  destruct (es_issue a d now random (ef_current t)) as [[c|e|] candidate] eqn:Hi; store_run; [|done..].
  apply wp_persist_devices. intros [[]|e|] t' s' Ht; store_run; cbn; rewrite Ht; done.
Qed.

Lemma file_enroll_effect request now t s :
  wp (file_enroll request now) (λ r w', enroll_effect request now (ef_current t) r (ef_current w'.1)) (t, s).
Proof.
  unfold file_enroll. apply wp_bind, wp_enrollment_check; [|intros e; by left]. cbn [after]. store_run. rewrite candidate_id.
  pose proof (wp_es_enroll request now (ef_current t)) as He. unfold wp in He.
  destruct (es_enroll request now (ef_current t)) as [[d|e|] candidate] eqn:Hi; cbn [fst snd] in He; cbn [is_ok orb]; [| |done].
  - apply wp_bind, wp_persist_devices. intros [[]|err|] t' s' Ht; store_run; cbn; rewrite Ht; [done|by left..].
  - apply wp_bind. destruct (negb _); [|store_run; by left].
    apply wp_persist_devices. intros [[]|err|] t' s' Ht; store_run; cbn; rewrite Ht; [right; eauto|by left..].
Qed.

Lemma issue_effect_devices a d now random before r later :
  issue_effect a d now random before r later → es_devices later = es_devices before.
Proof.
  destruct r as [c|e|]; cbn; [|by intros ->..]. intros Hi.
  by destruct (wp_elim _ _ _ _ _ (wp_es_issue a d now random before) Hi) as (_ & _ & _ & _ & _ & _ & ->).
Qed.

Lemma enroll_effect_devices request now before r later :
  enroll_effect request now before r later →
  match r with
  | Ok device => device = identity_of request ∧ es_devices before !! req_device request = None ∧
      es_devices later = <[req_device request := device]> (es_devices before)
  | _ => es_devices later = es_devices before
  end.
Proof.
  pose proof (λ r s', wp_elim _ _ _ r s' (wp_es_enroll request now before)) as He. destruct r as [device|e|]; cbn.
  - intros Hi. by destruct (He _ _ Hi) as (_ & ? & ? & _ & _ & ->).
  - intros [->|(err & Hi)]; [done|]. by destruct (He _ _ Hi) as [->| ->].
  - intros [->|(err & Hi)]; [done|]. by destruct (He _ _ Hi) as [->| ->].
Qed.

Lemma on_enrollment_current {A} (m : Act (FileEnrollmentStore * Sys) GoError A) (Q : Result GoError A → EnrollmentStore → Prop) w :
  wp m (λ r w', Q r (ef_current w'.1)) (rt_enrollment w.1, w.2) →
  wp (on_enrollment m) (λ r w', Q r (ef_current (rt_enrollment w'.1))) w.
Proof. destruct w as [rt s]. intros Hm. by apply wp_on_part. Qed.

Lemma runtime_issue_effect a d now random w :
  wp (repo_issue runtime_repository a d now random) (λ r w',
    issue_effect a d now random (ef_current (rt_enrollment w.1)) r (ef_current (rt_enrollment w'.1))) w.
Proof. apply (on_enrollment_current _ (issue_effect a d now random _)), file_issue_effect. Qed.

Lemma runtime_enroll_effect request now w :
  wp (repo_enroll runtime_repository request now) (λ r w',
    enroll_effect request now (ef_current (rt_enrollment w.1)) r (ef_current (rt_enrollment w'.1))) w.
Proof. apply (on_enrollment_current _ (enroll_effect request now _)), file_enroll_effect. Qed.

#[export] Instance runtime_registers : Registers runtime_repository.
Proof.
  split; cbn [owner_of runtime_repository_spec].
  - intros a d now random w id. pose proof (runtime_issue_effect a d now random w) as Hi. unfold wp in Hi.
    by rewrite (issue_effect_devices _ _ _ _ _ _ _ Hi).
  - intros a d [rt s]. by rewrite runtime_device.
  - intros request now w id d Hd. pose proof (runtime_enroll_effect request now w) as He. unfold wp in He.
    apply enroll_effect_devices in He. destruct (repo_enroll runtime_repository request now w) as [[d'|e|] w'];
      cbn [fst snd] in *; [|by rewrite He..].
    destruct He as (_ & Hnone & ->). rewrite lookup_insert_ne; [done|]. intros Heq. congruence.
  - intros request now w d w' Hrun.
    pose proof (wp_elim _ _ _ _ _ (runtime_enroll_effect request now w) Hrun) as (-> & Hnone & ->)%enroll_effect_devices.
    cbn. by rewrite lookup_insert_eq.
Qed.

(** What a server is built from. *)
Definition runtime_parts (config : RuntimeConfig) (now : option Time) : Result GoError (AccountAuthenticator * Verifier) :=
  auth ← new_token_authenticator (rc_credentials config) now;
  keys ← decode_keys (map_range (rc_signing_keys config)) ∅;
  verifier ← new_ed25519_verifier keys;
  Ok (token_auth auth, verifier).

Context `{Mime} `{BodyJson ChallengeRequest} `{BodyJson DeviceRequest}.

(** The started server has received and answered [l], in whatever order the store
    calls of its requests were scheduled. *)
Definition serves_concurrently (version : string) (config : RuntimeConfig) (now : option Time) (rt : Runtime) (s : Sys)
    (l : list Event) (server : Server (Runtime * Sys)) : Prop :=
  ∃ auth verifier, runtime_parts config now = Ok (auth, verifier) ∧
    runs (step version auth verifier runtime_repository runtime_reader) (mkServer (rt, s) []) l server.

Lemma runtime_parts_ok config now auth verifier :
  runtime_parts config now = Ok (auth, verifier) → ∃ tokens keys,
    new_token_authenticator (rc_credentials config) now = Ok tokens ∧
    decode_keys (map_range (rc_signing_keys config)) ∅ = Ok keys ∧
    auth = token_auth tokens ∧ verifier = mkVerifier (ed25519_verify keys).
Proof.
  unfold runtime_parts. run. destruct (new_token_authenticator _ _) as [tokens|e|]; [|done..].
  destruct (decode_keys _ _) as [keys|e|]; [|done..]. destruct (new_ed25519_verifier keys) as [v|e|] eqn:Hv; [|done..].
  apply new_verifier_ok in Hv as ->. intros [= <- <-]. by exists tokens, keys.
Qed.

Lemma started_handler version config now s h rt s' auth verifier :
  new_runtime_handler version config now (tt, s) = (Ok (h, rt), s') → runtime_parts config now = Ok (auth, verifier) →
  h = control_handler version auth runtime_repository runtime_reader verifier.
Proof.
  intros (at_ & tokens & keys & -> & Ht & Hk & ->)%new_runtime_handler_ok
    (tokens' & keys' & Ht' & Hk' & -> & ->)%runtime_parts_ok. congruence.
Qed.
End runtime.

(** ** Theorems *)

Section claims.
Context `{Storage} `{GoQuote} `{Ed25519} `{Sha256} `{MapRange} `{Json EnrollmentSnapshot} `{Json FileState}.
Context `{Mime} `{BodyJson ChallengeRequest} `{BodyJson DeviceRequest}.
Context (version : string) (config : RuntimeConfig) (now : option Time) (s0 : Sys).
Context (h : Handler (Runtime * Sys)) (rt : Runtime) (s : Sys).

(** C5: concurrent requests are linearizable.  Whatever requests a started server
    receives and however the store calls of the requests in flight interleave, what
    it received and answered, in this order, is also what a server shows that runs
    the handler [h] of each request in one step between its arrival and its answer,
    and both leave the same stores behind. *)
Theorem server_linearizable l server :
  new_runtime_handler version config now (tt, s0) = (Ok (h, rt), (tt, s)) →
  serves_concurrently version config now rt s l server →
  ∃ a, runs (atomic_step h) (mkAtomic (rt, s) []) l a ∧ aworld a = world server ∧
    ∀ i request env response,
      jobs server !! i = Some (Sent request env response) ↔ ajobs a !! i = Some (Over request env (Some response)).
Proof.
  intros Hstart (auth & verifier & Hparts & Hruns).
  rewrite (started_handler _ _ _ _ _ _ _ _ _ Hstart Hparts).
  destruct (runs_sim _ _ _ _ _ _ _ _ Hruns) as (a & Ha & Hw & Hall). exists a. split; [done|]. split; [done|].
  intros i request env response. split; intros Hi.
  - destruct (Forall2_lookup_l _ _ _ _ _ Hall Hi) as (x & Hx & Hj). by inversion Hj; simplify_eq.
  - destruct (Forall2_lookup_r _ _ _ _ _ Hall Hi) as (x & Hx & Hj). by inversion Hj; simplify_eq.
Qed.

(** C3: access control of the server under concurrency.  Whenever a started server
    has answered a request with a device configuration, however its requests
    interleaved, the request presented the canonical 32-byte bearer token of a
    listed credential that had not expired, the device of the path is registered to
    the account of that credential, and the envelope is made out to that device, was
    valid when it was checked, and carries a signature that verifies under a
    signing key listed in the configuration. *)
Theorem concurrent_access_control l server i request env response e :
  new_runtime_handler version config now (tt, s0) = (Ok (h, rt), (tt, s)) →
  serves_concurrently version config now rt s l server →
  jobs server !! i = Some (Sent request env response) → payload response = EnvelopeBody e →
  ∃ id device, segments request = ["api"; "v1"; "devices"; id; "configuration"] ∧
    bears config request (auth_time env) (dev_account device) ∧
    es_devices (ef_current (rt_enrollment (world server).1)) !! id = Some device ∧ authentic config (use_time env) id e.
Proof.
  intros (at_ & ? & ? & -> & _)%new_runtime_handler_ok
    (auth & verifier & (tokens & keys & Ht & Hk & -> & ->)%runtime_parts_ok & Hruns) Hi Hp.
  destruct (concurrent_history _ _ _ _ _ _ _ _ Hruns) as [Hearned _].
  destruct (Hearned _ _ _ _ Hi) as [He _]. destruct (He e Hp) as (id & device & cfg & Hs & Ha & Ho & Hopen).
  exists id, device. split_and!; [done|exact (token_auth_bears _ _ _ _ _ _ Ht Ha)|done|by eapply opened_authentic].
Qed.

(** C6: a device is enrolled once.  However the requests of a started server
    interleave, no two of them are answered 201 for the same device; the device of
    each such answer is registered with the key of the answer, to the account whose
    bearer token the request presented. *)
Theorem enrolled_once l server :
  new_runtime_handler version config now (tt, s0) = (Ok (h, rt), (tt, s)) →
  serves_concurrently version config now rt s l server →
  (∀ i request env response id key, jobs server !! i = Some (Sent request env response) → enrolls response id key →
     ∃ device, es_devices (ef_current (rt_enrollment (world server).1)) !! id = Some device ∧ dev_key device = key ∧
       bears config request (auth_time env) (dev_account device)) ∧
  (∀ i j request request' env env' response response' id key key',
     jobs server !! i = Some (Sent request env response) → jobs server !! j = Some (Sent request' env' response') →
     enrolls response id key → enrolls response' id key' → i = j).
Proof.
  intros (at_ & ? & ? & -> & _)%new_runtime_handler_ok
    (auth & verifier & (tokens & keys & Ht & Hk & -> & ->)%runtime_parts_ok & Hruns).
  destruct (concurrent_history _ _ _ _ _ _ _ _ Hruns) as (Hearned & Hunique & _). split; [|exact Hunique].
  intros i request env response id key Hi He. destruct (Hearned _ _ _ _ Hi) as [_ Hen].
  destruct (Hen id key He) as (d & Ho & Hkey & Ha). exists d. split_and!; [done..|]. exact (token_auth_bears _ _ _ _ _ _ Ht Ha).
Qed.
End claims.

(** ** Witness

    The store holds the configuration of the laptop.  Alice asks for a challenge,
    sends the enrollment of the laptop twice at the same time and asks for its
    configuration meanwhile. *)

Import DeviceConfig.Toys Identity.ToySha Durable.ToyDisk.

Module ConcurrentWitness.
Import EnrollmentFile.EnrollmentWitness.

Definition snapshots : list EnrollmentSnapshot :=
  [mkEnrollmentSnapshot 1 (Some []) (Some []);
   mkEnrollmentSnapshot 1 (Some []) (Some [mkChallengeSnapshot (sum256 nonce) "alice" "laptop" (sample_issued + second + minute)]);
   mkEnrollmentSnapshot 1 (Some [device]) (Some [])].
#[export] Instance enrollment_texts : Json EnrollmentSnapshot := ToyJson.listed_json snapshots.
#[export] Instance enrollment_texts_spec : JsonSpec EnrollmentSnapshot := ToyJson.listed_json_spec snapshots.
#[export] Instance store_texts : Json FileState := ConfigStore.StoreWitness.store_json.
#[export] Instance plain_mime : Mime := {| parse_media_type s := Ok s |}.
#[export] Instance challenge_body : BodyJson ChallengeRequest := {|
  decode_value s := (inr (mkChallengeRequest "laptop"), mkStream "" EndOfBody);
  decode_trailing _ := Some IsEOF;
|}.
#[export] Instance device_body : BodyJson DeviceRequest := {|
  decode_value s := (inr (mkDeviceRequest "laptop" device_key nonce sample_private), mkStream "" EndOfBody);
  decode_trailing _ := Some IsEOF;
|}.

Definition config : RuntimeConfig :=
  mkRuntimeConfig "/var/lib/cyberia" [sample_credential] {["ops-1" := hex_encode (ed_public sample_private)]}.
Definition published : Sys := mkSys disk_ops (disk Runtime.PublisherWitness.result.2.2) [].
Definition started := new_runtime_handler "dev" config (Some sample_issued) (tt, published).
Definition handler : Handler (Runtime * Sys) := match started.1 with Ok (h, _) => h | _ => Runtime.ServerWitness.nothing end.
Definition opened : Runtime := match started.1 with Ok (_, rt) => rt | _ => Runtime.ServerWitness.running end.

Definition post (path : list string) : Request := mkRequest "POST" path [] sample_request "application/json" "{}".
Definition env : Env := mkEnv (sample_issued + second) (sample_issued + second) (Ok nonce).
Definition quiet : Env := mkEnv (sample_issued + second) (sample_issued + second) (Err (NewError "unused")).
Definition actions : list Action :=
  [Receive (post ["api"; "v1"; "enrollment"; "challenges"]) env; Advance 0; Advance 0;
   Receive (post ["api"; "v1"; "devices"]) quiet; Receive (post ["api"; "v1"; "devices"]) quiet;
   Receive (Runtime.ServerWitness.request_for (Runtime.ServerWitness.configuration_of "laptop") sample_request) quiet;
   Advance 2; Advance 3; Advance 1; Advance 3; Advance 3; Advance 1; Advance 2].

Definition parts : AccountAuthenticator * Verifier :=
  match runtime_parts config (Some sample_issued) with Ok p => p | _ => (λ _ _, Panic, sample_verifier) end.
Definition outcome := schedule "dev" parts.1 parts.2 runtime_repository runtime_reader actions (mkServer (opened, started.2.2) []).

Lemma server_started : new_runtime_handler "dev" config (Some sample_issued) (tt, published) = (Ok (handler, opened), (tt, started.2.2)).
Proof.
  change (started = (Ok (handler, opened), (tt, started.2.2))). unfold opened, handler.
  assert (is_ok started.1 = true) as Hok by (vm_compute; reflexivity).
  destruct started as [[[h rt]|e|] [[] s]]; [reflexivity|discriminate..].
Qed.

Lemma parts_ok : runtime_parts config (Some sample_issued) = Ok (parts.1, parts.2).
Proof.
  unfold parts. assert (is_ok (runtime_parts config (Some sample_issued)) = true) as Hok by (vm_compute; reflexivity).
  destruct (runtime_parts config (Some sample_issued)) as [[a v]|e|]; [reflexivity|discriminate..].
Qed.

Lemma outcome_served : serves_concurrently "dev" config (Some sample_issued) opened started.2.2 outcome.1 outcome.2.
Proof.
  exists parts.1, parts.2. split; [exact parts_ok|].
  unfold outcome. exact (schedule_runs _ _ _ _ _ actions _ [] _ (runs_none _ _)).
Qed.

Definition response_to (i : nat) : Response :=
  match jobs outcome.2 !! i with Some (Sent _ _ response) => response | _ => plain_error 404 "" end.
Definition ask : Request := Runtime.ServerWitness.request_for (Runtime.ServerWitness.configuration_of "laptop") sample_request.
End ConcurrentWitness.
Import ConcurrentWitness.

Lemma server_linearizable_witness :
  map (λ i, status (response_to i)) [0; 1; 2; 3]%nat = [201; 409; 201; 200] ∧
  ∃ a, runs (atomic_step handler) (mkAtomic (opened, started.2.2) []) outcome.1 a ∧ aworld a = world outcome.2.
Proof.
  split; [vm_compute; reflexivity|].
  destruct (server_linearizable "dev" config (Some sample_issued) published handler opened started.2.2 outcome.1 outcome.2
    server_started outcome_served) as (a & Ha & Hw & _). exists a. exact (conj Ha Hw).
Defined.

Lemma concurrent_access_control_witness :
  payload (response_to 3) = EnvelopeBody sample_envelope ∧
  ∃ id device, segments ask = ["api"; "v1"; "devices"; id; "configuration"] ∧
    es_devices (ef_current (rt_enrollment (world outcome.2).1)) !! id = Some device ∧
    bears config ask (sample_issued + second) (dev_account device).
Proof.
  assert (payload (response_to 3) = EnvelopeBody sample_envelope) as Hp by (vm_compute; reflexivity).
  split; [exact Hp|].
  destruct (concurrent_access_control "dev" config (Some sample_issued) published handler opened started.2.2 outcome.1 outcome.2
    3 ask quiet (response_to 3) sample_envelope server_started outcome_served ltac:(vm_compute; reflexivity) Hp)
    as (id & d & Hs & Hb & Hd & _). exists id, d. exact (conj Hs (conj Hd Hb)).
Defined.

Lemma enrolled_once_witness :
  enrolls (response_to 2) "laptop" EnrollmentFile.EnrollmentWitness.device_key ∧
  ∃ d, es_devices (ef_current (rt_enrollment (world outcome.2).1)) !! "laptop" = Some d ∧
    dev_key d = EnrollmentFile.EnrollmentWitness.device_key.
Proof.
  assert (enrolls (response_to 2) "laptop" EnrollmentFile.EnrollmentWitness.device_key) as He
    by (split; [vm_compute; reflexivity|eexists; vm_compute; reflexivity]).
  split; [exact He|].
  destruct (enrolled_once "dev" config (Some sample_issued) published handler opened started.2.2 outcome.1 outcome.2
    server_started outcome_served) as [Hreg _].
  destruct (Hreg 2%nat (post ["api"; "v1"; "devices"]) quiet (response_to 2) _ _ ltac:(vm_compute; reflexivity) He)
    as (d & Hd & Hk & _). exists d. exact (conj Hd Hk).
Defined.
