(* ===== verification/Locks.v ===== *)
(** The control server with its mutexes.

    [Concurrent] runs every store call in one step.  In the code a call is a method
    that locks and unlocks: the stores of [internal/identity/file.go] and
    [internal/configuration/file.go] lock themselves, then the snapshot file
    ([internal/snapshot/file.go]) for each of its methods, then the store in memory
    ([internal/identity/enrollment.go], [internal/configuration/store.go]).  This
    file writes the methods of the server as code over mutexes, stopped in front of
    every lock, every unlock and every operation on the disk or on a store, and
    interleaves the requests at these points.  A request waits at a mutex that is
    held.  Two things are shown: the server with mutexes shows nothing that the
    server of [Concurrent] does not show, and no request waits for ever. *)

From S2P Require Import Prelude Machine Text GoBase Netip DeviceConfig Snapshot Durable ConfigStore Identity EnrollmentFile Token ControlApi Runtime Concurrent.
Open Scope string_scope.
Open Scope Z_scope.

(** ** Mutexes *)

(** The [mu] of the durable enrollment store, of its snapshot file and of the
    enrollment store in memory, and likewise of the configuration store.  The
    enrollment store in memory is replaced by its candidate on every write; the
    mutexes of all these stores go by one name, so that a request here waits
    whenever it waits in the code. *)
Inductive Mutex := EnrollmentMu | EnrollmentFileMu | EnrollmentStoreMu | ConfigurationsMu | ConfigurationsFileMu | MemoryStoreMu.

#[export] Instance mutex_eq_dec : EqDecision Mutex.
Proof. solve_decision. Defined.

(** [Lock] and [RLock]. *)
Inductive Mode := Exclusive | Shared.

#[export] Instance mode_eq_dec : EqDecision Mode.
Proof. solve_decision. Defined.

Definition Hold : Type := Mutex * Mode.

(** How often each mutex is held in each mode. *)
Definition Holds : Type := Hold → nat.

(** [Lock] waits for every holder, [RLock] for one that has locked exclusively. *)
Definition available (held : Holds) (x : Hold) : bool :=
  match x.2 with
  | Exclusive => (held (x.1, Exclusive) =? 0)%nat && (held (x.1, Shared) =? 0)%nat
  | Shared => (held (x.1, Exclusive) =? 0)%nat
  end.

Definition hold (x : Hold) (held : Holds) : Holds := λ y, if decide (y = x) then S (held y) else held y.
Definition unhold (x : Hold) (held : Holds) : Holds := λ y, if decide (y = x) then pred (held y) else held y.

(** ** Code that locks

    [Perform] is one operation that no other request can divide. *)

Inductive Code (W R : Type) :=
| Finish (r : R)
| Acquire (x : Hold) (k : Code W R)
| Release (x : Hold) (k : Code W R)
| Perform {B : Type} (m : Act W GoError B) (k : Result GoError B → Code W R).
Arguments Finish {_ _}. Arguments Acquire {_ _}. Arguments Release {_ _}. Arguments Perform {_ _ _}.

Fixpoint code_bind {W R S} (c : Code W R) (f : R → Code W S) : Code W S :=
  match c with
  | Finish r => f r
  | Acquire x k => Acquire x (code_bind k f)
  | Release x k => Release x (code_bind k f)
  | Perform m k => Perform m (λ r, code_bind (k r) f)
  end.

(** Without other requests there is nothing to wait for. *)
Fixpoint run_code {W R} (c : Code W R) (w : W) : R * W :=
  match c with
  | Finish r => (r, w)
  | Acquire _ k | Release _ k => run_code k w
  | Perform m k => let '(r, w') := m w in run_code (k r) w'
  end.

(** A method that can fail; an error or a panic ends it. *)
Definition Method (W A : Type) : Type := Code W (Result GoError A).

#[export] Instance method_ret W : MRet (Method W) := λ A a, Finish (Ok a).
#[export] Instance method_bind W : MBind (Method W) := λ A B f c, code_bind c (λ r,
  match r with Ok a => f a | Err e => Finish (Err e) | Panic => Finish Panic end).

Definition operation {W A} (m : Act W GoError A) : Method W A := Perform m Finish.
Definition result {W A} (r : Result GoError A) : Method W A := Finish r.

(** [mu.Lock(); defer mu.Unlock()] in front of a body: every way out of the body,
    a panic included, unlocks. *)
Definition locked {W R} (x : Hold) (body : Code W R) : Code W R :=
  Acquire x (code_bind body (λ r, Release x (Finish r))).

(** The [defer] of [Snapshot]. *)
Definition deferred {W A} (cleanup : Act W GoError unit) (body : Method W A) : Method W A := code_bind body (λ r,
  match r with Panic => Finish Panic | _ => Perform (attempt (F := GoError) cleanup) (λ _, Finish r) end).

(** The code of a part of a value. *)
Fixpoint code_on `{Storage} {C D R} (get : C → D) (set : D → C → C) (c : Code (D * Sys) R) : Code (C * Sys) R :=
  match c with
  | Finish r => Finish r
  | Acquire x k => Acquire x (code_on get set k)
  | Release x k => Release x (code_on get set k)
  | Perform m k => Perform (on_part get set m) (λ r, code_on get set (k r))
  end.

(** ** The methods of the server *)

Section methods.
Context `{Storage} `{GoQuote} `{Ed25519} `{Sha256} `{MapRange} `{Json EnrollmentSnapshot} `{Json FileState}.

(** [snapshot.File]: [mu] is its mutex. *)
Definition check_code (mu : Mutex) : Method (File * Sys) unit := locked (mu, Exclusive) (operation file_check).

Definition write_code (mu : Mutex) (data : string) : Method (File * Sys) unit := locked (mu, Exclusive)
  (operation file_check;;
   path ← operation (me f_path); limit ← operation (me f_limit);
   operation (guard_err (limit <? len data) (NewError "snapshot exceeds size limit"));;
   dir ← operation (exec (Open (filepath_dir path)));
   deferred (exec (CloseFile dir))
     (temporary ← operation (exec (CreateTemp (filepath_dir path) (temp_prefix +:+ "*")));
      deferred (exec (Remove (h_name temporary)))
        (deferred (exec (CloseFile temporary))
           (operation (exec (Write temporary data));;
            operation (exec (Sync temporary));;
            operation (exec (CloseFile temporary));;
            operation (exec (Rename (h_name temporary) path));;
            synced ← operation (attempt (exec (Sync dir)));
            match synced with
            | inl e =>
                let failed := in_context "snapshot commit durability uncertain" e in
                operation (set_me (set_failed failed));; result (Err failed)
            | inr _ => mret tt
            end)))).

(** [identity.EnrollmentStore]: what does not need the store comes before its
    mutex.  The candidate is a value of the caller, so the result names what its
    fields are afterwards. *)
Definition candidate_issue {W} (accountID deviceID : string) (now : Time) (random : Result GoError string)
    (candidate : EnrollmentStore) : Method W (Result GoError Challenge * EnrollmentStore) :=
  if negb (identity_validIdentifier accountID) || negb (identity_validIdentifier deviceID)
  then mret (Err ErrInvalidEnrollment, candidate)
  else locked (EnrollmentStoreMu, Exclusive) (operation (mret (es_issue accountID deviceID now random candidate))).

Definition candidate_enroll {W} (request : EnrollmentRequest) (now : Time)
    (candidate : EnrollmentStore) : Method W (Result GoError DeviceIdentity * EnrollmentStore) :=
  match verify_enrollment request with
  | Ok _ => locked (EnrollmentStoreMu, Exclusive) (operation (mret (es_enroll request now candidate)))
  | Err e => mret (Err e, candidate)
  | Panic => result Panic
  end.

(** [identity.FileEnrollmentStore]. *)
Local Abbreviation Enrollment A := (Method (FileEnrollmentStore * Sys) A).

Definition on_enrollment_file_code {A} (c : Method (File * Sys) A) : Enrollment A := code_on ef_file set_ef_file c.

Definition persist_code (candidate : EnrollmentStore) : Enrollment unit :=
  (data ← result (json_marshal (snapshot_of candidate));
   on_enrollment_file_code (write_code EnrollmentFileMu data));;
  operation (set_me (set_ef_current candidate)).

Definition issue_code (accountID deviceID : string) (now : Time) (random : Result GoError string) : Enrollment Challenge :=
  locked (EnrollmentMu, Exclusive)
    (on_enrollment_file_code (check_code EnrollmentFileMu);;
     current ← operation (me ef_current);
     '(r, candidate) ← candidate_issue accountID deviceID now random (enrollment_candidate current);
     challenge ← result r;
     persist_code candidate;;
     mret challenge).

Definition enroll_code (request : EnrollmentRequest) (now : Time) : Enrollment DeviceIdentity :=
  locked (EnrollmentMu, Exclusive)
    (on_enrollment_file_code (check_code EnrollmentFileMu);;
     current ← operation (me ef_current);
     '(r, candidate) ← candidate_enroll request now (enrollment_candidate current);
     (if is_ok r || negb (size (es_challenges candidate) =? size (es_challenges current))%nat
      then persist_code candidate else mret tt);;
     result r).

Definition device_code (accountID deviceID : string) : Enrollment DeviceIdentity :=
  locked (EnrollmentMu, Exclusive)
    (on_enrollment_file_code (check_code EnrollmentFileMu);;
     current ← operation (me ef_current);
     locked (EnrollmentStoreMu, Exclusive) (operation (lift (es_device accountID deviceID current)))).

(** [configuration.FileStore]. *)
Definition on_store_file_code {A} (c : Method (File * Sys) A) : Method (FileStore * Sys) A := code_on st_file set_st_file c.

Definition latest_code (deviceID : string) : Method (FileStore * Sys) SignedConfig :=
  locked (ConfigurationsMu, Exclusive)
    (on_store_file_code (check_code ConfigurationsFileMu);;
     locked (MemoryStoreMu, Shared)
       (devices ← operation (me st_data);
        operation (lift (memory_latest deviceID devices)))).

(** The store calls of [Concurrent]. *)
Definition reply_with {W A} (f : Result GoError A → Reply) (c : Method W A) : Code W Reply := code_bind c (λ r, Finish (f r)).

Definition call_code (c : StoreCall) : Code (Runtime * Sys) Reply :=
  match c with
  | CallIssue accountID deviceID now random =>
      reply_with ReplyIssue (code_on rt_enrollment set_rt_enrollment (issue_code accountID deviceID now random))
  | CallEnroll request now => reply_with ReplyEnroll (code_on rt_enrollment set_rt_enrollment (enroll_code request now))
  | CallDevice accountID deviceID => reply_with ReplyDevice (code_on rt_enrollment set_rt_enrollment (device_code accountID deviceID))
  | CallLatest deviceID => reply_with ReplyLatest (code_on rt_configurations set_rt_configurations (latest_code deviceID))
  end.
End methods.

(** ** The server *)

(** A request in flight, possibly inside a store call, or one that is over. *)
Inductive LockedJob (W : Type) :=
| Outside (request : Request) (env : Env) (log : list Reply)
| Inside (request : Request) (env : Env) (log : list Reply) (c : StoreCall) (code : Code W Reply)
| Replied (request : Request) (env : Env) (response : Response)
| Lost (request : Request) (env : Env).
Arguments Outside {_}. Arguments Inside {_}. Arguments Replied {_}. Arguments Lost {_}.

Record LockedServer (W : Type) := mkLocked { lworld : W; held : Holds; ljobs : list (LockedJob W) }.
Arguments mkLocked {_}. Arguments lworld {_}. Arguments held {_}. Arguments ljobs {_}.

Section server.
Context {W : Type} `{Mime} `{BodyJson ChallengeRequest} `{BodyJson DeviceRequest} `{GoQuote}.
Context (version : string) (auth : AccountAuthenticator) (verifier : Verifier) (code_of : StoreCall → Code W Reply).

Local Abbreviation upcoming := (next version auth verifier).

(** Unlocking a mutex that is not held stops a Go program; here it is stuck. *)
Inductive locked_step : LockedServer W → option Event → LockedServer W → Prop :=
| locked_receive s request env :
    locked_step s (Some (Received request env)) (mkLocked (lworld s) (held s) (ljobs s ++ [Outside request env []]))
| locked_call s i request env log c :
    ljobs s !! i = Some (Outside request env log) → upcoming request env log = Ask c →
    locked_step s None (mkLocked (lworld s) (held s) (<[i := Inside request env log c (code_of c)]> (ljobs s)))
| locked_acquire s i request env log c x k :
    ljobs s !! i = Some (Inside request env log c (Acquire x k)) → available (held s) x = true →
    locked_step s None (mkLocked (lworld s) (hold x (held s)) (<[i := Inside request env log c k]> (ljobs s)))
| locked_release s i request env log c x k :
    ljobs s !! i = Some (Inside request env log c (Release x k)) → (0 < held s x)%nat →
    locked_step s None (mkLocked (lworld s) (unhold x (held s)) (<[i := Inside request env log c k]> (ljobs s)))
| locked_perform s i request env log c B (m : Act W GoError B) k r w' :
    ljobs s !! i = Some (Inside request env log c (Perform m k)) → m (lworld s) = (r, w') →
    locked_step s None (mkLocked w' (held s) (<[i := Inside request env log c (k r)]> (ljobs s)))
| locked_return s i request env log c reply :
    ljobs s !! i = Some (Inside request env log c (Finish reply)) →
    locked_step s None (mkLocked (lworld s) (held s) (<[i := Outside request env (log ++ [reply])]> (ljobs s)))
| locked_answer s i request env log response :
    ljobs s !! i = Some (Outside request env log) → upcoming request env log = Respond response →
    locked_step s (Some (Answered i response)) (mkLocked (lworld s) (held s) (<[i := Replied request env response]> (ljobs s)))
| locked_drop s i request env log :
    ljobs s !! i = Some (Outside request env log) → upcoming request env log = Drop →
    locked_step s (Some (Dropped i)) (mkLocked (lworld s) (held s) (<[i := Lost request env]> (ljobs s))).

Definition started_locked (w : W) : LockedServer W := mkLocked w (λ _, 0%nat) [].

Definition arrival (e : option Event) : bool := match e with Some (Received _ _) => true | _ => false end.

(** [n] steps of the requests in flight, none arriving. *)
Inductive undisturbed : nat → LockedServer W → LockedServer W → Prop :=
| undisturbed_none s : undisturbed 0 s s
| undisturbed_more n s e s' s'' :
    locked_step s e s' → arrival e = false → undisturbed n s' s'' → undisturbed (S n) s s''.

Definition in_flight (j : LockedJob W) : bool := match j with Outside _ _ _ | Inside _ _ _ _ _ => true | _ => false end.

(** *** Scheduling

    The actions of [Concurrent]; a request that waits or is over stays as it is. *)

Definition locked_advance (i : nat) (s : LockedServer W) : option Event * LockedServer W :=
  let becomes w held j := mkLocked w held (<[i := j]> (ljobs s)) in
  match ljobs s !! i with
  | Some (Outside request env log) =>
      match upcoming request env log with
      | Ask c => (None, becomes (lworld s) (held s) (Inside request env log c (code_of c)))
      | Respond response => (Some (Answered i response), becomes (lworld s) (held s) (Replied request env response))
      | Drop => (Some (Dropped i), becomes (lworld s) (held s) (Lost request env))
      end
  | Some (Inside request env log c code) =>
      match code with
      | Finish reply => (None, becomes (lworld s) (held s) (Outside request env (log ++ [reply])))
      | Acquire x k =>
          if available (held s) x then (None, becomes (lworld s) (hold x (held s)) (Inside request env log c k)) else (None, s)
      | Release x k =>
          if (0 <? held s x)%nat then (None, becomes (lworld s) (unhold x (held s)) (Inside request env log c k)) else (None, s)
      | Perform m k => let '(r, w') := m (lworld s) in (None, becomes w' (held s) (Inside request env log c (k r)))
      end
  | _ => (None, s)
  end.

Definition locked_act (x : Action) (s : LockedServer W) : option Event * LockedServer W :=
  match x with
  | Receive request env =>
      (Some (Received request env), mkLocked (lworld s) (held s) (ljobs s ++ [Outside request env []]))
  | Advance i => locked_advance i s
  end.

Fixpoint locked_schedule (l : list Action) (s : LockedServer W) : list Event * LockedServer W :=
  match l with
  | [] => ([], s)
  | x :: l => let '(e, s') := locked_act x s in let '(events, s'') := locked_schedule l s' in ((option_list e ++ events)%list, s'')
  end.

Lemma locked_act_step x s : locked_act x s = (None, s) ∨ locked_step s (locked_act x s).1 (locked_act x s).2.
Proof.
  destruct x as [request env|i]; [right; constructor|]. cbn [locked_act]. unfold locked_advance.
  destruct (ljobs s !! i) as [[request env log|request env log c code|request env response|request env]|] eqn:Hi; try by left.
  - right. destruct (upcoming request env log) as [c|response|] eqn:Hn; [by apply locked_call|by eapply locked_answer|by eapply locked_drop].
  - destruct code as [reply|x k|x k|B m k].
    + right. by eapply locked_return.
    + destruct (available (held s) x) eqn:Ha; [right|by left]. by eapply locked_acquire.
    + destruct (0 <? held s x)%nat eqn:Hx; [right|by left]. eapply locked_release; [done|]. by apply Nat.ltb_lt.
    + right. destruct (m (lworld s)) as [r w'] eqn:Hm. by eapply locked_perform.
Qed.

(** Every schedule is a run. *)
Lemma locked_schedule_runs l s0 events s :
  runs locked_step s0 events s → runs locked_step s0 (events ++ (locked_schedule l s).1) (locked_schedule l s).2.
Proof.
  revert events s. induction l as [|x l IH]; intros events s Hruns; cbn [locked_schedule]; [by rewrite app_nil_r|].
  assert (runs locked_step s0 (events ++ option_list (locked_act x s).1) (locked_act x s).2) as Hruns'.
  { destruct (locked_act_step x s) as [Heq|Hstep]; [by rewrite Heq, app_nil_r|by eapply runs_more]. }
  specialize (IH _ _ Hruns'). destruct (locked_act x s) as [e s']. cbn [fst snd] in *.
  destruct (locked_schedule l s') as [events' s'']. cbn [fst snd] in *. by rewrite app_assoc.
Qed.
End server.

(** ** Code run alone is the store call *)

Section alone.
Context {W : Type}.

Lemma run_code_bind {R S} (c : Code W R) (f : R → Code W S) w :
  run_code (code_bind c f) w = let '(r, w') := run_code c w in run_code (f r) w'.
Proof.
  revert w. induction c as [r|x k IH|x k IH|B m k IH]; intros w; cbn [code_bind run_code]; [done..|].
  destruct (m w) as [r w']. apply IH.
Qed.

Lemma run_locked {R} x (c : Code W R) w : run_code (locked x c) w = run_code c w.
Proof. cbn [locked run_code]. rewrite run_code_bind. by destruct (run_code c w). Qed.

Lemma run_operation {A} (m : Act W GoError A) w : run_code (operation m) w = m w.
Proof. cbn [operation run_code]. by destruct (m w). Qed.

(** A method does what an action does. *)
Definition does {A} (c : Method W A) (m : Act W GoError A) : Prop := ∀ w, run_code c w = m w.

Lemma does_operation {A} (m : Act W GoError A) : does (operation m) m.
Proof. exact (run_operation m). Qed.

Lemma does_result {A} (r : Result GoError A) : does (result r) (lift r).
Proof. done. Qed.

Lemma does_ret {A} (a : A) : does (mret a) (mret a).
Proof. done. Qed.

Lemma does_locked {A} x (c : Method W A) m : does c m → does (locked x c) m.
Proof. intros Hc w. by rewrite run_locked. Qed.

Lemma does_bind {A B} (c : Method W A) m (f : A → Method W B) g :
  does c m → (∀ a, does (f a) (g a)) → does (c ≫= f) (m ≫= g).
Proof.
  intros Hc Hf w. unfold mbind at 1, method_bind. rewrite run_code_bind, Hc. unfold mbind, act_bind.
  destruct (m w) as [[a|e|] w']; [apply Hf|done..].
Qed.
End alone.

Section alone_on_disk.
Context `{Storage}.

Lemma does_deferred {C A} cleanup (c : Method (C * Sys) A) m : does c m → does (deferred cleanup c) (with_defer cleanup m).
Proof.
  intros Hc w. unfold deferred, with_defer. rewrite run_code_bind, Hc. destruct (m w) as [[a|e|] w']; cbn [run_code]; [|..|done].
  all: by destruct (attempt cleanup w').
Qed.

(** A part that is put back where it was taken from. *)
Class Part {C D} (get : C → D) (set : D → C → C) : Prop := {
  part_get : ∀ d c, get (set d c) = d;
  part_set : ∀ d d' c, set d' (set d c) = set d' c;
  part_same : ∀ c, set (get c) c = c;
}.

Lemma run_code_on {C D R} (get : C → D) set `{!Part get set} (c : Code (D * Sys) R) t s :
  run_code (code_on get set c) (t, s) = let '(r, (d, s')) := run_code c (get t, s) in (r, (set d t, s')).
Proof.
  revert t s. induction c as [r|x k IH|x k IH|B m k IH]; intros t s; cbn [code_on run_code]; [by rewrite (part_same (get := get))|done..|].
  unfold on_part. destruct (m (get t, s)) as [r [d s']]. rewrite IH, (part_get (get := get)).
  destruct (run_code (k r) (d, s')) as [r' [d' s'']]. by rewrite (part_set (get := get)).
Qed.

Lemma does_on {C D A} (get : C → D) set `{!Part get set} (c : Method (D * Sys) A) m :
  does c m → does (code_on get set c) (on_part get set m).
Proof. intros Hc [t s]. rewrite run_code_on, Hc by done. done. Qed.
End alone_on_disk.

#[export] Instance ef_file_part : Part ef_file set_ef_file.
Proof. split; [done..|]. by intros []. Qed.
#[export] Instance st_file_part : Part st_file set_st_file.
Proof. split; [done..|]. by intros []. Qed.
#[export] Instance rt_enrollment_part : Part rt_enrollment set_rt_enrollment.
Proof. split; [done..|]. by intros []. Qed.
#[export] Instance rt_configurations_part : Part rt_configurations set_rt_configurations.
Proof. split; [done..|]. by intros []. Qed.

Create HintDb code.
#[export] Hint Resolve does_operation does_result does_ret does_locked does_bind does_deferred does_on : code.

Section methods_alone.
Context `{Storage} `{GoQuote} `{Ed25519} `{Sha256} `{MapRange} `{Json EnrollmentSnapshot} `{Json FileState}.

Lemma check_does mu : does (check_code mu) file_check.
Proof. unfold check_code. auto with code. Qed.

Lemma write_does mu data : does (write_code mu data) (file_write data).
Proof.
  unfold write_code, file_write. apply does_locked.
  repeat first [apply does_bind; [apply does_operation|]; intros|apply does_deferred].
  case_match; [apply does_bind; [apply does_operation|done]|done].
Qed.

Lemma persist_does candidate : does (persist_code candidate) (enrollment_persist candidate).
Proof.
  apply does_bind; [|intros; apply does_operation]. apply does_bind; [apply does_result|intros data].
  apply does_on; [apply _|apply write_does].
Qed.

Lemma candidate_issue_does {W} accountID deviceID now random candidate :
  does (W := W) (candidate_issue accountID deviceID now random candidate) (mret (es_issue accountID deviceID now random candidate)).
Proof.
  unfold candidate_issue. destruct (negb _ || negb _) eqn:Hv; [|apply does_locked, does_operation].
  intros w. unfold es_issue, guard_err. rewrite Hv. done.
Qed.

Lemma issue_does accountID deviceID now random : does (issue_code accountID deviceID now random) (file_issue accountID deviceID now random).
Proof.
  apply does_locked. unfold file_issue. apply does_bind; [apply does_on; [apply _|apply check_does]|intros _].
  apply does_bind; [apply does_operation|intros current w].
  unfold mbind at 1, method_bind. rewrite run_code_bind, candidate_issue_does.
  cbn [mret act_ret]. destruct (es_issue accountID deviceID now random (enrollment_candidate current)) as [r candidate].
  refine (does_bind _ _ _ _ (does_result r) (λ challenge, _) w).
  apply does_bind; [apply persist_does|intros; apply does_ret].
Qed.

(** An enrollment that is not verified leaves the candidate as it was. *)
Lemma unverified_enroll request now candidate :
  is_ok (verify_enrollment request) = false → ∃ r, es_enroll request now candidate = (r, candidate) ∧ is_ok r = false ∧
    ∀ W (w : W), run_code (candidate_enroll request now candidate) w = (match r with Panic => Panic | _ => Ok (r, candidate) end, w).
Proof.
  unfold candidate_enroll, es_enroll. intros Hv. destruct (verify_enrollment request) as [device|e|]; [done|..].
  - by exists (Err e).
  - by exists Panic.
Qed.

Lemma enroll_does request now : does (enroll_code request now) (file_enroll request now).
Proof.
  apply does_locked. unfold file_enroll. apply does_bind; [apply does_on; [apply _|apply check_does]|intros _].
  apply does_bind; [apply does_operation|intros current w].
  unfold mbind at 1, method_bind. rewrite run_code_bind. destruct (is_ok (verify_enrollment request)) eqn:Hv.
  - assert (run_code (candidate_enroll request now (enrollment_candidate current)) w =
      (Ok (es_enroll request now (enrollment_candidate current)), w)) as ->.
    { unfold candidate_enroll. destruct (verify_enrollment request); [|done..]. rewrite run_locked. apply run_operation. }
    destruct (es_enroll request now (enrollment_candidate current)) as [r candidate].
    refine (does_bind _ _ _ _ _ (λ _, does_result r) w). case_match; [apply persist_does|apply does_ret].
  - destruct (unverified_enroll request now (enrollment_candidate current) Hv) as (r & -> & Hr & ->).
    destruct r as [d|e|]; [done|..]; cbn; by rewrite ?Nat.eqb_refl.
Qed.

Lemma device_does accountID deviceID : does (device_code accountID deviceID) (file_device accountID deviceID).
Proof.
  apply does_locked. unfold file_device. apply does_bind; [apply does_on; [apply _|apply check_does]|intros _].
  apply does_bind; [apply does_operation|intros current]. apply does_locked, does_operation.
Qed.

Lemma latest_does deviceID : does (latest_code deviceID) (store_latest deviceID).
Proof.
  apply does_locked. unfold store_latest. apply does_bind; [apply does_on; [apply _|apply check_does]|intros _].
  apply does_locked. apply does_bind; [apply does_operation|intros devices; apply does_operation].
Qed.

Lemma run_reply_with {W A} f (c : Method W A) m w : does c m → run_code (reply_with f c) w = let '(r, w') := m w in (f r, w').
Proof. intros Hc. unfold reply_with. rewrite run_code_bind, Hc. by destruct (m w). Qed.

(** Run alone, the code of a store call is the call. *)
Lemma call_code_run c w : run_code (call_code c) w = perform runtime_repository runtime_reader c w.
Proof.
  destruct c; cbn [call_code perform runtime_repository runtime_reader repo_issue repo_enroll repo_device reader_latest];
    apply run_reply_with, does_on; try apply _; [apply issue_does|apply enroll_does|apply device_does|apply latest_does].
Qed.
End methods_alone.

(** ** The order of the mutexes *)

(** A store locks itself first, then its file or its memory. *)
Definition level (m : Mutex) : nat :=
  match m with
  | EnrollmentMu | ConfigurationsMu => 1
  | EnrollmentFileMu | EnrollmentStoreMu | ConfigurationsFileMu | MemoryStoreMu => 2
  end.

(** [tidy n l c]: the code [c] holds [l], newest first, above the level [n].  It
    locks upwards, unlocks in the opposite order what it locked, and nothing is
    held at its end. *)
Fixpoint tidy {W R} (n : nat) (l : list Hold) (c : Code W R) : Prop :=
  match c with
  | Finish _ => l = []
  | Acquire x k => (n < level x.1)%nat ∧ Forall (λ y, (level y.1 < level x.1)%nat) l ∧ tidy n (x :: l) k
  | Release x k => ∃ l', l = x :: l' ∧ tidy n l' k
  | Perform _ k => ∀ r, tidy n l (k r)
  end.

(** At most [n] steps. *)
Fixpoint within {W R} (n : nat) (c : Code W R) {struct c} : Prop :=
  match c with
  | Finish _ => True
  | Acquire _ k | Release _ k => match n with O => False | S n => within n k end
  | Perform _ k => match n with O => False | S n => ∀ r, within n (k r) end
  end.

(** Every operation satisfies [P]. *)
Fixpoint code_all {W R} (P : ∀ B, Act W GoError B → Prop) (c : Code W R) : Prop :=
  match c with
  | Finish _ => True
  | Acquire _ k | Release _ k => code_all P k
  | Perform m k => P _ m ∧ ∀ r, code_all P (k r)
  end.

(** [x] is held, and unlocking it is the last thing the code does. *)
Fixpoint closing {W R} (x : Hold) (c : Code W R) : Prop :=
  match c with
  | Finish _ => False
  | Acquire _ k => closing x k
  | Release y k => (y = x ∧ ∃ r, k = Finish r) ∨ (y ≠ x ∧ closing x k)
  | Perform _ k => ∀ r, closing x (k r)
  end.

Section discipline.
Context {W : Type}.

Lemma tidy_code_bind {R S} n l (c : Code W R) (f : R → Code W S) : tidy n l c → (∀ r, tidy n [] (f r)) → tidy n l (code_bind c f).
Proof.
  intros Hc Hf. revert l Hc. induction c as [r|x k IH|x k IH|B m k IH]; intros l Hc; cbn [code_bind tidy] in *.
  - by subst.
  - destruct Hc as (? & ? & ?). auto.
  - destruct Hc as (l' & -> & ?). eauto.
  - auto.
Qed.

Lemma tidy_release {R} n x l (c : Code W R) :
  (n < level x.1)%nat → tidy (level x.1) l c → tidy n (l ++ [x]) (code_bind c (λ r, Release x (Finish r))).
Proof.
  intros Hn. revert l. induction c as [r|y k IH|y k IH|B m k IH]; intros l Hc; cbn [code_bind tidy] in *.
  - subst. by exists [].
  - destruct Hc as (? & ? & ?). split_and!; [lia| |by apply (IH (y :: l))].
    apply Forall_app. split; [done|]. by repeat constructor.
  - destruct Hc as (l' & -> & ?). exists (l' ++ [x])%list. auto.
  - auto.
Qed.

Lemma tidy_locked {R} n x (c : Code W R) : (n < level x.1)%nat → tidy (level x.1) [] c → tidy n [] (locked x c).
Proof. intros Hn Hc. cbn [locked tidy]. split_and!; [done..|]. by apply (tidy_release _ _ []). Qed.

Lemma tidy_bind {A B} n (c : Method W A) (f : A → Method W B) :
  tidy n [] c → (∀ a, tidy n [] (f a)) → tidy n [] (c ≫= f).
Proof. intros Hc Hf. apply tidy_code_bind; [done|]. intros [a|e|]; by try apply Hf. Qed.

Lemma tidy_operation {A} n (m : Act W GoError A) : tidy n [] (operation m).
Proof. done. Qed.

Lemma tidy_result {A} n (r : Result GoError A) : tidy n [] (result (W := W) r).
Proof. done. Qed.

Lemma tidy_deferred {A} n cleanup (c : Method W A) : tidy n [] c → tidy n [] (deferred cleanup c).
Proof. intros Hc. apply tidy_code_bind; [done|]. by intros []. Qed.

Lemma tidy_reply {A} n f (c : Method W A) : tidy n [] c → tidy n [] (reply_with f c).
Proof. intros Hc. by apply tidy_code_bind. Qed.

Lemma within_mono {R} n n' (c : Code W R) : (n ≤ n')%nat → within n c → within n' c.
Proof.
  revert n n'. induction c as [r|x k IH|x k IH|B m k IH]; intros [|n] [|n'] Hn Hc; cbn [within] in *; try done; try lia.
  1-2: apply (IH n); [lia|done]. intros r. apply (IH r n); [lia|done].
Qed.

Lemma within_code_bind {R S} n n' (c : Code W R) (f : R → Code W S) :
  within n c → (∀ r, within n' (f r)) → within (n + n') (code_bind c f).
Proof.
  intros Hc Hf. revert n Hc. induction c as [r|x k IH|x k IH|B m k IH]; intros n Hc; cbn [code_bind within] in *.
  - apply (within_mono n'); [lia|done].
  - destruct n as [|n]; [done|]. by apply IH.
  - destruct n as [|n]; [done|]. by apply IH.
  - destruct n as [|n]; [done|]. intros r. by apply IH.
Qed.

Lemma within_bind {A B} n n' (c : Method W A) (f : A → Method W B) :
  within n c → (∀ a, within n' (f a)) → within (n + n') (c ≫= f).
Proof. intros Hc Hf. apply within_code_bind; [done|]. intros [a|e|]; by try apply Hf. Qed.

Lemma within_locked {R} n x (c : Code W R) : within n c → within (S (n + 1)) (locked x c).
Proof. intros Hc. cbn [locked within]. by apply within_code_bind. Qed.

Lemma within_operation {A} (m : Act W GoError A) : within 1 (operation m).
Proof. done. Qed.

Lemma within_result {A} (r : Result GoError A) : within 0 (result (W := W) r).
Proof. done. Qed.

Lemma within_deferred {A} n cleanup (c : Method W A) : within n c → within (n + 1) (deferred cleanup c).
Proof. intros Hc. apply within_code_bind; [done|]. by intros []. Qed.

Lemma within_reply {A} n f (c : Method W A) : within n c → within n (reply_with f c).
Proof. intros Hc. rewrite <-(Nat.add_0_r n). by apply within_code_bind. Qed.

Lemma closing_locked {R} x (c : Code W R) : tidy (level x.1) [] c → closing x (code_bind c (λ r, Release x (Finish r))).
Proof.
  assert (Forall (λ y : Hold, (level x.1 < level y.1)%nat) []) as Hl by done. revert Hl. generalize ([] : list Hold).
  induction c as [r|y k IH|y k IH|B m k IH]; intros l Hl Hc; cbn [code_bind tidy closing] in *.
  - left. eauto.
  - destruct Hc as (? & ? & ?). apply (IH (y :: l)); [by constructor|done].
  - destruct Hc as (l' & -> & Hc). apply Forall_cons in Hl as [Hy Hl]. right. split; [|by apply (IH l')]. intros ->. lia.
  - intros r. by apply (IH r l).
Qed.

Lemma closing_bind {R S} x (c : Code W R) (f : R → S) : closing x c → closing x (code_bind c (λ r, Finish (f r))).
Proof.
  induction c as [r|y k IH|y k IH|B m k IH]; cbn [code_bind closing]; [done|auto| |auto].
  intros [[-> [r ->]]|[? ?]]; [left; cbn; eauto|right; auto].
Qed.

Lemma code_all_bind {R S} (P : ∀ B, Act W GoError B → Prop) (c : Code W R) (f : R → S) :
  code_all P c → code_all P (code_bind c (λ r, Finish (f r))).
Proof. induction c as [r|y k IH|y k IH|B m k IH]; cbn [code_bind code_all]; [done|auto..|]. intros [? ?]. auto. Qed.
End discipline.

Section discipline_on.
Context `{Storage} {C D : Type} (get : C → D) (set : D → C → C).

Lemma tidy_on {R} n l (c : Code (D * Sys) R) : tidy n l c → tidy n l (code_on get set c).
Proof.
  revert l. induction c as [r|x k IH|x k IH|B m k IH]; intros l; cbn [code_on tidy]; [done| | |auto].
  - intros (? & ? & ?). auto.
  - intros (l' & -> & ?). eauto.
Qed.

Lemma within_on {R} n (c : Code (D * Sys) R) : within n c → within n (code_on get set c).
Proof. revert n. induction c as [r|x k IH|x k IH|B m k IH]; intros [|n]; cbn [code_on within]; auto. Qed.

Lemma closing_on {R} x (c : Code (D * Sys) R) : closing x c → closing x (code_on get set c).
Proof.
  induction c as [r|y k IH|y k IH|B m k IH]; cbn [code_on closing]; [done|auto| |auto].
  intros [[-> [r ->]]|[? ?]]; [left; cbn; eauto|right; auto].
Qed.

Lemma code_all_on {R} (P : ∀ B, Act (C * Sys) GoError B → Prop) (c : Code (D * Sys) R) :
  (∀ B (m : Act (D * Sys) GoError B), P B (on_part get set m)) → code_all P (code_on get set c).
Proof. intros HP. induction c as [r|y k IH|y k IH|B m k IH]; cbn [code_on code_all]; auto. Qed.
End discipline_on.

#[export] Hint Resolve tidy_bind tidy_locked tidy_operation tidy_result tidy_deferred tidy_reply tidy_on : code.

Section methods_discipline.
Context `{Storage} `{GoQuote} `{Ed25519} `{Sha256} `{MapRange} `{Json EnrollmentSnapshot} `{Json FileState}.

Lemma check_tidy mu n : (n < level mu)%nat → tidy n [] (check_code mu).
Proof. intros Hn. by apply tidy_locked. Qed.

Lemma write_tidy mu data n : (n < level mu)%nat → tidy n [] (write_code mu data).
Proof.
  intros Hn. apply tidy_locked; [done|]. repeat first [apply tidy_bind; [apply tidy_operation|]; intros|apply tidy_deferred].
  case_match; [|done]. by apply tidy_bind.
Qed.

Lemma persist_tidy candidate : tidy 1 [] (persist_code candidate).
Proof.
  apply tidy_bind; [|done]. apply tidy_bind; [done|]. intros data. apply tidy_on, write_tidy. cbn. lia.
Qed.

Lemma candidate_issue_tidy {W} accountID deviceID now random candidate :
  tidy (W := W) 1 [] (candidate_issue accountID deviceID now random candidate).
Proof. unfold candidate_issue. case_match; [done|]. apply tidy_locked; [cbn; lia|done]. Qed.

Lemma candidate_enroll_tidy {W} request now candidate : tidy (W := W) 1 [] (candidate_enroll request now candidate).
Proof. unfold candidate_enroll. case_match; [|done..]. apply tidy_locked; [cbn; lia|done]. Qed.

Lemma enrollment_check_tidy : tidy 1 [] (on_enrollment_file_code (check_code EnrollmentFileMu)).
Proof. apply tidy_on, check_tidy. cbn. lia. Qed.

Hint Resolve enrollment_check_tidy persist_tidy candidate_issue_tidy candidate_enroll_tidy : code.

(** What each method does under the mutex of its store. *)
Lemma issue_body_tidy accountID deviceID now random :
  ∃ body, issue_code accountID deviceID now random = locked (EnrollmentMu, Exclusive) body ∧ tidy 1 [] body.
Proof.
  eexists. split; [reflexivity|]. apply tidy_bind; [auto with code|intros _]. apply tidy_bind; [done|intros current].
  apply tidy_bind; [auto with code|intros [r candidate]]. apply tidy_bind; [done|intros challenge]. apply tidy_bind; [auto with code|done].
Qed.

Lemma enroll_body_tidy request now :
  ∃ body, enroll_code request now = locked (EnrollmentMu, Exclusive) body ∧ tidy 1 [] body.
Proof.
  eexists. split; [reflexivity|]. apply tidy_bind; [auto with code|intros _]. apply tidy_bind; [done|intros current].
  apply tidy_bind; [auto with code|intros [r candidate]]. apply tidy_bind; [|done]. case_match; [auto with code|done].
Qed.

Lemma device_body_tidy accountID deviceID :
  ∃ body, device_code accountID deviceID = locked (EnrollmentMu, Exclusive) body ∧ tidy 1 [] body.
Proof.
  eexists. split; [reflexivity|]. apply tidy_bind; [auto with code|intros _]. apply tidy_bind; [done|intros current].
  apply tidy_locked; [cbn; lia|done].
Qed.

Lemma latest_body_tidy deviceID :
  ∃ body, latest_code deviceID = locked (ConfigurationsMu, Exclusive) body ∧ tidy 1 [] body.
Proof.
  eexists. split; [reflexivity|]. apply tidy_bind; [apply tidy_on, check_tidy; cbn; lia|intros _].
  apply tidy_locked; [cbn; lia|]. by apply tidy_bind.
Qed.

(** The mutex of the store that a call is for. *)
Definition guard_of (c : StoreCall) : Hold :=
  match c with CallLatest _ => (ConfigurationsMu, Exclusive) | _ => (EnrollmentMu, Exclusive) end.

Lemma locked_call_code {C D A} (get : C → D) set f x (body : Method (D * Sys) A) :
  level x.1 = 1%nat → tidy 1 [] body →
  ∃ k, reply_with f (code_on get set (locked x body)) = Acquire x k ∧ closing x k ∧ tidy 0 [] (Acquire x k).
Proof.
  intros Hx Hbody. eexists. split; [reflexivity|]. split.
  - apply closing_bind, closing_on, closing_locked. by rewrite Hx.
  - refine (tidy_reply 0 f (code_on get set (locked x body)) _). apply tidy_on, tidy_locked; rewrite Hx; [lia|done].
Qed.

(** A call holds the mutex of its store from its first step to its last. *)
Lemma call_code_guarded c : ∃ k, call_code c = Acquire (guard_of c) k ∧ closing (guard_of c) k ∧ tidy 0 [] (Acquire (guard_of c) k).
Proof.
  destruct c as [accountID deviceID at_ random|request at_|accountID deviceID|deviceID]; cbn [call_code guard_of].
  - destruct (issue_body_tidy accountID deviceID at_ random) as (body & -> & ?). by apply locked_call_code.
  - destruct (enroll_body_tidy request at_) as (body & -> & ?). by apply locked_call_code.
  - destruct (device_body_tidy accountID deviceID) as (body & -> & ?). by apply locked_call_code.
  - destruct (latest_body_tidy deviceID) as (body & -> & ?). by apply locked_call_code.
Qed.

(** *** Steps *)

Lemma check_within mu : within 3 (check_code mu).
Proof. done. Qed.

Lemma write_within mu data : within 17 (write_code mu data).
Proof.
  apply (within_mono (S (15 + 1))); [lia|]. apply within_locked.
  do 4 (apply (within_bind 1); [done|intros]). apply (within_bind 1 10); [done|intros dir].
  apply (within_deferred 9). apply (within_bind 1); [done|intros temporary]. apply (within_deferred 7), (within_deferred 6).
  do 5 (apply (within_bind 1); [done|intros]). case_match; [|done]. by apply (within_bind 1).
Qed.

Lemma persist_within candidate : within 18 (persist_code candidate).
Proof.
  apply (within_bind 17); [|done]. apply (within_bind 0 17); [done|]. intros data. apply within_on, write_within.
Qed.

Definition call_steps : nat := 27.

Lemma issue_within accountID deviceID now random : within 27 (issue_code accountID deviceID now random).
Proof.
  apply (within_locked 25). apply (within_bind 3); [done|intros _]. apply (within_bind 1); [done|intros current].
  apply (within_bind 3); [unfold candidate_issue; by case_match|intros [r candidate]]. apply (within_bind 0); [done|intros challenge].
  apply (within_bind 18 0); [apply persist_within|done].
Qed.

Lemma enroll_within request now : within 27 (enroll_code request now).
Proof.
  apply (within_locked 25). apply (within_bind 3); [done|intros _]. apply (within_bind 1); [done|intros current].
  apply (within_bind 3); [unfold candidate_enroll; by case_match|intros [r candidate]]. apply (within_bind 18 0); [|done].
  case_match; [apply persist_within|done].
Qed.

Lemma call_code_within c : within call_steps (call_code c).
Proof.
  destruct c; cbn [call_code]; apply within_reply, within_on; [apply issue_within|apply enroll_within|..].
  - apply (within_mono 9); [unfold call_steps; lia|]. apply (within_locked 7).
    apply (within_bind 3); [done|intros _]. by apply (within_bind 1).
  - apply (within_mono 9); [unfold call_steps; lia|]. apply (within_locked 7). apply (within_bind 3); [done|intros _].
    apply (within_locked 2). by apply (within_bind 1).
Qed.
End methods_discipline.

(** ** Mutual exclusion *)

(** How often a list of holds, or a list of such lists, holds [x]. *)
Definition occurrences (x : Hold) (l : list Hold) : nat := length (filter (λ y, y = x) l).
Definition total (x : Hold) (ls : list (list Hold)) : nat := sum_list_with (occurrences x) ls.

Lemma sum_insert {A} (f : A → nat) l i a b :
  l !! i = Some a → (sum_list_with f (<[i := b]> l) + f a = sum_list_with f l + f b)%nat.
Proof. revert i. induction l as [|y l IH]; intros [|i] Hi; simplify_eq/=; [lia|]. specialize (IH i Hi). lia. Qed.

Lemma sum_pair {A} (f : A → nat) l i j a b :
  l !! i = Some a → l !! j = Some b → i ≠ j → (f a + f b ≤ sum_list_with f l)%nat.
Proof.
  revert i j. induction l as [|y l IH]; intros [|i] [|j] Hi Hj Hne; [done..|exfalso; congruence|cbn in *|cbn in *|cbn in *]; simplify_eq.
  - apply list_elem_of_lookup_2, (sum_list_with_in _ f) in Hj. lia.
  - apply list_elem_of_lookup_2, (sum_list_with_in _ f) in Hi. lia.
  - specialize (IH i j Hi Hj ltac:(congruence)). lia.
Qed.

Lemma occurrences_cons x y l : occurrences x (y :: l) = ((if decide (x = y) then 1 else 0) + occurrences x l)%nat.
Proof. unfold occurrences. rewrite filter_cons. repeat case_decide; subst; done. Qed.

Lemma occurrences_pos x l : x ∈ l ↔ (0 < occurrences x l)%nat.
Proof.
  induction l as [|y l IH]; [split; [set_solver|cbn; lia]|]. rewrite occurrences_cons, elem_of_cons, IH.
  case_decide; split; [lia|auto| |lia]. by intros [->|?].
Qed.

Lemma total_pos x ls : (0 < total x ls)%nat → ∃ i l, ls !! i = Some l ∧ x ∈ l.
Proof.
  induction ls as [|l ls IH]; cbn; [lia|]. intros Hp. destruct (decide (x ∈ l)) as [Hx|Hx]; [by exists 0%nat, l|].
  rewrite occurrences_pos in Hx. destruct IH as (i & l' & ? & ?); [unfold total; lia|]. by exists (S i), l'.
Qed.

Lemma forall3_insert {A B C} (P Q : A → B → C → Prop) l k m i a b c :
  Forall3 P l k m → (∀ j x y z, j ≠ i → l !! j = Some x → k !! j = Some y → m !! j = Some z → P x y z → Q x y z) → Q a b c →
  Forall3 Q (<[i := a]> l) (<[i := b]> k) (<[i := c]> m).
Proof.
  intros H3. revert i. induction H3 as [|x y z l k m HP H3 IH]; intros i Himpl HQ; [constructor|].
  destruct i as [|i]; cbn; constructor; [done| |by apply (Himpl 0%nat)|].
  - clear IH HP. assert (∀ j x y z, l !! j = Some x → k !! j = Some y → m !! j = Some z → P x y z → Q x y z) as Hrest
      by (intros j ? ? ?; apply (Himpl (S j)); lia).
    clear Himpl. induction H3 as [|x' y' z' l k m HP H3 IH]; constructor; [by apply (Hrest 0%nat)|].
    apply IH. intros j ? ? ?. apply (Hrest (S j)).
  - apply IH; [|done]. intros j x' y' z' Hj. apply (Himpl (S j)). lia.
Qed.

(** ** The server with mutexes refines the one without *)

Section refinement.
Context `{Storage} `{GoQuote} `{Ed25519} `{Sha256} `{MapRange} `{Json EnrollmentSnapshot} `{Json FileState}.
Context `{Mime} `{BodyJson ChallengeRequest} `{BodyJson DeviceRequest}.
Context (version : string) (auth : AccountAuthenticator) (verifier : Verifier).

Local Abbreviation W := (Runtime * Sys)%type.
Local Abbreviation upcoming := (next version auth verifier).
Local Abbreviation calls := (perform runtime_repository runtime_reader).
Local Abbreviation step := (step version auth verifier runtime_repository runtime_reader).
Local Abbreviation lstep := (locked_step version auth verifier call_code).

(** What a lookup of a configuration depends on. *)
Definition view (w : W) : FileStore := rt_configurations w.1.

Definition keeps_view (B : Type) (m : Act W GoError B) : Prop := ∀ w, view (m w).2 = view w.
Definition reads_view (B : Type) (m : Act W GoError B) : Prop :=
  (∀ w, (m w).2 = w) ∧ ∀ w w', view w = view w' → (m w).1 = (m w').1.

Definition lookup_call (c : StoreCall) : bool := match c with CallLatest _ => true | _ => false end.

Lemma call_code_keeps c : lookup_call c = false → code_all keeps_view (call_code c).
Proof.
  destruct c; [intros _..|done]; cbn [call_code]; apply code_all_bind, code_all_on; intros B m w;
    apply (on_enrollment_configurations m w).
Qed.

Lemma on_configurations_reads {B} (m : Act (FileStore * Sys) GoError B) :
  (∀ t s, (m (t, s)).2 = (t, s)) → (∀ t s s', (m (t, s)).1 = (m (t, s')).1) → reads_view B (on_configurations m).
Proof.
  intros Hs Hr. unfold on_configurations, on_part. split.
  - intros [[e t] s]. specialize (Hs t s). cbn. by destruct (m (t, s)) as [r [t' s']]; simplify_eq/=.
  - intros [rt s] [rt' s'] Hv. unfold view in Hv. cbn in Hv. rewrite Hv. specialize (Hr (rt_configurations rt') s s').
    destruct (m (_, s)) as [r [t u]], (m (_, s')) as [r' [t' u']]. done.
Qed.

Lemma store_check_reads : reads_view unit (on_configurations (on_store_file file_check)).
Proof.
  apply on_configurations_reads; intros [[path limit lock failed] data]; intros; by destruct lock, failed.
Qed.

Lemma call_code_reads id : code_all reads_view (call_code (CallLatest id)).
Proof.
  cbn [call_code]. apply code_all_bind. split; [apply store_check_reads|]. intros [[]|e|]; [|done..].
  split; [by apply on_configurations_reads|]. intros [devices|e|]; [|done..]. split; [by apply on_configurations_reads|]. by intros.
Qed.

Lemma run_code_reads {R} (c : Code W R) : code_all reads_view c →
  (∀ w, (run_code c w).2 = w) ∧ ∀ w w', view w = view w' → (run_code c w).1 = (run_code c w').1.
Proof.
  induction c as [r|x k IH|x k IH|B m k IH]; cbn [code_all run_code]; [done|auto..|]. intros [[Hs Hr] Hk]. split.
  - intros w. specialize (Hs w). destruct (m w) as [r w']; cbn in *; subst. by apply IH.
  - intros w w' Hv. pose proof (Hs w). pose proof (Hs w'). specialize (Hr w w' Hv).
    destruct (m w) as [r u], (m w') as [r' u']; cbn in *; subst. by apply IH.
Qed.

Lemma lookup_view id w w' : view w = view w' → (calls (CallLatest id) w).1 = (calls (CallLatest id) w').1.
Proof. intros Hv. rewrite <-!call_code_run. by apply run_code_reads; [apply call_code_reads|]. Qed.

Lemma lookup_same id w : (calls (CallLatest id) w).2 = w.
Proof. rewrite <-call_code_run. apply run_code_reads, call_code_reads. Qed.

(** *** The relation

    While a request is inside the enrollment store, the world is on the way from
    the one before its call to the one after it, and the rest of its code leads
    there; it takes effect when it unlocks the store.  A lookup sees the
    configurations, which no other call changes. *)

Definition agrees (w0 w : W) (c : StoreCall) (code : Code W Reply) : Prop :=
  if lookup_call c then code_all reads_view code ∧ (run_code code w).1 = (calls c w).1
  else code_all keeps_view code ∧ run_code code w = calls c w0.

Inductive tied (w0 w : W) : list Hold → LockedJob W → Job → Prop :=
| tied_outside request env log : tied w0 w [] (Outside request env log) (Running request env log)
| tied_before request env log c :
    upcoming request env log = Ask c → tied w0 w [] (Inside request env log c (call_code c)) (Running request env log)
| tied_in l request env log c code :
    upcoming request env log = Ask c → guard_of c ∈ l → Forall (λ y, y = guard_of c ∨ (1 < level y.1)%nat) l →
    tidy 0 l code → closing (guard_of c) code → agrees w0 w c code →
    tied w0 w l (Inside request env log c code) (Running request env log)
| tied_after request env log c reply :
    upcoming request env log = Ask c →
    tied w0 w [] (Inside request env log c (Finish reply)) (Running request env (log ++ [reply]))
| tied_replied request env response : tied w0 w [] (Replied request env response) (Sent request env response)
| tied_lost request env : tied w0 w [] (Lost request env) (Gone request env).

Definition owner : Hold := (EnrollmentMu, Exclusive).

Record tied_server (s : LockedServer W) (t : Server W) (ls : list (list Hold)) : Prop := {
  tied_jobs : Forall3 (tied (world t) (lworld s)) ls (ljobs s) (jobs t);
  tied_held : ∀ x, held s x = total x ls;
  tied_exclusive : ∀ m, (held s (m, Exclusive) ≤ 1)%nat;
  tied_view : view (lworld s) = view (world t);
  tied_worlds : held s owner = 0%nat → lworld s = world t;
}.

(** Only the holder of the enrollment store sees a change of the world. *)
Lemma tied_frame w0 w w0' w' l j a :
  tied w0 w l j a → owner ∉ l → view w' = view w → tied w0' w' l j a.
Proof.
  intros Htied Hl Hv. destruct Htied as [| |l request env log c code Hn Hg Hup Ht Hc Ha| | |]; try by constructor.
  apply tied_in; [done..|]. unfold agrees in *. destruct c as [| | |id]; cbn [lookup_call guard_of] in *; [done..|].
  destruct Ha as [Hr Ha]. split; [done|]. rewrite (lookup_view id _ w Hv), <-Ha. by apply run_code_reads.
Qed.

Section related.
Context (s : LockedServer W) (t : Server W) (ls : list (list Hold)) (Htied : tied_server s t ls).

Lemma tied_lookup i j : ljobs s !! i = Some j → ∃ l a, ls !! i = Some l ∧ jobs t !! i = Some a ∧ tied (world t) (lworld s) l j a.
Proof.
  intros Hi. destruct (Forall3_lookup_m _ _ _ _ _ _ (tied_jobs _ _ _ Htied) Hi) as (l & a & ? & ? & ?). by exists l, a.
Qed.

Lemma tied_holds i l x : ls !! i = Some l → x ∈ l → (0 < held s x)%nat.
Proof.
  intros Hi Hx%occurrences_pos. rewrite (tied_held _ _ _ Htied). apply list_elem_of_lookup_2 in Hi.
  apply (sum_list_with_in _ (occurrences x)) in Hi. unfold total. lia.
Qed.

Lemma tied_alone i i' l l' m : ls !! i = Some l → ls !! i' = Some l' → i ≠ i' → (m, Exclusive) ∈ l → (m, Exclusive) ∉ l'.
Proof.
  intros Hi Hi' Hne Hl%occurrences_pos Hl'%occurrences_pos. pose proof (tied_exclusive _ _ _ Htied m) as Hone.
  rewrite (tied_held _ _ _ Htied) in Hone. pose proof (sum_pair (occurrences (m, Exclusive)) _ _ _ _ _ Hi Hi' Hne). unfold total in Hone. lia.
Qed.

(** A step of one request that changes the worlds at most when it holds the enrollment store. *)
Lemma tied_insert w' w0' held' i l l' j' a' :
  ls !! i = Some l → (w' = lworld s ∧ w0' = world t) ∨ (owner ∈ l ∧ view w' = view (lworld s)) → view w' = view w0' →
  tied w0' w' l' j' a' → (∀ x, (held' x + occurrences x l = held s x + occurrences x l')%nat) →
  (∀ m, (held' (m, Exclusive) ≤ 1)%nat) → (held' owner = 0%nat → w' = w0') →
  tied_server (mkLocked w' held' (<[i := j']> (ljobs s))) (mkServer w0' (<[i := a']> (jobs t))) (<[i := l']> ls).
Proof.
  intros Hi Hworlds Hview Hj Hheld Hone Hsame. split; cbn [lworld world ljobs jobs held]; [|..|done|done].
  - eapply forall3_insert; [exact (tied_jobs _ _ _ Htied)| |done]. intros i' x y z Hne Hx _ _ Hx'.
    destruct Hworlds as [[-> ->]|[Ho Hv]]; [done|]. eapply tied_frame; [done| |done]. by apply (tied_alone i i' l).
  - intros x. specialize (Hheld x). rewrite (tied_held _ _ _ Htied) in Hheld. unfold total in *.
    pose proof (sum_insert (occurrences x) _ _ _ l' Hi). lia.
  - done.
Qed.

(** A step that leaves what is held as it is. *)
Lemma tied_insert_same i l j' a' :
  ls !! i = Some l → tied (world t) (lworld s) l j' a' →
  tied_server (mkLocked (lworld s) (held s) (<[i := j']> (ljobs s))) (mkServer (world t) (<[i := a']> (jobs t))) (<[i := l]> ls).
Proof.
  intros Hi Hj. eapply tied_insert; [done|by left|apply (tied_view _ _ _ Htied)|done|done|apply (tied_exclusive _ _ _ Htied)|].
  apply (tied_worlds _ _ _ Htied).
Qed.

Lemma jobs_kept i a : jobs t !! i = Some a → mkServer (world t) (<[i := a]> (jobs t)) = t.
Proof. intros Hi. destruct t as [w js]. cbn in *. by rewrite list_insert_id. Qed.

Lemma tied_received request env :
  tied_server (mkLocked (lworld s) (held s) (ljobs s ++ [Outside request env []]))
    (mkServer (world t) (jobs t ++ [Running request env []])) (ls ++ [[]]).
Proof.
  destruct Htied as [Hj Hh Ho Hv Hw]. split; cbn [lworld world ljobs jobs held]; [|..|done|done|done].
  - apply Forall3_app; [done|]. repeat constructor.
  - intros x. rewrite Hh. unfold total. rewrite sum_list_with_app. cbn. lia.
Qed.

Lemma held_hold x l y : (hold x (held s) y + occurrences y l = held s y + occurrences y (x :: l))%nat.
Proof. unfold hold. rewrite occurrences_cons. case_decide; subst; lia. Qed.

Lemma held_unhold x l y : (0 < held s x)%nat → (unhold x (held s) y + occurrences y (x :: l) = held s y + occurrences y l)%nat.
Proof. intros Hx. unfold unhold. rewrite occurrences_cons. case_decide; subst; lia. Qed.

Lemma exclusive_hold x m : available (held s) x = true → (hold x (held s) (m, Exclusive) ≤ 1)%nat.
Proof.
  unfold available, hold. pose proof (tied_exclusive _ _ _ Htied m) as Hm. case_decide as Hx; [subst; cbn|done].
  intros [Hnone%Nat.eqb_eq _]%andb_true_iff. lia.
Qed.

Lemma exclusive_unhold x m : (unhold x (held s) (m, Exclusive) ≤ 1)%nat.
Proof. unfold unhold. pose proof (tied_exclusive _ _ _ Htied m) as Hm. case_decide; [|done]. lia. Qed.

(** The code of a call after it has locked its store. *)
Lemma agrees_entering c x k :
  call_code c = Acquire x k → available (held s) x = true → agrees (world t) (lworld s) c k ∧ x = guard_of c ∧
    closing (guard_of c) k ∧ tidy 0 [x] k.
Proof.
  intros Hc Ha. destruct (call_code_guarded c) as (k' & Hk & Hclose & Htidy). rewrite Hc in Hk. simplify_eq.
  cbn [tidy] in Htidy. split_and!; [|done|done|by destruct Htidy as (_ & _ & ?)].
  assert (∀ w, run_code k' w = calls c w) as Hrun by (intros w; by rewrite <-call_code_run, Hc).
  unfold agrees. destruct (lookup_call c) eqn:Hl; rewrite Hrun.
  - destruct c as [| | |id]; [done..|]. split; [|done]. pose proof (call_code_reads id) as Hr. by rewrite Hc in Hr.
  - pose proof (call_code_keeps c Hl) as Hr. rewrite Hc in Hr. split; [done|].
    destruct c as [| | |id]; [..|done]; f_equal; apply (tied_worlds _ _ _ Htied); unfold available in Ha;
      by apply andb_true_iff in Ha as [?%Nat.eqb_eq _].
Qed.

Lemma acquire_sim i request env log c x k :
  ljobs s !! i = Some (Inside request env log c (Acquire x k)) → available (held s) x = true →
  ∃ ls', tied_server (mkLocked (lworld s) (hold x (held s)) (<[i := Inside request env log c k]> (ljobs s))) t ls'.
Proof.
  intros Hi Ha. destruct (tied_lookup _ _ Hi) as (l & a & Hl & Hai & Hj). exists (<[i := x :: l]> ls).
  rewrite <-(jobs_kept i a Hai).
  assert (tied (world t) (lworld s) (x :: l) (Inside request env log c k) a) as Hj'.
  { inversion Hj as [|? ? ? ? Hn Heq|? ? ? ? ? ? Hn Hg Hup Ht Hc Hag| | |]; simplify_eq.
    - destruct (agrees_entering c x k) as (? & -> & ? & ?); [done..|]. apply tied_in; [done|by left| |done..].
      repeat constructor.
    - destruct Ht as (_ & Habove & Ht). apply tied_in; [done|by right| |done..]. constructor; [right|done].
      rewrite Forall_forall in Habove. pose proof (Habove _ Hg) as Hlt. by destruct c. }
  eapply tied_insert; [done|by left|apply (tied_view _ _ _ Htied)|done|apply held_hold| |].
  - intros m. by apply exclusive_hold.
  - unfold hold. case_decide; [done|]. apply (tied_worlds _ _ _ Htied).
Qed.

(** The call takes effect when it unlocks its store. *)
Lemma takes_effect c x reply :
  agrees (world t) (lworld s) c (Release x (Finish reply)) →
  ∃ w0', calls c (world t) = (reply, w0') ∧ (w0' = world t ∨ guard_of c = owner) ∧ view (lworld s) = view w0' ∧
    (unhold (guard_of c) (held s) owner = 0%nat → lworld s = w0').
Proof.
  unfold agrees. destruct (lookup_call c) eqn:Hl; cbn [run_code fst]; intros [_ Hag].
  - destruct c as [| | |id]; [done..|]. exists (world t). pose proof (tied_view _ _ _ Htied) as Hv. split_and!; [|by left|done|].
    + rewrite (surjective_pairing (calls _ (world t))), lookup_same. f_equal. rewrite Hag. by apply lookup_view.
    + apply (tied_worlds _ _ _ Htied).
  - exists (lworld s). split_and!; [done|right; by destruct c|done..].
Qed.

Lemma release_sim i request env log c x k w0 events :
  ljobs s !! i = Some (Inside request env log c (Release x k)) → runs step w0 events t →
  ∃ t' ls', runs step w0 events t' ∧
    tied_server (mkLocked (lworld s) (unhold x (held s)) (<[i := Inside request env log c k]> (ljobs s))) t' ls'.
Proof.
  intros Hi Hruns. destruct (tied_lookup _ _ Hi) as (l & a & Hl & Hai & Hj).
  inversion Hj as [|? ? ? ? Hn Heq|? ? ? ? ? ? Hn Hg Hup Ht Hc Hag| | |]; simplify_eq.
  { destruct (call_code_guarded c) as (k' & Hk & _). congruence. }
  destruct Ht as (l' & -> & Ht).
  pose proof (tied_holds _ _ x Hl ltac:(by left)) as Hx. apply Forall_cons in Hup as [Hup Hup'].
  destruct Hc as [[-> [reply ->]]|[Hne Hc]].
  - cbn in Ht. subst l'. destruct (takes_effect _ _ _ Hag) as (w0' & Hp & Hworlds & Hview & Hsame).
    exists (mkServer w0' (<[i := Running request env (log ++ [reply])]> (jobs t))), (<[i := []]> ls). split.
    + eapply (runs_snoc _ _ _ _ None); [exact Hruns|by eapply step_call|by rewrite app_nil_r].
    + eapply tied_insert; [done|destruct Hworlds as [?|Hg']; [by left|right; split; [rewrite <-Hg'; by left|done]]|done|by constructor| |apply exclusive_unhold|done].
      intros. by apply held_unhold.
  - exists t, (<[i := l']> ls). split; [done|]. rewrite <-(jobs_kept i _ Hai).
    eapply tied_insert; [done|by left|apply (tied_view _ _ _ Htied)| |intros; by apply held_unhold|apply exclusive_unhold|].
    + apply tied_in; [done|set_solver|done..].
    + unfold unhold. case_decide as Ho; [|apply (tied_worlds _ _ _ Htied)]. subst x. destruct Hup as [?|Hup]; [done|]. cbn in Hup. lia.
Qed.

Lemma perform_sim i request env log c B (m : Act W GoError B) k r w' :
  ljobs s !! i = Some (Inside request env log c (Perform m k)) → m (lworld s) = (r, w') →
  ∃ ls', tied_server (mkLocked w' (held s) (<[i := Inside request env log c (k r)]> (ljobs s))) t ls'.
Proof.
  intros Hi Hm. destruct (tied_lookup _ _ Hi) as (l & a & Hl & Hai & Hj). exists (<[i := l]> ls).
  inversion Hj as [|? ? ? ? Hn Heq|? ? ? ? ? ? Hn Hg Hup Ht Hc Hag| | |]; simplify_eq.
  { destruct (call_code_guarded c) as (k' & Hk & _). congruence. }
  rewrite <-(jobs_kept i _ Hai). unfold agrees in Hag. cbn [code_all run_code] in Hag. rewrite Hm in Hag.
  destruct (lookup_call c) eqn:Hlook; destruct Hag as [[Hop Hops] Hag].
  - destruct Hop as [Hop _]. specialize (Hop (lworld s)). rewrite Hm in Hop. cbn in Hop. subst w'.
    apply tied_insert_same; [done|]. apply tied_in; [done..|]. unfold agrees. by rewrite Hlook.
  - specialize (Hop (lworld s)). rewrite Hm in Hop. cbn in Hop. assert (guard_of c = owner) as Howner by by destruct c.
    eapply tied_insert; [done|right; by rewrite <-Howner|rewrite Hop; apply (tied_view _ _ _ Htied)| |done|apply (tied_exclusive _ _ _ Htied)|].
    + apply tied_in; [done..|]. unfold agrees. by rewrite Hlook.
    + rewrite <-Howner. pose proof (tied_holds _ _ _ Hl Hg). lia.
Qed.

Lemma return_sim i request env log c reply :
  ljobs s !! i = Some (Inside request env log c (Finish reply)) →
  ∃ ls', tied_server (mkLocked (lworld s) (held s) (<[i := Outside request env (log ++ [reply])]> (ljobs s))) t ls'.
Proof.
  intros Hi. destruct (tied_lookup _ _ Hi) as (l & a & Hl & Hai & Hj). exists (<[i := l]> ls).
  rewrite <-(jobs_kept i _ Hai). apply tied_insert_same; [done|].
  inversion Hj as [|? ? ? ? Hn Heq|? ? ? ? ? ? Hn Hg Hup Ht Hc Hag| | |]; simplify_eq; [|done|constructor].
  destruct (call_code_guarded c) as (k' & Hk & _). congruence.
Qed.

Lemma enter_sim i request env log c :
  ljobs s !! i = Some (Outside request env log) → upcoming request env log = Ask c →
  ∃ ls', tied_server (mkLocked (lworld s) (held s) (<[i := Inside request env log c (call_code c)]> (ljobs s))) t ls'.
Proof.
  intros Hi Hn. destruct (tied_lookup _ _ Hi) as (l & a & Hl & Hai & Hj). exists (<[i := l]> ls).
  rewrite <-(jobs_kept i _ Hai). apply tied_insert_same; [done|]. inversion Hj; simplify_eq. by constructor.
Qed.

(** Ending a request. *)
Lemma leave_sim i request env log j' a' :
  ljobs s !! i = Some (Outside request env log) → tied (world t) (lworld s) [] j' a' →
  jobs t !! i = Some (Running request env log) ∧
  ∃ ls', tied_server (mkLocked (lworld s) (held s) (<[i := j']> (ljobs s))) (mkServer (world t) (<[i := a']> (jobs t))) ls'.
Proof.
  intros Hi Hj'. destruct (tied_lookup _ _ Hi) as (l & a & Hl & Hai & Hj). inversion Hj; simplify_eq. split; [done|].
  exists (<[i := []]> ls). by apply tied_insert_same.
Qed.
End related.

Lemma locked_step_sim s e s' t ls w0 events :
  lstep s e s' → tied_server s t ls → runs step w0 events t →
  ∃ t' ls', runs step w0 (events ++ option_list e) t' ∧ tied_server s' t' ls'.
Proof.
  intros Hstep Htied Hruns. destruct Hstep as [s request env|s i request env log c Hi Hn|s i request env log c x k Hi Ha
    |s i request env log c x k Hi Hx|s i request env log c B m k r w' Hi Hm|s i request env log c reply Hi
    |s i request env log response Hi Hn|s i request env log Hi Hn]; cbn [option_list]; rewrite ?app_nil_r.
  - eexists _, _. split; [eapply (runs_more _ _ _ _ (Some _)); [exact Hruns|apply step_receive]|by apply tied_received].
  - destruct (enter_sim _ _ _ Htied _ _ _ _ _ Hi Hn) as [ls' ?]. eauto.
  - destruct (acquire_sim _ _ _ Htied _ _ _ _ _ _ _ Hi Ha) as [ls' ?]. eauto.
  - exact (release_sim _ _ _ Htied _ _ _ _ _ _ _ _ _ Hi Hruns).
  - destruct (perform_sim _ _ _ Htied _ _ _ _ _ _ _ _ _ _ Hi Hm) as [ls' ?]. eauto.
  - destruct (return_sim _ _ _ Htied _ _ _ _ _ _ Hi) as [ls' ?]. eauto.
  - destruct (leave_sim _ _ _ Htied _ _ _ _ _ _ Hi (tied_replied _ _ request env response)) as (Hj & ls' & ?).
    eexists _, ls'. split; [|done]. eapply (runs_more _ _ _ _ (Some _)); [exact Hruns|by eapply step_answer].
  - destruct (leave_sim _ _ _ Htied _ _ _ _ _ _ Hi (tied_lost _ _ request env)) as (Hj & ls' & ?).
    eexists _, ls'. split; [|done]. eapply (runs_more _ _ _ _ (Some _)); [exact Hruns|by eapply step_drop].
Qed.

(** Every run of the server with mutexes is one of the server without. *)
Lemma locked_runs_sim w events s :
  runs lstep (started_locked w) events s → ∃ t ls, runs step (mkServer w []) events t ∧ tied_server s t ls.
Proof.
  remember (started_locked w) as s0 eqn:Hs0. intros Hruns. induction Hruns as [s|s l s' e s'' Hruns IH Hstep]; subst.
  - exists (mkServer w []), []. split; [constructor|]. split; cbn; [constructor|done|lia|done|done].
  - destruct (IH eq_refl) as (t & ls & Ht & Htied). by eapply locked_step_sim.
Qed.

(** *** Progress *)

Definition moves (s : LockedServer W) : Prop := ∃ e s', lstep s e s' ∧ arrival e = false.

Lemma tied_tidy w0 w l request env log c code a : tied w0 w l (Inside request env log c code) a → tidy 0 l code.
Proof.
  inversion 1; simplify_eq; [|done|done]. destruct (call_code_guarded c) as (k & -> & _ & Ht). exact Ht.
Qed.

Lemma tied_holder w0 w l j a x : tied w0 w l j a → x ∈ l → ∃ request env log c code, j = Inside request env log c code.
Proof. destruct 1; [set_solver..| |set_solver|set_solver|set_solver]. by eexists _, _, _, _, _. Qed.

Lemma not_available held x : available held x = false → ∃ mode, (0 < held (x.1, mode))%nat.
Proof.
  unfold available. destruct x as [m []]; cbn.
  - intros [Hn%Nat.eqb_neq|Hn%Nat.eqb_neq]%andb_false_iff; [exists Exclusive|exists Shared]; lia.
  - intros Hn%Nat.eqb_neq. exists Exclusive. lia.
Qed.

(** A request inside a call goes on, or waits for a mutex that another one holds. *)
Lemma moves_or_waits s t ls i request env log c code :
  tied_server s t ls → ljobs s !! i = Some (Inside request env log c code) →
  moves s ∨ ∃ x k mode i' l', code = Acquire x k ∧ ls !! i' = Some l' ∧ (x.1, mode) ∈ l'.
Proof.
  intros Htied Hi. destruct (tied_lookup _ _ _ Htied _ _ Hi) as (l & a & Hl & Hai & Hj). apply tied_tidy in Hj.
  destruct code as [reply|x k|x k|B m k].
  - left. eexists _, _. split; [by eapply locked_return|done].
  - destruct (available (held s) x) eqn:Ha; [left; eexists _, _; split; [by eapply locked_acquire|done]|right].
    destruct (not_available _ _ Ha) as [mode Hpos]. rewrite (tied_held _ _ _ Htied) in Hpos.
    destruct (total_pos _ _ Hpos) as (i' & l' & ? & ?). by exists x, k, mode, i', l'.
  - left. destruct Hj as (l' & -> & _). eexists _, _. split; [eapply locked_release; [done|]|done].
    eapply tied_holds; [done..|by left].
  - left. destruct (m (lworld s)) as [r w'] eqn:Hm. eexists _, _. split; [by eapply locked_perform|done].
Qed.

(** The mutexes waited for are ordered, so somebody waits for none. *)
Lemma somebody_moves s t ls n i request env log c code :
  tied_server s t ls → ljobs s !! i = Some (Inside request env log c code) →
  (∀ x k, code = Acquire x k → (2 < n + level x.1)%nat) → moves s.
Proof.
  intros Htied. revert i request env log c code. induction n as [|n IH]; intros i request env log c code Hi Hn;
    (destruct (moves_or_waits _ _ _ _ _ _ _ _ _ Htied Hi) as [?|(x & k & mode & i' & l' & -> & Hl' & Hx)]; [done|]);
    specialize (Hn x k eq_refl); [destruct x as [[] ?]; cbn in Hn; lia|].
  destruct (Forall3_lookup_l _ _ _ _ _ _ (tied_jobs _ _ _ Htied) Hl') as (j & a & Hj & _ & Htj).
  destruct (tied_holder _ _ _ _ _ _ Htj Hx) as (request' & env' & log' & c' & code' & ->).
  apply (IH _ _ _ _ _ _ Hj). intros y k' ->. apply tied_tidy in Htj as (_ & Habove & _).
  rewrite Forall_forall in Habove. specialize (Habove _ Hx). cbn in Habove. lia.
Qed.

(** As long as a request is in flight, one of them can go on. *)
Lemma never_stuck s t ls j : tied_server s t ls → j ∈ ljobs s → in_flight j = true → moves s.
Proof.
  intros Htied [i Hi]%list_elem_of_lookup_1 Hf. destruct j as [request env log|request env log c code| |]; [..|done|done].
  - destruct (upcoming request env log) as [c|response|] eqn:Hn; eexists _, _; (split; [|]);
      [by eapply locked_call|done|by eapply locked_answer|done|by eapply locked_drop|done].
  - eapply (somebody_moves _ _ _ 3); [done..|]. intros. lia.
Qed.

Lemma idle_free s t ls x : tied_server s t ls → Forall (λ j, in_flight j = false) (ljobs s) → held s x = 0%nat.
Proof.
  intros Htied Hidle. rewrite (tied_held _ _ _ Htied). destruct (total x ls) as [|n] eqn:Hx; [done|].
  destruct (total_pos x ls) as (i & l & Hl & Hin); [lia|].
  destruct (Forall3_lookup_l _ _ _ _ _ _ (tied_jobs _ _ _ Htied) Hl) as (j & a & Hj & _ & Htj).
  destruct (tied_holder _ _ _ _ _ _ Htj Hin) as (? & ? & ? & ? & ? & ->).
  rewrite Forall_lookup in Hidle. by specialize (Hidle _ _ Hj).
Qed.

(** *** Every request ends *)

(** The steps a request still takes at most: two store calls and its end. *)
Definition request_steps : nat := 2 * (call_steps + 2) + 1.

Definition after_call (log : list Reply) : nat := (1 - length log) * (call_steps + 2) + 1.

Definition owes (n : nat) (j : LockedJob W) : Prop :=
  match j with
  | Outside _ _ log => n = ((2 - length log) * (call_steps + 2) + 1)%nat
  | Inside _ _ log _ code => ∃ m, within m code ∧ n = (m + 1 + after_call log)%nat ∧ (m ≤ call_steps)%nat ∧ (length log ≤ 1)%nat
  | _ => n = 0%nat
  end.

(** How many requests are in flight. *)
Definition open_requests (s : LockedServer W) : nat := length (filter (λ j, in_flight j = true) (ljobs s)).

Lemma feed_ask n p log c k : depth_le n p → matches p log → feed p log = Do c k → (length log < n)%nat.
Proof.
  revert n p. induction log as [|reply log IH]; intros [|n] [r|c' k'] Hd Hm Hf; cbn in *; simplify_eq; try done; [lia|].
  destruct Hm as [_ Hm]. pose proof (IH n (k' reply) (Hd reply) Hm Hf). lia.
Qed.

(** A request asks a store twice at most. *)
Lemma asks_twice w events s i request env log c :
  runs lstep (started_locked w) events s → ljobs s !! i = Some (Outside request env log) → upcoming request env log = Ask c →
  (length log ≤ 1)%nat.
Proof.
  intros (t & ls & Hruns & Htied)%locked_runs_sim Hi Hn. destruct (tied_lookup _ _ _ Htied _ _ Hi) as (l & a & _ & Ha & Hj).
  inversion Hj; simplify_eq. destruct (job_matches _ _ _ _ _ _ _ _ _ _ _ _ Hruns Ha) as (p & Ht & Hm).
  rewrite (tree_next _ _ _ _ _ _ _ _ Ht log Hm) in Hn. destruct (feed p log) as [[]|c' k] eqn:Hf; [done..|].
  pose proof (feed_ask 2 p log c' k (shaped_depth _ _ (tree_shaped _ _ _ _ _ _ _ _ Ht)) Hm Hf). lia.
Qed.

Lemma owes_insert s ns i n j j' n' :
  Forall2 owes ns (ljobs s) → ns !! i = Some n → ljobs s !! i = Some j → owes n' j' → (n' < n)%nat →
  ∃ ns', Forall2 owes ns' (<[i := j']> (ljobs s)) ∧ (sum_list ns' < sum_list ns)%nat.
Proof.
  intros Hall Hn Hj Hj' Hlt. exists (<[i := n']> ns). split; [by apply Forall2_insert|].
  pose proof (sum_insert id _ _ _ n' Hn). cbn in *. lia.
Qed.

(** A step uses up what a request owes. *)
Lemma owes_step w events s e s' ns :
  runs lstep (started_locked w) events s → lstep s e s' → arrival e = false → Forall2 owes ns (ljobs s) →
  ∃ ns', Forall2 owes ns' (ljobs s') ∧ (sum_list ns' < sum_list ns)%nat.
Proof.
  intros Hruns Hstep He Hall. destruct Hstep as [s request env|s i request env log c Hi Hn|s i request env log c x k Hi Ha
    |s i request env log c x k Hi Hx|s i request env log c B m k r w' Hi Hm|s i request env log c reply Hi
    |s i request env log response Hi Hn|s i request env log Hi Hn]; [done|..];
    destruct (Forall2_lookup_r _ _ _ _ _ Hall Hi) as (n & Hns & Howes); cbn [owes] in Howes.
  - pose proof (asks_twice _ _ _ _ _ _ _ _ Hruns Hi Hn) as Hlog. eapply owes_insert; [done..| |].
    + exists call_steps. split_and!; [apply call_code_within|done..].
    + unfold after_call. destruct log as [|r [|]]; cbn in *; lia.
  - destruct Howes as (m & Hw & -> & Hm & Hlog). destruct m as [|m]; [done|].
    eapply owes_insert; [done..|exists m; split_and!; [done|done|lia|done]|lia].
  - destruct Howes as (m & Hw & -> & Hm & Hlog). destruct m as [|m]; [done|].
    eapply owes_insert; [done..|exists m; split_and!; [done|done|lia|done]|lia].
  - destruct Howes as (q & Hw & -> & Hq & Hlog). destruct q as [|q]; [done|].
    eapply owes_insert; [done..|exists q; split_and!; [apply Hw|done|lia|done]|lia].
  - destruct Howes as (m & Hw & -> & Hm & Hlog). eapply owes_insert; [done..|].
    rewrite length_app. unfold after_call. destruct log as [|r [|]]; cbn in *; lia.
  - eapply (owes_insert _ _ _ _ _ _ 0); [done..|rewrite Howes, Nat.add_1_r; apply Nat.lt_0_succ].
  - eapply (owes_insert _ _ _ _ _ _ 0); [done..|rewrite Howes, Nat.add_1_r; apply Nat.lt_0_succ].
Qed.

Lemma owes_reachable w events s : runs lstep (started_locked w) events s → ∃ ns, Forall2 owes ns (ljobs s).
Proof.
  remember (started_locked w) as s0 eqn:Hs0. intros Hruns. induction Hruns as [s|s l s' e s'' Hruns IH Hstep]; subst; [by exists []|].
  destruct (IH eq_refl) as [ns Hall]. destruct (arrival e) eqn:He.
  - destruct e as [[request env| |]|]; try done. inversion Hstep; simplify_eq. exists (ns ++ [request_steps])%list.
    apply Forall2_app; [done|]. by repeat constructor.
  - destruct (owes_step _ _ _ _ _ _ Hruns Hstep He Hall) as (ns' & ? & _). by exists ns'.
Qed.

Lemma owes_bound ns s : Forall2 owes ns (ljobs s) → (sum_list ns ≤ request_steps * open_requests s)%nat.
Proof.
  unfold open_requests. induction 1 as [|n j ns js Hn _ IH]; [done|]. rewrite filter_cons. cbn [sum_list_with id].
  assert (n ≤ if in_flight j then request_steps else 0)%nat as Hbound; [|destruct (in_flight j); case_decide; cbn [length]; [lia|done|done|lia]].
  unfold request_steps. destruct j as [request env log|request env log c code|request env response|request env]; cbn [owes in_flight] in *; [| |lia..].
  - subst n. apply Nat.add_le_mono_r, Nat.mul_le_mono_r. lia.
  - destruct Hn as (m & _ & -> & Hm & _). unfold after_call. destruct (length log); cbn; unfold call_steps in *; lia.
Qed.

Lemma undisturbed_bound w events s n s' ns :
  runs lstep (started_locked w) events s → Forall2 owes ns (ljobs s) →
  undisturbed version auth verifier call_code n s s' →
  (n ≤ sum_list ns)%nat ∧ ∃ events', runs lstep (started_locked w) events' s'.
Proof.
  intros Hruns Hall Hund. revert events ns Hruns Hall. induction Hund as [s|n s e s' s'' Hstep He Hund IH]; intros events ns Hruns Hall.
  - split; [lia|by exists events].
  - destruct (owes_step _ _ _ _ _ _ Hruns Hstep He Hall) as (ns' & Hall' & Hlt).
    destruct (IH _ _ (runs_more _ _ _ _ _ _ Hruns Hstep) Hall') as [Hn ?]. split; [lia|done].
Qed.
End refinement.

(** ** Theorem *)

Section claims.
Context `{Storage} `{GoQuote} `{Ed25519} `{Sha256} `{MapRange} `{Json EnrollmentSnapshot} `{Json FileState}.
Context `{Mime} `{BodyJson ChallengeRequest} `{BodyJson DeviceRequest}.
Context (version : string) (config : RuntimeConfig) (now : option Time) (rt : Runtime) (s : Sys).
Context (auth : AccountAuthenticator) (verifier : Verifier).

Local Abbreviation lstep := (locked_step version auth verifier call_code).
Local Abbreviation Locked := (LockedServer (Runtime * Sys)).

(** The requests that are over are over in both servers, with the same answers,
    and with no mutex held the stores are the same. *)
Definition same_requests (server : Locked) (server' : Server (Runtime * Sys)) : Prop :=
  (∀ i request env response,
     ljobs server !! i = Some (Replied request env response) ↔ jobs server' !! i = Some (Sent request env response)) ∧
  (∀ i request env, ljobs server !! i = Some (Lost request env) ↔ jobs server' !! i = Some (Gone request env)) ∧
  ((∀ x, held server x = 0%nat) → lworld server = world server').

Lemma tied_same server server' ls : tied_server version auth verifier server server' ls → same_requests server server'.
Proof.
  intros Htied. pose proof (tied_jobs _ _ _ _ _ _ Htied) as Hall. split_and!; [..|intros Hx; by apply (tied_worlds _ _ _ _ _ _ Htied)].
  - intros i request env response. split; intros Hi.
    + destruct (Forall3_lookup_m _ _ _ _ _ _ Hall Hi) as (l & a & _ & Ha & Hj). by inversion Hj; simplify_eq.
    + destruct (Forall3_lookup_r _ _ _ _ _ _ Hall Hi) as (l & j & _ & Hj & Ht). by inversion Ht; simplify_eq.
  - intros i request env. split; intros Hi.
    + destruct (Forall3_lookup_m _ _ _ _ _ _ Hall Hi) as (l & a & _ & Ha & Hj). by inversion Hj; simplify_eq.
    + destruct (Forall3_lookup_r _ _ _ _ _ _ Hall Hi) as (l & j & _ & Hj & Ht). by inversion Ht; simplify_eq.
Qed.

(** C20: the mutexes of the stores make store calls atomic and never block for
    ever.  In every state that a started server reaches, with the methods of the
    stores divided at every lock, unlock and disk operation and the requests
    interleaved in any way: what the server has received and answered is what the
    server with atomic store calls shows, with the same requests answered.  And as
    long as no further request arrives, the requests in flight take no more than 59
    steps each in whatever order they run, and when none of them can go on, all of
    them have been answered, or dropped after a panic, and every mutex is free. *)
Theorem requests_complete events server :
  runtime_parts config now = Ok (auth, verifier) →
  runs lstep (started_locked (rt, s)) events server →
  (∃ server', serves_concurrently version config now rt s events server' ∧ same_requests server server') ∧
  ∀ n later, undisturbed version auth verifier call_code n server later →
    (n ≤ request_steps * open_requests server)%nat ∧
    ((∀ e next, lstep later e next → arrival e = true) →
       Forall (λ j, in_flight j = false) (ljobs later) ∧ ∀ x, held later x = 0%nat).
Proof.
  intros Hparts Hruns. split.
  - destruct (locked_runs_sim _ _ _ _ _ _ Hruns) as (t & ls & Ht & Htied). exists t. split; [by exists auth, verifier|].
    by eapply tied_same.
  - intros n later Hund. destruct (owes_reachable _ _ _ _ _ _ Hruns) as [ns Howes].
    destruct (undisturbed_bound _ _ _ _ _ _ _ _ _ Hruns Howes Hund) as (Hn & events' & Hlater).
    split; [pose proof (owes_bound _ _ Howes); lia|]. intros Hstuck.
    destruct (locked_runs_sim _ _ _ _ _ _ Hlater) as (t & ls & _ & Htied).
    assert (Forall (λ j, in_flight j = false) (ljobs later)) as Hidle; [|split; [done|]; intros x; by eapply idle_free].
    apply Forall_forall. intros j Hj. destruct (in_flight j) eqn:Hf; [|done].
    destruct (never_stuck _ _ _ _ _ _ _ Htied Hj Hf) as (e & next & Hstep & He). specialize (Hstuck _ _ Hstep). congruence.
Qed.
End claims.

(** ** Witness

    Alice has got a challenge and sends the enrollment of the laptop twice.  The
    first request has locked both the store and its file and is in the middle of
    writing; the second one waits for the store; a lookup of the configuration is
    inside the other store. *)

Import DeviceConfig.Toys Identity.ToySha Durable.ToyDisk Concurrent.ConcurrentWitness.

Module LocksWitness.

Definition enrollment_post : Request := post ["api"; "v1"; "devices"].
Definition beginning : LockedServer (Runtime * Sys) := started_locked (opened, started.2.2).
Definition arriving : list Action :=
  (Receive (post ["api"; "v1"; "enrollment"; "challenges"]) env :: replicate 40 (Advance 0) ++
   [Receive enrollment_post quiet; Receive enrollment_post quiet; Receive ask quiet])%list.
Definition entering : list Action := (replicate 20 (Advance 1) ++ replicate 3 (Advance 2) ++ replicate 20 (Advance 3))%list.
Definition leaving : list Action := mjoin (replicate 60 [Advance 1; Advance 2; Advance 3]).

Definition busy := locked_schedule "dev" parts.1 parts.2 call_code (arriving ++ entering) beginning.
Definition quiescent := locked_schedule "dev" parts.1 parts.2 call_code (arriving ++ entering ++ leaving) beginning.

Lemma busy_runs : runs (locked_step "dev" parts.1 parts.2 call_code) beginning busy.1 busy.2.
Proof. exact (locked_schedule_runs _ _ _ _ (arriving ++ entering) _ [] _ (runs_none _ _)). Qed.

Definition waits_for (j : option (LockedJob (Runtime * Sys))) : option Hold :=
  match j with Some (Inside _ _ _ _ (Acquire x _)) => Some x | _ => None end.

Definition status_of (j : LockedJob (Runtime * Sys)) : option Z :=
  match j with Replied _ _ response => Some (status response) | _ => None end.

(** Left to themselves, the requests end. *)
Example quiescent_ends :
  map status_of (ljobs quiescent.2) = [Some 201; Some 201; Some 409; Some 200] ∧
  map (held quiescent.2) [owner; (EnrollmentFileMu, Exclusive); (EnrollmentStoreMu, Exclusive); (ConfigurationsMu, Exclusive)] = [0; 0; 0; 0]%nat.
Proof. split; vm_compute; reflexivity. Qed.
End LocksWitness.
Import LocksWitness.

Lemma requests_complete_witness :
  map (held busy.2) [owner; (EnrollmentFileMu, Exclusive)] = [1; 1]%nat ∧ waits_for (ljobs busy.2 !! 2%nat) = Some owner ∧
  (∃ server', serves_concurrently "dev" config (Some sample_issued) opened started.2.2 busy.1 server') ∧
  ∀ n later, undisturbed "dev" parts.1 parts.2 call_code n busy.2 later → (n ≤ 59 * open_requests busy.2)%nat.
Proof.
  split; [vm_compute; reflexivity|]. split; [vm_compute; reflexivity|].
  destruct (requests_complete "dev" config (Some sample_issued) opened started.2.2 parts.1 parts.2 busy.1 busy.2
    parts_ok busy_runs) as [(server' & Hserves & _) Hends].
  split; [exists server'; exact Hserves|]. intros n later Hund. exact (proj1 (Hends n later Hund)).
Defined.
