(* ===== verification/Survival.v ===== *)
(** Enrollments over HTTP are durable: the server of [Concurrent] and the crash
    model of [Durable] together.

    The two stores of [cmd/server/runtime.go] share a directory, so opening one
    must leave the snapshot of the other alone.  What is answered 201 by a server
    with any number of requests in flight is found again by the next process,
    whenever the machine loses power afterwards. *)

From S2P Require Import Prelude Machine Text GoBase Netip DeviceConfig Snapshot Durable ConfigStore Identity EnrollmentFile Token ControlApi Runtime Concurrent.
Open Scope string_scope.
Open Scope Z_scope.

(** ** Calls on one snapshot leave another one alone *)

(** Neither the snapshot, nor its lock, nor a temporary file next to it. *)
Definition apart (path other : string) : Prop :=
  other ≠ path ∧ other ≠ path +:+ ".lock" ∧ ∀ name, temp_name (filepath_dir path) temp_prefix name → other ≠ name.

Section frames.
Context `{StorageSpec}.
Context (other : string).

(** A deferred call whatever the body returned. *)
Lemma finish_leaves {A} (op : FsOp unit) (f : File) s0 s (r : Result GoError A) (Q : Result GoError A → File * Sys → Prop) :
  leaves other s0 s → (∀ x, ¬ affects op x other) → (∀ r s', leaves other s0 s' → Q r (f, s')) → finish (exec op) Q r (f, s).
Proof.
  intros Hl Ha HQ. unfold finish. destruct r; [..|by apply HQ]; store_run;
    (eapply wp_exec_leaves; [exact Hl|exact Ha|]); intros [?|[]] s' Hl'; store_run; by apply HQ.
Qed.

Lemma wp_file_read_leaves f s0 s :
  leaves other s0 s → wp file_read (λ _ t, t.1 = f ∧ leaves other s0 t.2) (f, s).
Proof.
  intros Hl. unfold file_read, file_check, check_private_file. store_run. destruct (f_lock f) as [lock|]; store_run; [|done].
  destruct (f_failed f); store_run; [done|].
  eapply wp_exec_leaves; [exact Hl|cbn; tauto|]. intros [e|info] s1 Hl1; store_run; [done|].
  apply wp_guard; intros _; store_run; [done|].
  eapply wp_exec_leaves; [exact Hl1|cbn; tauto|]. intros [e|h] s2 Hl2; store_run; [done|].
  apply wp_with_defer. store_run. eapply wp_exec_leaves; [exact Hl2|cbn; tauto|].
  assert (∀ (r : Result GoError string) s3, leaves other s0 s3 →
    finish (exec (CloseFile h)) (λ _ t, t.1 = f ∧ leaves other s0 t.2) r (f, s3)) as Hfinish.
  { intros r s3 Hl3. apply (finish_leaves _ _ s0); [done|cbn; tauto|done]. }
  intros [e|data] s3 Hl3; store_run; [by apply Hfinish|].
  apply wp_guard; intros _; store_run; by apply Hfinish.
Qed.

Lemma wp_file_write_leaves f s0 s data :
  apart (f_path f) other → leaves other s0 s → wp (file_write data) (λ _ t, leaves other s0 t.2) (f, s).
Proof.
  intros (Hne & _ & Htemp) Hl. unfold file_write, file_check. store_run. destruct (f_lock f) as [lock|]; store_run; [|done].
  destruct (f_failed f) eqn:Hfail; store_run; [done|]. apply wp_guard; intros _; store_run; [done|].
  eapply wp_exec_leaves; [exact Hl|cbn; tauto|]. intros [e|dir] s1 Hl1; store_run; [done|].
  apply wp_with_defer. store_run. apply wp_exec. intros r d Hx.
  set (Q := λ (_ : Result GoError unit) (t : File * Sys), leaves other s0 t.2).
  assert (∀ g s2 r, leaves other s0 s2 → finish (exec (CloseFile dir)) Q r (g, s2)) as Hdir
    by (intros; apply (finish_leaves _ _ s0); [done|cbn; tauto|done]).
  destruct r as [e|h].
  { store_run. apply Hdir. eapply leaves_step; [exact Hl1|exact Hx|]. cbn. tauto. }
  destruct (create_law _ _ _ _ _ Hx) as [Hname _]. pose proof (Htemp _ Hname) as Hh.
  pose proof (leaves_step _ other _ _ _ _ Hl1 Hx Hh) as Hl2. store_run.
  apply wp_with_defer, wp_with_defer. store_run.
  assert (∀ g s2 r, leaves other s0 s2 →
    finish (exec (CloseFile h)) (finish (exec (Remove (h_name h))) (finish (exec (CloseFile dir)) Q)) r (g, s2)) as Hend.
  { intros g s2 r Hl3. apply (finish_leaves _ _ s0); [done|cbn; tauto|]. intros r' s3 Hl4.
    apply (finish_leaves _ _ s0); [done|cbn; tauto|]. intros r'' s4 Hl5. by apply Hdir. }
  eapply wp_exec_leaves; [exact Hl2|cbn; tauto|]. intros [e|[]] s3 Hl3; store_run; [by apply Hend|].
  eapply wp_exec_leaves; [exact Hl3|cbn; tauto|]. intros [e|[]] s4 Hl4; store_run; [by apply Hend|].
  eapply wp_exec_leaves; [exact Hl4|cbn; tauto|]. intros [e|[]] s5 Hl5; store_run; [by apply Hend|].
  eapply wp_exec_leaves; [exact Hl5|intros [|]; cbn; naive_solver|]. intros [e|[]] s6 Hl6; store_run; [by apply Hend|].
  eapply wp_exec_leaves; [exact Hl6|cbn; tauto|]. intros [e|[]] s7 Hl7; store_run; by apply Hend.
Qed.

Lemma wp_snapshot_open_leaves {C} path limit (c : C) s :
  proper_path path → apart path other →
  wp (snapshot_open path limit) (λ r t, leaves other s t.2 ∧ ∀ f, r = Ok f → f_path f = path) (c, s).
Proof.
  intros Hp (_ & Hlock & _). unfold snapshot_open, check_private_file. store_run.
  pose proof (leaves_refl other s) as Hl. apply wp_guard; intros _; store_run; [done|].
  apply wp_exec. intros r d1 Hx. pose proof (leaves_step _ other s s _ _ Hl Hx ltac:(cbn; tauto)) as Hl1.
  apply abs_law in Hx as ->; [|done]. store_run.
  eapply wp_exec_leaves; [exact Hl1|cbn; tauto|]. intros [e|[]] s2 Hl2; store_run; [done|].
  eapply wp_exec_leaves; [exact Hl2|cbn; tauto|]. intros [e|info] s3 Hl3; store_run; [done|].
  apply wp_guard; intros _; store_run; [done|].
  assert (∀ s4, leaves other s s4 → wp (take_lock path (path +:+ ".lock") limit)
    (λ r t, leaves other s t.2 ∧ ∀ f, r = Ok f → f_path f = path) (c, s4)) as Htake.
  { intros s4 Hl4. unfold take_lock, lock_file. store_run.
    eapply wp_exec_leaves; [exact Hl4|cbn; tauto|]. intros [e|h] s5 Hl5; store_run; [done|].
    eapply wp_exec_leaves; [exact Hl5|cbn; tauto|]. intros [e|[]] s6 Hl6; store_run; [|split; [done|by intros ? [= <-]]].
    destruct (errors_is e ErrWouldBlock); store_run; (eapply wp_exec_leaves; [exact Hl6|cbn; tauto|]);
      intros [?|[]] s7 Hl7; store_run; done. }
  eapply wp_exec_leaves; [exact Hl3|cbn; tauto|]. intros [e|finfo] s4 Hl4; store_run.
  - destruct (errors_is e ErrNotExist); store_run; [by apply Htake|done].
  - apply wp_guard; intros _; store_run; [by cbn|by apply Htake].
Qed.

Context `{Json FileState} `{MapRange} `{GoQuote}.

Lemma wp_store_restore_leaves t s0 s :
  apart (f_path (st_file t)) other → leaves other s0 s → wp store_restore (λ _ t', leaves other s0 t'.2) (t, s).
Proof.
  intros Ha Hl. unfold store_restore, on_store_file. apply wp_bind, wp_attempt, wp_on_part.
  eapply wp_mono; [by apply wp_file_read_leaves|]. intros r [f s1] [Hf Hl1]. cbn [fst snd] in Hf, Hl1. subst f.
  destruct r as [data|e|]; store_run; [| |done].
  - unfold store_load. store_run. destruct (decode_snapshot data) as [state|e|]; store_run; [|done..].
    apply wp_guard; intros _; store_run; [done|]. destruct (publish_all _ _) as [devices|e|]; store_run; done.
  - destruct (errors_is e ErrNotExist); store_run; [|done]. unfold store_save, on_store_file. store_run.
    destruct (json_marshal _) as [data|e'|]; store_run; [|done..].
    by apply (wp_file_write_leaves (st_file t) s0 s1).
Qed.

Lemma wp_open_store_leaves path s :
  proper_path path → apart path other → wp (open_file_store path) (λ _ t, leaves other s t.2) (tt, s).
Proof.
  intros Hp Ha. unfold open_file_store. apply wp_bind.
  eapply wp_mono; [by apply wp_snapshot_open_leaves|]. intros r [[] s1] [Hl Hf]. cbn [snd] in Hl.
  destruct r as [f|e|]; cbn [after]; [|done..]. specialize (Hf f eq_refl). subst path. apply wp_construct.
  unfold store_init, on_store_file. apply wp_bind, wp_attempt.
  eapply wp_mono; [by apply (wp_store_restore_leaves _ s)|]. intros r [t s2] Hl2. cbn [snd] in Hl2.
  destruct r as [[]|e|]; store_run; [done| |done].
  eapply wp_mono; [apply (wp_file_close other)|]. intros r [f' s3] (_ & Hl3 & _). cbn [snd] in Hl3.
  pose proof (leaves_trans _ _ _ _ Hl2 Hl3). destruct r as [[]|e'|]; store_run; done.
Qed.
End frames.

(** ** The snapshots of the server *)

Lemma split_slash_app acc l base :
  contains_char "/" base = false → split_slash acc (l ++ "/"%char :: chars base) = (split_slash acc l ++ [base])%list.
Proof.
  intros Hb.
  assert (∀ l acc, forallb (λ c, negb (Ascii.eqb c "/")) l = true → split_slash acc l = [of_chars (acc ++ l)]) as Hplain.
  { clear. induction l as [|c l IH]; intros acc; cbn; [by rewrite app_nil_r|]. intros [Hc Hl]%andb_true_iff.
    rewrite (proj1 (negb_true_iff _) Hc), IH by done. by rewrite <-app_assoc. }
  revert acc. induction l as [|c l IH]; intros acc; cbn [app split_slash].
  - rewrite Ascii.eqb_refl, Hplain; [cbn [app]; by rewrite (String.string_of_list_ascii_of_string base)|].
    unfold contains_char in Hb. apply forallb_forall. intros c Hc. apply negb_true_iff, not_true_iff_false. intros ->%Ascii.eqb_eq.
    apply not_true_iff_false in Hb. apply Hb, existsb_exists. exists "/"%char. by rewrite Ascii.eqb_refl.
  - destruct (Ascii.eqb c "/"); [|apply IH]. by rewrite IH.
Qed.

Lemma rooted_cons x parts : rooted (x :: parts) = "/" +:+ x +:+ rooted parts.
Proof. destruct parts as [|y parts]; [cbn; by rewrite string_app_nil|]. done. Qed.

Lemma rooted_snoc parts base : rooted (parts ++ [base]) = rooted parts +:+ "/" +:+ base.
Proof.
  induction parts as [|x parts IH]; [done|]. cbn [app]. by rewrite !rooted_cons, IH, !string_app_assoc.
Qed.

Lemma split_rooted parts : Forall component parts → split_slash [] (chars (rooted parts)) = "" :: parts.
Proof.
  induction parts as [|base parts IH] using rev_ind; [done|]. intros [Hp [(_ & _ & _ & Hb) _]%Forall_cons]%Forall_app.
  rewrite rooted_snoc, !chars_app. change (chars "/") with ["/"%char]. cbn [app]. by rewrite split_slash_app, IH.
Qed.

Lemma clean_components rooted_ parts out :
  Forall component parts → foldl (clean_step rooted_) out parts = (rev parts ++ out)%list.
Proof.
  revert out. induction parts as [|x parts IH]; [done|]. intros out [(Hne & Hdot & Hup & _) Hp]%Forall_cons. cbn [foldl rev].
  rewrite IH by done. unfold clean_step at 1. rewrite !bool_decide_eq_false_2 by done. by rewrite <-app_assoc.
Qed.

Lemma concat_rooted parts : parts ≠ [] → rooted parts = "/" +:+ String.concat "/" parts.
Proof.
  induction parts as [|x [|y parts] IH]; [done|done|]. intros _.
  rewrite rooted_cons, IH by done. done.
Qed.

(** Joining a name to a clean absolute directory. *)
Lemma join_absolute parts base :
  Forall component (parts ++ [base]) → filepath_join (rooted parts) base = rooted parts +:+ "/" +:+ base.
Proof.
  intros Hc. unfold filepath_join, filepath_clean. rewrite <-rooted_snoc, split_rooted by done.
  assert (parts ++ [base] ≠ [])%list as Hne by by destruct parts.
  rewrite (concat_rooted _ Hne) at 1. cbn [foldl]. unfold clean_step at 2. rewrite clean_components by done.
  rewrite app_nil_r, rev_involutive. change (match chars ("/" +:+ String.concat "/" (parts ++ [base])) with
    | c :: _ => Ascii.eqb c "/" | [] => false end) with true. by rewrite concat_rooted.
Qed.

Definition absolute_dir (dir : string) : Prop := ∃ parts, parts ≠ [] ∧ Forall component parts ∧ dir = rooted parts.

(** The two snapshots of a server. *)
Definition enrollment_path (config : RuntimeConfig) : string := filepath_join (rc_state_dir config) "enrollment.json".
Definition configurations_path (config : RuntimeConfig) : string := filepath_join (rc_state_dir config) "configurations.json".

Lemma server_paths config :
  absolute_dir (rc_state_dir config) →
  proper_path (enrollment_path config) ∧ proper_path (configurations_path config) ∧
  apart (configurations_path config) (enrollment_path config).
Proof.
  intros (parts & Hne & Hc & Hd). unfold enrollment_path, configurations_path. rewrite Hd.
  assert (∀ base, component base → Forall component (parts ++ [base])) as Hall by (intros base Hb; apply Forall_app; split; [done|by apply Forall_singleton]).
  assert (component "enrollment.json" ∧ component "configurations.json") as [He Hf] by (split; by apply component_decide).
  rewrite !join_absolute by auto.
  assert (rooted parts ≠ "") as Hr by (destruct parts as [|x [|y parts]]; done).
  split; [|split; [|unfold apart; split_and!]].
  - exists parts, "enrollment.json". split_and!; auto; intros suffix; discriminate.
  - exists parts, "configurations.json". split_and!; auto; intros suffix; discriminate.
  - intros [_ Hb]%string_app_cut; done.
  - rewrite string_app_assoc. intros Heq%(inj (String.append (rooted parts))). discriminate.
  - rewrite filepath_dir_app by (done || apply Hf). intros name (suffix & ->) Heq%(inj (String.append (rooted parts))). discriminate.
Qed.

(** ** What the store calls of a server leave on the disk *)

Section survival.
Context `{StorageSpec} `{GoQuote} `{Ed25519} `{Sha256Spec} `{MapRange} `{JsonSpec EnrollmentSnapshot} `{Json FileState}.
Context `{Mime} `{BodyJson ChallengeRequest} `{BodyJson DeviceRequest}.
Context (config : RuntimeConfig) (Hdir : absolute_dir (rc_state_dir config)) (expressible : Time → Prop).
Context (Hfaithful : ∀ s, enrollment_ok minute 10000 expressible s → json_faithful (snapshot_of s)).

Local Abbreviation path := (enrollment_path config).
Local Abbreviation good := (enrollment_good minute 10000 expressible).
Local Abbreviation tied := (enrollment_tied path minute 10000 expressible).
Local Abbreviation Acknowledged := (list (DeviceIdentity * string)).

(** The disk and the open store agree with what has been acknowledged. *)
Definition kept (g : Acknowledged) (w : Runtime * Sys) : Prop :=
  sound path good g (disk w.2) ∧ tied g (rt_enrollment w.1) (contents (disk w.2) path).

Lemma start_kept version now g s0 h rt u s :
  sound path good g (disk s0) → new_runtime_handler version config now (tt, s0) = (Ok (h, rt), (u, s)) → kept g (rt, s).
Proof.
  intros Hs Hrun. destruct (server_paths config Hdir) as (Hpe & Hpc & Hapart).
  assert (wp (new_runtime_handler version config now) (λ r t, ∀ h rt, r = Ok (h, rt) → kept g (rt, t.2)) (tt, s0)) as Hwp;
    [|by apply (wp_elim _ _ _ _ _ Hwp Hrun h rt)].
  clear Hrun h rt u s. unfold new_runtime_handler. store_run. apply wp_guard; intros _; store_run; [done|].
  pose proof (leaves_refl path s0) as Hl.
  eapply wp_exec_leaves; [exact Hl|cbn; tauto|]. intros [e|[]] s1 Hl1; store_run; [done|].
  eapply wp_exec_leaves; [exact Hl1|cbn; tauto|]. intros [e|[]] s2 Hl2; store_run; [done|].
  destruct (new_token_authenticator _ _) as [auth|e|]; store_run; [|done..].
  destruct (decode_keys _ _) as [keys|e|]; store_run; [|done..].
  destruct (new_ed25519_verifier keys) as [v|e|]; store_run; [|done..].
  pose proof (sound_leaves path good _ _ _ Hs Hl2) as Hs2.
  eapply wp_mono; [by apply (enrollment_open_rule path Hpe minute 10000 expressible Hfaithful g)|].
  intros r [[] s3] (Hthr & Hg3 & Ht3). cbn [fst snd] in *. destruct r as [enrollment|e|]; store_run; [|done..].
  specialize (Ht3 _ eq_refl).
  assert (sound path good g (disk s3)) as Hs3 by (split; [by destruct Hthr as (_ & _ & _ & ?)|done]).
  eapply wp_mono; [by apply (wp_open_store_leaves path)|]. intros r [[] s4] Hl4. cbn [snd] in Hl4.
  destruct r as [configs|e|]; store_run; [| |done].
  - destruct (new_control_handler _ _) as [handler|e|]; store_run.
    + intros h rt [= <- <-]. split; [by eapply sound_leaves|]. cbn. by rewrite (leaves_contents _ _ _ Hl4).
    + apply wp_intro. intros [[]|e'|] s5 _; store_run; [..|done]; apply wp_intro; intros [[]|e''|] s6 _; store_run; done.
    + done.
  - apply wp_intro. intros [[]|e'|] s5 _; store_run; done.
Qed.

(** The store calls as calls of the enrollment store. *)
Definition op_of (c : StoreCall) : option EnrollmentOp :=
  match c with
  | CallIssue accountID deviceID now random => Some (Issue accountID deviceID now random)
  | CallEnroll request now => Some (Enroll request now)
  | CallDevice accountID deviceID => Some (Device accountID deviceID)
  | CallLatest _ => None
  end.

Definition acknowledge (c : StoreCall) (reply : Reply) (g : Acknowledged) : Acknowledged :=
  match c, reply with
  | CallEnroll request _, ReplyEnroll (Ok device) => (device, req_challenge request) :: g
  | _, _ => g
  end.

Lemma acknowledge_grows c reply g x : x ∈ g → x ∈ acknowledge c reply g.
Proof. intros Hx. destruct c, reply as [|[]| |]; cbn; try done. by right. Qed.

Lemma perform_kept c g w reply w' :
  kept g w → (∀ op, op_of c = Some op → fresh_values minute expressible g op) →
  perform runtime_repository runtime_reader c w = (reply, w') →
  throughout (safe path good g) w.2 w'.2 ∧ kept (acknowledge c reply g) w'.
Proof.
  intros [Hs Ht] Hfresh Hp. destruct (server_paths config Hdir) as (Hpe & _ & _). destruct w as [rt s].
  pose proof (λ op, enrollment_call_rule path Hpe minute 10000 expressible Hfaithful g (rt_enrollment rt) s op Hs Ht) as Hrule.
  destruct c as [a d now random|request now|a d|id]; cbn [perform] in Hp.
  - specialize (Hrule _ (Hfresh _ eq_refl)). unfold wp in Hrule. cbn [enrollment_call] in Hrule. unfold mbind, act_bind in Hrule.
    cbn [repo_issue runtime_repository] in Hp. unfold on_enrollment, on_part in Hp.
    destruct (file_issue a d now random (rt_enrollment rt, s)) as [[c|e|] [t s']]; simplify_eq; exact Hrule.
  - specialize (Hrule _ (Hfresh _ eq_refl)). unfold wp in Hrule. cbn [enrollment_call] in Hrule. unfold mbind, act_bind in Hrule.
    cbn [repo_enroll runtime_repository] in Hp. unfold on_enrollment, on_part in Hp.
    destruct (file_enroll request now (rt_enrollment rt, s)) as [[c|e|] [t s']]; simplify_eq; exact Hrule.
  - rewrite runtime_device in Hp. destruct (file_device _ _ _); simplify_eq. split; [by apply throughout_refl, Hs|done].
  - rewrite runtime_latest in Hp. simplify_eq. split; [by apply throughout_refl, Hs|done].
Qed.

(** *** Random bytes *)

Definition received (l : list Event) : list Env := omap (λ e, match e with Received _ env => Some env | _ => None end) l.
Definition digest_of (env : Env) : option string := match entropy env with Ok value => Some (sum256 value) | _ => None end.

(** [rand.Read] repeats neither itself nor a digest in [known], and the expiry
    times stay within what JSON expresses. *)
Definition well_drawn (known : gset string) (l : list Event) : Prop :=
  (∀ env, env ∈ received l → time_add (use_time env) minute ≠ zero_time ∧ expressible (time_add (use_time env) minute)) ∧
  (∀ env x, env ∈ received l → digest_of env = Some x → x ∉ known) ∧
  (∀ i j env env' x, received l !! i = Some env → received l !! j = Some env' →
     digest_of env = Some x → digest_of env' = Some x → i = j).

Lemma well_drawn_prefix known l l' : well_drawn known (l ++ l') → well_drawn known l.
Proof.
  unfold well_drawn, received. rewrite omap_app. intros (Ht & Hk & Hd). split_and!.
  - intros env Hin. apply Ht, elem_of_app. by left.
  - intros env x Hin. apply Hk, elem_of_app. by left.
  - intros i j env env' x Hi Hj. apply Hd; by apply lookup_app_l_Some.
Qed.

Definition job_env (j : Job) : Env := match j with Running _ env _ | Sent _ env _ | Gone _ env => env end.

(** The digests that may have been handed out: those of requests that made a call. *)
Definition spent (js : list Job) (x : string) : Prop :=
  ∃ i j, js !! i = Some j ∧ digest_of (job_env j) = Some x ∧ ∀ request env, j ≠ Running request env [].

Definition accounted (known : gset string) (js : list Job) (x : string) : Prop := x ∈ known ∨ spent js x.

Lemma spent_insert js i j j' x :
  js !! i = Some j → job_env j' = job_env j → (∀ request env, j' ≠ Running request env []) → spent js x → spent (<[i := j']> js) x.
Proof.
  intros Hi He Hj' (k & y & Hk & Hx & Hy). destruct (decide (k = i)) as [->|Hne].
  - exists i, j'. simplify_eq. rewrite He. split_and!; [|done..]. apply list_lookup_insert_eq. by eapply lookup_lt_Some.
  - exists k, y. by rewrite list_lookup_insert_ne.
Qed.

Lemma spent_now js i j j' x :
  js !! i = Some j → job_env j' = job_env j → (∀ request env, j' ≠ Running request env []) → digest_of (job_env j) = Some x →
  spent (<[i := j']> js) x.
Proof.
  intros Hi He Hj' Hx. exists i, j'. rewrite He. split_and!; [|done..]. apply list_lookup_insert_eq. by eapply lookup_lt_Some.
Qed.

(** A request that has not made a call draws something new. *)
Lemma fresh_draw known l js i request env x :
  well_drawn known l → job_env <$> js = received l → js !! i = Some (Running request env []) → digest_of env = Some x →
  ¬ accounted known js x.
Proof.
  intros (_ & Hknown & Hdistinct) Henvs Hi Hx.
  assert (∀ k j, js !! k = Some j → received l !! k = Some (job_env j)) as Hrec
    by (intros k j Hk; by rewrite <-Henvs, list_lookup_fmap, Hk).
  intros [Hin|(k & j & Hk & Hj & Hrun)].
  - eapply Hknown; [eapply list_elem_of_lookup_2, Hrec, Hi|done|done].
  - assert (k = i) as -> by (eapply Hdistinct; [apply Hrec, Hk|apply Hrec, Hi|done|done]). simplify_eq. by eapply Hrun.
Qed.

Definition current (w : Runtime * Sys) : EnrollmentStore := ef_current (rt_enrollment w.1).

(** *** The effect of a store call on what is pending and registered *)

Lemma reads_current c w : (∀ a d now random, c ≠ CallIssue a d now random) → (∀ request now, c ≠ CallEnroll request now) →
  (perform runtime_repository runtime_reader c w).2 = w.
Proof.
  intros Hi He. destruct c as [a d now random|request now|a d|id]; [by edestruct Hi|by edestruct He|..]; destruct w as [rt s]; cbn [perform].
  - rewrite runtime_device. by destruct (file_device _ _ _).
  - by rewrite runtime_latest.
Qed.

Lemma perform_pending c w x :
  let w' := (perform runtime_repository runtime_reader c w).2 in is_Some (es_challenges (current w') !! x) →
  is_Some (es_challenges (current w) !! x) ∨ ∃ a d now value, c = CallIssue a d now (Ok value) ∧ x = sum256 value.
Proof.
  cbv zeta. destruct c as [a d now random|request now|a d|id]; [| |rewrite reads_current by done; by left..]; cbn [perform].
  - pose proof (runtime_issue_effect a d now random w) as Hi. unfold wp in Hi. unfold current.
    destruct (repo_issue _ _ _ _ _ _) as [[c|e|] w1]; cbn [fst snd issue_effect] in *; [|rewrite Hi; by left..].
    destruct (wp_elim _ _ _ _ _ (wp_es_issue _ _ _ _ _) Hi) as (_ & _ & -> & _ & _ & _ & ->). cbn [es_challenges set_challenges].
    intros [p [(<- & _)|(_ & Hp)]%lookup_insert_Some]; [right; by eexists _, _, _, _|left].
    apply map_lookup_filter_Some in Hp as [-> _]. done.
  - pose proof (runtime_enroll_effect request now w) as He. unfold wp in He. unfold current.
    destruct (repo_enroll _ _ _ _) as [r w1]; cbn [fst snd] in *.
    assert (∀ k, is_Some (delete k (es_challenges (ef_current (rt_enrollment w.1))) !! x) →
      is_Some (es_challenges (ef_current (rt_enrollment w.1)) !! x)) as Hdel
      by (intros k [p [_ Hp]%lookup_delete_Some]; by exists p).
    assert (enroll_effect request now (ef_current (rt_enrollment w.1)) r (ef_current (rt_enrollment w1.1)) →
      es_challenges (ef_current (rt_enrollment w1.1)) = es_challenges (ef_current (rt_enrollment w.1)) ∨
      ∃ k, es_challenges (ef_current (rt_enrollment w1.1)) = delete k (es_challenges (ef_current (rt_enrollment w.1)))) as Hcases.
    { pose proof (λ r s', wp_elim _ _ _ r s' (wp_es_enroll request now (ef_current (rt_enrollment w.1)))) as Hes.
      destruct r as [device|e|]; cbn; [intros Hi; right; destruct (Hes _ _ Hi) as (_ & _ & _ & _ & _ & ->); by eexists|..];
        (intros [->|(err & Hi)]; [by left|]; destruct (Hes _ _ Hi) as [->| ->]; [by left|right; by eexists]). }
    destruct (Hcases He) as [->|[k ->]]; [by left|]. intros Hx. left. by eapply Hdel.
Qed.

(** A registered device was registered before, or is acknowledged now. *)
Lemma perform_registered c w g id d :
  let '(reply, w') := perform runtime_repository runtime_reader c w in
  es_devices (current w') !! id = Some d → es_devices (current w) !! id = Some d ∨ ∃ challenge, (d, challenge) ∈ acknowledge c reply g.
Proof.
  pose proof (reads_current c w) as Hread. unfold current.
  destruct c as [a d' now random|request now|a d'|i]; cbn [perform] in *.
  - pose proof (runtime_issue_effect a d' now random w) as Hi. unfold wp in Hi.
    destruct (repo_issue _ _ _ _ _ _) as [r w1]. cbn [fst snd] in *. rewrite (issue_effect_devices _ _ _ _ _ _ _ Hi). by left.
  - pose proof (runtime_enroll_effect request now w) as He. unfold wp in He.
    destruct (repo_enroll _ _ _ _) as [r w1]. cbn [fst snd] in *. apply enroll_effect_devices in He.
    destruct r as [device|e|]; [|rewrite He; by left..]. destruct He as (_ & _ & ->).
    intros [(_ & <-)|[_ Hd]]%lookup_insert_Some; [right|by left]. exists (req_challenge request). by left.
  - destruct (repo_device _ _ _ _) as [r w1]. cbn [snd] in Hread. rewrite Hread by done. by left.
  - destruct (reader_latest _ _ _) as [r w1]. cbn [snd] in Hread. rewrite Hread by done. by left.
Qed.

(** An acknowledged challenge was pending. *)
Lemma acknowledged_pending c w g d challenge :
  let '(reply, w') := perform runtime_repository runtime_reader c w in
  (d, challenge) ∈ acknowledge c reply g → (d, challenge) ∈ g ∨ is_Some (es_challenges (current w) !! sum256 challenge).
Proof.
  destruct c as [a d' now random|request now|a d'|i]; cbn [perform];
    [destruct (repo_issue _ _ _ _ _ _); by left| |destruct (repo_device _ _ _ _); by left|destruct (reader_latest _ _ _); by left].
  pose proof (runtime_enroll_effect request now w) as He. unfold wp in He. unfold current.
  destruct (repo_enroll _ _ _ _) as [[device|e|] w1]; cbn [fst snd] in *; [|by left..]. cbn [acknowledge enroll_effect] in *.
  destruct (wp_elim _ _ _ _ _ (wp_es_enroll _ _ _) He) as (_ & _ & _ & _ & (_ & expires & Hp & _) & _).
  intros [[= _ ->]|Hin]%elem_of_cons; [right; by eexists|by left].
Qed.

(** *** Along the runs of the server *)

Section along.
Context (version : string) (auth : AccountAuthenticator) (verifier : Verifier) (w0 : Runtime * Sys) (g0 : Acknowledged).

Local Abbreviation step := (step version auth verifier runtime_repository runtime_reader).

(** The digests of the challenges that are pending at the start or were used before. *)
Definition known : gset string := dom (es_challenges (current w0)) ∪ list_to_set ((sum256 ∘ snd) <$> g0).

Record surviving (l : list Event) (s : Server (Runtime * Sys)) (g : Acknowledged) : Prop := {
  sv_kept : kept g (world s);
  sv_envs : job_env <$> jobs s = received l;
  sv_pending : ∀ x, is_Some (es_challenges (current (world s)) !! x) → accounted known (jobs s) x;
  sv_used : ∀ d challenge, (d, challenge) ∈ g → accounted known (jobs s) (sum256 challenge);
  sv_devices : ∀ id d, es_devices (current (world s)) !! id = Some d →
    es_devices (current w0) !! id = Some d ∨ ∃ challenge, (d, challenge) ∈ g;
}.

Lemma surviving_start : kept g0 w0 → surviving [] (mkServer w0 []) g0.
Proof.
  intros Hk. split; [done..| | |by left].
  - intros x Hx. left. apply elem_of_union_l, elem_of_dom. exact Hx.
  - intros d c Hin. left. apply elem_of_union_r, elem_of_list_to_set. by apply (list_elem_of_fmap_2 (sum256 ∘ snd) _ (d, c)).
Qed.

(** Steps that make no store call. *)
Lemma surviving_same l l' s js g :
  job_env <$> js = received l' → (∀ x, accounted known (jobs s) x → accounted known js x) →
  surviving l s g → surviving l' (mkServer (world s) js) g.
Proof. intros Henvs Hmono []. split; cbn [world jobs]; eauto. Qed.

Lemma surviving_call l s g i request env log c reply w' :
  runs step (mkServer w0 []) l s → well_drawn known l → surviving l s g →
  jobs s !! i = Some (Running request env log) → next version auth verifier request env log = Ask c →
  perform runtime_repository runtime_reader c (world s) = (reply, w') →
  surviving l (mkServer w' (<[i := Running request env (log ++ [reply])]> (jobs s))) (acknowledge c reply g) ∧
  throughout (safe path good g) (world s).2 w'.2.
Proof.
  intros Hruns Hdrawn [Hkept Henvs Hpend Hused Hdev] Hi Hn Hp.
  set (js := <[i := Running request env (log ++ [reply])]> (jobs s)).
  assert (∀ rq en, Running request env (log ++ [reply]) ≠ Running rq en []) as Hran by (intros ? ? [= _ _ Hl]; by destruct log).
  assert (∀ x, accounted known (jobs s) x → accounted known js x) as Hmono.
  { intros x [Hx|Hx]; [by left|right]. by eapply spent_insert. }
  pose proof (job_call _ _ _ _ _ _ _ _ _ _ _ _ _ Hruns Hi Hn) as Hcall.
  assert (∀ a d now value, c = CallIssue a d now (Ok value) → log = [] ∧ now = use_time env ∧ digest_of env = Some (sum256 value)) as Hissue.
  { intros a d now value ->. destruct Hcall as [(-> & -> & He)|[id ?]]; [|done]. unfold digest_of. by rewrite <-He. }
  assert (∀ op, op_of c = Some op → fresh_values minute expressible g op) as Hfresh.
  { intros op Hop. destruct c as [a d now random|request' now|a d|id]; simplify_eq/=; [|done..].
    destruct Hcall as [(-> & -> & ->)|[id ?]]; [|done]. pose proof Hdrawn as (Htime & _).
    destruct (Htime env) as [Hz Hx]; [rewrite <-Henvs; by apply (list_elem_of_fmap_2 job_env _ (Running request env [])), list_elem_of_lookup_2 with i|].
    split_and!; [done..|]. intros value Hv ((d', c') & Hd & Hin)%list_elem_of_fmap. cbn in Hd.
    eapply (fresh_draw known l (jobs s) i request env); [done|done|exact Hi|unfold digest_of; by rewrite Hv|].
    rewrite Hd. by eapply Hused. }
  destruct (perform_kept c g (world s) reply w' Hkept Hfresh Hp) as [Hthr Hkept']. split; [|done].
  pose proof (perform_pending c (world s)) as Hpend'. pose proof (perform_registered c (world s) g) as Hreg'.
  pose proof (acknowledged_pending c (world s) g) as Hack'. rewrite Hp in Hpend', Hreg', Hack'. cbn [snd] in Hpend'.
  split; cbn [world jobs]; [done| | | |].
  - unfold js. rewrite list_fmap_insert. cbn [job_env]. rewrite list_insert_id; [done|]. by rewrite list_lookup_fmap, Hi.
  - intros x [Hx|(a & d & now & value & Hc & ->)]%Hpend'; [by apply Hmono, Hpend|]. right.
    destruct (Hissue _ _ _ _ Hc) as (_ & _ & Hdig). by eapply spent_now.
  - intros d challenge [Hin|Hin]%Hack'; apply Hmono; [by eapply Hused|by apply Hpend].
  - intros id d [Hd|Hd]%Hreg'; [|by right]. destruct (Hdev id d Hd) as [?|[challenge Hin]]; [by left|right].
    exists challenge. by apply acknowledge_grows.
Qed.

Lemma received_snoc l e : received (l ++ option_list e) = (received l ++ option_list (e ≫= λ e, match e with Received _ env => Some env | _ => None end))%list.
Proof. unfold received. rewrite omap_app. f_equal. by destruct e as [[]|]. Qed.

Lemma surviving_step l s g e s' :
  runs step (mkServer w0 []) l s → step s e s' → well_drawn known (l ++ option_list e) → surviving l s g →
  ∃ g', surviving (l ++ option_list e) s' g' ∧ throughout (safe path good g) (world s).2 (world s').2.
Proof.
  intros Hruns Hstep Hdrawn Hsv.
  assert (throughout (safe path good g) (world s).2 (world s).2) as Hrefl by apply throughout_refl, (sv_kept _ _ _ Hsv).
  pose proof (sv_envs _ _ _ Hsv) as Henvs.
  assert (∀ i request env log j, jobs s !! i = Some (Running request env log) → job_env j = env →
    (∀ request env, j ≠ Running request env []) →
    job_env <$> <[i := j]> (jobs s) = received l ∧ ∀ x, accounted known (jobs s) x → accounted known (<[i := j]> (jobs s)) x) as Hend.
  { intros i request env log j Hi Hj Hran. split.
    - rewrite list_fmap_insert, Hj, list_insert_id; [done|]. by rewrite list_lookup_fmap, Hi.
    - intros x [Hx|Hx]; [by left|right]. by eapply spent_insert. }
  destruct Hstep as [s request env|s i request env log c reply w' Hi Hn Hp|s i request env log response Hi Hn|s i request env log Hi Hn].
  - exists g. split; [|done]. apply (surviving_same l); [|intros x [Hx|(i & j & Hi & Hj)]; [by left|right]|done].
    + rewrite received_snoc, fmap_app, Henvs. done.
    + exists i, j. split; [by apply lookup_app_l_Some|done].
  - rewrite app_nil_r in *. exists (acknowledge c reply g). by eapply surviving_call.
  - exists g. split; [|done]. destruct (Hend i request env log (Sent request env response) Hi eq_refl ltac:(done)) as [He Hm].
    apply (surviving_same l); [|done..]. rewrite received_snoc, He. cbn. by rewrite app_nil_r.
  - exists g. split; [|done]. destruct (Hend i request env log (Gone request env) Hi eq_refl ltac:(done)) as [He Hm].
    apply (surviving_same l); [|done..]. rewrite received_snoc, He. cbn. by rewrite app_nil_r.
Qed.

Lemma surviving_runs l s :
  kept g0 w0 → runs step (mkServer w0 []) l s → well_drawn known l → ∃ g, surviving l s g.
Proof.
  intros Hk Hruns. remember (mkServer w0 []) as s0 eqn:Hs0.
  induction Hruns as [s|s l s' e s'' Hruns IH Hstep]; subst; intros Hdrawn.
  - exists g0. by apply surviving_start.
  - destruct (IH eq_refl (well_drawn_prefix _ _ _ Hdrawn)) as [g Hg].
    destruct (surviving_step l s' g e s'' Hruns Hstep Hdrawn Hg) as (g' & Hg' & _). by exists g'.
Qed.
End along.

(** *** Opening the store again *)

Lemma wp_open_healthy s :
  wp (open_file_enrollment path minute 10000) (λ r _, ∀ t, r = Ok t → is_Some (f_lock (ef_file t)) ∧ f_failed (ef_file t) = None) (tt, s).
Proof.
  destruct (server_paths config Hdir) as (Hp & _ & _). unfold open_file_enrollment.
  change (new_enrollment_store minute 10000) with (Ok (E := GoError) (mkEnrollmentStore ∅ minute 10000 ∅)). store_run.
  apply wp_guard; intros _; store_run; [done|].
  eapply wp_mono; [by apply wp_snapshot_open|]. intros r [[] s1] (_ & _ & Hr). destruct r as [f|e|]; store_run; [|done..].
  destruct Hr as (Hf & _ & Hlock & Hfail). apply wp_construct. unfold enrollment_init. apply wp_bind, wp_attempt.
  set (fine := λ (r : Result GoError unit) (t : FileEnrollmentStore * Sys), r = Ok tt → ef_file t.1 = f).
  assert (wp enrollment_reload fine (mkFileEnrollment f (mkEnrollmentStore ∅ minute 10000 ∅), s1)) as Hload.
  { unfold enrollment_reload, on_enrollment_file. apply wp_bind, wp_attempt, wp_on_part.
    eapply wp_mono; [apply (wp_file_read_leaves path f s1 s1), leaves_refl|]. intros r [f' s2] [Hf' _]. cbn [fst] in Hf'. subst f'.
    destruct r as [data|e|]; store_run; [| |done].
    - unfold enrollment_restore. store_run. destruct (decode_snapshot data); store_run; [|done..].
      apply wp_guard; intros _; store_run; [done|]. destruct (restore_devices _ _); store_run; [|done..].
      destruct (restore_challenges _ _); store_run; done.
    - destruct (errors_is e ErrNotExist); store_run; [|done]. unfold enrollment_persist, on_enrollment_file. store_run.
      destruct (json_marshal _) as [data|e'|]; store_run; [|done..].
      eapply wp_mono; [apply (wp_file_write f s2 (contents (disk s2) (f_path f)) (λ _, True)); [by rewrite Hf|done]|].
      intros r [f' s3] [_ Hr]. destruct r as [[]|e'|]; store_run; [|done..]. destruct Hr as [Hr _]. by intros _. }
  eapply wp_mono; [exact Hload|]. intros r [t s2] Hr. destruct r as [[]|e|]; store_run; [| |done].
  - intros x [= <-]. specialize (Hr eq_refl). cbn [fst] in Hr. cbn [fst]. by rewrite Hr.
  - unfold on_enrollment_file. store_run. apply wp_intro. intros [[]|e'|] [f' s3] _; store_run; done.
Qed.
End survival.

(** ** Theorem *)

(** C4: what a server answered 201 survives.  Take any history of the enrollment
    store with failures, crashes and restarts, a server started on it, and any
    interleaving of requests, in which [rand.Read] repeats neither itself nor an
    earlier challenge.  Once the enrollment of a device was answered 201, the
    machine may lose power at any moment, inside a later store call too: when the
    store is opened again, the account whose bearer token the request presented
    finds the device with the key of the answer. *)
Theorem acknowledged_enrollments_survive `{StorageSpec} `{GoQuote} `{Ed25519} `{Sha256Spec} `{MapRange}
    `{JsonSpec EnrollmentSnapshot} `{Json FileState} `{Mime} `{BodyJson ChallengeRequest} `{BodyJson DeviceRequest}
    version config now expressible g s0 h rt s auth verifier l server e server' i request env response id key d d' t s1
    (path := enrollment_path config) :
  absolute_dir (rc_state_dir config) →
  (∀ s, enrollment_ok minute 10000 expressible s → json_faithful (snapshot_of s)) →
  run path (open_file_enrollment path minute 10000) enrollment_call (fresh_values minute expressible) record_enrolled [] g None s0 →
  new_runtime_handler version config now (tt, s0) = (Ok (h, rt), (tt, s)) → runtime_parts config now = Ok (auth, verifier) →
  runs (step version auth verifier runtime_repository runtime_reader) (mkServer (rt, s) []) l server →
  step version auth verifier runtime_repository runtime_reader server e server' →
  well_drawn expressible (known (rt, s) g) (l ++ option_list e) →
  jobs server !! i = Some (Sent request env response) → enrolls response id key →
  crash_point (world server).2 (world server').2 d → crash d d' →
  open_file_enrollment path minute 10000 (tt, mkSys _ d' []) = (Ok t, (tt, s1)) →
  ∃ device, file_device (dev_account device) id (t, s1) = (Ok device, (t, s1)) ∧ dev_key device = key ∧
    bears config request (auth_time env) (dev_account device).
Proof.
  intros Hdir Hf Hrun Hstart Hparts Hruns Hstep Hdrawn Hi Hen Hd Hd' Hopen. destruct (server_paths config Hdir) as (Hp & _ & _).
  destruct (run_sound path _ _ _ _ [] (enrollment_good minute 10000 expressible) (enrollment_tied path minute 10000 expressible)
    ltac:(split; [split_and!; constructor|done]) (enrollment_open_rule path Hp minute 10000 expressible Hf)
    (enrollment_call_rule path Hp minute 10000 expressible Hf) g None s0 Hrun) as [Hs _].
  pose proof (start_kept config Hdir expressible Hf _ _ _ _ _ _ _ _ Hs Hstart) as Hkept.
  destruct (surviving_runs config Hdir expressible Hf _ _ _ _ _ _ _ Hkept Hruns (well_drawn_prefix _ _ _ _ Hdrawn)) as [g' Hg'].
  destruct (surviving_step config Hdir expressible Hf _ _ _ _ _ _ _ _ _ _ Hruns Hstep Hdrawn Hg') as (_ & _ & Hthr).
  pose proof (safe_crash path _ g' d d' (throughout_crash_point _ _ _ _ Hthr Hd) Hd') as Hsound.
  destruct (wp_elim _ _ _ _ _ (enrollment_open_rule path Hp minute 10000 expressible Hf g' (mkSys _ d' []) Hsound) Hopen) as (Hthr' & Hg1 & Ht).
  destruct (wp_elim _ _ _ _ _ (wp_open_healthy config Hdir (mkSys _ d' [])) Hopen t eq_refl) as [[lock Hlock] Hfail].
  destruct (concurrent_history _ _ _ _ _ _ _ _ Hruns) as (Hearned & _ & Hnew).
  destruct (Hearned _ _ _ _ Hi) as [_ Henr]. destruct (Henr id key Hen) as (device & Ho & Hkey & Ha).
  pose proof Hstart as (at_ & ? & ? & -> & _)%new_runtime_handler_ok.
  apply runtime_parts_ok in Hparts as (tokens & keys & Htok & _ & -> & _).
  exists device. split_and!; [|done|exact (token_auth_bears _ _ _ _ _ _ Htok Ha)].
  destruct (sv_devices _ _ _ _ _ _ _ Hg' id device Ho) as [Hold|[challenge Hin]].
  { pose proof (Hnew _ _ _ _ _ _ Hi Hen) as Hnone. cbn in Hnone. unfold current in Hold. cbn in Hold. congruence. }
  assert (sound path (enrollment_good minute 10000 expressible) g' (disk s1)) as Hs1
    by (split; [by destruct Hthr' as (_ & _ & _ & ?)|done]).
  destruct (proj1 (Forall_forall _ _) (tied_registered path minute 10000 expressible Hf g' t s1 Hs1 (Ht t eq_refl) Hfail) _ Hin) as [Hreg _].
  destruct (sv_kept _ _ _ _ _ _ _ Hg') as [_ (_ & Hok & _)].
  destruct (ok_devices _ _ _ _ Hok id device Ho) as [Hid _]. cbn [fst] in Hreg. rewrite Hid in Hreg.
  rewrite file_device_cases, Hlock, Hfail. f_equal. by apply es_device_ok.
Qed.

(** ** Witness: the server of [Concurrent], power lost after its answers *)

Import DeviceConfig.Toys Identity.ToySha Durable.ToyDisk Concurrent.ConcurrentWitness.

Module SurvivalWitness.
Definition final : Server (Runtime * Sys) := outcome.2.
Definition later : Server (Runtime * Sys) := mkServer (world final) (jobs final ++ [Running ask quiet []]).
Definition lost : Sys := mkSys disk_ops (disk (world final).2) [].
Definition reopened := open_file_enrollment (enrollment_path config) minute 10000 (tt, lost).
Definition store : FileEnrollmentStore := match reopened.1 with Ok t => t | _ => EnrollmentFile.EnrollmentWitness.no_store end.

Lemma state_dir_absolute : absolute_dir (rc_state_dir config).
Proof. exists ["var"; "lib"; "cyberia"]. split; [done|]. split; [|reflexivity]. repeat constructor; by apply component_decide. Qed.

Lemma no_history : run (enrollment_path config) (open_file_enrollment (enrollment_path config) minute 10000) enrollment_call
  (fresh_values minute (λ _, True)) record_enrolled [] [] None published.
Proof. apply run_fresh. split; [vm_compute; reflexivity|]. intros x [->| ->]; vm_compute; reflexivity. Qed.

Lemma final_runs : runs (step "dev" parts.1 parts.2 runtime_repository runtime_reader) (mkServer (opened, started.2.2) []) outcome.1 final.
Proof. unfold final, outcome. exact (schedule_runs _ _ _ _ _ actions _ [] _ (runs_none _ _)). Qed.

Lemma reopened_after_loss : open_file_enrollment (enrollment_path config) minute 10000 (tt, lost) = (Ok store, (tt, reopened.2.2)).
Proof.
  change (reopened = (Ok store, (tt, reopened.2.2))). unfold store.
  assert (is_ok reopened.1 = true) as Hok by (vm_compute; reflexivity). destruct reopened as [[t|e|] [[] s]]; [reflexivity|discriminate..].
Qed.

(** Only the challenge draws random bytes. *)
Lemma outcome_drawn : well_drawn (λ _, True) (known (opened, started.2.2) []) (outcome.1 ++ option_list (Some (Received ask quiet))).
Proof.
  change (option_list (Some (Received ask quiet))) with [Received ask quiet].
  assert (received (outcome.1 ++ [Received ask quiet]) = [env; quiet; quiet; quiet; quiet]) as Hr by (vm_compute; reflexivity).
  assert (known (opened, started.2.2) [] = ∅) as Hk by (vm_compute; reflexivity).
  unfold well_drawn. rewrite Hr, Hk. split_and!.
  - intros e He. rewrite !elem_of_cons in He. split; [|exact I].
    destruct He as [->|[->|[->|[->|[->|[]%elem_of_nil]]]]]; vm_compute; discriminate.
  - intros. apply not_elem_of_empty.
  - assert (∀ i e x, [env; quiet; quiet; quiet; quiet] !! i = Some e → digest_of e = Some x → i = 0%nat) as Hfirst.
    { intros [|i] e x Hi Hx; [reflexivity|exfalso].
      assert (e = quiet) as ->.
      { change (replicate 4 quiet !! i = Some e) in Hi. by apply lookup_replicate in Hi as [-> _]. }
      discriminate. }
    intros i j e e' x Hi Hj He He'. by rewrite (Hfirst i e x Hi He), (Hfirst j e' x Hj He').
Qed.

Lemma later_step : step "dev" parts.1 parts.2 runtime_repository runtime_reader final (Some (Received ask quiet)) later.
Proof. exact (step_receive _ _ _ _ _ final ask quiet). Qed.

Lemma sent : jobs final !! 2%nat = Some (Sent (post ["api"; "v1"; "devices"]) quiet (response_to 2)).
Proof. vm_compute. reflexivity. Qed.

Lemma answered : enrolls (response_to 2) "laptop" EnrollmentFile.EnrollmentWitness.device_key.
Proof. split; [vm_compute; reflexivity|eexists; vm_compute; reflexivity]. Qed.

Lemma lost_when : crash_point (world final).2 (world later).2 (disk (world final).2).
Proof. left. unfold later. cbn [world]. reflexivity. Qed.

Lemma lost_crash : crash (disk (world final).2) (disk (world final).2).
Proof. apply crash_flushed; [reflexivity|vm_compute; reflexivity]. Qed.

Lemma toy_faithful : ∀ s, enrollment_ok minute 10000 (λ _, True) s → json_faithful (snapshot_of s).
Proof. intros. exact I. Qed.
End SurvivalWitness.
Import SurvivalWitness.

Lemma acknowledged_enrollments_survive_witness :
  enrolls (response_to 2) "laptop" EnrollmentFile.EnrollmentWitness.device_key ∧
  ∃ device, file_device (dev_account device) "laptop" (store, reopened.2.2) = (Ok device, (store, reopened.2.2)) ∧
    dev_key device = EnrollmentFile.EnrollmentWitness.device_key.
Proof.
  split; [exact answered|].
  destruct (acknowledged_enrollments_survive "dev" config (Some sample_issued) (λ _, True) [] published handler opened started.2.2
    parts.1 parts.2 outcome.1 final (Some (Received ask quiet)) later 2 (post ["api"; "v1"; "devices"]) quiet (response_to 2)
    "laptop" EnrollmentFile.EnrollmentWitness.device_key (disk (world final).2) (disk (world final).2) store reopened.2.2
    state_dir_absolute toy_faithful no_history server_started parts_ok final_runs later_step outcome_drawn sent answered
    lost_when lost_crash reopened_after_loss) as (d & Hd & Hk & _).
  exists d. exact (conj Hd Hk).
Defined.
