(* ===== verification/Mains.v ===== *)
(** The [main] functions of the control service:
    [services/control-api/cmd/server/main.go] and
    [services/control-api/cmd/config-publisher/main.go], up to their exit status.

    [os.Exit] skips deferred calls, so a server that ends with an error does not
    close its stores.  The file also holds what the publisher uses of the package
    [flag]. *)

From S2P Require Import Prelude Machine Text GoBase Netip DeviceConfig Snapshot Durable ConfigStore Identity EnrollmentFile Token ControlApi Runtime Concurrent.
Open Scope string_scope.
Open Scope Z_scope.

(** ** The server *)

Inductive LogLine :=
| LogError (message : string) (errors : list GoError)
| LogInfo (message address version : string).

(** What the process meets: its environment variables, the clock when the
    credentials are checked, the answer of [net.Listen], the traffic until the
    server stops, and how serving ends. *)
Record ServerHost := mkServerHost {
  getenv : string → string;
  start_time : Time;
  net_listen : string → Result GoError string;
  traffic : list Action;
  first_event : FirstEvent;
  shutdown_error : option GoError;
  close_error : option GoError;
  serve_error : GoError;
}.

(** [server_stores] is the runtime once the process has one. *)
Record ServerExit := mkServerExit { server_status : Z; server_log : list LogLine; server_stores : option Runtime }.

Definition address (host : ServerHost) : string :=
  let value := getenv host "CYBERIA_API_ADDRESS" in
  if bool_decide (value = "") then "127.0.0.1:8080" else value.

Section server.
Context `{Storage} `{GoQuote} `{Ed25519} `{Sha256} `{MapRange}.
Context `{Json EnrollmentSnapshot} `{Json FileState} `{Json RuntimeConfig}.
Context `{Mime} `{BodyJson ChallengeRequest} `{BodyJson DeviceRequest}.

(** The stores after the traffic, whose requests run concurrently. *)
Definition serve_traffic (version : string) (config : RuntimeConfig) (host : ServerHost) (rt : Runtime) :
    Act (unit * Sys) GoError Runtime := λ '(u, s),
  match runtime_parts config (Some (start_time host)) with
  | Ok (auth, verifier) =>
      let '(_, server) :=
        schedule version auth verifier runtime_repository runtime_reader (traffic host) (mkServer (rt, s) []) in
      (Ok (world server).1, (u, (world server).2))
  | Err e => (Err e, (u, s))
  | Panic => (Panic, (u, s))
  end.

Definition server_main (version : string) (host : ServerHost) : Act (unit * Sys) GoError ServerExit :=
  loaded ← attempt (load_runtime_config (getenv host "CYBERIA_RUNTIME_CONFIG"));
  match loaded with
  | inl e => mret (mkServerExit 0 [LogError "control API configuration failed" [e]] None)
  | inr config =>
      built ← attempt (new_runtime_handler version config (Some (start_time host)));
      match built with
      | inl e => mret (mkServerExit 0 [LogError "control API initialization failed" [e]] None)
      | inr (_, rt) =>
          match net_listen host (address host) with
          | Ok listener =>
              let starting := LogInfo "control API starting" listener version in
              rt ← serve_traffic version config host rt;
              match serve_with_shutdown (first_event host) (shutdown_error host) (close_error host) (serve_error host) with
              | [] =>
                  closed ← on_value rt (attempt runtime_close;; me (λ rt, rt));
                  mret (mkServerExit 0 [starting] (Some closed))
              | errors => mret (mkServerExit 1 [starting; LogError "control API stopped unexpectedly" errors] (Some rt))
              end
          | Err e => mret (mkServerExit 1 [LogError "control API listen failed" [e]] (Some rt))
          | Panic => lift Panic
          end
      end
  end.
End server.

(** ** How a server ends *)

Section ends.
Context `{StorageSpec} `{GoQuote} `{Ed25519} `{Sha256} `{MapRange}.
Context `{Json EnrollmentSnapshot} `{Json FileState} `{Json RuntimeConfig}.
Context `{Mime} `{BodyJson ChallengeRequest} `{BodyJson DeviceRequest}.

Definition closed (rt : Runtime) : Prop :=
  f_lock (ef_file (rt_enrollment rt)) = None ∧ f_lock (st_file (rt_configurations rt)) = None.

Lemma wp_runtime_close rt s : wp runtime_close (λ r t, r ≠ Panic ∧ closed t.1) (rt, s).
Proof.
  unfold runtime_close, on_enrollment, on_configurations, enrollment_close, store_close, on_enrollment_file, on_store_file. store_run.
  eapply wp_mono; [apply (wp_file_close "")|]. intros r [f s1] (_ & _ & Hnp & Hlock). cbn [fst snd] in *.
  destruct r as [[]|e|]; store_run; [..|done]; (eapply wp_mono; [apply (wp_file_close "")|]);
    intros r [f' s2] (_ & _ & Hnp' & Hlock'); cbn [fst snd] in *; (destruct r as [[]|e'|]; store_run; [..|done]); done.
Qed.

Definition server_ends (host : ServerHost) (x : ServerExit) : Prop :=
  let failures := serve_with_shutdown (first_event host) (shutdown_error host) (close_error host) (serve_error host) in
  match server_stores x with
  | None => server_status x = 0 ∧ ∃ message e, server_log x = [LogError message [e]]
  | Some rt =>
      (server_status x = 0 ∧ failures = [] ∧ is_ok (net_listen host (address host)) = true ∧ closed rt) ∨
      (server_status x = 1 ∧ (failures ≠ [] ∨ is_ok (net_listen host (address host)) = false))
  end.

Lemma wp_server_main version host s : wp (server_main version host) (λ r _, ∀ x, r = Ok x → server_ends host x) (tt, s).
Proof.
  unfold server_main. store_run.
  apply wp_intro. intros [config|e|] [[] s1] _; store_run; [|intros x [= <-]; split; [done|by eexists _, _]|done].
  apply wp_intro. intros [[h rt]|e|] [[] s2] _; store_run; [|intros x [= <-]; split; [done|by eexists _, _]|done].
  destruct (net_listen host (address host)) as [listener|e|] eqn:Hlisten; store_run; [| |done].
  2: { intros x [= <-]. right. rewrite Hlisten. auto. }
  apply wp_intro. intros [rt'|e|] [[] s3] _; store_run; [|done..].
  destruct (serve_with_shutdown _ _ _ _) as [|e errors] eqn:Hserve; store_run.
  - unfold on_value. store_run. eapply wp_mono; [apply wp_runtime_close|]. intros r [rt2 s4] [Hnp Hclosed].
    destruct r as [[]|e|]; store_run; [..|done]; (intros x [= <-]; left; rewrite Hserve, Hlisten; by split_and!).
  - intros x [= <-]. right. rewrite Hserve. split; [done|]. by left.
Qed.
End ends.

(** A server that could not start exits with status 0, as one does that was asked
    to stop; the one that stopped when asked has closed both stores, and status 1
    means that listening or serving failed. *)
Theorem server_exit_status `{StorageSpec} `{GoQuote} `{Ed25519} `{Sha256} `{MapRange}
    `{Json EnrollmentSnapshot} `{Json FileState} `{Json RuntimeConfig} `{Mime} `{BodyJson ChallengeRequest} `{BodyJson DeviceRequest}
    version host s x t :
  server_main version host (tt, s) = (Ok x, t) → server_ends host x.
Proof. intros Hrun. exact (wp_elim _ _ _ _ _ (wp_server_main version host s) Hrun x eq_refl). Qed.

(** ** The package [flag] *)

(** Cuts a string at its first [=], which is not its first character. *)
Fixpoint cut_equals (s : string) : string * option string :=
  match s with
  | EmptyString => ("", None)
  | String c rest =>
      if Ascii.eqb c "=" then ("", Some rest)
      else let '(name, value) := cut_equals rest in (String c name, value)
  end.

Inductive FlagError := BadSyntax (arg : string) | NotDefined (name : string) | NeedsArgument (name : string) | HelpRequested.

(** [FlagSet.parseOne] for an argument: the end of the flags, or a flag and perhaps its value. *)
Inductive FlagArg := NoFlag | EndOfFlags | AFlag (name : string) (value : option string) | BadFlag (arg : string).

Definition flag_name (arg name : string) : FlagArg :=
  match name with
  | EmptyString => BadFlag arg
  | String c rest =>
      if Ascii.eqb c "-" || Ascii.eqb c "=" then BadFlag arg
      else let '(tail, value) := cut_equals rest in AFlag (String c tail) value
  end.

Definition read_flag (arg : string) : FlagArg :=
  match arg with
  | String c (String c' rest) =>
      if Ascii.eqb c "-" then
        if Ascii.eqb c' "-" then if bool_decide (rest = "") then EndOfFlags else flag_name arg rest
        else flag_name arg (String c' rest)
      else NoFlag
  | _ => NoFlag
  end.

(** The four flags of the publisher. *)
Record PublisherFlags := mkFlags { fl_state_dir : string; fl_input : string; fl_key_id : string; fl_private_key : string }.

Definition set_flag (name value : string) (f : PublisherFlags) : option PublisherFlags :=
  if bool_decide (name = "state-dir") then Some (mkFlags value (fl_input f) (fl_key_id f) (fl_private_key f))
  else if bool_decide (name = "input") then Some (mkFlags (fl_state_dir f) value (fl_key_id f) (fl_private_key f))
  else if bool_decide (name = "key-id") then Some (mkFlags (fl_state_dir f) (fl_input f) value (fl_private_key f))
  else if bool_decide (name = "private-key-hex") then Some (mkFlags (fl_state_dir f) (fl_input f) (fl_key_id f) value)
  else None.

(** [FlagSet.Parse]; arguments after the flags are ignored by the program. *)
Fixpoint parse_flags (args : list string) (f : PublisherFlags) : FlagError + PublisherFlags :=
  match args with
  | [] => inr f
  | arg :: args =>
      match read_flag arg with
      | NoFlag | EndOfFlags => inr f
      | BadFlag arg => inl (BadSyntax arg)
      | AFlag name value =>
          match set_flag name "" f, value, args with
          | None, _, _ => inl (if bool_decide (name = "help") || bool_decide (name = "h") then HelpRequested else NotDefined name)
          | Some _, Some value, _ => parse_flags args (default f (set_flag name value f))
          | Some _, None, value :: args => parse_flags args (default f (set_flag name value f))
          | Some _, None, [] => inl (NeedsArgument name)
          end
      end
  end.

Definition no_flags : PublisherFlags := mkFlags "" "" "" "".

(** ** The publisher *)

(** [stderr] without the usage text of [flag]. *)
Record PublisherExit := mkPublisherExit { publisher_status : Z; publisher_stderr : string }.

Definition flag_error_text (e : FlagError) : string :=
  match e with
  | BadSyntax arg => "bad flag syntax: " +:+ arg
  | NotDefined name => "flag provided but not defined: -" +:+ name
  | NeedsArgument name => "flag needs an argument: -" +:+ name
  | HelpRequested => ""
  end.

Section publisher.
Context `{Storage} `{GoQuote} `{Ed25519} `{MapRange} `{Json FileState} `{Json DeviceConfig}.

Definition publisher_main (args : list string) (now : Time) : Act (unit * Sys) GoError PublisherExit :=
  match parse_flags args no_flags with
  | inl HelpRequested => mret (mkPublisherExit 0 "")
  | inl e => mret (mkPublisherExit 2 (flag_error_text e +:+ newline))
  | inr f =>
      result ← attempt (publish (fl_state_dir f) (fl_input f) (fl_key_id f) (fl_private_key f) now);
      match result with
      | inl e => mret (mkPublisherExit 1 ("publish configuration: " +:+ error_text e +:+ newline))
      | inr _ => mret (mkPublisherExit 0 "")
      end
  end.
End publisher.

(** ** The flags can be given in every form *)

Definition flag_arguments (f : PublisherFlags) : list string :=
  ["-state-dir"; fl_state_dir f; "-input"; fl_input f; "-key-id"; fl_key_id f; "-private-key-hex"; fl_private_key f].
Definition flag_assignments (f : PublisherFlags) : list string :=
  ["--state-dir=" +:+ fl_state_dir f; "--input=" +:+ fl_input f; "--key-id=" +:+ fl_key_id f;
   "--private-key-hex=" +:+ fl_private_key f].

Lemma flags_roundtrip f : parse_flags (flag_arguments f) no_flags = inr f ∧ parse_flags (flag_assignments f) no_flags = inr f.
Proof. destruct f. split; reflexivity. Qed.

(** ** Theorem *)

(** C19: the exit status of the publisher tells whether the configuration is
    durable.  The flags are well formed, the configuration store has any history
    of calls, crashes and restarts, and JSON can express the envelope that this
    input, key and clock produce, as it can for one decoded from JSON whose
    times have four-digit years.  When the publisher exits with status 0, the
    configuration that the input file held is valid and was sealed with the given
    key, and whoever opens the store next, after a loss of power or not, finds
    that envelope for the device, or a newer one. *)
Theorem publisher_exit_durable `{StorageSpec} `{GoQuote} `{Ed25519} `{MapRange} `{JsonSpec FileState} `{Json DeviceConfig}
    args f now expressible g s s' x (path := filepath_join (fl_state_dir f) "configurations.json")
    (published := published_from (fl_input f) (fl_key_id f) (fl_private_key f) now s) :
  parse_flags args no_flags = inr f → proper_path path →
  (∀ l, Forall expressible l → json_faithful (mkFileState 1 (Some l))) → (∀ e, published e → expressible e) →
  run path (open_file_store path) store_call (publishes expressible) record_published ∅ g None s →
  publisher_main args now (tt, s) = (Ok x, (tt, s')) → publisher_status x = 0 →
  ∃ e, published e ∧ found_later path e s'.
Proof.
  intros Hflags Hp Hf Hx Hrun Hmain Hstatus.
  eapply (publish_durable (fl_state_dir f)); [exact Hp|exact Hf|exact Hx|exact Hrun|].
  revert Hmain. unfold publisher_main. rewrite Hflags. run.
  destruct (publish _ _ _ _ _ _) as [[[]|e|] [[] s1]]; intros [= <- <-]; [done|discriminate].
Qed.

(** ** Witness *)

Import DeviceConfig.Toys Identity.ToySha Durable.ToyDisk Runtime.ServerWitness Runtime.PublisherWitness.

Module MainWitness.
Definition flags : PublisherFlags := mkFlags "/var/lib/cyberia" input "ops-1" (hex_encode sample_private).
Definition ended := publisher_main (flag_arguments flags) sample_issued (tt, before).

Lemma ended_ok : publisher_main (flag_arguments flags) sample_issued (tt, before) = (Ok (mkPublisherExit 0 ""), (tt, ended.2.2)).
Proof.
  change (ended = (Ok (mkPublisherExit 0 ""), (tt, ended.2.2))).
  assert (match ended.1 with Ok x => bool_decide (publisher_status x = 0) && bool_decide (publisher_stderr x = "") | _ => false end = true)
    as Hok by (vm_compute; reflexivity).
  destruct ended as [[[status text]|e|] [[] s]]; [|discriminate..]. cbn in Hok.
  apply andb_true_iff in Hok as [->%bool_decide_eq_true ->%bool_decide_eq_true]. reflexivity.
Qed.

(** What the real codec needs of the strings of an envelope. *)
Definition textual (e : SignedConfig) : Prop :=
  utf8_valid (DeviceID (Config e)) = true ∧ utf8_valid (NodeID (Config e)) = true ∧
  utf8_valid (ConfigTransport (Config e)) = true ∧ utf8_valid (KeyID e) = true.

Lemma input_textual e :
  published_from (fl_input flags) (fl_key_id flags) (fl_private_key flags) sample_issued before e → textual e.
Proof.
  intros (data & sk & Hread & Hconfig & _ & _ & _ & _ & Hid & _).
  assert (data = text) as ->. { injection Hread as <-. reflexivity. }
  assert (json_unmarshal text = Ok (E := GoError) sample_config) as Hs by (vm_compute; reflexivity).
  rewrite Hs in Hconfig. injection Hconfig as Hc.
  unfold textual. rewrite <-Hc, Hid. by vm_compute.
Qed.
End MainWitness.
Import MainWitness.

Lemma publisher_exit_durable_witness :
  ∃ e, published_from input "ops-1" (hex_encode sample_private) sample_issued before e ∧ found_later path e ended.2.2.
Proof.
  exact (publisher_exit_durable (flag_arguments flags) flags sample_issued textual ∅ before ended.2.2 _
    (proj1 (flags_roundtrip flags)) path_proper ltac:(intros; exact I) input_textual (fresh_run _) ended_ok eq_refl).
Defined.
