(* ===== verification/GoTests.v ===== *)
(** The control service's own tests, run on the model.

    The test functions of [services/control-api/internal] that observe results,
    stores and responses: each is a boolean that holds when all its assertions do.
    Goroutines of a test run one after the other, because the calls they make
    are atomic; assertions that a returned slice does not alias the store are left
    out, since the model has values.  Two stand-ins replace the cryptography: a
    signature is the key followed by a checksum of the message, so that tampering
    is seen, and a digest is a checksum. *)

From Stdlib Require Import Floats.SpecFloat.
From S2P Require Import Prelude Machine Text Net GoBase Netip DeviceConfig Snapshot Durable ConfigStore Identity EnrollmentFile Registry Telemetry Token ControlApi.
Open Scope string_scope.
Open Scope Z_scope.

(** ** Stand-ins and expectations *)

Module Checksums.
(** 32 bytes: a 24-bit checksum, padded. *)
Definition padding : string := String.concat "" (replicate 28 "0").
Definition checksum (s : string) : string :=
  big_endian 4 (foldl (λ h c, Z.land (h * 33 + code c) 16777215) 5381 (chars s)) +:+ padding.

#[export] Instance checked_ed25519 : Ed25519 := {|
  ed_public sk := String.substring 0 32 sk;
  ed_sign sk m := String.substring 0 32 sk +:+ checksum m;
  ed_verify pk m s := bool_decide (s = pk +:+ checksum m);
|}.
#[export] Instance checked_sha : Sha256 := {| sum256 := checksum |}.

(** They keep the promises the theorems use. *)
Lemma big_endian_size n z : String.length (big_endian n z) = n.
Proof. induction n as [|n IH]; [done|]. cbn [big_endian String.length]. by rewrite IH. Qed.
Lemma checksum_size s : String.length (checksum s) = 32%nat.
Proof. unfold checksum. by rewrite string_length_app, big_endian_size. Qed.

#[export] Instance checked_ed25519_spec : Ed25519Spec.
Proof.
  split; cbn [ed_public ed_sign ed_verify checked_ed25519].
  - intros sk Hsk. apply Toys.substring_length. rewrite Hsk. unfold PrivateKeySize, PublicKeySize. lia.
  - intros sk m Hsk. rewrite string_length_app, Toys.substring_length by (rewrite Hsk; unfold PrivateKeySize; lia).
    by rewrite checksum_size.
  - intros. by apply bool_decide_eq_true_2.
Qed.
#[export] Instance checked_sha_spec : Sha256Spec.
Proof. split. intros s. apply checksum_size. Qed.
End Checksums.
Import DeviceConfig.Toys Checksums.

(** [errors.Is(err, target)] for the error of a call. *)
Definition fails_as {A} (r : Result GoError A) (target : GoError) : bool :=
  match r with Err e => errors_is e target | _ => false end.
(** [err != nil]. *)
Definition fails {A} (r : Result GoError A) : bool := match r with Err _ => true | _ => false end.
(** The call succeeds with a value that passes the assertions. *)
Definition ok_and {A} (r : Result GoError A) (check : A → bool) : bool := match r with Ok a => check a | _ => false end.

(** [netip.MustParseAddr], [MustParseAddrPort] and [MustParsePrefix], taken apart. *)
Definition addr (s : string) : Addr := match parse_ip s with Some ip => AddrOf ip "" | None => NoAddr end.
Definition addr_zoned (s zone : string) : Addr := match parse_ip s with Some ip => AddrOf ip zone | None => NoAddr end.
Definition endpoint (a : Addr) : AddrPort := mkAddrPort a 51820.
Definition prefix (s : string) (bits : Z) : Prefix := mkPrefix (addr s) bits.

Definition testNow : Time := 1788563400 * second.

(** A key pair of [ed25519.GenerateKey]. *)
Definition private_key (c : string) : string := String.concat "" (replicate 64 c).
Definition public_key (c : string) : string := ed_public (private_key c).
Definition zeros (n : nat) : string := String.concat "" (replicate n (String (byte 0) "")).

Definition unusable (mapped : string) : list Addr :=
  [addr "0.0.0.0"; addr "::"; addr "224.0.0.1"; addr "ff02::1"; addr mapped; addr_zoned "fe80::1" "eth0"].

(** ** [registry] *)

Module registry.

Definition testNode (id : string) : Node :=
  mkNode id "de-fra" (endpoint (addr "192.0.2.10")) [NodeTransportWireGuard] StatusProvisioning testNow.

(** The assertions on a store in which [testNode("de-fra-1")] was registered. *)
Definition with_node (check : gmap string Node → bool) : bool := ok_and (register (testNode "de-fra-1") ∅) check.

Definition TestNodeLifecycleAllowsHealthyProvisioning : bool :=
  with_node (λ store, ok_and (transition "de-fra-1" StatusProvisioning StatusHealthy store) (λ store,
    ok_and (get_node "de-fra-1" store) (λ n, String.eqb (node_status n) StatusHealthy))).

Definition TestNodeLifecycleRejectsStaleExpectedState : bool :=
  with_node (λ store, fails_as (transition "de-fra-1" StatusHealthy StatusRestricted store) ErrStateConflict).

Definition TestQuarantinedNodeCannotReturnInPlace : bool :=
  with_node (λ store, ok_and (transition "de-fra-1" StatusProvisioning StatusQuarantined store) (λ store,
    fails_as (transition "de-fra-1" StatusQuarantined StatusHealthy store) ErrInvalidTransition)).

Definition TestHealthyNodeCanBeRestrictedAndRecovered : bool :=
  with_node (λ store, ok_and (transition "de-fra-1" StatusProvisioning StatusHealthy store) (λ store,
    ok_and (transition "de-fra-1" StatusHealthy StatusRestricted store) (λ store,
      ok_and (transition "de-fra-1" StatusRestricted StatusHealthy store) (λ _, true)))).

Definition TestRegisterAndGetNode : bool :=
  with_node (λ store, ok_and (get_node "de-fra-1" store) (λ got,
    String.eqb (node_id got) "de-fra-1" && bool_decide (node_endpoint got = node_endpoint (testNode "de-fra-1")))).

Definition TestRejectsDuplicateIdentity : bool :=
  with_node (λ store, fails_as (register (testNode "de-fra-1") store) ErrAlreadyRegistered).

Definition TestListIsStableAndDoesNotExposeMutableState : bool :=
  ok_and (register (testNode "de-fra-2") ∅) (λ store, ok_and (register (testNode "de-fra-1") store) (λ store,
    bool_decide (node_id <$> list_nodes store = ["de-fra-1"; "de-fra-2"]))).

Definition TestRejectsInvalidControlPlaneMetadata : bool := fails (register (testNode "INVALID ID") ∅).

(** The rejected node is not stored: [register] has no new store then. *)
Definition TestRejectsUnusableNodeEndpoints : bool :=
  forallb (λ a, fails (register (mkNode "node-1" "de-fra" (endpoint a) [NodeTransportWireGuard] StatusProvisioning testNow) ∅))
    (unusable "::ffff:0.0.0.0").

Definition TestRejectsDuplicateTransports : bool :=
  fails (register (mkNode "node-1" "de-fra" (endpoint (addr "192.0.2.10"))
    [NodeTransportWireGuard; NodeTransportWireGuard] StatusProvisioning testNow) ∅).

Lemma registry_tests_pass :
  forallb id [TestNodeLifecycleAllowsHealthyProvisioning; TestNodeLifecycleRejectsStaleExpectedState;
    TestQuarantinedNodeCannotReturnInPlace; TestHealthyNodeCanBeRestrictedAndRecovered; TestRegisterAndGetNode;
    TestRejectsDuplicateIdentity; TestListIsStableAndDoesNotExposeMutableState; TestRejectsInvalidControlPlaneMetadata;
    TestRejectsUnusableNodeEndpoints; TestRejectsDuplicateTransports] = true.
Proof. vm_compute. reflexivity. Qed.
End registry.

(** ** [telemetry] *)

Module telemetry.

(** The binary64 value [m * 2^e], normalized. *)
Definition float (m : positive) (e : Z) : spec_float := S754_finite false m e.
Definition half : spec_float := float (2 ^ 52) (-53).
Definition two : spec_float := float (2 ^ 52) (-51).
Definition twelve : spec_float := float (3 * 2 ^ 51) (-49).
Definition one_and_half : spec_float := float (3 * 2 ^ 51) (-52).
Definition two_and_half : spec_float := float (5 * 2 ^ 50) (-51).
(** 1.01, rounded to nearest. *)
Definition just_above_one : spec_float := float 4548635623644201 (-52).

Definition TestAcceptsLowCardinalityOperationalMetric : bool :=
  is_ok (validate_metric (mkMetric ConnectionSuccess float_one
    {["region" := "de-fra"; "transport" := "wireguard"; "outcome" := "success"]})).

Definition TestRejectsDestinationTelemetry : bool :=
  fails_as (validate_metric (mkMetric ConnectionSuccess float_one {["destination_domain" := "example.com"]})) ErrForbiddenAttribute.

Definition TestRejectsStableUserIdentifier : bool :=
  fails_as (validate_metric (mkMetric ReconnectCount float_one {["device_id" := "laptop-1"]})) ErrForbiddenAttribute.

Definition TestRejectsNonFiniteMetricValue : bool :=
  fails_as (validate_metric (mkMetric HandshakeLatencyMS (S754_infinity false) ∅)) ErrInvalidMetric.

Definition TestRejectsUnboundedAttributeValue : bool :=
  fails_as (validate_metric (mkMetric ConnectionSuccess float_one {["error_class" := zeros 65]})) ErrInvalidMetric.

Definition TestMetricSpecificValueRanges : bool :=
  forallb (λ '(name, value, valid),
      let r := validate_metric (mkMetric name value ∅) in if valid : bool then is_ok r else fails_as r ErrInvalidMetric)
    [(PacketLossRatio, float_zero, true); (PacketLossRatio, half, true); (PacketLossRatio, float_one, true);
     (PacketLossRatio, just_above_one, false); (ConnectionSuccess, float_zero, true); (ConnectionSuccess, float_one, true);
     (ConnectionSuccess, half, false); (ConnectionSuccess, two, false); (ReconnectCount, float_zero, true);
     (ReconnectCount, twelve, true); (ReconnectCount, one_and_half, false); (HandshakeLatencyMS, one_and_half, true);
     (RoundTripTimeMS, two_and_half, true)].

Lemma telemetry_tests_pass :
  forallb id [TestAcceptsLowCardinalityOperationalMetric; TestRejectsDestinationTelemetry; TestRejectsStableUserIdentifier;
    TestRejectsNonFiniteMetricValue; TestRejectsUnboundedAttributeValue; TestMetricSpecificValueRanges] = true.
Proof. vm_compute. reflexivity. Qed.
End telemetry.

(** ** [configuration] *)

Module configuration.

Definition parameters : WireGuardParameters :=
  mkParameters (of_chars (byte <$> seqZ 1 32)) [prefix "10.0.0.2" 24] [prefix "0.0.0.0" 0; prefix "::" 0] 1420 25.

Definition validConfig (now : Time) : DeviceConfig :=
  mkDeviceConfig 1 "laptop-1" "de-fra-1" TransportWireGuard (endpoint (addr "192.0.2.10")) [addr "192.0.2.53"]
    parameters (time_add now (- minute)) (time_add now hour).

(** Assignments to fields. *)
Definition set_version v c := mkDeviceConfig v (DeviceID c) (NodeID c) (ConfigTransport c) (ConfigEndpoint c) (DNS c) (Wireguard c) (IssuedAt c) (ExpiresAt c).
Definition set_device d c := mkDeviceConfig (Version c) d (NodeID c) (ConfigTransport c) (ConfigEndpoint c) (DNS c) (Wireguard c) (IssuedAt c) (ExpiresAt c).
Definition set_transport t c := mkDeviceConfig (Version c) (DeviceID c) (NodeID c) t (ConfigEndpoint c) (DNS c) (Wireguard c) (IssuedAt c) (ExpiresAt c).
Definition set_endpoint e c := mkDeviceConfig (Version c) (DeviceID c) (NodeID c) (ConfigTransport c) e (DNS c) (Wireguard c) (IssuedAt c) (ExpiresAt c).
Definition set_dns d c := mkDeviceConfig (Version c) (DeviceID c) (NodeID c) (ConfigTransport c) (ConfigEndpoint c) d (Wireguard c) (IssuedAt c) (ExpiresAt c).
Definition set_parameters p c := mkDeviceConfig (Version c) (DeviceID c) (NodeID c) (ConfigTransport c) (ConfigEndpoint c) (DNS c) p (IssuedAt c) (ExpiresAt c).
Definition set_issued t c := mkDeviceConfig (Version c) (DeviceID c) (NodeID c) (ConfigTransport c) (ConfigEndpoint c) (DNS c) (Wireguard c) t (ExpiresAt c).
Definition set_expires t c := mkDeviceConfig (Version c) (DeviceID c) (NodeID c) (ConfigTransport c) (ConfigEndpoint c) (DNS c) (Wireguard c) (IssuedAt c) t.

(** [config.Validate(testNow())] after a change, and that it is [ErrInvalid]. *)
Definition validated (change : DeviceConfig → DeviceConfig) : Result GoError unit := validate_config testNow (change (validConfig testNow)).
Definition rejected (change : DeviceConfig → DeviceConfig) : bool := fails_as (validated change) ErrInvalid.

Definition TestAcceptsBoundedWireGuardConfiguration : bool := is_ok (validated id).

Definition TestRejectsExpiredConfiguration : bool := fails_as (validated (set_expires testNow)) ErrExpired.

Definition TestRejectsExcessiveConfigurationLifetime : bool :=
  rejected (λ c, set_expires (time_add (IssuedAt c) (25 * hour)) c).

Definition TestRejectsUnknownTransport : bool := rejected (set_transport "experimental").

Definition TestRejectsUnusableEndpoints : bool :=
  forallb (λ a, rejected (set_endpoint (endpoint a))) (unusable "::ffff:224.0.0.1").

Definition TestRejectsAmbiguousDNSResolvers : bool :=
  forallb (λ l, rejected (set_dns l))
    [[addr "192.0.2.53"; addr "192.0.2.53"]; [addr "192.0.2.53"; addr "::ffff:192.0.2.53"];
     [addr_zoned "fe80::53" "eth0"]; [addr "::ffff:0.0.0.0"]] &&
  is_ok (validated (set_dns [addr "192.0.2.53"; addr "2001:db8::53"])).

(** The test reads the clock; the number of resolvers is checked at any time. *)
Definition TestRejectsUnboundedDNSResolverList : bool :=
  let config := set_dns ((λ host, addr ("192.0.2." +:+ to_dec host)) <$> seqZ 1 9) (validConfig testNow) in
  forallb (λ now, fails_as (validate_config now config) ErrInvalid) [testNow; 0; testNow + 24 * hour].

Definition TestWireGuardParametersRejectUnsafePublicSettings : bool :=
  forallb (λ mutate, rejected (λ c, set_parameters (mutate (Wireguard c)) c))
    [(λ p, mkParameters "" (TunnelAddresses p) (AllowedIPs p) (MTU p) (PersistentKeepaliveSecond p));
     (λ p, mkParameters (zeros 32) (TunnelAddresses p) (AllowedIPs p) (MTU p) (PersistentKeepaliveSecond p));
     (λ p, mkParameters (PeerPublicKey p) [] (AllowedIPs p) (MTU p) (PersistentKeepaliveSecond p));
     (λ p, mkParameters (PeerPublicKey p) [prefix "0.0.0.0" 0] (AllowedIPs p) (MTU p) (PersistentKeepaliveSecond p));
     (λ p, mkParameters (PeerPublicKey p) [prefix "10.0.0.2" 24; prefix "10.0.0.2" 32] (AllowedIPs p) (MTU p) (PersistentKeepaliveSecond p));
     (λ p, mkParameters (PeerPublicKey p) (TunnelAddresses p) (AllowedIPs p) 1279 (PersistentKeepaliveSecond p));
     (λ p, mkParameters (PeerPublicKey p) (TunnelAddresses p) (AllowedIPs p) (MTU p) 301);
     (λ p, mkParameters (PeerPublicKey p) (TunnelAddresses p) [] (MTU p) (PersistentKeepaliveSecond p));
     (λ p, mkParameters (PeerPublicKey p) (TunnelAddresses p) [prefix "10.0.0.1" 24] (MTU p) (PersistentKeepaliveSecond p));
     (λ p, mkParameters (PeerPublicKey p) (TunnelAddresses p) [prefix "10.0.0.0" 24; prefix "10.0.0.0" 24] (MTU p) (PersistentKeepaliveSecond p))].

(** A signer with the key ID, a verifier that lists its public key, and what was
    sealed from the valid configuration. *)
Definition sealed_with (keyID : string) (now : Time) (change : DeviceConfig → DeviceConfig)
    (check : SignedConfig → Verifier → bool) : bool :=
  ok_and (new_ed25519_signer keyID (private_key "p")) (λ signer,
    ok_and (new_ed25519_verifier {[keyID := public_key "p"]}) (λ verifier,
      ok_and (seal (change (validConfig now)) now (Some signer)) (λ envelope, check envelope verifier))).

Definition tampered (change : DeviceConfig → DeviceConfig) (envelope : SignedConfig) : SignedConfig :=
  mkSigned (change (Config envelope)) (KeyID envelope) (Signature envelope).

Definition TestOpenForDevice : bool :=
  forallb (λ '(device, version, accepted, at_, tamper, want),
      sealed_with "test-key" testNow (set_version version) (λ envelope verifier,
        let envelope := if tamper : bool then tampered (λ c, set_version (Version c + 1) c) envelope else envelope in
        let opened := open_for_device envelope device accepted at_ (Some verifier) in
        match want with
        | None => ok_and opened (λ c, Version c =? version)
        | Some target => fails_as opened target
        end))
    [("laptop-1", 1, 0, testNow, false, None);
     ("laptop-1", 3, 1, testNow, false, None);
     ("laptop-1", 1, 1, testNow, false, Some ErrStaleVersion);
     ("laptop-1", 1, 2, testNow, false, Some ErrStaleVersion);
     ("laptop-1", 1, 2 ^ 64 - 1, testNow, false, Some ErrStaleVersion);
     ("other", 1, 0, testNow, false, Some ErrDeviceMismatch);
     ("", 1, 0, testNow, false, Some ErrDeviceMismatch);
     ("laptop-1", 1, 0, time_add testNow hour, false, Some ErrExpired);
     ("laptop-1", 1, 1, testNow, true, Some ErrInvalidSignature)].

Definition TestSealAndVerifyConfiguration : bool :=
  sealed_with "config-key-1" testNow id (λ envelope verifier,
    ok_and (open_config envelope testNow (Some verifier)) (λ c, (Version c =? 1) && String.eqb (DeviceID c) "laptop-1")).

(** Opening fails as a forgery after a change. *)
Definition detected (now : Time) (change : DeviceConfig → DeviceConfig) : bool :=
  sealed_with "config-key-1" now id (λ envelope verifier,
    fails_as (open_config (tampered change envelope) now (Some verifier)) ErrInvalidSignature).

Definition TestRejectsTamperedConfiguration : bool := detected testNow (set_endpoint (endpoint (addr "198.51.100.20"))).

Definition TestRejectsUnknownConfigurationSigningKey : bool :=
  sealed_with "retired-key" testNow id (λ envelope _,
    ok_and (new_ed25519_verifier ∅) (λ verifier,
      fails_as (open_config envelope testNow (Some verifier)) ErrUnknownSigningKey)).

(** An instant has no time zone in the model. *)
Definition TestSignatureBindsSubsecondValidity : bool :=
  let now := testNow + 123456789 in
  sealed_with "config-key-1" now id (λ envelope verifier,
    ok_and (open_config envelope now (Some verifier)) (λ opened,
      (IssuedAt opened =? IssuedAt (Config envelope)) && (ExpiresAt opened =? ExpiresAt (Config envelope)))) &&
  detected now (λ c, set_issued (time_add (IssuedAt c) 1) c) && detected now (λ c, set_expires (time_add (ExpiresAt c) 1) c).

Definition TestSignatureBindsWireGuardConnectionParameters : bool :=
  forallb (λ mutate, detected testNow (λ c, set_parameters (mutate (Wireguard c)) c))
    [(λ p, mkParameters (of_chars (byte 0 :: tail (chars (PeerPublicKey p)))) (TunnelAddresses p) (AllowedIPs p) (MTU p) (PersistentKeepaliveSecond p));
     (λ p, mkParameters (PeerPublicKey p) [prefix "10.0.1.2" 24] (AllowedIPs p) (MTU p) (PersistentKeepaliveSecond p));
     (λ p, mkParameters (PeerPublicKey p) (TunnelAddresses p) (prefix "10.0.0.0" 8 :: tail (AllowedIPs p)) (MTU p) (PersistentKeepaliveSecond p));
     (λ p, mkParameters (PeerPublicKey p) (TunnelAddresses p) (AllowedIPs p) 1280 (PersistentKeepaliveSecond p));
     (λ p, mkParameters (PeerPublicKey p) (TunnelAddresses p) (AllowedIPs p) (MTU p) 1)].

(** *** [MemoryStore] *)

Definition testEnvelope (deviceID : string) (version : Z) : SignedConfig :=
  mkSigned (set_version version (set_device deviceID (validConfig testNow))) "config-key-1" (of_chars (byte <$> seqZ 1 3)).

Definition latest_is (version : Z) (store : gmap string SignedConfig) : bool :=
  ok_and (memory_latest "laptop-1" store) (λ e, Version (Config e) =? version).

Definition TestConfigurationStoreReturnsLatestVersion : bool :=
  ok_and (memory_publish (testEnvelope "laptop-1" 1) ∅) (λ store,
    ok_and (memory_publish (testEnvelope "laptop-1" 2) store) (latest_is 2)).

Definition TestConfigurationStoreRejectsRollback : bool :=
  ok_and (memory_publish (testEnvelope "laptop-1" 2) ∅) (λ store,
    fails_as (memory_publish (testEnvelope "laptop-1" 1) store) ErrStaleVersion).

Definition TestConfigurationStoreReportsMissingDevice : bool := fails_as (memory_latest "unknown-device" ∅) ErrConfigNotFound.

Definition TestZeroValueConfigurationStore : bool :=
  fails_as (memory_latest "laptop-1" ∅) ErrConfigNotFound &&
  ok_and (memory_publish (testEnvelope "laptop-1" 1) ∅) (λ store,
    fails_as (memory_publish (testEnvelope "laptop-1" 1) store) ErrStaleVersion && latest_is 1 store).

(** Writers in one order; a stale one leaves the store as it was. *)
Definition publish_each (versions : list Z) : Result GoError (gmap string SignedConfig) :=
  foldl (λ r version, store ← r;
    match memory_publish (testEnvelope "laptop-1" version) store with
    | Err e => if errors_is e ErrStaleVersion then Ok store else Err e
    | r => r
    end) (Ok ∅) versions.

Definition TestZeroValueStoreSerializesConcurrentVersions : bool :=
  forallb (λ order, ok_and (publish_each order) (latest_is 32))
    [seqZ 1 32; reverse (seqZ 1 32); app (seqZ 17 16) (seqZ 1 16)].

Lemma configuration_tests_pass :
  forallb id [TestAcceptsBoundedWireGuardConfiguration; TestRejectsExpiredConfiguration;
    TestRejectsExcessiveConfigurationLifetime; TestRejectsUnknownTransport; TestRejectsUnusableEndpoints;
    TestRejectsAmbiguousDNSResolvers; TestRejectsUnboundedDNSResolverList; TestWireGuardParametersRejectUnsafePublicSettings;
    TestOpenForDevice; TestSealAndVerifyConfiguration; TestRejectsTamperedConfiguration;
    TestRejectsUnknownConfigurationSigningKey; TestSignatureBindsSubsecondValidity;
    TestSignatureBindsWireGuardConnectionParameters; TestConfigurationStoreReturnsLatestVersion;
    TestConfigurationStoreRejectsRollback; TestConfigurationStoreReportsMissingDevice; TestZeroValueConfigurationStore;
    TestZeroValueStoreSerializesConcurrentVersions] = true.
Proof. vm_compute. reflexivity. Qed.
End configuration.

(** ** [identity] *)

Module identity.

Definition now : Time := 1800000000 * second.

(** What [rand.Read] returns. *)
Definition nonce (c : string) : string := String.concat "" (replicate 32 c).
Definition drawn (c : string) : Result GoError string := Ok (nonce c).

Definition signed_request (account device key challenge : string) : EnrollmentRequest :=
  let request := mkEnrollment account device (public_key key) challenge "" in
  mkEnrollment account device (public_key key) challenge (ed_sign (private_key key) (enrollment_message request)).

Definition example : EnrollmentRequest := signed_request "account-1" "laptop-1" "k" "0123456789abcdef0123456789abcdef".

Definition TestVerifyDeviceEnrollmentProof : bool :=
  ok_and (verify_enrollment example) (λ device, String.eqb (dev_device device) "laptop-1" &&
    String.eqb (dev_account device) "account-1" && negb (String.eqb (dev_key_id device) "")).

Definition TestRejectsEnrollmentIdentityTampering : bool :=
  fails_as (verify_enrollment (mkEnrollment (req_account example) "attacker-device" (req_key example)
    (req_challenge example) (req_signature example))) ErrInvalidProof.

Definition TestRejectsWeakEnrollmentChallenge : bool :=
  fails_as (verify_enrollment (mkEnrollment "account-1" "laptop-1" (public_key "k") "too-short" "")) ErrInvalidEnrollment.

(** The assertions on a fresh store, as a call on it. *)
Definition in_store (ttl capacity : Z) (test : Act EnrollmentStore GoError bool) : bool :=
  ok_and (new_enrollment_store ttl capacity) (λ store, ok_and (test store).1 id).

(** Calls whose error is inspected, and a lookup, which changes nothing. *)
Definition refused_as {A} (m : Act EnrollmentStore GoError A) (target : GoError) : Act EnrollmentStore GoError bool :=
  r ← attempt m; mret (match r with inl e => errors_is e target | inr _ => false end).
Definition lookup (account device : string) : Act EnrollmentStore GoError DeviceIdentity := λ s, (es_device account device s, s).
Definition enrollmentRequest (account device key random : string) : Act EnrollmentStore GoError EnrollmentRequest :=
  challenge ← es_issue account device now (drawn random); mret (signed_request account device key (ch_value challenge)).

Definition TestIssueEnrollmentChallenge : bool :=
  in_store minute 2 (
    first ← es_issue "account-1" "device-1" now (drawn "1");
    second_ ← es_issue "account-1" "device-1" now (drawn "2");
    full ← refused_as (es_issue "account-1" "device-1" now (drawn "3")) ErrEnrollmentCapacity;
    mret ((String.length (ch_value first) =? 32)%nat && negb (String.eqb (ch_value first) (ch_value second_)) &&
      (ch_expires first =? time_add now minute) && full)).

Definition TestRejectInvalidChallengePolicyAndIdentity : bool :=
  forallb (λ ttl, fails (new_enrollment_store ttl 1)) [0; - second; 11 * minute] && fails (new_enrollment_store minute 0) &&
  in_store minute 1 (
    a ← refused_as (es_issue "" "device" now (drawn "1")) ErrInvalidEnrollment;
    b ← refused_as (es_issue "account" "INVALID" now (drawn "1")) ErrInvalidEnrollment;
    mret (a && b)).

Definition TestConsumeBindsIdentityAndExpires : bool :=
  in_store minute 10 (
    challenge ← es_issue "account" "device" now (drawn "1");
    a ← refused_as (es_consume "other" "device" (ch_value challenge) now) ErrInvalidChallenge;
    b ← refused_as (es_consume "account" "other" (ch_value challenge) now) ErrInvalidChallenge;
    es_consume "account" "device" (ch_value challenge) now;;
    replay ← refused_as (es_consume "account" "device" (ch_value challenge) now) ErrInvalidChallenge;
    challenge ← es_issue "account" "device" now (drawn "2");
    expiry ← refused_as (es_consume "account" "device" (ch_value challenge) (ch_expires challenge)) ErrInvalidChallenge;
    unknown ← refused_as (es_consume "account" "device" "unknown" now) ErrInvalidChallenge;
    mret (a && b && replay && expiry && unknown)).

(** How many of [n] calls succeed, when all others fail in an expected way. *)
Fixpoint successes {A} (n : nat) (m : Act EnrollmentStore GoError A) (expected : GoError → bool) : Act EnrollmentStore GoError Z :=
  match n with
  | O => mret 0
  | S n =>
      r ← attempt m;
      match r with
      | inl e => if expected e then successes n m expected else raise e
      | inr _ => others ← successes n m expected; mret (others + 1)
      end
  end.

Definition TestConcurrentChallengeConsumption : bool :=
  in_store minute 1 (
    challenge ← es_issue "account" "device" now (drawn "1");
    n ← successes 20 (es_consume "account" "device" (ch_value challenge) now) (λ e, errors_is e ErrInvalidChallenge);
    mret (n =? 1)).

Definition TestEnrollVerifiesBeforeConsuming : bool :=
  in_store minute 10 (
    request ← enrollmentRequest "account" "device" "k" "1";
    bad ← refused_as (es_enroll (mkEnrollment (req_account request) (req_device request) (req_key request)
      (req_challenge request) (zeros 64)) now) ErrInvalidProof;
    device ← es_enroll request now;
    replay ← attempt (es_enroll request now);
    other ← enrollmentRequest "other-account" "device" "l" "2";
    takeover ← refused_as (es_enroll other now) ErrDeviceExists;
    mret (bad && String.eqb (dev_account device) "account" && String.eqb (dev_key device) (req_key request) &&
      (match replay with inl _ => true | inr _ => false end) && takeover)).

Definition TestConcurrentEnrollmentHasOneWinner : bool :=
  in_store minute 10 (
    request ← enrollmentRequest "account" "device" "k" "1";
    n ← successes 20 (es_enroll request now) (λ e, errors_is e ErrDeviceExists || errors_is e ErrInvalidChallenge);
    mret (n =? 1)).

Definition TestEnrollRejectsExpiredAndUnissuedChallenges : bool :=
  in_store minute 10 (
    request ← enrollmentRequest "account" "device" "k" "1";
    expired ← refused_as (es_enroll request (time_add now minute)) ErrInvalidChallenge;
    mret (in_store minute 10 (refused_as (es_enroll request now) ErrInvalidChallenge) && expired)).

Definition TestDeviceLookupIsAccountScopedAndOwnsKeys : bool :=
  in_store minute 10 (
    request ← enrollmentRequest "account" "device" "k" "1";
    es_enroll request now;;
    foreign ← refused_as (lookup "other" "device") ErrDeviceNotFound;
    missing ← refused_as (lookup "account" "missing") ErrDeviceNotFound;
    found ← lookup "account" "device";
    mret (foreign && missing && String.eqb (dev_key found) (public_key "k"))).

Definition TestExpiredChallengesReleaseCapacity : bool :=
  in_store minute 1 (
    expired ← es_issue "account" "old" now (drawn "1");
    fresh ← es_issue "account" "new" (ch_expires expired) (drawn "2");
    pruned ← refused_as (es_consume "account" "old" (ch_value expired) now) ErrInvalidChallenge;
    es_consume "account" "new" (ch_value fresh) (ch_expires expired);;
    mret pruned).

Definition TestDeviceCapacityDoesNotConsumeChallenge : bool :=
  in_store minute 1 (
    first ← enrollmentRequest "account" "first" "k" "1";
    es_enroll first now;;
    second_ ← enrollmentRequest "account" "second" "l" "2";
    full ← refused_as (es_enroll second_ now) ErrEnrollmentCapacity;
    es_consume "account" "second" (req_challenge second_) now;;
    mret full).

Lemma identity_tests_pass :
  forallb id [TestVerifyDeviceEnrollmentProof; TestRejectsEnrollmentIdentityTampering; TestRejectsWeakEnrollmentChallenge;
    TestIssueEnrollmentChallenge; TestRejectInvalidChallengePolicyAndIdentity; TestConsumeBindsIdentityAndExpires;
    TestConcurrentChallengeConsumption; TestEnrollVerifiesBeforeConsuming; TestConcurrentEnrollmentHasOneWinner;
    TestEnrollRejectsExpiredAndUnissuedChallenges; TestDeviceLookupIsAccountScopedAndOwnsKeys;
    TestExpiredChallengesReleaseCapacity; TestDeviceCapacityDoesNotConsumeChallenge] = true.
Proof. vm_compute. reflexivity. Qed.
End identity.

(** ** [api] *)

Module api.

Definition now : Time := 1800000000 * second.

(** *** Tokens *)

Definition token : string := base64_encode (zeros 32).
Definition digest : string := hex_encode (sum256 token).
Definition credential : TokenCredential := mkCredential "account" digest (time_add now hour).

(** What the request presents, and whether it authenticates as [account]. *)
Definition presents_as (presented : Credentials) (at_ : Time) (expected : option string) : bool :=
  ok_and (new_token_authenticator [credential] (Some now)) (λ auth,
    match authenticate auth presented at_, expected with
    | Ok account, Some expected => String.eqb account expected
    | Err _, None => true
    | _, _ => false
    end).

Definition TestTokenAuthentication : bool :=
  forallb (λ '(headers, cancelled, expected),
      presents_as (mkCredentials (if cancelled : bool then Some (NewError "context canceled") else None) headers) now expected)
    [(["Bearer " +:+ token], false, Some "account");
     (["bearer " +:+ token], false, Some "account");
     ([], false, None);
     (["Basic " +:+ token], false, None);
     (["Bearer " +:+ String.concat "" (replicate 43 "b")], false, None);
     (["Bearer " +:+ token; "Bearer " +:+ token], false, None);
     (["Bearer " +:+ token +:+ " extra"], false, None);
     (["Bearer " +:+ token], true, None)] &&
  ok_and (new_token_authenticator [credential] (Some now)) (λ auth,
    fails_as (authenticate auth (mkCredentials None ["Bearer " +:+ token]) (time_add now hour)) ErrUnauthenticated).

Definition TestTokenCredentialValidation : bool :=
  forallb (λ c, fails (new_token_authenticator [c] (Some now)))
    [mkCredential "INVALID" digest (time_add now hour); mkCredential "" digest (time_add now hour);
     mkCredential "account" "bad" (time_add now hour); mkCredential "account" digest now;
     mkCredential "account" digest (time_add now (25 * hour))] &&
  fails (new_token_authenticator [credential; credential] (Some now)) &&
  fails (new_token_authenticator [] (Some now)) && fails (new_token_authenticator [credential] None).

(** *** Requests and their bodies *)

(** A text with single quotes for double ones. *)
Definition js (s : string) : string :=
  of_chars ((λ c, if Ascii.eqb c "'" then byte 34 else c) <$> chars s).

(** The decoder of the bodies the tests send: those of the table are values, all
    others are not, because they have other fields, types or no JSON at all. *)
Fixpoint known_body {A} (table : list (string * A)) (s : string) : option (A * string) :=
  match table with
  | [] => None
  | (text, value) :: table =>
      if String.prefix text s then Some (value, String.substring (String.length text) (String.length s - String.length text) s)
      else known_body table s
  end.

Definition table_json {A} (table : list (string * A)) : BodyJson A := {|
  decode_value stream :=
    match known_body table (stream_bytes stream), stream_end stream with
    | Some (value, rest), end_ => (inr value, mkStream rest end_)
    | None, BodyTooLarge => (inl IsTooLarge, stream)
    | None, EndOfBody => (inl OtherError, stream)
    end;
  decode_trailing stream :=
    match stream_bytes stream, stream_end stream with
    | "", EndOfBody => Some IsEOF
    | "", BodyTooLarge => Some IsTooLarge
    | _, _ => None
    end;
|}.

#[local] Instance challenge_bodies : BodyJson ChallengeRequest := table_json
  [(js "{'device_id':'laptop'}", mkChallengeRequest "laptop"); (js "{'device_id':'INVALID'}", mkChallengeRequest "INVALID");
   (js "{'device_id':'new-device'}", mkChallengeRequest "new-device"); ("null", mkChallengeRequest ""); ("{}", mkChallengeRequest "")].

(** [json.Marshal] of the enrollment bodies, with the key and the signature of the test. *)
Definition proof_of (challenge : string) : DeviceRequest :=
  let request := identity.signed_request "account" "laptop" "k" challenge in
  mkDeviceRequest "laptop" (req_key request) challenge (req_signature request).
Definition bad_proof (challenge : string) : DeviceRequest := mkDeviceRequest "laptop" (public_key "k") challenge (zeros 64).
Definition nonce : string := identity.nonce "1".
#[local] Instance device_bodies : BodyJson DeviceRequest := table_json
  [("{proof}", proof_of nonce); ("{bad proof}", bad_proof nonce); ("{}", mkDeviceRequest "" "" "" "")].

(** [mime.ParseMediaType] on the content types of the tests. *)
#[local] Instance media_types : Mime := {|
  parse_media_type s := Ok (if String.prefix "application/json" s then "application/json" else s)
|}.

Definition at_time (t : Time) : Env := mkEnv t t (Ok nonce).

Definition request_to (m : string) (path : list string) (authorization : list string) (content body : string) : Request :=
  mkRequest m path [] (mkCredentials None authorization) content body.
Definition get_from (path : list string) : Request := request_to "GET" path [] "" "".
Definition post_to (path : list string) (body : string) : Request := request_to "POST" path [] "application/json" body.

Definition device_at (id : string) : list string := ["api"; "v1"; "devices"; id].
Definition devices_at : list string := ["api"; "v1"; "devices"].
Definition challenges_at : list string := ["api"; "v1"; "enrollment"; "challenges"].

(** [handler.ServeHTTP]: the response and the store after it. *)
Definition answers {W} (made : Result GoError (Handler W)) (request : Request) (env : Env) (w : W) (check : Response → W → bool) : bool :=
  ok_and made (λ handler, let '(r, w') := handler request env w in ok_and r (λ response, check response w')).
Definition has_header (name value : string) (response : Response) : bool := bool_decide (headers response !! name = Some value).
Definition has_status (code : Z) (response : Response) : bool := status response =? code.

Definition TestHealth : bool :=
  answers (Ok (new_handler "test")) (get_from ["healthz"]) (at_time now) tt (λ response _,
    has_status 200 response && has_header "Content-Type" "application/json" response &&
    match payload response with StatusBody s => String.eqb s "ok" | _ => false end).

Definition TestVersionedMetadata : bool :=
  answers (Ok (new_handler "0.1.0")) (get_from ["api"; "v1"; "version"]) (at_time now) tt (λ response _,
    has_status 200 response && has_header "Cache-Control" "no-store" response &&
    match payload response with VersionBody v => String.eqb v "0.1.0" | _ => false end).

Definition TestVersionEndpointRejectsPost : bool :=
  answers (Ok (new_handler "")) (request_to "POST" ["api"; "v1"; "version"] [] "" "") (at_time now) tt (λ response _, has_status 405 response).

(** *** Enrollment *)

Definition accountAuthenticator (account : string) (error : option GoError) : AccountAuthenticator := λ _ _,
  match error with Some e => Err e | None => Ok account end.

(** The store after the calls of a test; the empty store if one of them failed. *)
Definition store_after {A} (capacity : Z) (calls : Act EnrollmentStore GoError A) : EnrollmentStore :=
  match new_enrollment_store minute capacity with
  | Ok store => match calls store with (Ok _, store) => store | _ => store end
  | _ => mkEnrollmentStore ∅ 0 0 ∅
  end.
Definition registeredStore (t : Time) : EnrollmentStore :=
  store_after 10 (challenge ← es_issue "account" "device" t (Ok nonce);
    es_enroll (identity.signed_request "account" "device" "k" (ch_value challenge)) t).

Definition enrollment_handler (account : string) (error : option GoError) : Result GoError (Handler EnrollmentStore) :=
  new_enrollment_handler (Some (accountAuthenticator account error)) (Some memory_repository) true.

Definition TestAuthenticatedDeviceLookup : bool :=
  forallb (λ '(account, error, code),
      answers (enrollment_handler account error) (get_from (device_at "device")) (at_time now) (registeredStore now) (λ response _,
        has_status code response && has_header "Cache-Control" "no-store" response &&
        (negb (code =? 401) || has_header "WWW-Authenticate" "Bearer" response)))
    [("account", None, 200); ("other", None, 404); ("", None, 401); ("account", Some (NewError "secret provider error"), 401)].

Definition TestEnrollmentHandlerRequiresDependencies : bool :=
  let auth := accountAuthenticator "" None in
  fails (new_enrollment_handler None (Some memory_repository) true) &&
  fails (new_enrollment_handler (W := EnrollmentStore) (Some auth) None true) &&
  fails (new_enrollment_handler (Some auth) (Some memory_repository) false).

Definition TestEnrollmentChallengeHTTP : bool :=
  forallb (λ '(body, content, account, code),
      answers (enrollment_handler account None) (request_to "POST" challenges_at [] content body) (at_time now) (store_after 1 (mret tt))
        (λ response store, has_status code response &&
          (negb (code =? 201) ||
           match payload response with
           | ChallengeBody challenge => is_ok (es_consume "account" "laptop" (ch_value challenge) now store).1 &&
               (ch_expires challenge =? time_add now minute)
           | _ => false
           end)))
    [(js "{'device_id':'laptop'}", "application/json; charset=utf-8", "account", 201);
     (js "{'device_id':'laptop'}", "application/json", "", 401);
     (js "{'device_id':'INVALID'}", "application/json", "account", 400);
     (js "{'device_id':'laptop','account_id':'victim'}", "application/json", "account", 400);
     (js "{'device_id':'laptop'} {}", "application/json", "account", 400);
     ("{", "application/json", "account", 400);
     ("null", "application/json", "account", 400);
     (js "{'device_id':1}", "application/json", "account", 400);
     ("{}", "text/plain", "account", 415);
     (js "{'device_id':'" +:+ String.concat "" (replicate 5000 "a") +:+ js "'}", "application/json", "account", 413)].

Definition TestChallengeCapacityHTTP : bool :=
  let request := post_to challenges_at (js "{'device_id':'laptop'}") in
  answers (enrollment_handler "account" None) request (at_time now) (store_after 1 (mret tt)) (λ response store,
    has_status 201 response &&
    answers (enrollment_handler "account" None) request (at_time now) store (λ response _, has_status 503 response)).

Definition TestHTTPEnrollmentRoundTrip : bool :=
  let post account body store check := answers (enrollment_handler account None) (post_to devices_at body) (at_time now) store check in
  answers (enrollment_handler "account" None) (post_to challenges_at (js "{'device_id':'laptop'}")) (at_time now) (store_after 10 (mret tt))
    (λ issued store, has_status 201 issued &&
      match payload issued with ChallengeBody challenge => String.eqb (ch_value challenge) nonce | _ => false end &&
      post "account" "{bad proof}" store (λ response store, has_status 400 response &&
        post "other" "{proof}" store (λ response store, has_status 400 response &&
          post "account" "{proof, account_id}" store (λ response store, has_status 400 response &&
            post "account" "{proof}" store (λ registered store, has_status 201 registered &&
              match payload registered with
              | DeviceBody device key keyID => String.eqb device "laptop" && negb (String.eqb keyID "") &&
                  String.eqb key (public_key "k") &&
                  answers (enrollment_handler "account" None) (get_from (device_at "laptop")) (at_time now) store (λ found _,
                    has_status 200 found &&
                    match payload found with
                    | DeviceBody device' key' keyID' => String.eqb device device' && String.eqb key key' && String.eqb keyID keyID'
                    | _ => false
                    end)
              | _ => false
              end &&
              post "account" "{proof}" store (λ response _, has_status 409 response)))))).

Definition TestHTTPEnrollmentExpiryAndAuthentication : bool :=
  let store := store_after 10 (es_issue "account" "laptop" now (Ok nonce)) in
  let env := at_time (time_add now minute) in
  answers (enrollment_handler "" None) (post_to devices_at "{proof}") env store (λ response store, has_status 401 response &&
    answers (enrollment_handler "account" None) (post_to devices_at "{proof}") env store (λ response store,
      has_status 400 response && fails_as (es_device "account" "laptop" store) ErrDeviceNotFound)).

(** *** Delivery *)

Module delivery.

(** [configurationReader]: one answer for every device, and a count of the calls;
    the devices next to it. *)
Definition counting_reader (answer : Result GoError SignedConfig) : ConfigurationReader (EnrollmentStore * nat) :=
  mkReader _ (λ _ '(devices, calls), (answer, (devices, S calls))).
Definition beside_calls : EnrollmentRepository (EnrollmentStore * nat) :=
  mkRepository _ (λ _ _ _ _, raise (NewError "unused")) (λ _ _, raise (NewError "unused"))
    (λ account id '(devices, calls), (es_device account id devices, (devices, calls))).
Definition failedDeviceReader : EnrollmentRepository (EnrollmentStore * nat) :=
  mkRepository _ (λ _ _ _ _, raise (NewError "unused")) (λ _ _, raise (NewError "unused"))
    (λ _ _, raise (NewError "secret database detail")).

Definition now : Time := 1800000000 * second + 123456789.

Definition node_config (version : Z) (device : string) : DeviceConfig :=
  mkDeviceConfig version device "node" TransportWireGuard (endpoint (addr "192.0.2.1")) [addr "192.0.2.53"]
    (mkParameters (String.concat "" (replicate 32 (String (byte 1) ""))) [prefix "10.0.0.2" 24] [prefix "0.0.0.0" 0] 1420 25)
    (time_add now (- minute)) (time_add now hour).

Definition sealed_node (version : Z) (device : string) (check : SignedConfig → Verifier → bool) : bool :=
  ok_and (new_ed25519_signer "test-key" (private_key "p")) (λ signer,
    ok_and (new_ed25519_verifier {["test-key" := public_key "p"]}) (λ verifier,
      ok_and (seal (node_config version device) now (Some signer)) (λ envelope, check envelope verifier))).

Record Delivery := mkDelivery {
  account : string; path_device : string; config_device : string; auth_error : option GoError; store_error : option GoError;
  expired : bool; tampers : bool; unknown_key : bool; device_failure : bool; expected_status : Z; reads : nat }.

Definition tamper_node (c : DeviceConfig) : DeviceConfig :=
  mkDeviceConfig (Version c) (DeviceID c) "tampered" (ConfigTransport c) (ConfigEndpoint c) (DNS c) (Wireguard c) (IssuedAt c) (ExpiresAt c).
(** [strings.Contains]. *)
Definition contains (part text : string) : bool := match String.index 0 part text with Some _ => true | None => false end.

Definition delivers (tc : Delivery) : bool :=
  sealed_node 2 (config_device tc) (λ sealed verifier,
    let envelope := mkSigned (if tampers tc then tamper_node (Config sealed) else Config sealed)
      (if unknown_key tc then "unknown" else KeyID sealed) (Signature sealed) in
    let devices := if device_failure tc then failedDeviceReader else beside_calls in
    let answer := match store_error tc with Some e => Err e | None => Ok envelope end in
    answers (new_configuration_handler (Some (accountAuthenticator (account tc) (auth_error tc))) (Some devices)
        (Some (counting_reader answer)) (Some verifier) true)
      (get_from (app (device_at (path_device tc)) ["configuration"])) (at_time (if expired tc then time_add now hour else now)) (registeredStore now, O)
      (λ response w, has_status (expected_status tc) response && (w.2 =? reads tc)%nat &&
        has_header "Cache-Control" "no-store" response && has_header "Content-Type" "application/json" response &&
        (negb (expected_status tc =? 401) || has_header "WWW-Authenticate" "Bearer" response) &&
        match payload response with
        | EnvelopeBody delivered => (expected_status tc =? 200) &&
            ok_and (open_for_device delivered "device" 1 now (Some verifier)) (λ opened,
              (IssuedAt opened =? time_add now (- minute)) && bool_decide (ConfigEndpoint opened = endpoint (addr "192.0.2.1")) &&
              fails_as (open_for_device delivered "device" (Version opened) now (Some verifier)) ErrStaleVersion)
        | ErrorBody text => negb (expected_status tc =? 200) && negb (contains "secret" text) && negb (contains "192.0.2." text)
        | _ => false
        end)).

Definition TestConfigurationDelivery : bool :=
  forallb delivers
    [mkDelivery "account" "device" "device" None None false false false false 200 1;
     mkDelivery "other" "device" "device" None None false false false false 404 0;
     mkDelivery "account" "missing" "device" None None false false false false 404 0;
     mkDelivery "" "device" "device" None None false false false false 401 0;
     mkDelivery "account" "device" "device" (Some (NewError "secret provider detail")) None false false false false 401 0;
     mkDelivery "account" "device" "device" None (Some ErrConfigNotFound) false false false false 404 1;
     mkDelivery "account" "device" "device" None (Some (NewError "secret store detail")) false false false false 500 1;
     mkDelivery "account" "device" "device" None None false false false true 500 0;
     mkDelivery "account" "device" "device" None None true false false false 503 1;
     mkDelivery "account" "device" "device" None None false true false false 503 1;
     mkDelivery "account" "device" "device" None None false false true false 503 1;
     mkDelivery "account" "device" "other" None None false false false false 503 1].

Definition TestConfigurationHandlerRequiresDependencies : bool :=
  let auth := Some (accountAuthenticator "account" None) in
  let devices := Some beside_calls in
  let configs := Some (counting_reader (Err (NewError "unused"))) in
  ok_and (new_ed25519_verifier ∅) (λ verifier,
    fails (new_configuration_handler None devices configs (Some verifier) true) &&
    fails (new_configuration_handler auth None configs (Some verifier) true) &&
    fails (new_configuration_handler auth devices None (Some verifier) true) &&
    fails (new_configuration_handler auth devices configs None true) &&
    fails (new_configuration_handler auth devices configs (Some verifier) false)).

(** Both stores in memory. *)
Definition Stores : Type := EnrollmentStore * gmap string SignedConfig.
Definition registered_devices : EnrollmentRepository Stores :=
  mkRepository _ (λ account id t random '(devices, configs), let '(r, devices) := es_issue account id t random devices in (r, (devices, configs)))
    (λ request t '(devices, configs), let '(r, devices) := es_enroll request t devices in (r, (devices, configs)))
    (λ account id '(devices, configs), (es_device account id devices, (devices, configs))).
Definition published_configs : ConfigurationReader Stores := mkReader _ (λ id '(devices, configs), (memory_latest id configs, (devices, configs))).

(** Publishes the sealed version, fetches it and accepts it over [accepted]. *)
Definition upgrade (version accepted : Z) (configs : gmap string SignedConfig) (check : gmap string SignedConfig → SignedConfig → Verifier → bool) : bool :=
  sealed_node version "device" (λ envelope verifier,
    ok_and (memory_publish envelope configs) (λ configs,
      answers (new_configuration_handler (Some (accountAuthenticator "account" None)) (Some registered_devices)
          (Some published_configs) (Some verifier) true)
        (get_from (app (device_at "device") ["configuration"])) (at_time now) (registeredStore now, configs) (λ response _,
          has_status 200 response &&
          match payload response with
          | EnvelopeBody delivered =>
              ok_and (open_for_device delivered "device" accepted now (Some verifier)) (λ opened, Version opened =? version)
          | _ => false
          end && check configs envelope verifier))).

Definition TestStoredConfigurationHTTPUpgrade : bool :=
  upgrade 1 0 ∅ (λ configs original _, upgrade 2 1 configs (λ _ _ verifier,
    fails_as (open_for_device original "device" 2 now (Some verifier)) ErrStaleVersion)).
End delivery.

(** *** The composed handler *)

Definition token_account (auth : gmap string TokenCredential) : AccountAuthenticator := λ request t, authenticate auth (credentials request) t.

(** The requests one after the other, each with its expected status. *)
Fixpoint serves {W} (made : Result GoError (Handler W)) (l : list (string * list string * string * bool * Z)) (w : W) : bool :=
  match l with
  | [] => true
  | (m, path, body, authenticated, code) :: l =>
      answers made (request_to m path (if authenticated : bool then ["Bearer " +:+ token] else []) "application/json" body)
        (mkEnv now now (Ok (identity.nonce "2"))) w
        (λ response w, has_status code response && has_header "Cache-Control" "no-store" response && serves made l w)
  end.

Definition TestControlHandlerRoutes : bool :=
  ok_and (new_token_authenticator [credential] (Some now)) (λ auth, ok_and (new_ed25519_verifier ∅) (λ verifier,
    let deps a := mkDependencies a (Some delivery.registered_devices) (Some delivery.published_configs) (Some verifier) true in
    fails (new_control_handler "" (deps None)) &&
    serves (new_control_handler "test" (deps (Some (token_account auth))))
      [("GET", ["healthz"], "", false, 200); ("GET", ["api"; "v1"; "version"], "", false, 200);
       ("GET", device_at "device", "", false, 401); ("GET", device_at "device", "", true, 200);
       ("GET", app (device_at "device") ["configuration"], "", false, 401);
       ("GET", app (device_at "device") ["configuration"], "", true, 404);
       ("POST", challenges_at, js "{'device_id':'new-device'}", true, 201);
       ("POST", devices_at, "{}", false, 401); ("POST", devices_at, "{}", true, 400);
       ("GET", ["not-an-endpoint"], "", true, 404)] (registeredStore now, ∅))).

Lemma api_tests_pass :
  forallb id [TestTokenAuthentication; TestTokenCredentialValidation; TestHealth; TestVersionedMetadata;
    TestVersionEndpointRejectsPost; TestAuthenticatedDeviceLookup; TestEnrollmentHandlerRequiresDependencies;
    TestEnrollmentChallengeHTTP; TestChallengeCapacityHTTP; TestHTTPEnrollmentRoundTrip;
    TestHTTPEnrollmentExpiryAndAuthentication; delivery.TestConfigurationDelivery;
    delivery.TestConfigurationHandlerRequiresDependencies; delivery.TestStoredConfigurationHTTPUpgrade;
    TestControlHandlerRoutes] = true.
Proof. vm_compute. reflexivity. Qed.
End api.
